(** * external-dns providers: a shallow embedding and its properties

    The development follows the Go sources

      - provider/pdns/pdns.go                 (module [pdns])
      - provider/azure/azure_private_dns.go   (module [azure])
      - provider/coredns/coredns.go           (module [coredns])
      - source/ingress.go                     (module [source])

    Go values are modelled as the code has them: strings as [string],
    [int64]/[int32] as [Z] with the conversion's wrap-around written out,
    slices as lists, maps as [gmap], pointers as indices into an explicit
    heap where the code relies on sharing, interfaces as records of
    functions over an abstract backend state. *)

From Stdlib Require Import ZArith String Ascii List Bool Lia Sorted Permutation.
From Stdlib Require Import DecimalString.
From Stdlib Require OrderedTypeEx.
From stdpp Require Import base option list gmap strings sorting.

Open Scope string_scope.
Open Scope Z_scope.

(** ** Go's [strings] package and slices *)

Module strings.

(** [strings.HasSuffix]: [len(s) >= len(suffix) && s[len(s)-len(suffix):] == suffix]. *)
Definition HasSuffix (s suffix : string) : bool :=
  let n := String.length s in
  let m := String.length suffix in
  (m <=? n)%nat && String.eqb (substring (n - m) m s) suffix.

(** [strings.HasPrefix]. *)
Definition HasPrefix (s pre : string) : bool := String.prefix pre s.

(** [strings.TrimPrefix]: [s] without the leading [pre], or [s] itself. *)
Definition TrimPrefix (s pre : string) : string :=
  if HasPrefix s pre
  then substring (String.length pre) (String.length s - String.length pre) s
  else s.

(** [strings.TrimSuffix]. *)
Definition TrimSuffix (s suffix : string) : string :=
  if HasSuffix s suffix
  then substring 0 (String.length s - String.length suffix) s
  else s.

(** [strings.Split] for a one-byte separator: cuts at every separator and
    keeps empty pieces, so the result is never empty. *)
Fixpoint Split_go (sep : ascii) (cur : string) (s : string) : list string :=
  match s with
  | EmptyString => [cur]
  | String c rest =>
      if Ascii.eqb c sep
      then cur :: Split_go sep EmptyString rest
      else Split_go sep (cur ++ String c EmptyString) rest
  end.

Definition Split (s : string) (sep : ascii) : list string :=
  Split_go sep EmptyString s.

(** [strings.Join]. *)
Fixpoint Join (elems : list string) (sep : string) : string :=
  match elems with
  | [] => ""
  | [x] => x
  | x :: rest => x ++ sep ++ Join rest sep
  end.

(** [strings.Count] for a one-byte pattern. *)
Fixpoint Count (s : string) (c : ascii) : nat :=
  match s with
  | EmptyString => 0%nat
  | String d rest => ((if Ascii.eqb d c then 1 else 0) + Count rest c)%nat
  end.

End strings.

Module sort.

Section Stable.
Context {A : Type} (less : A -> A -> bool).

(** Insertion that walks past every element strictly less than [x] and
    stops at the first one that is not: [x] lands before its equals. *)
Fixpoint insert (x : A) (l : list A) : list A :=
  match l with
  | [] => [x]
  | y :: l' => if less y x then y :: insert x l' else x :: y :: l'
  end.

(** [sort.SliceStable]: the result of any stable sort is the one of the
    insertion sort that inserts from the right end, each element before
    its equals that followed it in the input. *)
Fixpoint SliceStable (l : list A) : list A :=
  match l with
  | [] => []
  | x :: l' => insert x (SliceStable l')
  end.

End Stable.

End sort.

(** ** Errors

    Go's [error] values.  [errors.New] and [fmt.Errorf] build plain errors;
    a [%v] operand that is itself an error is kept as [cause]. *)

Inductive error : Type :=
| errorsNew (msg : string)
| fmtErrorf (format : string) (cause : error)
| softError (err : error).

Module provider.

(** Modelled from the spec: provider.NewSoftError (package provider is not
    part of the sources at hand).  A soft error is "a transient failure that
    should not halt the overall control loop", surfaced distinctly from
    permanent errors: it is the given error marked as soft. *)
Definition NewSoftError (err : error) : error := softError err.

(** Modelled from the spec: provider.NewSoftErrorf, the soft error of the
    formatted message. *)
Definition NewSoftErrorf (format : string) (cause : option error) : error :=
  match cause with
  | Some e => NewSoftError (fmtErrorf format e)
  | None => NewSoftError (errorsNew format)
  end.

(** What the orchestrating loop tests to tell a soft error from a
    permanent one. *)
Definition IsSoftError (e : error) : bool :=
  match e with
  | softError _ => true
  | _ => false
  end.

End provider.

(** ** The endpoint model (package endpoint) *)

Module endpoint.

Definition RecordTypeA : string := "A".
Definition RecordTypeAAAA : string := "AAAA".
Definition RecordTypeCNAME : string := "CNAME".
Definition RecordTypeTXT : string := "TXT".
Definition RecordTypeMX : string := "MX".

(** Modelled from the spec: the Endpoint of the data model ("DNSName,
    RecordType, Targets, RecordTTL, Labels, SetIdentifier"); the struct
    declaration is not part of the sources at hand.  [L] is the
    representation of the [Labels] field: the map itself where a provider
    neither mutates nor shares it, a reference into a store of maps where it
    does (Go maps are references). [RecordTTL] is Go's [int64]. *)
Record Endpoint (L : Type) : Type := mkEndpoint {
  DNSName : string;
  Targets : list string;
  RecordType : string;
  SetIdentifier : string;
  RecordTTL : Z;
  Labels : L
}.

Arguments mkEndpoint {L}.
Arguments DNSName {L}.
Arguments Targets {L}.
Arguments RecordType {L}.
Arguments SetIdentifier {L}.
Arguments RecordTTL {L}.
Arguments Labels {L}.

(** Modelled from the spec: endpoint.NewEndpointWithTTL builds the endpoint
    with the given name, type, TTL and targets; its labels are supplied by
    the caller of this model (a fresh, empty map). *)
Definition NewEndpointWithTTL {L} (labels : L) (dnsName recordType : string)
    (ttl : Z) (targets : list string) : Endpoint L :=
  mkEndpoint dnsName targets recordType "" ttl labels.

(** Modelled from the spec: endpoint.NewEndpoint, without a TTL ("unset"). *)
Definition NewEndpoint {L} (labels : L) (dnsName recordType : string)
    (targets : list string) : Endpoint L :=
  NewEndpointWithTTL labels dnsName recordType 0 targets.

End endpoint.

(** ** The change set (package plan) *)

Module plan.

(** Modelled from the spec: "Changes: {Create: set of Endpoint, Delete: set
    of Endpoint, Update: set of (Old, New) Endpoint pairs}"; the struct and
    its accessors are not part of the sources at hand.  [E] is what a slice
    element is: an endpoint, or a pointer to one. *)
Record Changes (E : Type) : Type := mkChanges {
  Create : list E;
  Update : list (E * E);
  Delete : list E
}.

Arguments mkChanges {E}.
Arguments Create {E}.
Arguments Update {E}.
Arguments Delete {E}.

Definition UpdateOld {E} (c : Changes E) : list E := map fst (Update c).
Definition UpdateNew {E} (c : Changes E) : list E := map snd (Update c).

End plan.

(** ** provider/pdns/pdns.go *)

Module pdns.

Import endpoint.

(** PowerDNS neither mutates nor shares label maps: they are carried by value. *)
Abbreviation Endpoint := (endpoint.Endpoint (gmap string string)).

Definition pdnsChangeType : Type := string.

Definition apiBase : string := "/api/v1".
Definition defaultTTL : Z := 300.
Definition PdnsDelete : pdnsChangeType := "DELETE".
Definition PdnsReplace : pdnsChangeType := "REPLACE".
(** Number of times to retry failed PDNS requests *)
Definition retryLimit : nat := 3.
(** time in milliseconds *)
Definition retryAfterTime : Z := 250.

Definition MaxInt32 : Z := 2147483647.

(** Go's conversion [int32(x)] of an [int64]: the low 32 bits, signed. *)
Definition int32 (x : Z) : Z := (x + 2 ^ 31) mod 2 ^ 32 - 2 ^ 31.

(** The structs of the pdns-go client library that the provider fills in. *)
Record Record_ : Type := mkRecord {
  Record_Content : string;
  Record_Disabled : bool
}.

Record RrSet : Type := mkRrSet {
  RrSet_Name : string;
  RrSet_Type_ : string;
  RrSet_Ttl : Z;
  RrSet_Changetype : string;
  RrSet_Records : list Record_
}.

Record Zone : Type := mkZone {
  Zone_Id : string;
  Zone_Name : string;
  Zone_Rrsets : list RrSet
}.

Definition set_Ttl (ttl : Z) (rr : RrSet) : RrSet :=
  mkRrSet (RrSet_Name rr) (RrSet_Type_ rr) ttl (RrSet_Changetype rr) (RrSet_Records rr).

Definition set_Rrsets (rrsets : list RrSet) (z : Zone) : Zone :=
  mkZone (Zone_Id z) (Zone_Name z) rrsets.

(** TLSConfig is comprised of the TLS-related fields necessary to create a
    new PDNSProvider *)
Record TLSConfig : Type := mkTLSConfig {
  SkipTLSVerify : bool;
  CAFilePath : string;
  ClientCertFilePath : string;
  ClientCertKeyFilePath : string
}.

(** PDNSConfig is comprised of the fields necessary to create a new PDNSProvider *)
Record PDNSConfig : Type := mkPDNSConfig {
  DryRun : bool;
  Server : string;
  ServerID : string;
  APIKey : string;
  TLSConfig_ : TLSConfig
}.

(** PDNSAPIProvider: the interface implemented by PDNSAPIClient and by the
    mock clients of the tests.  [B] is the state of whatever is behind it;
    Go's [(value, response, error)] results keep the value and the error. *)
Record PDNSAPIProvider (B : Type) : Type := mkPDNSAPIProvider {
  ListZones : B -> (list Zone * option error) * B;
  PartitionZones : list Zone -> list Zone * list Zone;
  ListZone : string -> B -> (Zone * option error) * B;
  PatchZone : string -> Zone -> B -> option error * B
}.

Arguments ListZones {B}.
Arguments PartitionZones {B}.
Arguments ListZone {B}.
Arguments PatchZone {B}.

(** *** PDNSAPIClient *)

(** What the client acts on: the server behind the generated API client,
    and the time spent in [time.Sleep] (milliseconds, oldest first). *)
Record World (A : Type) : Type := mkWorld {
  remote : A;
  slept : list Z
}.

Arguments mkWorld {A}.
Arguments remote {A}.
Arguments slept {A}.

Definition Sleep {A} (d : Z) (w : World A) : World A :=
  mkWorld (remote w) (slept w ++ [d]).

(** PDNSAPIClient: the fields the methods read. *)
Record PDNSAPIClient : Type := mkPDNSAPIClient {
  dryRun : bool;
  serverID : string;
  apiKey : string;
  basePath : string
}.

Section APIClient.

(** The generated client [c.client.ZonesApi] and the domain filter are
    external to this file. *)
Context {A : Type}.
Variable ZonesApi_ListZones : A -> (list Zone * option error) * A.
Variable ZonesApi_ListZone : string -> A -> (Zone * option error) * A.
Variable ZonesApi_PatchZone : string -> Zone -> A -> option error * A.
Variable domainFilter_IsConfigured : bool.
Variable domainFilter_Match : string -> bool.

(** The loop of [ListZones]: [n] iterations are left, [i] is the loop
    variable, [zones] and [err] the variables declared before the loop. *)
Fixpoint ListZones_loop (n i : nat) (zones : list Zone) (err : option error)
    (w : World A) : (list Zone * option error) * World A :=
  match n with
  | O => ((zones, Some (provider.NewSoftErrorf "unable to list zones: %v" err)), w)
  | S n' =>
      let '((zones', err'), a') := ZonesApi_ListZones (remote w) in
      let w' := mkWorld a' (slept w) in
      match err' with
      | Some _ =>
          ListZones_loop n' (S i) zones' err' (Sleep (retryAfterTime * 2 ^ Z.of_nat i) w')
      | None => ((zones', None), w')
      end
  end.

(** ListZones : Method returns all enabled zones from PowerDNS *)
Definition APIClient_ListZones (w : World A) : (list Zone * option error) * World A :=
  ListZones_loop retryLimit 0 [] None w.

(** PartitionZones : Method returns a slice of zones that adhere to the
    domain filter and a slice of ones that does not adhere to the filter *)
Definition APIClient_PartitionZones (zones : list Zone) : list Zone * list Zone :=
  if domainFilter_IsConfigured
  then (List.filter (fun z => domainFilter_Match (Zone_Name z)) zones,
        List.filter (fun z => negb (domainFilter_Match (Zone_Name z))) zones)
  else (zones, []).

Fixpoint ListZone_loop (n i : nat) (zoneID : string) (w : World A)
    : (Zone * option error) * World A :=
  match n with
  | O => ((mkZone "" "" [], Some (provider.NewSoftErrorf "unable to list zone" None)), w)
  | S n' =>
      let '((zone, err), a') := ZonesApi_ListZone zoneID (remote w) in
      let w' := mkWorld a' (slept w) in
      match err with
      | Some _ => ListZone_loop n' (S i) zoneID (Sleep (retryAfterTime * 2 ^ Z.of_nat i) w')
      | None => ((zone, None), w')
      end
  end.

(** ListZone : Method returns the details of a specific zone from PowerDNS *)
Definition APIClient_ListZone (zoneID : string) (w : World A) :=
  ListZone_loop retryLimit 0 zoneID w.

Fixpoint PatchZone_loop (n i : nat) (zoneID : string) (zoneStruct : Zone)
    (err : option error) (w : World A) : option error * World A :=
  match n with
  | O => (Some (provider.NewSoftErrorf "unable to patch zone: %v" err), w)
  | S n' =>
      let '(err', a') := ZonesApi_PatchZone zoneID zoneStruct (remote w) in
      let w' := mkWorld a' (slept w) in
      match err' with
      | Some _ =>
          PatchZone_loop n' (S i) zoneID zoneStruct err'
            (Sleep (retryAfterTime * 2 ^ Z.of_nat i) w')
      | None => (None, w')
      end
  end.

(** PatchZone : Method used to update the contents of a particular zone from PowerDNS *)
Definition APIClient_PatchZone (zoneID : string) (zoneStruct : Zone) (w : World A) :=
  PatchZone_loop retryLimit 0 zoneID zoneStruct None w.

(** PDNSAPIClient implements PDNSAPIProvider. *)
Definition APIClient : PDNSAPIProvider (World A) :=
  mkPDNSAPIProvider (World A) APIClient_ListZones APIClient_PartitionZones
    APIClient_ListZone APIClient_PatchZone.

End APIClient.

(** *** NewPDNSProvider *)

Section Constructor.

(** [tlsutils.NewTLSConfig], reached through [setHTTPClient]: only its
    error matters here. *)
Variable NewTLSConfig : TLSConfig -> option error.

Definition setHTTPClient (tlsConfig : TLSConfig) : option error :=
  NewTLSConfig tlsConfig.

(** NewPDNSProvider initializes a new PowerDNS based Provider.  Go's
    [(nil, err)] is [inl err], [(provider, nil)] is [inr provider]. *)
Definition NewPDNSProvider (config : PDNSConfig) : error + PDNSAPIClient :=
  if String.eqb (APIKey config) "" then
    inl (errorsNew "missing API Key for PDNS. Specify using --pdns-api-key=")
  else if DryRun config then
    inl (errorsNew "PDNS Provider does not currently support dry-run")
  else
    match setHTTPClient (TLSConfig_ config) with
    | Some err => inl err
    | None =>
        inr (mkPDNSAPIClient (DryRun config) (ServerID config) (APIKey config)
               (Server config ++ apiBase))
    end.

End Constructor.

(** *** PDNSProvider *)

Section Provider.

(** [provider.EnsureTrailingDot] is declared in package provider. *)
Variable EnsureTrailingDot : string -> string.

Context {B : Type}.
Variable client : PDNSAPIProvider B.

(** Allocation of the fresh label map of a new endpoint. *)
Definition NewLabels : gmap string string := ∅.

(** The targets of the enabled records of an rrset. *)
Fixpoint visibleTargets (records : list Record_) : list string :=
  match records with
  | [] => []
  | record :: rest =>
      if negb (Record_Disabled record)
      then Record_Content record :: visibleTargets rest
      else visibleTargets rest
  end.

Definition convertRRSetToEndpoints (rr : RrSet) : list Endpoint * option error :=
  let targets := visibleTargets (RrSet_Records rr) in
  let rrType_ := if String.eqb (RrSet_Type_ rr) "ALIAS" then "CNAME" else RrSet_Type_ rr in
  ([NewEndpointWithTTL NewLabels (RrSet_Name rr) rrType_ (RrSet_Ttl rr) targets], None).

(** The comparison passed to [sort.SliceStable] for the endpoints. *)
Definition endpointLess (a b : Endpoint) : bool :=
  if String.eqb (DNSName a) (DNSName b)
  then String.ltb (RecordType a) (RecordType b)
  else String.ltb (DNSName a) (DNSName b).

(** The comparison passed to [sort.SliceStable] for the zones. *)
Definition zoneLonger (a b : Zone) : bool :=
  (String.length (Zone_Name b) <? String.length (Zone_Name a))%nat.

(** [dnsname == zone.Name || strings.HasSuffix(dnsname, "."+zone.Name)] *)
Definition matchesZone (dnsname : string) (zone : Zone) : bool :=
  String.eqb dnsname (Zone_Name zone)
  || strings.HasSuffix dnsname ("." ++ Zone_Name zone).

Definition needsTrailingDot (recordType : string) : bool :=
  String.eqb recordType "CNAME" || String.eqb recordType "ALIAS"
  || String.eqb recordType "MX" || String.eqb recordType "SRV".

Definition recordsOf (ep : Endpoint) : list Record_ :=
  map (fun t =>
         mkRecord (if needsTrailingDot (RecordType ep) then EnsureTrailingDot t else t)
                  false)
      (Targets ep).

(** The body of the loop over the endpoints for an endpoint that matched
    [zone]: the rrset appended to [zone.Rrsets], or the error returned. *)
Definition rrsetFor (zone : Zone) (ep : Endpoint) (changetype : pdnsChangeType)
    : error + RrSet :=
  let dnsname := EnsureTrailingDot (DNSName ep) in
  let records := recordsOf ep in
  let RecordType_ :=
    if String.eqb dnsname (Zone_Name zone) && String.eqb (RecordType ep) "CNAME"
    then "ALIAS" else RecordType ep in
  let rrset := mkRrSet dnsname RecordType_ 0 changetype records in
  (* DELETEs explicitly forbid a TTL, therefore only PATCHes need the TTL *)
  if String.eqb changetype PdnsReplace then
    if MaxInt32 <? RecordTTL ep then
      inl (provider.NewSoftError
             (errorsNew "value of record TTL overflows, limited to int32"))
    else if RecordTTL ep =? 0 then
      (* No TTL was specified for the record, we use the default *)
      inr (set_Ttl (int32 defaultTTL) rrset)
    else
      inr (set_Ttl (int32 (RecordTTL ep)) rrset)
  else inr rrset.

(** [for i := 0; i < len(endpoints); { ... }] over one filtered zone.
    [kept] is [endpoints[0:i]], [todo] is [endpoints[i:]], [rrsets] is
    [zone.Rrsets]; a matched endpoint is popped, [i] stays. *)
Fixpoint popMatching (zone : Zone) (changetype : pdnsChangeType)
    (rrsets : list RrSet) (kept todo : list Endpoint)
    : error + (list RrSet * list Endpoint) :=
  match todo with
  | [] => inr (rrsets, kept)
  | ep :: rest =>
      if matchesZone (EnsureTrailingDot (DNSName ep)) zone then
        match rrsetFor zone ep changetype with
        | inl err => inl err
        | inr rrset => popMatching zone changetype (rrsets ++ [rrset]) kept rest
        end
      else popMatching zone changetype rrsets (kept ++ [ep]) rest
  end.

(** [for _, zone := range filteredZones { ... }] *)
Fixpoint filteredLoop (changetype : pdnsChangeType) (zoneList : list Zone)
    (endpoints : list Endpoint) (filteredZones : list Zone)
    : error + (list Zone * list Endpoint) :=
  match filteredZones with
  | [] => inr (zoneList, endpoints)
  | zone :: zones =>
      match popMatching zone changetype [] [] endpoints with
      | inl err => inl err
      | inr (rrsets, endpoints') =>
          let zone' := set_Rrsets rrsets zone in
          filteredLoop changetype
            (if (0 <? length rrsets)%nat then zoneList ++ [zone'] else zoneList)
            endpoints' zones
      end
  end.

(** The loop over one residual zone: matched endpoints are popped. *)
Fixpoint popResidual (zone : Zone) (kept todo : list Endpoint) : list Endpoint :=
  match todo with
  | [] => kept
  | ep :: rest =>
      if matchesZone (EnsureTrailingDot (DNSName ep)) zone
      then popResidual zone kept rest
      else popResidual zone (kept ++ [ep]) rest
  end.

(** [for _, zone := range residualZones { ... }] *)
Fixpoint residualLoop (endpoints : list Endpoint) (residualZones : list Zone)
    : list Endpoint :=
  match residualZones with
  | [] => endpoints
  | zone :: zones => residualLoop (popResidual zone [] endpoints) zones
  end.

(** What ConvertEndpointsToZones hands back: Go's [(zoneList, err)], and the
    endpoints named in the warning "No matching zones were found for the
    following endpoints" (none when nothing is logged). *)
Record Converted : Type := mkConverted {
  result : error + list Zone;
  warned : list Endpoint
}.

(** The part of ConvertEndpointsToZones after the zones are listed. *)
Definition convertWithZones (eps : list Endpoint) (changetype : pdnsChangeType)
    (zones : list Zone) : Converted :=
  (* Sort the endpoints array so we have deterministic inserts *)
  let endpoints := sort.SliceStable endpointLess eps in
  let '(filteredZones, residualZones) := PartitionZones client zones in
  (* Sort the zone by length of the name in descending order *)
  let filteredZones := sort.SliceStable zoneLonger filteredZones in
  match filteredLoop changetype [] endpoints filteredZones with
  | inl err => mkConverted (inl err) []
  | inr (zoneList, endpoints') =>
      mkConverted (inr zoneList) (residualLoop endpoints' residualZones)
  end.

(** ConvertEndpointsToZones marshals endpoints into pdns compatible Zone structs *)
Definition ConvertEndpointsToZones (eps : list Endpoint) (changetype : pdnsChangeType)
    (b : B) : Converted * B :=
  let '((zones, err), b') := ListZones client b in
  match err with
  | Some e => (mkConverted (inl e) [], b')
  | None => (convertWithZones eps changetype zones, b')
  end.

(** [for _, zone := range zonelist { ... PatchZone ... }] *)
Fixpoint patchZones (zonelist : list Zone) (b : B) : option error * B :=
  match zonelist with
  | [] => (None, b)
  | zone :: rest =>
      match PatchZone client (Zone_Id zone) zone b with
      | (Some err, b') => (Some err, b')
      | (None, b') => patchZones rest b'
      end
  end.

(** mutateRecords takes a list of endpoints and creates, replaces or deletes
    them based on the changetype *)
Definition mutateRecords (endpoints : list Endpoint) (changetype : pdnsChangeType)
    (b : B) : option error * B :=
  let '(conv, b') := ConvertEndpointsToZones endpoints changetype b in
  match result conv with
  | inl err => (Some err, b')
  | inr zonelist => patchZones zonelist b'
  end.

(** ApplyChanges takes a list of changes (endpoints) and updates the PDNS
    server by sending the correct HTTP PATCH requests to a matching zone *)
Definition ApplyChanges (changes : plan.Changes Endpoint) (b : B) : option error * B :=
  (* Create *)
  let '(err1, b1) :=
    if (0 <? length (plan.Create changes))%nat
    then mutateRecords (plan.Create changes) PdnsReplace b
    else (None, b) in
  match err1 with
  | Some err => (Some err, b1)
  | None =>
      (* Update *)
      let updateNew := plan.UpdateNew changes in
      let '(err2, b2) :=
        if (0 <? length updateNew)%nat
        then mutateRecords updateNew PdnsReplace b1
        else (None, b1) in
      match err2 with
      | Some err => (Some err, b2)
      | None =>
          (* Delete *)
          if (0 <? length (plan.Delete changes))%nat
          then mutateRecords (plan.Delete changes) PdnsDelete b2
          else (None, b2)
      end
  end.

End Provider.

(** *** Records and AdjustEndpoints *)

Section Reading.

Context {B : Type}.
Variable client : PDNSAPIProvider B.

(** [Endpoint.CheckEndpoint] is declared in package endpoint. *)
Variable CheckEndpoint : Endpoint -> bool.

(** [for _, rr := range z.Rrsets { ... }] in [Records]. *)
Fixpoint Records_rrsets (rrsets : list RrSet) (endpoints : list Endpoint)
    : error + list Endpoint :=
  match rrsets with
  | [] => inr endpoints
  | rr :: rest =>
      match convertRRSetToEndpoints rr with
      | (_, Some err) => inl err
      | (e, None) => Records_rrsets rest (endpoints ++ e)
      end
  end.

(** [for _, zone := range filteredZones { ... }] in [Records]. *)
Fixpoint Records_zones (filteredZones : list Zone) (endpoints : list Endpoint) (b : B)
    : (error + list Endpoint) * B :=
  match filteredZones with
  | [] => (inr endpoints, b)
  | zone :: rest =>
      let '((z, err), b') := ListZone client (Zone_Id zone) b in
      match err with
      | Some e =>
          (inl (provider.NewSoftErrorf "unable to fetch records: %v" (Some e)), b')
      | None =>
          match Records_rrsets (Zone_Rrsets z) endpoints with
          | inl err => (inl err, b')
          | inr endpoints' => Records_zones rest endpoints' b'
          end
      end
  end.

(** Records returns all DNS records controlled by the configured PDNS server
    (for all zones) *)
Definition Records (b : B) : (error + list Endpoint) * B :=
  let '((zones, err), b') := ListZones client b in
  match err with
  | Some e => (inl e, b')
  | None =>
      let '(filteredZones, _) := PartitionZones client zones in
      Records_zones filteredZones [] b'
  end.

(** [for i := 0; i < len(endpoints); i++ { ... }] in [AdjustEndpoints]. *)
Fixpoint AdjustEndpoints_loop (endpoints validEndpoints : list Endpoint) : list Endpoint :=
  match endpoints with
  | [] => validEndpoints
  | ep :: rest =>
      if negb (CheckEndpoint ep) then AdjustEndpoints_loop rest validEndpoints
      else AdjustEndpoints_loop rest (validEndpoints ++ [ep])
  end.

(** AdjustEndpoints performs checks on the provided endpoints and will skip
    any potentially failing changes. *)
Definition AdjustEndpoints (endpoints : list Endpoint) : list Endpoint * option error :=
  (AdjustEndpoints_loop endpoints [], None).

End Reading.

End pdns.

(** ** Panics and state

    A Go call either returns or panics (nil dereference, index out of
    range, assignment to an entry of a nil map).  [M S A] is a computation
    over the state [S]; the state reached when it panics is kept, since the
    calls made before the panic are not undone. *)

Module go.

Inductive outcome (A : Type) : Type :=
| returns (a : A)
| panics.

Arguments returns {A}.
Arguments panics {A}.

Definition M (S A : Type) : Type := S -> outcome A * S.

Definition ret {S A} (a : A) : M S A := fun s => (returns a, s).

Definition panic {S A} : M S A := fun s => (panics, s).

Definition bind {S A A'} (m : M S A) (k : A -> M S A') : M S A' :=
  fun s =>
    match m s with
    | (returns a, s') => k a s'
    | (panics, s') => (panics, s')
    end.

Definition get {S} : M S S := fun s => (returns s, s).

Definition put {S} (s : S) : M S unit := fun _ => (returns tt, s).

(** [for _, x := range l { body }] for a body without [return]. *)
Fixpoint forEach {S X} (body : X -> M S unit) (l : list X) : M S unit :=
  match l with
  | [] => ret tt
  | x :: rest => bind (body x) (fun _ => forEach body rest)
  end.

(** [for _, x := range l { if err := body; err != nil { return err } }] *)
Fixpoint forEachErr {S X} (body : X -> M S (option error)) (l : list X)
    : M S (option error) :=
  match l with
  | [] => ret None
  | x :: rest =>
      bind (body x) (fun err =>
        match err with
        | Some e => ret (Some e)
        | None => forEachErr body rest
        end)
  end.

End go.

Notation "x <- m ;; k" := (go.bind m (fun x => k))
  (at level 100, m at next level, right associativity).
Notation "m ;;; k" := (go.bind m (fun _ => k))
  (at level 100, right associativity).

(** ** provider/azure/azure_private_dns.go *)

Module azure.

Import endpoint go.

(** Azure neither mutates nor shares label maps: they are carried by value. *)
Abbreviation Endpoint := (endpoint.Endpoint (gmap string string)).

(** The structs of the Azure SDK that the provider reads and fills in.
    A pointer field is an [option]; the elements of a slice of pointers are
    taken to be non-nil. *)
Record PrivateZone : Type := mkPrivateZone {
  PrivateZone_ID : option string;
  PrivateZone_Name : option string
}.

Record ARecord : Type := mkARecord { IPv4Address : option string }.
Record AaaaRecord : Type := mkAaaaRecord { IPv6Address : option string }.
Record CnameRecord : Type := mkCnameRecord { Cname : option string }.
Record MxRecord : Type := mkMxRecord {
  Preference : option Z;
  Exchange : option string
}.
Record TxtRecord : Type := mkTxtRecord { Value : list (option string) }.

Record RecordSetProperties : Type := mkRecordSetProperties {
  TTL : option Z;
  ARecords : list ARecord;
  AaaaRecords : list AaaaRecord;
  CnameRecord_ : option CnameRecord;
  MxRecords : list MxRecord;
  TxtRecords : list TxtRecord
}.

Record RecordSet : Type := mkRecordSet {
  RecordSet_Name : option string;
  RecordSet_Type : option string;
  RecordSet_Properties : option RecordSetProperties
}.

Definition emptyRecordSet : RecordSet := mkRecordSet None None None.

Definition propertiesWithTTL (ttl : Z) : RecordSetProperties :=
  mkRecordSetProperties (Some ttl) [] [] None [] [].

(** PrivateRecordSetsClient is an interface of privatedns.RecordSetsClient
    that can be stubbed for testing.  [B] is the state behind it; a pager
    is the sequence of the results of its [NextPage] calls. *)
Record PrivateRecordSetsClient (B : Type) : Type := mkPrivateRecordSetsClient {
  NewListPager : string -> string -> B -> list (error + list RecordSet);
  Delete : string -> string -> string -> string -> B -> option error * B;
  CreateOrUpdate : string -> string -> string -> string -> RecordSet -> B -> option error * B
}.

Arguments NewListPager {B}.
Arguments Delete {B}.
Arguments CreateOrUpdate {B}.

(** Modelled from the spec: the zones cache of package azure ("cache entry
    holds a timestamp and is considered expired when now - timestamp >=
    duration"; "Get() returns the value, Expired() compares elapsed time to
    duration, Reset(value) overwrites both value and timestamp"); its
    declaration is not part of the sources at hand. *)
Record zonesCache : Type := mkZonesCache {
  age : Z;
  duration : Z;
  zones_ : list PrivateZone
}.

Definition zonesCache_Expired (now : Z) (c : zonesCache) : bool :=
  duration c <=? now - age c.

Definition zonesCache_Get (c : zonesCache) : list PrivateZone := zones_ c.

Definition zonesCache_Reset (now : Z) (zones : list PrivateZone) (c : zonesCache)
    : zonesCache :=
  mkZonesCache now (duration c) zones.

(** Modelled from the spec: provider.ZoneIDName.FindZone, "among all known
    zones whose Name is a suffix-match for name, select the one with the
    longest Name"; "if no zone matches, returns not found" (the empty id).
    The theorems below hold for any such function; this one serves the
    examples. *)
Definition suffixMatch (name zoneName : string) : bool :=
  String.eqb name zoneName || strings.HasSuffix name ("." ++ zoneName).

Definition longestZone (zones : gmap string string) (hostname : string)
    : string * string :=
  fold_right
    (fun '(zoneID, zoneName) best =>
       if suffixMatch hostname zoneName
          && (String.eqb (snd best) "" || (String.length (snd best) <? String.length zoneName)%nat)
       then (zoneID, zoneName) else best)
    ("", "") (map_to_list zones).

(** The state the provider works on: its zones cache and the backend
    behind the record-sets client. *)
Record State (B : Type) : Type := mkState {
  cache : zonesCache;
  backend : B
}.

Arguments mkState {B}.
Arguments cache {B}.
Arguments backend {B}.

Section Provider.

Context {B : Type}.

(** Declared elsewhere: the domain filters, the zone finder, the MX parser
    and the default TTL of package azure, and the order in which Go ranges
    over a map. *)
Variable domainFilter_Match : string -> bool.
Variable zoneNameFilter_Match : string -> bool.
Variable zoneNameFilter_Filters : list string.
Variable zoneIDFilter_Match : string -> bool.
Variable FindZone : gmap string string -> string -> string * string.
Variable formatAzureDNSName : string -> string -> string.
Variable parseMxTarget : string -> error + MxRecord.
Variable defaultTTL : Z.
Variable TTL_IsConfigured : Z -> bool.
Variable rangeMap : gmap string (list Endpoint) -> list (string * list Endpoint).

(** The fields of AzurePrivateDNSProvider that the methods read. *)
Variable dryRun : bool.
Variable resourceGroup : string.
Variable zonesClient_pages : list (error + list PrivateZone).
Variable recordSetsClient : PrivateRecordSetsClient B.

Abbreviation azurePrivateDNSChangeMap := (gmap string (list Endpoint)).

(** The loop over the zones of one page in [zones]; [*zone.Name] is
    dereferenced for the debug message before it is tested. *)
Fixpoint zones_page (page : list PrivateZone) (zones : list PrivateZone)
    : outcome (list PrivateZone) :=
  match page with
  | [] => returns zones
  | zone :: rest =>
      match PrivateZone_Name zone with
      | None => panics
      | Some name =>
          if domainFilter_Match name then
            match PrivateZone_ID zone with
            | None => panics
            | Some id =>
                if zoneIDFilter_Match id then zones_page rest (zones ++ [zone])
                else if (0 <? length zoneNameFilter_Filters)%nat && zoneNameFilter_Match name
                then zones_page rest (zones ++ [zone])
                else zones_page rest zones
            end
          else if (0 <? length zoneNameFilter_Filters)%nat && zoneNameFilter_Match name
          then zones_page rest (zones ++ [zone])
          else zones_page rest zones
      end
  end.

(** [for pager.More() { ... }] in [zones]. *)
Fixpoint zones_pages (pages : list (error + list PrivateZone)) (zones : list PrivateZone)
    : outcome (error + list PrivateZone) :=
  match pages with
  | [] => returns (inr zones)
  | inl err :: _ => returns (inl err)
  | inr page :: rest =>
      match zones_page page zones with
      | panics => panics
      | returns zones' => zones_pages rest zones'
      end
  end.

Definition zones (now : Z) : M (State B) (error + list PrivateZone) :=
  s <- get ;;
  if negb (zonesCache_Expired now (cache s)) then
    ret (inr (zonesCache_Get (cache s)))
  else
    match zones_pages zonesClient_pages [] with
    | panics => panic
    | returns (inl err) => ret (inl err)
    | returns (inr zones) =>
        put (mkState (zonesCache_Reset now zones (cache s)) (backend s)) ;;;
        ret (inr zones)
    end.

(** [*p] for every element of a slice of pointers. *)
Fixpoint derefAll {A} (l : list (option A)) : outcome (list A) :=
  match l with
  | [] => returns []
  | None :: _ => panics
  | Some a :: rest =>
      match derefAll rest with
      | panics => panics
      | returns l' => returns (a :: l')
      end
  end.

(** [fmt.Sprintf("%d %s", preference, exchange)] *)
Definition sprintf_d_s (preference : Z) (exchange : string) : string :=
  NilZero.string_of_int (Z.to_int preference) ++ " " ++ exchange.

Definition mxTarget (mxRecord : MxRecord) : option string :=
  match Preference mxRecord, Exchange mxRecord with
  | Some preference, Some exchange => Some (sprintf_d_s preference exchange)
  | _, _ => None
  end.

(** Helper function (shared with test code) *)
Definition extractAzurePrivateDNSTargets (recordSet : RecordSet) : outcome (list string) :=
  match RecordSet_Properties recordSet with
  | None => returns []
  | Some properties =>
      let txt :=
        (* Check for TXT records *)
        match TxtRecords properties with
        | txtRecord :: _ =>
            match Value txtRecord with
            | [] => returns []
            | None :: _ => panics
            | Some value :: _ => returns [value]
            end
        | [] => returns []
        end in
      let mx :=
        (* Check for MX records *)
        match MxRecords properties with
        | mkMxRecord _ (Some _) :: _ => derefAll (map mxTarget (MxRecords properties))
        | _ => txt
        end in
      let cname :=
        (* Check for CNAME records *)
        match CnameRecord_ properties with
        | Some (mkCnameRecord (Some cname)) => returns [cname]
        | _ => mx
        end in
      let aaaa :=
        (* Check for AAAA records *)
        match AaaaRecords properties with
        | mkAaaaRecord (Some _) :: _ => derefAll (map IPv6Address (AaaaRecords properties))
        | _ => cname
        end in
      (* Check for A records *)
      match ARecords properties with
      | mkARecord (Some _) :: _ => derefAll (map IPv4Address (ARecords properties))
      | _ => aaaa
      end
  end.

(** The body of the loop over the record sets of a page in [Records]:
    the endpoint appended, if any. *)
Definition recordSetEndpoint (zoneName : string) (recordSet : RecordSet)
    : outcome (option Endpoint) :=
  match RecordSet_Type recordSet with
  | None => returns None
  | Some type =>
      let recordType := strings.TrimPrefix type "Microsoft.Network/privateDnsZones/" in
      match RecordSet_Name recordSet with
      | None => returns None
      | Some rsName =>
          let name := formatAzureDNSName rsName zoneName in
          if (0 <? length zoneNameFilter_Filters)%nat && negb (domainFilter_Match name)
          then returns None
          else
            match extractAzurePrivateDNSTargets recordSet with
            | panics => panics
            | returns [] => returns None
            | returns targets =>
                match RecordSet_Properties recordSet with
                | None => panics
                | Some properties =>
                    let ttl := match TTL properties with Some t => t | None => 0 end in
                    returns (Some (NewEndpointWithTTL ∅ name recordType ttl targets))
                end
            end
      end
  end.

Fixpoint records_page (zoneName : string) (page : list RecordSet)
    (endpoints : list Endpoint) : outcome (list Endpoint) :=
  match page with
  | [] => returns endpoints
  | recordSet :: rest =>
      match recordSetEndpoint zoneName recordSet with
      | panics => panics
      | returns None => records_page zoneName rest endpoints
      | returns (Some ep) => records_page zoneName rest (endpoints ++ [ep])
      end
  end.

(** [for pager.More() { ... }] in [Records]. *)
Fixpoint records_pages (zoneName : string) (pages : list (error + list RecordSet))
    (endpoints : list Endpoint) : outcome (error + list Endpoint) :=
  match pages with
  | [] => returns (inr endpoints)
  | inl err :: _ =>
      returns (inl (provider.NewSoftErrorf "failed to fetch dns records: %v" (Some err)))
  | inr page :: rest =>
      match records_page zoneName page endpoints with
      | panics => panics
      | returns endpoints' => records_pages zoneName rest endpoints'
      end
  end.

(** [for _, zone := range zones { ... }] in [Records]. *)
Fixpoint records_zones (b : B) (zones : list PrivateZone) (endpoints : list Endpoint)
    : outcome (error + list Endpoint) :=
  match zones with
  | [] => returns (inr endpoints)
  | zone :: rest =>
      match PrivateZone_Name zone with
      | None => panics
      | Some zoneName =>
          match records_pages zoneName
                  (NewListPager recordSetsClient resourceGroup zoneName b) endpoints with
          | panics => panics
          | returns (inl err) => returns (inl err)
          | returns (inr endpoints') => records_zones b rest endpoints'
          end
      end
  end.

(** Records gets the current records.  Returns the current records or an
    error if the operation failed. *)
Definition Records (now : Z) : M (State B) (error + list Endpoint) :=
  zs <- zones now ;;
  match zs with
  | inl err => ret (inl err)
  | inr zones =>
      s <- get ;;
      match records_zones (backend s) zones [] with
      | panics => panic
      | returns r => ret r
      end
  end.

(** Every zone with a name is added to [zoneNameIDMapper], under its name as id. *)
Fixpoint zoneNameIDMapper (zones : list PrivateZone) (m : gmap string string)
    : gmap string string :=
  match zones with
  | [] => m
  | z :: rest =>
      match PrivateZone_Name z with
      | Some name => zoneNameIDMapper rest (<[name := name]> m)
      | None => zoneNameIDMapper rest m
      end
  end.

(** The closure [mapChange] of [mapChanges]. *)
Definition mapChange (mapper : gmap string string) (changeMap : azurePrivateDNSChangeMap)
    (change : Endpoint) : azurePrivateDNSChangeMap :=
  let zone := fst (FindZone mapper (DNSName change)) in
  if String.eqb zone "" then changeMap
  else <[zone := (default [] (changeMap !! zone) ++ [change])%list]> changeMap.

Definition mapChanges (zones : list PrivateZone) (changes : plan.Changes Endpoint)
    : azurePrivateDNSChangeMap * azurePrivateDNSChangeMap :=
  let mapper := zoneNameIDMapper zones ∅ in
  let deleted := fold_left (mapChange mapper) (plan.Delete changes) ∅ in
  let updated := fold_left (mapChange mapper) (plan.Create changes) ∅ in
  let updated := fold_left (mapChange mapper) (plan.UpdateNew changes) updated in
  (deleted, updated).

(** [name[:len(name)-len(zone)]] panics when the zone is longer than the name. *)
Definition recordSetNameForZone (zone : string) (ep : Endpoint) : outcome string :=
  let name := DNSName ep in
  if (String.length name <? String.length zone)%nat then panics
  else
    let name := substring 0 (String.length name - String.length zone) name in
    let name := strings.TrimSuffix name "." in
    (* For root, use @ *)
    if String.eqb name "" then returns "@" else returns name.

Definition liftB {A} (call : B -> A * B) : M (State B) A :=
  fun s => let '(a, b') := call (backend s) in (returns a, mkState (cache s) b').

Definition deleteRecord (zone : string) (ep : Endpoint) : M (State B) unit :=
  match recordSetNameForZone zone ep with
  | panics => panic
  | returns name =>
      if negb (domainFilter_Match (DNSName ep)) then ret tt
      else if dryRun then ret tt
      else
        _ <- liftB (Delete recordSetsClient resourceGroup zone (RecordType ep) name) ;;
        ret tt
  end.

Definition deleteRecords (deleted : azurePrivateDNSChangeMap) : M (State B) unit :=
  (* Delete records first *)
  forEach (fun '(zone, endpoints) => forEach (deleteRecord zone) endpoints)
          (rangeMap deleted).

(** [parseMxTarget] over the targets, stopping at the first error. *)
Fixpoint mxRecords (targets : list string) : error + list MxRecord :=
  match targets with
  | [] => inr []
  | target :: rest =>
      match parseMxTarget target with
      | inl err => inl err
      | inr mxRecord =>
          match mxRecords rest with
          | inl err => inl err
          | inr l => inr (mxRecord :: l)
          end
      end
  end.

Definition newRecordSet (ep : Endpoint) : outcome (error + RecordSet) :=
  let ttl := if TTL_IsConfigured (RecordTTL ep) then RecordTTL ep else defaultTTL in
  let withProps props := returns (inr (mkRecordSet None None (Some props))) in
  if String.eqb (RecordType ep) "A" then
    withProps (mkRecordSetProperties (Some ttl)
      (map (fun target => mkARecord (Some target)) (Targets ep)) [] None [] [])
  else if String.eqb (RecordType ep) "AAAA" then
    withProps (mkRecordSetProperties (Some ttl) []
      (map (fun target => mkAaaaRecord (Some target)) (Targets ep)) None [] [])
  else if String.eqb (RecordType ep) "CNAME" then
    match Targets ep with
    | [] => panics
    | target :: _ =>
        withProps (mkRecordSetProperties (Some ttl) [] []
          (Some (mkCnameRecord (Some target))) [] [])
    end
  else if String.eqb (RecordType ep) "MX" then
    match mxRecords (Targets ep) with
    | inl err => returns (inl err)
    | inr l => withProps (mkRecordSetProperties (Some ttl) [] [] None l [])
    end
  else if String.eqb (RecordType ep) "TXT" then
    match Targets ep with
    | [] => panics
    | target :: _ =>
        withProps (mkRecordSetProperties (Some ttl) [] [] None []
          [mkTxtRecord [Some target]])
    end
  else returns (inl (errorsNew ("unsupported record type '" ++ RecordType ep ++ "'"))).

Definition updateRecord (zone : string) (ep : Endpoint) : M (State B) unit :=
  match recordSetNameForZone zone ep with
  | panics => panic
  | returns name =>
      if negb (domainFilter_Match (DNSName ep)) then ret tt
      else if dryRun then ret tt
      else
        match newRecordSet ep with
        | panics => panic
        | returns (inl _) => ret tt
        | returns (inr recordSet) =>
            _ <- liftB (CreateOrUpdate recordSetsClient resourceGroup zone
                          (RecordType ep) name recordSet) ;;
            ret tt
        end
  end.

Definition updateRecords (updated : azurePrivateDNSChangeMap) : M (State B) unit :=
  forEach (fun '(zone, endpoints) => forEach (updateRecord zone) endpoints)
          (rangeMap updated).

(** ApplyChanges applies the given changes.  Returns nil if the operation
    was successful or an error if the operation failed. *)
Definition ApplyChanges (now : Z) (changes : plan.Changes Endpoint)
    : M (State B) (option error) :=
  zs <- zones now ;;
  match zs with
  | inl err => ret (Some err)
  | inr zones =>
      let '(deleted, updated) := mapChanges zones changes in
      deleteRecords deleted ;;;
      updateRecords updated ;;;
      ret None
  end.

End Provider.

End azure.

(** ** provider/coredns/coredns.go *)

Module coredns.

Import endpoint go.

(** default priority when nothing is set *)
Definition priority : Z := 10.
Definition randomPrefixLabel : string := "prefix".

(** An [*endpoint.Endpoint] is an index into the store of endpoint objects,
    a [Labels] value an index into the store of label maps: the provider
    assigns one endpoint's map to another endpoint and writes through both. *)
Abbreviation ptr := nat.
Abbreviation mapref := nat.

Abbreviation Endpoint := (endpoint.Endpoint mapref).

(** Service represents CoreDNS etcd record *)
Record Service : Type := mkService {
  Host : string;
  Port : Z;
  Priority : Z;
  Weight : Z;
  Text : string;
  Mail : bool;
  TTL : Z;
  TargetStrip : Z;
  Group : string;
  Key : string
}.

Definition set_Text (text : string) (s : Service) : Service :=
  mkService (Host s) (Port s) (Priority s) (Weight s) text (Mail s) (TTL s)
            (TargetStrip s) (Group s) (Key s).

Definition set_Targets (targets : list string) (ep : Endpoint) : Endpoint :=
  mkEndpoint (DNSName ep) targets (RecordType ep) (SetIdentifier ep) (RecordTTL ep)
             (Labels ep).

Definition set_Labels (labels : mapref) (ep : Endpoint) : Endpoint :=
  mkEndpoint (DNSName ep) (Targets ep) (RecordType ep) (SetIdentifier ep) (RecordTTL ep)
             labels.

(** coreDNSClient is an interface to work with CoreDNS service records in
    etcd; [B] is the state of the store behind it. *)
Record coreDNSClient (B : Type) : Type := mkCoreDNSClient {
  GetServices : string -> B -> (error + list Service) * B;
  SaveService : Service -> B -> option error * B;
  DeleteService : string -> B -> option error * B
}.

Arguments GetServices {B}.
Arguments SaveService {B}.
Arguments DeleteService {B}.

(** The memory of the process and the store behind the client. [drawn]
    counts the calls of [rand.Int31]. *)
Record Store (B : Type) : Type := mkStore {
  objects : list Endpoint;
  labelMaps : list (gmap string string);
  drawn : nat;
  etcd : B
}.

Arguments mkStore {B}.
Arguments objects {B}.
Arguments labelMaps {B}.
Arguments drawn {B}.
Arguments etcd {B}.

(** Go's conversion [uint32(x)]. *)
Definition uint32 (x : Z) : Z := x mod 2 ^ 32.

Section Memory.

Context {B : Type}.

(** [*p]: a pointer outside the store is nil. *)
Definition load (p : ptr) : M (Store B) Endpoint :=
  fun s => match objects s !! p with
           | Some ep => (returns ep, s)
           | None => (panics, s)
           end.

Definition store (p : ptr) (ep : Endpoint) : M (Store B) unit :=
  fun s => match objects s !! p with
           | Some _ => (returns tt, mkStore (<[p := ep]> (objects s)) (labelMaps s) (drawn s) (etcd s))
           | None => (panics, s)
           end.

(** [&endpoint.Endpoint{...}] *)
Definition new (ep : Endpoint) : M (Store B) ptr :=
  fun s => (returns (length (objects s)),
            mkStore (objects s ++ [ep])%list (labelMaps s) (drawn s) (etcd s)).

(** [endpoint.NewLabels()]: a fresh, empty map. *)
Definition newLabels : M (Store B) mapref :=
  fun s => (returns (length (labelMaps s)),
            mkStore (objects s) (labelMaps s ++ [∅])%list (drawn s) (etcd s)).

(** The content of a map; a reference outside the store is the nil map,
    which reads as empty. *)
Definition labelsAt (s : Store B) (m : mapref) : gmap string string :=
  default ∅ (labelMaps s !! m).

(** [labels[key]] *)
Definition readLabel (m : mapref) (key : string) : M (Store B) string :=
  fun s => (returns (default "" (labelsAt s m !! key)), s).

(** [labels[key] = value]: assignment to an entry of a nil map panics. *)
Definition writeLabel (m : mapref) (key value : string) : M (Store B) unit :=
  fun s => match labelMaps s !! m with
           | Some labels =>
               (returns tt,
                mkStore (objects s) (<[m := <[key := value]> labels]> (labelMaps s))
                        (drawn s) (etcd s))
           | None => (panics, s)
           end.

(** A call through the client. *)
Definition call {A} (f : B -> A * B) : M (Store B) A :=
  fun s => let '(a, b') := f (etcd s) in
           (returns a, mkStore (objects s) (labelMaps s) (drawn s) b').

End Memory.

Section Provider.

Context {B : Type}.

(** Declared elsewhere: the domain filter, [net.ParseIP], the text
    [fmt.Sprintf("%08x", rand.Int31())] of the n-th draw, and the order in
    which Go ranges over a map. *)
Variable domainFilter_Match : string -> bool.
Variable ParseIP : string -> bool.
Variable randomPrefix : nat -> string.
Variable rangeLabels : gmap string string -> list (string * string).
Variable rangeGrouped : gmap string (list ptr) -> list (string * list ptr).

(** The fields of coreDNSProvider. *)
Variable dryRun : bool.
Variable coreDNSPrefix : string.
Variable client : coreDNSClient B.

Definition newRandomPrefix : M (Store B) string :=
  fun s => (returns (randomPrefix (drawn s)),
            mkStore (objects s) (labelMaps s) (S (drawn s)) (etcd s)).

(** findEp takes an Endpoint slice and looks for an element in it. If found
    it will return Endpoint, otherwise it will return nil and a bool of false. *)
Fixpoint findEp (slice : list ptr) (dnsName : string) : M (Store B) (option ptr) :=
  match slice with
  | [] => ret None
  | item :: rest =>
      ep <- load item ;;
      if String.eqb (DNSName ep) dnsName then ret (Some item)
      else findEp rest dnsName
  end.

(** findLabelInTargets takes an ep.Targets string slice and looks for an
    element in it. *)
Fixpoint findLabelInTargets (targets : list string) (label : string) : string * bool :=
  match targets with
  | [] => ("", false)
  | target :: rest =>
      if String.eqb target label then (target, true)
      else findLabelInTargets rest label
  end.

Definition guessRecordType (target : string) : string :=
  if ParseIP target then RecordTypeA else RecordTypeCNAME.

Definition etcdKeyFor (dnsName : string) : string :=
  let domains := rev (strings.Split dnsName ".") in
  (coreDNSPrefix ++ strings.Join domains "/")%string.

Definition shouldSkipLabel (label : string) : bool :=
  snd (findLabelInTargets ["originalText"; "prefix"; "resource"] label).

(** The body of the loop of [Records] for one service; [result] is the
    slice built so far. *)
Definition recordsOfService (service : Service) (result : list ptr)
    : M (Store B) (list ptr) :=
  let domains := rev (strings.Split (strings.TrimPrefix (Key service) coreDNSPrefix) "/") in
  if (TargetStrip service <? 0) || (Z.of_nat (length domains) <? TargetStrip service)
  then panic
  else
    let strip := Z.to_nat (TargetStrip service) in
    let dnsName := strings.Join (drop strip domains) "." in
    if negb (domainFilter_Match dnsName) then ret result
    else
      let prefix := strings.Join (take strip domains) "." in
      result <-
        (if negb (String.eqb (Host service) "") then
           found <- findEp result dnsName ;;
           ep <- match found with
                 | Some ep =>
                     e <- load ep ;;
                     store ep (set_Targets (Targets e ++ [Host service])%list e) ;;;
                     ret ep
                 | None =>
                     labels <- newLabels ;;
                     new (NewEndpointWithTTL labels dnsName (guessRecordType (Host service))
                            (TTL service) [Host service])
                 end ;;
           e <- load ep ;;
           writeLabel (Labels e) "originalText" (Text service) ;;;
           writeLabel (Labels e) randomPrefixLabel prefix ;;;
           writeLabel (Labels e) (Host service) prefix ;;;
           ret (result ++ [ep])%list
         else ret result) ;;
      if negb (String.eqb (Text service) "") then
        labels <- newLabels ;;
        ep <- new (NewEndpoint labels dnsName RecordTypeTXT [Text service]) ;;
        writeLabel labels randomPrefixLabel prefix ;;;
        ret (result ++ [ep])%list
      else ret result.

Fixpoint recordsOfServices (services : list Service) (result : list ptr)
    : M (Store B) (list ptr) :=
  match services with
  | [] => ret result
  | service :: rest =>
      result' <- recordsOfService service result ;;
      recordsOfServices rest result'
  end.

(** Records returns all DNS records found in CoreDNS etcd backend. *)
Definition Records : M (Store B) (error + list ptr) :=
  r <- call (GetServices client coreDNSPrefix) ;;
  match r with
  | inl err => ret (inl err)
  | inr services =>
      result <- recordsOfServices services [] ;;
      ret (inr result)
  end.

Definition appendGroup (grouped : gmap string (list ptr)) (dnsName : string) (ep : ptr)
    : gmap string (list ptr) :=
  <[dnsName := (default [] (grouped !! dnsName) ++ [ep])%list]> grouped.

Fixpoint groupCreate (create : list ptr) (grouped : gmap string (list ptr))
    : M (Store B) (gmap string (list ptr)) :=
  match create with
  | [] => ret grouped
  | ep :: rest =>
      e <- load ep ;;
      groupCreate rest (appendGroup grouped (DNSName e) ep)
  end.

(** [for i, ep := range changes.UpdateNew() { ... updateOld[i] ... }]:
    the two slices are walked together. *)
Fixpoint groupUpdate (update : list (ptr * ptr)) (grouped : gmap string (list ptr))
    : M (Store B) (gmap string (list ptr)) :=
  match update with
  | [] => ret grouped
  | (old, ep) :: rest =>
      o <- load old ;;
      e <- load ep ;;
      store ep (set_Labels (Labels o) e) ;;;
      groupUpdate rest (appendGroup grouped (DNSName e) ep)
  end.

Definition groupEndpoints (changes : plan.Changes ptr)
    : M (Store B) (gmap string (list ptr)) :=
  grouped <- groupCreate (plan.Create changes) ∅ ;;
  groupUpdate (plan.Update changes) grouped.

(** The first loop of [createServicesForEndpoint], over [ep.Targets]. *)
Fixpoint servicesForTargets (dnsName : string) (e : Endpoint) (targets : list string)
    (services : list Service) : M (Store B) (list Service) :=
  match targets with
  | [] => ret services
  | target :: rest =>
      prefix <- readLabel (Labels e) target ;;
      prefix <- (if String.eqb prefix "" then newRandomPrefix else ret prefix) ;;
      originalText <- readLabel (Labels e) "originalText" ;;
      let service :=
        mkService target 0 0 0 originalText false (uint32 (RecordTTL e))
                  (Z.of_nat (strings.Count prefix ".") + 1) ""
                  (etcdKeyFor (prefix ++ "." ++ dnsName)) in
      writeLabel (Labels e) target prefix ;;;
      servicesForTargets dnsName e rest (services ++ [service])%list
  end.

(** The second loop of [createServicesForEndpoint]: clean outdated labels. *)
Definition cleanLabel (dnsName : string) (e : Endpoint) (entry : string * string)
    : M (Store B) (option error) :=
  let '(label, labelPrefix) := entry in
  if shouldSkipLabel label then ret None
  else if snd (findLabelInTargets (Targets e) label) then ret None
  else if dryRun then ret None
  else call (DeleteService client (etcdKeyFor (labelPrefix ++ "." ++ dnsName))).

Definition createServicesForEndpoint (dnsName : string) (ep : ptr)
    : M (Store B) (error + list Service) :=
  e <- load ep ;;
  services <- servicesForTargets dnsName e (Targets e) [] ;;
  s <- get ;;
  err <- forEachErr (cleanLabel dnsName e) (rangeLabels (labelsAt s (Labels e))) ;;
  match err with
  | Some err => ret (inl err)
  | None => ret (inr services)
  end.

(** The first loop of [updateTXTRecords]. *)
Fixpoint setTXT (dnsName : string) (group : list ptr) (index : nat)
    (services : list Service) : M (Store B) (nat * list Service) :=
  match group with
  | [] => ret (index, services)
  | ep :: rest =>
      e <- load ep ;;
      if negb (String.eqb (RecordType e) RecordTypeTXT) then
        setTXT dnsName rest index services
      else
        services <-
          (if (length services <=? index)%nat then
             prefix <- readLabel (Labels e) randomPrefixLabel ;;
             prefix <- (if String.eqb prefix "" then newRandomPrefix else ret prefix) ;;
             ret (services ++
                    [mkService "" 0 0 0 "" false (uint32 (RecordTTL e))
                       (Z.of_nat (strings.Count prefix ".") + 1) ""
                       (etcdKeyFor (prefix ++ "." ++ dnsName))])%list
           else ret services) ;;
        match Targets e, services !! index with
        | target :: _, Some service =>
            setTXT dnsName rest (S index) (<[index := set_Text target service]> services)
        | _, _ => panic
        end
  end.

(** The second loop of [updateTXTRecords]:
    [for i := index; index > 0 && i < len(services); i++]. *)
Definition clearTXT (index : nat) (services : list Service) : list Service :=
  if (0 <? index)%nat
  then (take index services ++ map (set_Text "") (drop index services))%list
  else services.

(** updateTXTRecords updates the TXT records in the provided services slice
    based on the given group of endpoints. *)
Definition updateTXTRecords (dnsName : string) (group : list ptr)
    (services : list Service) : M (Store B) (list Service) :=
  r <- setTXT dnsName group 0 services ;;
  ret (clearTXT (fst r) (snd r)).

(** The first loop of [applyGroup]. *)
Fixpoint servicesForGroup (dnsName : string) (group : list ptr) (services : list Service)
    : M (Store B) (error + list Service) :=
  match group with
  | [] => ret (inr services)
  | ep :: rest =>
      e <- load ep ;;
      if negb (String.eqb (RecordType e) RecordTypeTXT) then
        srvs <- createServicesForEndpoint dnsName ep ;;
        match srvs with
        | inl err => ret (inl err)
        | inr srvs => servicesForGroup dnsName rest (services ++ srvs)%list
        end
      else servicesForGroup dnsName rest services
  end.

Definition saveService (service : Service) : M (Store B) (option error) :=
  if dryRun then ret None else call (SaveService client service).

Definition applyGroup (dnsName : string) (group : list ptr) : M (Store B) (option error) :=
  r <- servicesForGroup dnsName group [] ;;
  match r with
  | inl err => ret (Some err)
  | inr services =>
      services <- updateTXTRecords dnsName group services ;;
      forEachErr saveService services
  end.

Definition deleteEndpoint (ep : ptr) : M (Store B) (option error) :=
  e <- load ep ;;
  prefix <- readLabel (Labels e) randomPrefixLabel ;;
  let dnsName :=
    if negb (String.eqb prefix "") then (prefix ++ "." ++ DNSName e)%string
    else DNSName e in
  if dryRun then ret None
  else call (DeleteService client (etcdKeyFor dnsName)).

Definition deleteEndpoints (endpoints : list ptr) : M (Store B) (option error) :=
  forEachErr deleteEndpoint endpoints.

Definition applyOneGroup (entry : string * list ptr) : M (Store B) (option error) :=
  let '(dnsName, group) := entry in
  if negb (domainFilter_Match dnsName) then ret None
  else applyGroup dnsName group.

Definition ApplyChanges (changes : plan.Changes ptr) : M (Store B) (option error) :=
  grouped <- groupEndpoints changes ;;
  err <- forEachErr applyOneGroup (rangeGrouped grouped) ;;
  match err with
  | Some err => ret (Some err)
  | None => deleteEndpoints (plan.Delete changes)
  end.

End Provider.

(** *** reverse *)

(** [slice[i], slice[j] = slice[j], slice[i]]: both elements are read, then
    both are written; an index out of range panics. *)
Definition swap (i j : nat) (slice : list string) : outcome (list string) :=
  match slice !! i, slice !! j with
  | Some a, Some b => returns (<[j := a]> (<[i := b]> slice))
  | _, _ => panics
  end.

(** [for i := range len(slice) / 2 { j := len(slice) - i - 1; ... }] with
    [n] iterations left. *)
Fixpoint reverse_loop (n i : nat) (slice : list string) : outcome (list string) :=
  match n with
  | O => returns slice
  | S n' =>
      let j := (length slice - i - 1)%nat in
      match swap i j slice with
      | returns slice' => reverse_loop n' (S i) slice'
      | panics => panics
      end
  end.

(** [reverse] reverses the slice in place: the slice it leaves. *)
Definition reverse (slice : list string) : outcome (list string) :=
  reverse_loop (length slice / 2) 0 slice.

(** *** etcdClient *)

#[global] Instance Service_eq_dec : EqDecision Service.
Proof. solve_decision. Defined.

Definition set_Key (key : string) (s : Service) : Service :=
  mkService (Host s) (Port s) (Priority s) (Weight s) (Text s) (Mail s) (TTL s)
            (TargetStrip s) (Group s) key.

Definition set_Priority (p : Z) (s : Service) : Service :=
  mkService (Host s) (Port s) p (Weight s) (Text s) (Mail s) (TTL s)
            (TargetStrip s) (Group s) (Key s).

Section EtcdClient.

(** Declared elsewhere: the etcd client ([Get] with [WithPrefix], [Put],
    [Delete] with [WithPrefix]) over the state [E] of the cluster, and the
    JSON codec of [Service] (the [Key] field is not part of the JSON). *)
Context {E : Type}.
Variable client_Get : string -> E -> (error + list (string * string)) * E.
Variable client_Put : string -> string -> E -> option error * E.
Variable client_Delete : string -> E -> option error * E.
Variable Unmarshal : string -> error + Service.
Variable Marshal : Service -> error + string.

(** [b := Service{Host: svc.Host, Port: svc.Port, Priority: svc.Priority,
    Weight: svc.Weight, Text: svc.Text, Key: string(n.Key)}] *)
Definition seenAs (svc : Service) (key : string) : Service :=
  mkService (Host svc) (Port svc) (Priority svc) (Weight svc) (Text svc) false 0 0 "" key.

(** [for _, n := range r.Kvs { ... }]; [bx] holds the keys of the map
    [map[Service]bool].  The key operand of the error message is not kept. *)
Fixpoint GetServices_loop (kvs : list (string * string)) (bx : list Service)
    (svcs : list Service) : error + list Service :=
  match kvs with
  | [] => inr svcs
  | (key, value) :: rest =>
      match Unmarshal value with
      | inl err => inl (fmtErrorf "%s: %w" err)
      | inr svc =>
          let b := seenAs svc key in
          if bool_decide (b ∈ bx) then
            (* skip the service if already added to service list *)
            GetServices_loop rest bx svcs
          else
            let svc := set_Key key svc in
            let svc := if Priority svc =? 0 then set_Priority priority svc else svc in
            GetServices_loop rest (b :: bx) (svcs ++ [svc])
      end
  end.

(** GetServices GetService return all Service records stored in etcd stored
    anywhere under the given key (recursively) *)
Definition etcdClient_GetServices (prefix : string) (e : E) : (error + list Service) * E :=
  match client_Get prefix e with
  | (inl err, e') => (inl err, e')
  | (inr kvs, e') => (GetServices_loop kvs [] [], e')
  end.

(** SaveService persists service data into etcd *)
Definition etcdClient_SaveService (service : Service) (e : E) : option error * E :=
  match Marshal service with
  | inl err => (Some err, e)
  | inr value => client_Put (Key service) value e
  end.

(** DeleteService deletes service record from etcd *)
Definition etcdClient_DeleteService (key : string) (e : E) : option error * E :=
  client_Delete key e.

(** etcdClient implements coreDNSClient. *)
Definition etcdClient : coreDNSClient E :=
  mkCoreDNSClient E etcdClient_GetServices etcdClient_SaveService
    etcdClient_DeleteService.

End EtcdClient.

End coredns.

(** ** source/ingress.go: the constructor *)

Module source.

Definition IngressClassAnnotationKey : string := "kubernetes.io/ingress.class".

(** A requirement of a label selector: its key, its operator, its values. *)
Record Requirement : Type := mkRequirement {
  Requirement_Key : string;
  Requirement_Operator : string;
  Requirement_Values : list string
}.

(** ingressSource is an implementation of Source for Kubernetes ingress
    objects: the configuration it is built from. *)
Record ingressSource (Template : Type) : Type := mkIngressSource {
  namespace : string;
  annotationFilter : string;
  ingressClassNames : option (list string);
  fqdnTemplate : Template;
  combineFQDNAnnotation : bool;
  ignoreHostnameAnnotation : bool;
  ignoreIngressTLSSpec : bool;
  ignoreIngressRulesSpec : bool
}.

Arguments mkIngressSource {Template}.

(** What the constructor has done to the cluster client when it returns:
    whether the shared informer was started. *)
Record Cluster : Type := mkCluster {
  informerStarted : bool
}.

Section Constructor.

(** Declared elsewhere: the template parser of package fqdn, the selector
    parser of this package, and the wait for the informer cache. *)
Context {Template : Type}.
Variable ParseTemplate : string -> error + Template.
Variable getLabelSelector : string -> error + list Requirement.
Variable WaitForCacheSync : option error.

(** [for _, requirement := range requirements { if requirement.Key() == ... }] *)
Fixpoint hasIngressClassKey (requirements : list Requirement) : bool :=
  match requirements with
  | [] => false
  | requirement :: rest =>
      if String.eqb (Requirement_Key requirement) "kubernetes.io/ingress.class"
      then true
      else hasIngressClassKey rest
  end.

(** NewIngressSource creates a new ingressSource with the given config.
    A nil [ingressClassNames] slice is [None]. *)
Definition NewIngressSource (namespace annotationFilter fqdnTemplate : string)
    (combineFqdnAnnotation ignoreHostnameAnnotation ignoreIngressTLSSpec
       ignoreIngressRulesSpec : bool)
    (ingressClassNames : option (list string)) (c : Cluster)
    : (error + ingressSource Template) * Cluster :=
  match ParseTemplate fqdnTemplate with
  | inl err => (inl err, c)
  | inr tmpl =>
      (* ensure that ingress class is only set in either the ingressClassNames or
         annotationFilter but not both *)
      let check :=
        match ingressClassNames with
        | Some _ =>
            if negb (String.eqb annotationFilter "") then
              match getLabelSelector annotationFilter with
              | inl err => Some err
              | inr requirements =>
                  if hasIngressClassKey requirements
                  then Some (errorsNew "--ingress-class is mutually exclusive with the kubernetes.io/ingress.class annotation filter")
                  else None
              end
            else None
        | None => None
        end in
      match check with
      | Some err => (inl err, c)
      | None =>
          let c' := mkCluster true in
          match WaitForCacheSync with
          | Some err => (inl err, c')
          | None =>
              (inr (mkIngressSource namespace annotationFilter ingressClassNames tmpl
                      combineFqdnAnnotation ignoreHostnameAnnotation
                      ignoreIngressTLSSpec ignoreIngressRulesSpec), c')
          end
      end
  end.

End Constructor.

(** *** Endpoints from an ingress *)

(** Possible values for the ingress-hostname-source annotation *)
Definition IngressHostnameSourceAnnotationOnlyValue : string := "annotation-only".
Definition IngressHostnameSourceDefinedHostsOnlyValue : string := "defined-hosts-only".

(** The parts of a networking/v1 Ingress that the source reads. *)
Record IngressLoadBalancerIngress : Type := mkIngressLoadBalancerIngress {
  IP : string;
  Hostname : string
}.

Record IngressRule : Type := mkIngressRule { Host : string }.

Record IngressTLS : Type := mkIngressTLS { Hosts : list string }.

Record Ingress : Type := mkIngress {
  Namespace : string;
  Name : string;
  Annotations : gmap string string;
  Spec_IngressClassName : option string;
  Spec_Rules : list IngressRule;
  Spec_TLS : list IngressTLS;
  Status_LoadBalancer_Ingress : list IngressLoadBalancerIngress
}.

Abbreviation Endpoint := (endpoint.Endpoint (gmap string string)).

(** [for _, lb := range status.LoadBalancer.Ingress { ... }] *)
Fixpoint targetsFromIngressStatus_loop (lbs : list IngressLoadBalancerIngress)
    (targets : list string) : list string :=
  match lbs with
  | [] => targets
  | lb :: rest =>
      let targets :=
        if negb (String.eqb (IP lb) "") then (targets ++ [IP lb])%list else targets in
      let targets :=
        if negb (String.eqb (Hostname lb) "") then (targets ++ [Hostname lb])%list else targets in
      targetsFromIngressStatus_loop rest targets
  end.

Definition targetsFromIngressStatus (status : list IngressLoadBalancerIngress)
    : list string :=
  targetsFromIngressStatus_loop status [].

Section FromIngress.

(** Declared elsewhere: the readers of package annotations, the
    constructor of endpoints for a hostname and the key of the
    hostname-source annotation of this package, and [strings.ToLower]. *)
Context {ProviderSpecific : Type}.
Variable TTLFromAnnotations : gmap string string -> string -> Z.
Variable TargetsFromTargetAnnotation : gmap string string -> list string.
Variable ProviderSpecificAnnotations : gmap string string -> ProviderSpecific * string.
Variable HostnamesFromAnnotations : gmap string string -> list string.
Variable EndpointsForHostname :
  string -> list string -> Z -> ProviderSpecific -> string -> string -> list Endpoint.
Variable ingressHostnameSourceKey : string.
Variable ToLower : string -> string.

(** [for _, rule := range ing.Spec.Rules { ... }] *)
Fixpoint rulesEndpoints (forHostname : string -> list Endpoint) (rules : list IngressRule)
    (definedHostsEndpoints : list Endpoint) : list Endpoint :=
  match rules with
  | [] => definedHostsEndpoints
  | rule :: rest =>
      if String.eqb (Host rule) "" then rulesEndpoints forHostname rest definedHostsEndpoints
      else rulesEndpoints forHostname rest (definedHostsEndpoints ++ forHostname (Host rule))%list
  end.

(** [for _, host := range tls.Hosts { ... }] *)
Fixpoint hostsEndpoints (forHostname : string -> list Endpoint) (hosts : list string)
    (definedHostsEndpoints : list Endpoint) : list Endpoint :=
  match hosts with
  | [] => definedHostsEndpoints
  | host :: rest =>
      if String.eqb host "" then hostsEndpoints forHostname rest definedHostsEndpoints
      else hostsEndpoints forHostname rest (definedHostsEndpoints ++ forHostname host)%list
  end.

(** [for _, tls := range ing.Spec.TLS { ... }] *)
Fixpoint tlsEndpoints (forHostname : string -> list Endpoint) (tlss : list IngressTLS)
    (definedHostsEndpoints : list Endpoint) : list Endpoint :=
  match tlss with
  | [] => definedHostsEndpoints
  | tls :: rest =>
      tlsEndpoints forHostname rest
        (hostsEndpoints forHostname (Hosts tls) definedHostsEndpoints)
  end.

(** [for _, hostname := range annotations.HostnamesFromAnnotations(...) { ... }] *)
Fixpoint hostnamesEndpoints (forHostname : string -> list Endpoint)
    (hostnames : list string) (annotationEndpoints : list Endpoint) : list Endpoint :=
  match hostnames with
  | [] => annotationEndpoints
  | hostname :: rest =>
      hostnamesEndpoints forHostname rest (annotationEndpoints ++ forHostname hostname)%list
  end.

(** endpointsFromIngress extracts the endpoints from ingress object *)
Definition endpointsFromIngress (ing : Ingress)
    (ignoreHostnameAnnotation ignoreIngressTLSSpec ignoreIngressRulesSpec : bool)
    : list Endpoint :=
  let resource := "ingress/" ++ Namespace ing ++ "/" ++ Name ing in
  let ttl := TTLFromAnnotations (Annotations ing) resource in
  let targets := TargetsFromTargetAnnotation (Annotations ing) in
  let targets :=
    if (length targets =? 0)%nat
    then targetsFromIngressStatus (Status_LoadBalancer_Ingress ing)
    else targets in
  let '(providerSpecific, setIdentifier) := ProviderSpecificAnnotations (Annotations ing) in
  let forHostname hostname :=
    EndpointsForHostname hostname targets ttl providerSpecific setIdentifier resource in
  (* Gather endpoints defined on hosts sections of the ingress *)
  let definedHostsEndpoints :=
    if negb ignoreIngressRulesSpec
    then rulesEndpoints forHostname (Spec_Rules ing) []
    else [] in
  let definedHostsEndpoints :=
    if negb ignoreIngressTLSSpec
    then tlsEndpoints forHostname (Spec_TLS ing) definedHostsEndpoints
    else definedHostsEndpoints in
  (* Gather endpoints defined on annotations in the ingress *)
  let annotationEndpoints :=
    if negb ignoreHostnameAnnotation
    then hostnamesEndpoints forHostname (HostnamesFromAnnotations (Annotations ing)) []
    else [] in
  (* Determine which hostnames to consider in our final list *)
  match Annotations ing !! ingressHostnameSourceKey with
  | None => (definedHostsEndpoints ++ annotationEndpoints)%list
  | Some hostnameSourceAnnotation =>
      (* Include endpoints according to the hostname source annotation *)
      let endpoints := [] in
      let endpoints :=
        if String.eqb (ToLower hostnameSourceAnnotation)
                      IngressHostnameSourceDefinedHostsOnlyValue
        then (endpoints ++ definedHostsEndpoints)%list else endpoints in
      let endpoints :=
        if String.eqb (ToLower hostnameSourceAnnotation)
                      IngressHostnameSourceAnnotationOnlyValue
        then (endpoints ++ annotationEndpoints)%list else endpoints in
      endpoints
  end.

End FromIngress.

(** *** filterByIngressClass *)

Section ByClass.

(** Declared elsewhere: [labels.NewRequirement] (key, operator, values)
    and the selector match of this package; a selector is the list of its
    requirements. *)
Variable NewRequirement : string -> string -> list string -> error + Requirement.
Variable matchLabelSelector : list Requirement -> gmap string string -> bool.

(** [for _, nameFilter := range sc.ingressClassNames { ... }]: whether the
    loop leaves [matched] set. *)
Fixpoint classMatched (selector : list Requirement) (ingress : Ingress)
    (names : list string) : bool :=
  match names with
  | [] => false
  | nameFilter :: rest =>
      let matched :=
        match Spec_IngressClassName ingress with
        | Some className =>
            if (0 <? String.length className)%nat
            then String.eqb nameFilter className
            else matchLabelSelector selector (Annotations ingress)
        | None => matchLabelSelector selector (Annotations ingress)
        end in
      if matched then true else classMatched selector ingress rest
  end.

(** [for _, ingress := range ingresses { ... }] *)
Fixpoint filterByIngressClass_loop (selector : list Requirement) (names : list string)
    (ingresses filteredList : list Ingress) : list Ingress :=
  match ingresses with
  | [] => filteredList
  | ingress :: rest =>
      if classMatched selector ingress names
      then filterByIngressClass_loop selector names rest (filteredList ++ [ingress])%list
      else filterByIngressClass_loop selector names rest filteredList
  end.

(** filterByIngressClass filters a list of ingresses based on a required
    ingress class *)
Definition filterByIngressClass {Template : Type} (sc : ingressSource Template)
    (ingresses : list Ingress) : error + list Ingress :=
  let names := default [] (ingressClassNames Template sc) in
  (* if no class filter is specified then there's nothing to do *)
  if (length names =? 0)%nat then inr ingresses
  else
    match NewRequirement IngressClassAnnotationKey "in" names with
    | inl err => inl err
    | inr classNameReq =>
        inr (filterByIngressClass_loop [classNameReq] names ingresses [])
    end.

End ByClass.

End source.

(** ** Recording the mutating calls

    A client wrapped so that every mutating call it receives is appended to
    a log, whatever the wrapped client answers. *)

Module tracing.

Local Open Scope list_scope.

(** A mutating call on the Azure record-sets client. *)
Inductive AzureCall : Type :=
| CallDelete (resourceGroup zone recordType name : string)
| CallCreateOrUpdate (resourceGroup zone recordType name : string)
    (parameters : azure.RecordSet).

Definition isDelete (c : AzureCall) : bool :=
  match c with
  | CallDelete _ _ _ _ => true
  | CallCreateOrUpdate _ _ _ _ _ => false
  end.

Definition isCreateOrUpdate (c : AzureCall) : bool := negb (isDelete c).

Definition azureTraced {B} (c : azure.PrivateRecordSetsClient B)
    : azure.PrivateRecordSetsClient (B * list AzureCall) :=
  azure.mkPrivateRecordSetsClient _
    (fun rg zone s => azure.NewListPager c rg zone (fst s))
    (fun rg zone recordType name s =>
       let '(err, b') := azure.Delete c rg zone recordType name (fst s) in
       (err, (b', snd s ++ [CallDelete rg zone recordType name])))
    (fun rg zone recordType name parameters s =>
       let '(err, b') := azure.CreateOrUpdate c rg zone recordType name parameters (fst s) in
       (err, (b', snd s ++ [CallCreateOrUpdate rg zone recordType name parameters]))).

(** The record types that [newRecordSet] builds a record set for. *)
Definition supportedType (recordType : string) : bool :=
  String.eqb recordType "A" || String.eqb recordType "AAAA"
  || String.eqb recordType "CNAME" || String.eqb recordType "MX"
  || String.eqb recordType "TXT".

Definition hasTTL (recordSet : azure.RecordSet) : bool :=
  match azure.RecordSet_Properties recordSet with
  | Some properties =>
      match azure.TTL properties with
      | Some _ => true
      | None => false
      end
  | None => false
  end.

(** A call in the resource group of the provider, on a relative name that
    is not empty; a CreateOrUpdate moreover of a supported record type, with
    a record set that carries a TTL. *)
Definition properCall (resourceGroup : string) (c : AzureCall) : bool :=
  match c with
  | CallDelete rg _ _ name => String.eqb rg resourceGroup && negb (String.eqb name "")
  | CallCreateOrUpdate rg _ recordType name parameters =>
      String.eqb rg resourceGroup && negb (String.eqb name "")
      && supportedType recordType && hasTTL parameters
  end.

(** A PATCH on the PowerDNS client: the zone id and the zone struct sent. *)
Abbreviation PdnsCall := (string * pdns.Zone)%type.

Definition pdnsTraced {B} (c : pdns.PDNSAPIProvider B)
    : pdns.PDNSAPIProvider (B * list PdnsCall) :=
  pdns.mkPDNSAPIProvider _
    (fun s => let '(r, b') := pdns.ListZones c (fst s) in (r, (b', snd s)))
    (pdns.PartitionZones c)
    (fun zoneID s => let '(r, b') := pdns.ListZone c zoneID (fst s) in (r, (b', snd s)))
    (fun zoneID zone s =>
       let '(err, b') := pdns.PatchZone c zoneID zone (fst s) in
       (err, (b', snd s ++ [(zoneID, zone)]))).

(** A PATCH creates (or replaces) the name when it carries a REPLACE rrset
    of that name, and deletes it when it carries a DELETE rrset of it. *)
Definition patches (changetype name : string) (c : PdnsCall) : bool :=
  existsb (fun rr => String.eqb (pdns.RrSet_Name rr) name
                     && String.eqb (pdns.RrSet_Changetype rr) changetype)
          (pdns.Zone_Rrsets (snd c)).

(** The ordering "the Delete of a name is issued before any Create of the
    same name", on a log of PATCH calls. *)
Definition deleteBeforeCreate (log : list PdnsCall) : Prop :=
  forall i j create delete name,
    log !! i = Some create -> patches pdns.PdnsReplace name create = true ->
    log !! j = Some delete -> patches pdns.PdnsDelete name delete = true ->
    (j < i)%nat.

(** All the rrsets of a PATCH carry the given changetype. *)
Definition allChangetype (changetype : string) (c : PdnsCall) : Prop :=
  Forall (fun rr => pdns.RrSet_Changetype rr = changetype) (pdns.Zone_Rrsets (snd c)).

(** A request on the generated zones API behind [PDNSAPIClient]: the
    arguments sent ([zoneID], and the zone struct of a PATCH) and what came
    back (the error, and the zone of a GET). *)
Abbreviation ZoneRequest := (string * pdns.Zone * option error)%type.

Definition patchLogged {A} (api : string -> pdns.Zone -> A -> option error * A)
    : string -> pdns.Zone -> A * list ZoneRequest -> option error * (A * list ZoneRequest) :=
  fun zoneID zoneStruct s =>
    let '(err, a') := api zoneID zoneStruct (fst s) in
    (err, (a', snd s ++ [(zoneID, zoneStruct, err)])).

Definition listLogged {A} (api : string -> A -> (pdns.Zone * option error) * A)
    : string -> A * list ZoneRequest -> (pdns.Zone * option error) * (A * list ZoneRequest) :=
  fun zoneID s =>
    let '((zone, err), a') := api zoneID (fst s) in
    ((zone, err), (a', snd s ++ [(zoneID, zone, err)])).

(** The independence "never the same underlying map instance", on two
    endpoints of a CoreDNS process memory. *)
Definition labelsIndependent {B} (s : coredns.Store B) (old new : nat) : Prop :=
  forall o n,
    coredns.objects s !! old = Some o -> coredns.objects s !! new = Some n ->
    endpoint.Labels o <> endpoint.Labels n.

End tracing.

(** ** Mock clients and sample data

    The clients used to exercise the providers, in the manner of the mock
    clients of the repository's tests. *)

Module examples.

Import endpoint.

(** A stand-in for [provider.EnsureTrailingDot]: the name with exactly one
    trailing dot. *)
Definition ensureTrailingDot (hostname : string) : string :=
  strings.TrimSuffix hostname "." ++ ".".

Definition ep (dnsName recordType : string) (ttl : Z) (targets : list string)
    : endpoint.Endpoint (gmap string string) :=
  NewEndpointWithTTL ∅ dnsName recordType ttl targets.

(** The two zones of the zone-selection example of the specification. *)
Definition zoneExample : pdns.Zone := pdns.mkZone "example.com." "example.com." [].
Definition zoneZone1 : pdns.Zone := pdns.mkZone "zone1.example.com." "zone1.example.com." [].

(** A PowerDNS mock: it serves a fixed list of zones, none filtered out,
    and logs the zones it is asked to patch. *)
Definition pdnsMock (zones : list pdns.Zone)
    : pdns.PDNSAPIProvider (list (string * pdns.Zone)) :=
  pdns.mkPDNSAPIProvider _
    (fun log => ((zones, None), log))
    (fun zones => (zones, []))
    (fun zoneID log => ((pdns.mkZone zoneID zoneID [], None), log))
    (fun zoneID zone log => (None, (log ++ [(zoneID, zone)])%list)).

(** A PowerDNS server: it lists its zones, serves the details of the zone
    with the given id (the empty zone when there is none) and accepts every
    patch without recording it. *)
Definition pdnsServer (zones : list pdns.Zone) : pdns.PDNSAPIProvider unit :=
  pdns.mkPDNSAPIProvider _
    (fun b => ((zones, None), b))
    (fun zones => (zones, []))
    (fun zoneID b =>
       ((default (pdns.mkZone "" "" [])
           (List.find (fun z => String.eqb (pdns.Zone_Id z) zoneID) zones), None), b))
    (fun _ _ b => (None, b)).

Definition zoneOther : pdns.Zone := pdns.mkZone "other.org." "other.org." [].

(** A PowerDNS mock behind a domain filter for example.com: it lists the
    zones example.com and other.org and partitions them as PDNSAPIClient
    does. *)
Definition pdnsFiltering : pdns.PDNSAPIProvider unit :=
  pdns.mkPDNSAPIProvider _
    (fun b => (([zoneExample; zoneOther], None), b))
    (pdns.APIClient_PartitionZones true (fun name => strings.HasSuffix name "example.com."))
    (fun zoneID b => ((pdns.mkZone zoneID zoneID [], None), b))
    (fun _ _ b => (None, b)).

(** A zone with an A rrset that has a disabled record, and an ALIAS rrset. *)
Definition zoneWithRecords : pdns.Zone :=
  pdns.mkZone "example.com." "example.com."
    [pdns.mkRrSet "www.example.com." "A" 300 ""
       [pdns.mkRecord "1.2.3.4" false; pdns.mkRecord "5.6.7.8" true];
     pdns.mkRrSet "example.com." "ALIAS" 60 "" [pdns.mkRecord "lb.example.net." false]].

(** An Azure mock: it answers every call with success and serves the given
    pages for every zone. *)
Definition azureMock (pages : list (error + list azure.RecordSet))
    : azure.PrivateRecordSetsClient unit :=
  azure.mkPrivateRecordSetsClient _
    (fun _ _ _ => pages)
    (fun _ _ _ _ b => (None, b))
    (fun _ _ _ _ _ b => (None, b)).

Definition azureZones : list azure.PrivateZone :=
  [azure.mkPrivateZone (Some "/privateDnsZones/example.com") (Some "example.com")].

(** A stand-in for [parseMxTarget]: the whole target as exchange. *)
Definition parseMx (target : string) : error + azure.MxRecord :=
  inr (azure.mkMxRecord (Some 10) (Some target)).

(** A stand-in for [TTL.IsConfigured]. *)
Definition ttlIsConfigured (ttl : Z) : bool := 0 <? ttl.

(** A stand-in for [formatAzureDNSName]. *)
Definition formatName (recordName zoneName : string) : string :=
  if String.eqb recordName "@" then zoneName else recordName ++ "." ++ zoneName.

(** The Azure provider of the examples: no filter excludes anything, maps
    are ranged over in the order of [map_to_list], the zones cache has
    expired and the zones client serves [azureZones] in one page. *)
Definition azureApplyChanges {B} (dryRun : bool) (client : azure.PrivateRecordSetsClient B)
    (changes : plan.Changes (endpoint.Endpoint (gmap string string)))
    : go.M (azure.State B) (option error) :=
  azure.ApplyChanges (fun _ => true) (fun _ => true) [] (fun _ => true)
    azure.longestZone parseMx 300 ttlIsConfigured map_to_list dryRun "rg"
    [inr azureZones] client 0 changes.

Definition azureRecords {B} (client : azure.PrivateRecordSetsClient B)
    : go.M (azure.State B) (error + list (endpoint.Endpoint (gmap string string))) :=
  azure.Records (fun _ => true) (fun _ => true) [] (fun _ => true)
    formatName "rg" [inr azureZones] client 0.

Definition azureStart {B} (b : B) : azure.State B :=
  azure.mkState (azure.mkZonesCache 0 0 []) b.

(** A change set that deletes one record and creates another, with one
    change outside every zone. *)
Definition sampleChanges : plan.Changes (endpoint.Endpoint (gmap string string)) :=
  plan.mkChanges
    [ep "new.example.com" "A" 0 ["1.2.3.4"]; ep "stray.other.org" "A" 0 ["5.6.7.8"]]
    []
    [ep "old.example.com" "CNAME" 0 ["lb.example.net"]].

(** A change set that replaces the A record of a name by a CNAME record. *)
Definition switchChanges : plan.Changes (endpoint.Endpoint (gmap string string)) :=
  plan.mkChanges
    [ep "www.example.com" "CNAME" 0 ["lb.example.net"]]
    []
    [ep "www.example.com" "A" 0 ["1.2.3.4"]].

(** A server that answers every zone listing with an error, counting the
    calls. *)
Definition unavailable (calls : nat) : (list pdns.Zone * option error) * nat :=
  (([], Some (errorsNew "503 Service Unavailable")), S calls).

(** A PowerDNS client whose server is down: every call fails, and is
    counted. *)
Definition pdnsDown : pdns.PDNSAPIProvider nat :=
  pdns.mkPDNSAPIProvider _
    unavailable
    (fun zones => (zones, []))
    (fun _ calls =>
       ((pdns.mkZone "" "" [], Some (errorsNew "503 Service Unavailable")), S calls))
    (fun _ _ calls => (Some (errorsNew "503 Service Unavailable"), S calls)).

(** A CoreDNS mock: etcd as the list of the services saved, in order; it
    serves that list and forgets a service when its key is deleted. *)
Definition corednsMock : coredns.coreDNSClient (list coredns.Service) :=
  coredns.mkCoreDNSClient _
    (fun _ services => (inr services, services))
    (fun service services => (None, (services ++ [service])%list))
    (fun key services =>
       (None, List.filter (fun s => negb (String.eqb (coredns.Key s) key)) services)).

Definition service (host text : string) (key : string) : coredns.Service :=
  coredns.mkService host 0 10 0 text false 30 1 "" key.

(** Two services that carry the two addresses of one name. *)
Definition twoHosts : list coredns.Service :=
  [service "1.1.1.1" "" "/skydns/com/example/a/1a2b3c4d";
   service "2.2.2.2" "" "/skydns/com/example/a/5e6f7a8b"].

(** The CoreDNS provider of the examples: no name is filtered out, maps
    are ranged over in the order of [map_to_list], the random prefixes are
    spelled from the number of the draw. *)
Definition corednsRecords
    : go.M (coredns.Store (list coredns.Service)) (error + list nat) :=
  coredns.Records (fun _ => true) (fun _ => true) "/skydns/" corednsMock.

Definition prefixOfDraw (draw : nat) : string :=
  "0000000" ++ NilZero.string_of_uint (Nat.to_uint draw).

Definition corednsApplyChanges (dryRun : bool) (changes : plan.Changes nat)
    : go.M (coredns.Store (list coredns.Service)) (option error) :=
  coredns.ApplyChanges (fun _ => true) prefixOfDraw map_to_list map_to_list dryRun
    "/skydns/" corednsMock changes.

Definition corednsGroupEndpoints (changes : plan.Changes nat)
    : go.M (coredns.Store (list coredns.Service)) (gmap string (list nat)) :=
  coredns.groupEndpoints changes.

(** A process memory with four endpoints, each with its own label map:
    one to create, the old and the new side of an update, one to delete. *)
Definition sampleStore : coredns.Store (list coredns.Service) :=
  coredns.mkStore
    [endpoint.mkEndpoint "new.example.com" ["1.1.1.1"] "A" "" 30 0%nat;
     endpoint.mkEndpoint "www.example.com" ["2.2.2.2"] "A" "" 30 1%nat;
     endpoint.mkEndpoint "www.example.com" ["3.3.3.3"] "A" "" 30 2%nat;
     endpoint.mkEndpoint "gone.example.com" ["4.4.4.4"] "A" "" 30 3%nat]
    [∅; <["2.2.2.2" := "0a1b2c3d"]> (<["prefix" := "0a1b2c3d"]> ∅); ∅;
     <["prefix" := "4e5f6a7b"]> ∅]
    0
    [service "2.2.2.2" "" "/skydns/com/example/www/0a1b2c3d";
     service "4.4.4.4" "" "/skydns/com/example/gone/4e5f6a7b"].

Definition storeChanges : plan.Changes nat :=
  plan.mkChanges [0%nat] [(1%nat, 2%nat)] [3%nat].

(** An Azure record set of type A, as the service lists it. *)
Definition aRecordSet : azure.RecordSet :=
  azure.mkRecordSet (Some "www") (Some "Microsoft.Network/privateDnsZones/A")
    (Some (azure.mkRecordSetProperties (Some 300) [azure.mkARecord (Some "1.2.3.4")]
             [] None [] [])).

(** A stand-in for [json.Unmarshal]: the value read as the host of the
    service, the other fields at their zero values. *)
Definition unmarshalHost (value : string) : error + coredns.Service :=
  inr (coredns.mkService value 0 0 0 "" false 0 0 "" "").

(** An etcd that holds two keys. *)
Definition twoKeys : list (string * string) :=
  [("/skydns/com/example/a/1a2b3c4d", "1.1.1.1");
   ("/skydns/com/example/b/5e6f7a8b", "2.2.2.2")].

(** A process memory with an A endpoint and a TXT endpoint of one name. *)
Definition txtStore : coredns.Store (list coredns.Service) :=
  coredns.mkStore
    [endpoint.mkEndpoint "www.example.com" ["1.1.1.1"] "A" "" 30 0%nat;
     endpoint.mkEndpoint "www.example.com" ["heritage=external-dns"] "TXT" "" 30 1%nat]
    [∅; ∅] 0 [].

(** An ingress of class nginx with a rule host, a TLS host and a load
    balancer address; its hostname-source annotation holds a value that is
    none of the two known ones. *)
Definition ingressExample : source.Ingress :=
  source.mkIngress "default" "web"
    (<["external-dns.alpha.kubernetes.io/ingress-hostname-source" := "both"]> ∅)
    (Some "nginx")
    [source.mkIngressRule "www.example.com"; source.mkIngressRule ""]
    [source.mkIngressTLS ["tls.example.com"]]
    [source.mkIngressLoadBalancerIngress "10.0.0.1" ""].

(** A stand-in for [EndpointsForHostname]: one A endpoint with the targets. *)
Definition endpointsForHostname (hostname : string) (targets : list string) (ttl : Z)
    (providerSpecific : unit) (setIdentifier resource : string)
    : list (endpoint.Endpoint (gmap string string)) :=
  [endpoint.mkEndpoint hostname targets "A" setIdentifier ttl ∅].

(** An ingress source that requires the class nginx. *)
Definition nginxSource : source.ingressSource unit :=
  source.mkIngressSource "default" "" (Some ["nginx"]) tt false false false false.

End examples.

(** ** Invariants and relations of the proofs *)

Module invariants.

Import endpoint.

Local Open Scope list_scope.

(** [m] takes every state to one related to it by [I], also when it panics. *)
Definition preserves {S : Type} (I : S -> S -> Prop) {A : Type} (m : go.M S A) : Prop :=
  forall s, I s (snd (m s)).

(** The number of rrsets of a zone list. *)
Definition rrsetCount (zoneList : list pdns.Zone) : nat :=
  length (concat (map pdns.Zone_Rrsets zoneList)).

(** The endpoint that stands for an rrset when it is read: the rrset's name
    and TTL, the contents of its enabled records, and its type, with ALIAS
    read as CNAME. *)
Definition readBack (rr : pdns.RrSet) : pdns.Endpoint :=
  mkEndpoint (pdns.RrSet_Name rr)
    (map pdns.Record_Content
         (List.filter (fun r => negb (pdns.Record_Disabled r)) (pdns.RrSet_Records rr)))
    (if String.eqb (pdns.RrSet_Type_ rr) "ALIAS" then "CNAME" else pdns.RrSet_Type_ rr)
    "" (pdns.RrSet_Ttl rr) ∅.

(** The PATCH log grew by patches that all satisfy [P]. *)
Definition patchedOnly {B : Type} (P : tracing.PdnsCall -> Prop)
    (s s' : B * list tracing.PdnsCall) : Prop :=
  exists l, snd s' = snd s ++ l /\ Forall P l.

(** A PATCH addressed to the zone it carries, with at least one rrset. *)
Definition properPatch (c : tracing.PdnsCall) : Prop :=
  fst c = pdns.Zone_Id (snd c) /\ pdns.Zone_Rrsets (snd c) <> [].

(** A PATCH whose rrsets are each the rrset that [ConvertEndpointsToZones]
    builds, for the given changetype, from an endpoint of [eps]. *)
Definition builtFrom (EnsureTrailingDot : string -> string) (eps : list pdns.Endpoint)
    (ct : string) (c : tracing.PdnsCall) : Prop :=
  Forall (fun rr => exists zone e,
            In e eps /\ pdns.rrsetFor EnsureTrailingDot zone e ct = inr rr)
         (pdns.Zone_Rrsets (snd c)).

(** The PATCH log grew by patches whose rrsets all carry one changetype. *)
Definition patchedWith {B : Type} (ct : string) (s s' : B * list tracing.PdnsCall) : Prop :=
  exists l, snd s' = snd s ++ l /\ Forall (tracing.allChangetype ct) l.

(** The name and the record type of an endpoint, by which PowerDNS sorts. *)
Definition nameAndType (e : pdns.Endpoint) : string * string :=
  (DNSName e, RecordType e).

(** Endpoints that agree in name and record type are the same endpoint. *)
Definition distinctKeys (eps : list pdns.Endpoint) : Prop :=
  forall a b, In a eps -> In b eps ->
    DNSName a = DNSName b -> RecordType a = RecordType b -> a = b.

(** The zones that the Azure provider keeps when it lists them: named
    zones that pass the domain filter and the zone id filter, or, when zone
    name filters are set, that pass the zone name filter. *)
Definition acceptsZone (domainFilter_Match zoneNameFilter_Match : string -> bool)
    (zoneNameFilter_Filters : list string) (zoneIDFilter_Match : string -> bool)
    (zone : azure.PrivateZone) : bool :=
  match azure.PrivateZone_Name zone, azure.PrivateZone_ID zone with
  | Some name, Some id =>
      domainFilter_Match name && zoneIDFilter_Match id
      || (0 <? length zoneNameFilter_Filters)%nat && zoneNameFilter_Match name
  | _, _ => false
  end.

Section Azure.

Context {B : Type}.
Variable FindZone : gmap string string -> string -> string * string.
Variable rangeMap : gmap string (list azure.Endpoint) -> list (string * list azure.Endpoint).

(** Every entry of a change map was routed to its key by the zone finder. *)
Definition routed (mapper : gmap string string) (m : gmap string (list azure.Endpoint))
    : Prop :=
  forall zone eps, m !! zone = Some eps ->
    zone <> "" /\ forall e, In e eps -> fst (FindZone mapper (DNSName e)) = zone.

(** A change whose name finds the given zone. *)
Definition routesTo (mapper : gmap string string) (zone : string) (e : azure.Endpoint)
    : bool :=
  String.eqb (fst (FindZone mapper (DNSName e))) zone.

(** A change whose name finds a zone. *)
Definition routable (mapper : gmap string string) (e : azure.Endpoint) : bool :=
  negb (String.eqb (fst (FindZone mapper (DNSName e))) "").

(** A change set without the changes whose name finds no zone. *)
Definition routableChanges (mapper : gmap string string)
    (changes : plan.Changes azure.Endpoint) : plan.Changes azure.Endpoint :=
  plan.mkChanges
    (List.filter (routable mapper) (plan.Create changes))
    (List.filter (fun u => routable mapper (snd u)) (plan.Update changes))
    (List.filter (routable mapper) (plan.Delete changes)).

Definition sameBackend (s s' : azure.State B) : Prop :=
  azure.backend s' = azure.backend s.

(** The zones of a change map are not longer than the names routed to
    them. *)
Definition fits (m : gmap string (list azure.Endpoint)) : Prop :=
  forall zone eps e, In (zone, eps) (rangeMap m) -> In e eps ->
    (String.length zone <= String.length (DNSName e))%nat.

(** The log of the calls behind a traced client. *)
Definition logOf (s : azure.State (B * list tracing.AzureCall)) : list tracing.AzureCall :=
  snd (azure.backend s).

(** The log grew by calls of one kind only. *)
Definition grewBy (kind : tracing.AzureCall -> bool)
    (s s' : azure.State (B * list tracing.AzureCall)) : Prop :=
  exists l, logOf s' = logOf s ++ l /\ Forall (fun call => kind call = true) l.

End Azure.

(** A zone as the Azure service returns it: with a name and an id. *)
Definition identified (zone : azure.PrivateZone) : Prop :=
  azure.PrivateZone_Name zone <> None /\ azure.PrivateZone_ID zone <> None.

(** An endpoint with at least one target. *)
Definition targeted (e : azure.Endpoint) : Prop := Targets e <> [].

(** The service that GetServices returns for a key-value pair. *)
Definition readAs (Unmarshal : string -> error + coredns.Service)
    (kv : string * string) (svc : coredns.Service) : Prop :=
  exists decoded,
    Unmarshal (snd kv) = inr decoded /\
    svc = (let svc := coredns.set_Key (fst kv) decoded in
           if coredns.Priority svc =? 0
           then coredns.set_Priority coredns.priority svc else svc).

(** The texts of the TXT endpoints of a group, in the order of the group:
    the first target of each. *)
Definition txtTexts {B : Type} (s : coredns.Store B) (group : list nat) : list string :=
  flat_map
    (fun p =>
       match coredns.objects s !! p with
       | Some e => if String.eqb (RecordType e) RecordTypeTXT then take 1 (Targets e) else []
       | None => []
       end)
    group.

(** A pointer to an endpoint that, if it is a TXT endpoint, has a target. *)
Definition txtReady {B : Type} (s : coredns.Store B) (p : nat) : Prop :=
  exists e, coredns.objects s !! p = Some e /\
            (RecordType e = RecordTypeTXT -> Targets e <> []).

(** The process memory but for the count of the random draws. *)
Definition sameMemory {B : Type} (s s' : coredns.Store B) : Prop :=
  coredns.objects s' = coredns.objects s /\
  coredns.labelMaps s' = coredns.labelMaps s /\
  coredns.etcd s' = coredns.etcd s.

(** A service as GetServices hands it out: what was decoded, with the key
    it was found under and the default priority in place of none. *)
Definition asRead (key : string) (svc : coredns.Service) : coredns.Service :=
  let svc := coredns.set_Key key svc in
  if coredns.Priority svc =? 0 then coredns.set_Priority coredns.priority svc else svc.

(** A string that is not empty. *)
Definition nonEmpty (s : string) : bool := negb (String.eqb s "").

(** The hosts that an ingress defines: those of its rules, unless they are
    ignored, then those of its TLS sections, unless they are ignored; the
    empty ones left out. *)
Definition definedHosts (ing : source.Ingress)
    (ignoreIngressTLSSpec ignoreIngressRulesSpec : bool) : list string :=
  (if ignoreIngressRulesSpec then []
   else List.filter nonEmpty (map source.Host (source.Spec_Rules ing)))
  ++ (if ignoreIngressTLSSpec then []
      else List.filter nonEmpty (concat (map source.Hosts (source.Spec_TLS ing)))).

(** Whether an ingress is of one of the classes [names]: by its class name
    when it has one that is not empty, by its annotations otherwise. *)
Definition ofClass (matchLabelSelector : list source.Requirement -> gmap string string -> bool)
    (selector : list source.Requirement) (names : list string)
    (ingress : source.Ingress) : bool :=
  match source.Spec_IngressClassName ingress with
  | Some className =>
      if (0 <? String.length className)%nat
      then existsb (fun nameFilter => String.eqb nameFilter className) names
      else matchLabelSelector selector (source.Annotations ingress)
  | None => matchLabelSelector selector (source.Annotations ingress)
  end.

Section Ingress.

Context {ProviderSpecific : Type}.
Variable TTLFromAnnotations : gmap string string -> string -> Z.
Variable TargetsFromTargetAnnotation : gmap string string -> list string.
Variable ProviderSpecificAnnotations : gmap string string -> ProviderSpecific * string.
Variable EndpointsForHostname :
  string -> list string -> Z -> ProviderSpecific -> string -> string -> list source.Endpoint.

(** The endpoints built for a hostname of an ingress: with the targets of
    the target annotation, or else of the status, and the TTL, the
    provider-specific properties, the set identifier and the resource label
    read from the ingress. *)
Definition forHostnameOf (ing : source.Ingress) (hostname : string) : list source.Endpoint :=
  let resource := ("ingress/" ++ source.Namespace ing ++ "/" ++ source.Name ing)%string in
  let targets := TargetsFromTargetAnnotation (source.Annotations ing) in
  EndpointsForHostname hostname
    (if (length targets =? 0)%nat
     then source.targetsFromIngressStatus (source.Status_LoadBalancer_Ingress ing)
     else targets)
    (TTLFromAnnotations (source.Annotations ing) resource)
    (fst (ProviderSpecificAnnotations (source.Annotations ing)))
    (snd (ProviderSpecificAnnotations (source.Annotations ing)))
    resource.

End Ingress.

Section Reading.

Context {B : Type}.
Variable domainFilter_Match : string -> bool.
Variable coreDNSPrefix : string.

(** The labels of the key of a service below the prefix, the most
    significant last. *)
Definition domainsOf (service : coredns.Service) : list string :=
  rev (strings.Split (strings.TrimPrefix (coredns.Key service) coreDNSPrefix) "/").

(** TargetStrip is a number of labels of the key. *)
Definition stripInRange (service : coredns.Service) : Prop :=
  0 <= coredns.TargetStrip service <= Z.of_nat (length (domainsOf service)).

(** The DNS name that a service stands for. *)
Definition nameOfService (service : coredns.Service) : string :=
  strings.Join (drop (Z.to_nat (coredns.TargetStrip service)) (domainsOf service)) ".".

(** The number of entries that a service adds to the records: one for its
    host, one for its text, none when the domain filter rejects its name. *)
Definition yield (service : coredns.Service) : nat :=
  if domainFilter_Match (nameOfService service)
  then ((if String.eqb (coredns.Host service) "" then 0 else 1)
        + (if String.eqb (coredns.Text service) "" then 0 else 1))%nat
  else 0%nat.

(** Every endpoint object holds a label map of the memory, and every
    pointer of [result] an object. *)
Definition tidy (s : coredns.Store B) (result : list nat) : Prop :=
  Forall (fun e => (Labels e < length (coredns.labelMaps s))%nat) (coredns.objects s) /\
  Forall (fun p => (p < length (coredns.objects s))%nat) result.

End Reading.

(** Whether a pointer holds an endpoint of the given DNS name. *)
Definition named {B : Type} (s : coredns.Store B) (dnsName : string) (p : nat) : bool :=
  match coredns.objects s !! p with
  | Some e => String.eqb (DNSName e) dnsName
  | None => false
  end.

(** A pointer to an endpoint object. *)
Definition live {B : Type} (s : coredns.Store B) (p : nat) : Prop :=
  (p < length (coredns.objects s))%nat.

Section Settled.

Context {B : Type}.
Variable coreDNSPrefix : string.

(** The service of a target of an endpoint whose prefix is in the labels. *)
Definition serviceOf (s : coredns.Store B) (dnsName : string) (e : coredns.Endpoint)
    (target : string) : coredns.Service :=
  let prefix := default "" (coredns.labelsAt s (Labels e) !! target) in
  coredns.mkService target 0 0 0
    (default "" (coredns.labelsAt s (Labels e) !! "originalText")) false
    (coredns.uint32 (RecordTTL e)) (Z.of_nat (strings.Count prefix ".") + 1) ""
    (coredns.etcdKeyFor coreDNSPrefix (prefix ++ "." ++ dnsName)).

(** A target whose prefix is in the labels of the endpoint. *)
Definition known (s : coredns.Store B) (e : coredns.Endpoint) (target : string) : Prop :=
  exists prefix, coredns.labelsAt s (Labels e) !! target = Some prefix /\ prefix <> "".

End Settled.

Section CoreDNS.

Context {B : Type}.

(** The sizes of the two stores; [ApplyChanges] allocates in neither. *)
Variable n k : nat.

Definition sameEtcd (s s' : coredns.Store B) : Prop := coredns.etcd s' = coredns.etcd s.

(** An endpoint object whose label map exists and which, if it is a TXT
    endpoint, has a target. *)
Definition sound (e : coredns.Endpoint) : Prop :=
  (Labels e < k)%nat /\ (RecordType e = RecordTypeTXT -> Targets e <> []).

Definition wellFormed (s : coredns.Store B) : Prop :=
  length (coredns.objects s) = n /\ length (coredns.labelMaps s) = k /\
  Forall sound (coredns.objects s).

(** [m] returns on every well-formed store, in a well-formed store, a
    value that satisfies [Q]. *)
Definition total {A : Type} (m : go.M (coredns.Store B) A) (Q : A -> Prop) : Prop :=
  forall s, wellFormed s ->
    exists a s', m s = (go.returns a, s') /\ wellFormed s' /\ Q a.

(** Every pointer of every group is in the store. *)
Definition validGroups (grouped : gmap string (list nat)) : Prop :=
  forall dnsName group, grouped !! dnsName = Some group -> Forall (fun p => (p < n)%nat) group.

(** The pointers of a change set are in the store. *)
Definition validChanges (changes : plan.Changes nat) : Prop :=
  Forall (fun p => (p < n)%nat) (plan.Create changes) /\
  Forall (fun u => (fst u < n)%nat /\ (snd u < n)%nat) (plan.Update changes) /\
  Forall (fun p => (p < n)%nat) (plan.Delete changes).

End CoreDNS.

End invariants.

(** * Properties *)

(** ** Strings *)

Module strings_facts.

Lemma substring_whole (s : string) : substring 0 (String.length s) s = s.
Proof. induction s as [|c s IH]; simpl; [reflexivity|now rewrite IH]. Qed.

Lemma substring_after (pre suffix : string) :
  substring (String.length pre) (String.length suffix) (pre ++ suffix)%string = suffix.
Proof.
  induction pre as [|c pre IH]; simpl; [apply substring_whole|exact IH].
Qed.

Lemma substring_cut (s : string) : forall k,
  (k <= String.length s)%nat ->
  (substring 0 k s ++ substring k (String.length s - k) s)%string = s.
Proof.
  induction s as [|c s IH]; intros k Hk; simpl in Hk.
  - assert (k = 0%nat) as -> by lia. reflexivity.
  - destruct k as [|k].
    + change (substring 0 (String.length (String c s)) (String c s) = String c s).
      apply substring_whole.
    + change (String c (substring 0 k s ++ substring k (String.length s - k) s)%string
              = String c s).
      f_equal. apply IH. lia.
Qed.

Lemma length_append (s1 s2 : string) :
  String.length (s1 ++ s2)%string = (String.length s1 + String.length s2)%nat.
Proof. induction s1 as [|c s1 IH]; simpl; [reflexivity|now rewrite IH]. Qed.

(** [strings.HasSuffix] holds exactly of the strings that end with the
    suffix. *)
Lemma HasSuffix_iff (s suffix : string) :
  strings.HasSuffix s suffix = true <-> exists pre, s = (pre ++ suffix)%string.
Proof.
  unfold strings.HasSuffix. split.
  - intros H. apply andb_true_iff in H as [Hlen Heq].
    apply Nat.leb_le in Hlen. apply String.eqb_eq in Heq.
    remember (String.length suffix) as m eqn:Hm.
    exists (substring 0 (String.length s - m) s).
    rewrite <- Heq.
    pose proof (substring_cut s (String.length s - m)) as Hcut.
    replace (String.length s - (String.length s - m))%nat with m in Hcut by lia.
    symmetry. apply Hcut. lia.
  - intros [pre ->]. rewrite length_append. apply andb_true_iff. split.
    + apply Nat.leb_le. lia.
    + replace (String.length pre + String.length suffix - String.length suffix)%nat
        with (String.length pre) by lia.
      rewrite substring_after. apply String.eqb_refl.
Qed.

End strings_facts.

(** ** Sorting *)

Module sort_facts.

Section Stable.
Context {A : Type} (less : A -> A -> bool).

Lemma insert_perm (x : A) (l : list A) :
  Permutation (sort.insert less x l) (x :: l).
Proof.
  induction l as [|y l IH]; simpl; [reflexivity|].
  destruct (less y x); [|reflexivity].
  rewrite IH. apply perm_swap.
Qed.

Lemma SliceStable_perm (l : list A) : Permutation (sort.SliceStable less l) l.
Proof.
  induction l as [|x l IH]; simpl; [reflexivity|].
  rewrite insert_perm. now constructor.
Qed.

Lemma SliceStable_In (l : list A) (x : A) :
  In x (sort.SliceStable less l) <-> In x l.
Proof.
  split; apply Permutation_in; [|symmetry]; apply SliceStable_perm.
Qed.

(** Sorting by a numeric key, largest first. *)
Variable key : A -> nat.
Hypothesis less_key : forall a b, less a b = (key b <? key a)%nat.

Lemma insert_sorted (x : A) (l : list A) :
  StronglySorted (fun a b => (key b <= key a)%nat) l ->
  StronglySorted (fun a b => (key b <= key a)%nat) (sort.insert less x l).
Proof.
  induction 1 as [|y l Hs IH Hy]; simpl.
  - repeat constructor.
  - rewrite less_key. destruct (Nat.ltb_spec (key x) (key y)) as [Hlt|Hge].
    + constructor; [exact IH|].
      rewrite List.Forall_forall. intros z Hz.
      apply (Permutation_in _ (insert_perm x l)) in Hz.
      destruct Hz as [<-|Hz]; [lia|].
      rewrite List.Forall_forall in Hy. now apply Hy.
    + constructor; [now constructor|].
      constructor; [exact Hge|].
      rewrite List.Forall_forall in Hy |- *. intros z Hz.
      specialize (Hy z Hz). lia.
Qed.

Lemma SliceStable_sorted (l : list A) :
  StronglySorted (fun a b => (key b <= key a)%nat) (sort.SliceStable less l).
Proof.
  induction l as [|x l IH]; simpl; [constructor|].
  now apply insert_sorted.
Qed.

End Stable.

End sort_facts.

(** ** PowerDNS: the conversion loops *)

Module pdns_facts.

Import endpoint pdns invariants.

Local Open Scope list_scope.

Lemma HasSuffix_length (s suffix : string) :
  strings.HasSuffix s suffix = true ->
  (String.length suffix <= String.length s)%nat.
Proof.
  unfold strings.HasSuffix. intros H.
  apply andb_true_iff in H as [H _]. now apply Nat.leb_le.
Qed.

Lemma int32_id (x : Z) : - 2 ^ 31 <= x <= MaxInt32 -> int32 x = x.
Proof.
  unfold int32, MaxInt32. intros H.
  rewrite Z.mod_small; lia.
Qed.

Section Loops.

Variable EnsureTrailingDot : string -> string.

Abbreviation dnsnameOf ep := (EnsureTrailingDot (DNSName ep)).
Abbreviation matches z := (fun ep : Endpoint => matchesZone (dnsnameOf ep) z).
Abbreviation rrsetOf := (rrsetFor EnsureTrailingDot).

(** What [rrsetFor] fixes whatever the TTL branch. *)
Lemma rrsetFor_fields zone ep ct rr :
  rrsetOf zone ep ct = inr rr ->
  RrSet_Name rr = dnsnameOf ep /\
  RrSet_Changetype rr = ct /\
  RrSet_Records rr = recordsOf EnsureTrailingDot ep /\
  RrSet_Type_ rr =
    (if String.eqb (dnsnameOf ep) (Zone_Name zone) && String.eqb (RecordType ep) "CNAME"
     then "ALIAS" else RecordType ep).
Proof.
  unfold rrsetFor. intros H.
  destruct (String.eqb ct PdnsReplace).
  - destruct (MaxInt32 <? RecordTTL ep); [discriminate|].
    destruct (RecordTTL ep =? 0); inversion H; subst; simpl; auto.
  - inversion H; subst; simpl; auto.
Qed.

(** The error of [rrsetFor] is the TTL overflow, and it is soft. *)
Lemma rrsetFor_inl zone ep ct err :
  rrsetOf zone ep ct = inl err ->
  ct = PdnsReplace /\ MaxInt32 < RecordTTL ep /\ provider.IsSoftError err = true.
Proof.
  unfold rrsetFor. intros H.
  destruct (String.eqb_spec ct PdnsReplace) as [->|]; [|discriminate].
  destruct (Z.ltb_spec MaxInt32 (RecordTTL ep)); [|destruct (RecordTTL ep =? 0); discriminate].
  inversion H; subst. auto.
Qed.

Lemma rrsetFor_zone_irrelevant zone zone' ep ct rr :
  rrsetOf zone ep ct = inr rr -> exists rr', rrsetOf zone' ep ct = inr rr'.
Proof.
  unfold rrsetFor. intros H.
  destruct (String.eqb ct PdnsReplace); [|eauto].
  destruct (MaxInt32 <? RecordTTL ep); [discriminate|].
  destruct (RecordTTL ep =? 0); eauto.
Qed.

(** The result of the loop over one zone. *)
Lemma popMatching_inr zone ct todo : forall rrsets kept rrsets' kept',
  popMatching EnsureTrailingDot zone ct rrsets kept todo = inr (rrsets', kept') ->
  kept' = kept ++ List.filter (fun ep => negb (matches zone ep)) todo /\
  exists rs, rrsets' = rrsets ++ rs /\
    Forall2 (fun ep rr => rrsetOf zone ep ct = inr rr)
            (List.filter (matches zone) todo) rs.
Proof.
  induction todo as [|ep rest IH]; simpl; intros rrsets kept rrsets' kept' H.
  - inversion H; subst. split; [now rewrite app_nil_r|].
    exists []. split; [now rewrite app_nil_r|constructor].
  - destruct (matchesZone (dnsnameOf ep) zone) eqn:Hm; simpl.
    + destruct (rrsetOf zone ep ct) as [err|rr] eqn:Hrr; [discriminate|].
      apply IH in H as [-> (rs & -> & HF)]. split; [reflexivity|].
      exists (rr :: rs). split; [now rewrite <- app_assoc|].
      now constructor.
    + apply IH in H as [-> (rs & -> & HF)]. split; [now rewrite <- app_assoc|].
      exists rs. auto.
Qed.

Lemma popMatching_inl zone ct todo : forall rrsets kept err,
  popMatching EnsureTrailingDot zone ct rrsets kept todo = inl err ->
  exists ep, In ep todo /\ matches zone ep = true /\ rrsetOf zone ep ct = inl err.
Proof.
  induction todo as [|ep rest IH]; simpl; intros rrsets kept err H; [discriminate|].
  destruct (matchesZone (dnsnameOf ep) zone) eqn:Hm.
  - destruct (rrsetOf zone ep ct) as [err'|rr] eqn:Hrr.
    + inversion H; subst. exists ep. auto.
    + apply IH in H as (ep' & Hin & Hm' & Hrr'). exists ep'. auto.
  - apply IH in H as (ep' & Hin & Hm' & Hrr'). exists ep'. auto.
Qed.

Lemma Forall2_In_l {X Y} (R : X -> Y -> Prop) (xs : list X) (ys : list Y) (x : X) :
  Forall2 R xs ys -> In x xs -> exists y, In y ys /\ R x y.
Proof.
  induction 1 as [|x0 y0 xs ys HR HF IH]; simpl; [tauto|].
  intros [->|Hin]; [eauto|].
  destruct (IH Hin) as (y & Hy & HRy). eauto.
Qed.

Lemma Forall2_In_r {X Y} (R : X -> Y -> Prop) (xs : list X) (ys : list Y) (y : Y) :
  Forall2 R xs ys -> In y ys -> exists x, In x xs /\ R x y.
Proof.
  induction 1 as [|x0 y0 xs ys HR HF IH]; simpl; [tauto|].
  intros [->|Hin]; [eauto|].
  destruct (IH Hin) as (x & Hx & HRx). eauto.
Qed.

(** Soundness of the loop over the filtered zones: the zone list only
    grows, and every rrset of a zone added comes from an endpoint that
    matches this zone and none of the zones tried before it. *)
Lemma filteredLoop_sound ct zones : forall zoneList endpoints zoneList' endpoints',
  filteredLoop EnsureTrailingDot ct zoneList endpoints zones = inr (zoneList', endpoints') ->
  endpoints' =
    List.filter (fun ep => negb (existsb (fun z => matches z ep) zones)) endpoints /\
  exists out, zoneList' = zoneList ++ out /\
    forall z', In z' out -> Zone_Rrsets z' <> [] /\
      exists pre zone post, zones = pre ++ zone :: post /\
        z' = set_Rrsets (Zone_Rrsets z') zone /\
        forall rr, In rr (Zone_Rrsets z') ->
          exists ep, In ep endpoints /\ matches zone ep = true /\
            (forall z0, In z0 pre -> matches z0 ep = false) /\
            rrsetOf zone ep ct = inr rr.
Proof.
  induction zones as [|zone zones IH]; simpl; intros zl eps zl' eps' H.
  - inversion H; subst. split.
    + induction eps' as [|e l IHl]; simpl; [reflexivity|now rewrite <- IHl].
    + exists []. split; [now rewrite app_nil_r|]. intros z' [].
  - destruct (popMatching EnsureTrailingDot zone ct [] [] eps) as [err|[rrsets eps1]] eqn:Hpop;
      [discriminate|].
    apply popMatching_inr in Hpop as [Heps1 (rs & Hrs & HF)].
    simpl in Heps1, Hrs. subst rs eps1.
    apply IH in H as [-> (out & -> & Hout)]. split.
    + clear. induction eps as [|e l IHl]; simpl; [reflexivity|].
      destruct (matchesZone (dnsnameOf e) zone); simpl; [exact IHl|].
      destruct (existsb _ zones); simpl; [exact IHl|now rewrite IHl].
    + assert (Htail : forall z', In z' out -> Zone_Rrsets z' <> [] /\
        exists pre zone0 post, zone :: zones = pre ++ zone0 :: post /\
          z' = set_Rrsets (Zone_Rrsets z') zone0 /\
          forall rr, In rr (Zone_Rrsets z') ->
            exists ep, In ep eps /\ matches zone0 ep = true /\
              (forall z0, In z0 pre -> matches z0 ep = false) /\
              rrsetOf zone0 ep ct = inr rr).
      { intros z' Hz'. destruct (Hout z' Hz') as [Hne (pre & zone0 & post & -> & Hset & Hrr)].
        split; [exact Hne|]. exists (zone :: pre), zone0, post.
        split; [reflexivity|]. split; [exact Hset|].
        intros rr Hin. destruct (Hrr rr Hin) as (ep & Hep & Hm & Hpre & Hok).
        apply filter_In in Hep as [Hep Hnm]. apply negb_true_iff in Hnm.
        exists ep. repeat split; auto.
        intros z0 [<-|Hz0]; auto. }
      destruct rrsets as [|rr0 rrsets]; simpl.
      * exists out. split; [reflexivity|exact Htail].
      * exists (set_Rrsets (rr0 :: rrsets) zone :: out).
        split; [now rewrite <- app_assoc|].
        intros z' [<-|Hz']; [|now apply Htail].
        split; [discriminate|]. exists [], zone, zones.
        split; [reflexivity|]. split; [reflexivity|].
        simpl. intros rr Hin.
        destruct (Forall2_In_r _ _ _ rr HF Hin) as (ep & Hep & Hok).
        apply filter_In in Hep as [Hep Hm].
        exists ep. repeat split; auto. intros z0 [].
Qed.

(** Completeness: an endpoint that matches some filtered zone gets its
    rrset in the first zone of the list that matches it. *)
Lemma filteredLoop_complete ct zones : forall zoneList endpoints zoneList' endpoints' ep,
  filteredLoop EnsureTrailingDot ct zoneList endpoints zones = inr (zoneList', endpoints') ->
  In ep endpoints ->
  existsb (fun z => matches z ep) zones = true ->
  exists pre zone post rrsets rr,
    zones = pre ++ zone :: post /\
    (forall z0, In z0 pre -> matches z0 ep = false) /\
    matches zone ep = true /\
    In (set_Rrsets rrsets zone) zoneList' /\
    In rr rrsets /\
    rrsetOf zone ep ct = inr rr.
Proof.
  induction zones as [|zone zones IH]; simpl; intros zl eps zl' eps' ep H Hin Hex;
    [discriminate|].
  destruct (popMatching EnsureTrailingDot zone ct [] [] eps) as [err|[rrsets eps1]] eqn:Hpop;
    [discriminate|].
  apply popMatching_inr in Hpop as [Heps1 (rs & Hrs & HF)].
  simpl in Heps1, Hrs. subst rs eps1.
  destruct (matchesZone (dnsnameOf ep) zone) eqn:Hm.
  - assert (Hf : In ep (List.filter (matches zone) eps)) by (apply filter_In; auto).
    destruct (Forall2_In_l _ _ _ ep HF Hf) as (rr & Hrr & Hok).
    exists [], zone, zones, rrsets, rr.
    split; [reflexivity|]. split; [intros z0 []|]. split; [exact Hm|].
    split; [|auto].
    apply filteredLoop_sound in H as [_ (out & -> & _)].
    destruct rrsets as [|r0 rrsets]; [destruct Hrr|]. simpl.
    apply in_or_app. left. apply in_or_app. right. now left.
  - simpl in Hex.
    assert (Hf : In ep (List.filter (fun ep => negb (matches zone ep)) eps)).
    { apply filter_In. split; [exact Hin|]. now rewrite Hm. }
    destruct (IH _ _ _ _ ep H Hf Hex) as (pre & z & post & rs & rr & -> & Hpre & Hz & Hzl & Hrr & Hok).
    exists (zone :: pre), z, post, rs, rr.
    split; [reflexivity|]. split; [|auto].
    intros z0 [<-|Hz0]; auto.
Qed.

(** The loop fails only on the rrset of an endpoint matching a zone. *)
Lemma filteredLoop_inl ct zones : forall zoneList endpoints err,
  filteredLoop EnsureTrailingDot ct zoneList endpoints zones = inl err ->
  exists zone ep, In zone zones /\ In ep endpoints /\ matches zone ep = true /\
    rrsetOf zone ep ct = inl err.
Proof.
  induction zones as [|zone zones IH]; simpl; intros zl eps err H; [discriminate|].
  destruct (popMatching EnsureTrailingDot zone ct [] [] eps) as [err'|[rrsets eps1]] eqn:Hpop.
  - inversion H; subst. apply popMatching_inl in Hpop as (ep & Hin & Hm & Hrr).
    exists zone, ep. auto.
  - apply popMatching_inr in Hpop as [Heps1 _]. simpl in Heps1. subst eps1.
    apply IH in H as (z & ep & Hz & Hep & Hm & Hrr).
    apply filter_In in Hep as [Hep _]. exists z, ep. auto.
Qed.

(** The residual zones only remove the endpoints they match. *)
Lemma popResidual_filter zone todo : forall kept,
  popResidual EnsureTrailingDot zone kept todo =
  kept ++ List.filter (fun ep => negb (matches zone ep)) todo.
Proof.
  induction todo as [|ep rest IH]; simpl; intros kept; [now rewrite app_nil_r|].
  destruct (matchesZone (dnsnameOf ep) zone); simpl; rewrite IH; [reflexivity|].
  now rewrite <- app_assoc.
Qed.

Lemma residualLoop_filter zones : forall endpoints,
  residualLoop EnsureTrailingDot endpoints zones =
  List.filter (fun ep => negb (existsb (fun z => matches z ep) zones)) endpoints.
Proof.
  induction zones as [|zone zones IH]; simpl; intros eps.
  - induction eps as [|e l IHl]; simpl; [reflexivity|now rewrite <- IHl].
  - rewrite IH, popResidual_filter. simpl.
    induction eps as [|e l IHl]; simpl; [reflexivity|].
    destruct (matchesZone (dnsnameOf e) zone); simpl; [exact IHl|].
    destruct (existsb _ zones); simpl; [exact IHl|now rewrite IHl].
Qed.

Lemma filter_split_length {X} (f : X -> bool) (l : list X) :
  (length (List.filter f l) + length (List.filter (fun x => negb (f x)) l))%nat = length l.
Proof.
  induction l as [|x l IH]; simpl; [reflexivity|].
  destruct (f x); simpl; lia.
Qed.

Lemma Forall2_same_length {X Y} (R : X -> Y -> Prop) (xs : list X) (ys : list Y) :
  Forall2 R xs ys -> length xs = length ys.
Proof. induction 1; simpl; congruence. Qed.

Lemma rrsetCount_app (zl1 zl2 : list Zone) :
  rrsetCount (zl1 ++ zl2) = (rrsetCount zl1 + rrsetCount zl2)%nat.
Proof. unfold rrsetCount. now rewrite map_app, concat_app, length_app. Qed.

(** Every endpoint popped by the loop over the filtered zones left exactly
    one rrset in the zone list. *)
Lemma filteredLoop_count ct zones : forall zoneList endpoints zoneList' endpoints',
  filteredLoop EnsureTrailingDot ct zoneList endpoints zones = inr (zoneList', endpoints') ->
  (rrsetCount zoneList' + length endpoints')%nat
  = (rrsetCount zoneList + length endpoints)%nat.
Proof.
  induction zones as [|zone zones IH]; simpl; intros zl eps zl' eps' H.
  - now inversion H.
  - destruct (popMatching EnsureTrailingDot zone ct [] [] eps) as [err|[rrsets eps1]] eqn:Hpop;
      [discriminate|].
    apply popMatching_inr in Hpop as [Heps1 (rs & Hrs & HF)].
    simpl in Heps1, Hrs. subst rs eps1.
    apply IH in H. rewrite H. clear H.
    apply Forall2_same_length in HF.
    pose proof (filter_split_length (matches zone) eps) as Hsplit.
    destruct rrsets as [|r rrsets]; simpl in *.
    + lia.
    + rewrite rrsetCount_app. unfold rrsetCount at 2. simpl.
      rewrite app_nil_r. simpl. lia.
Qed.

End Loops.

Lemma existsb_perm {X} (f : X -> bool) (l l' : list X) :
  Permutation l l' -> existsb f l = existsb f l'.
Proof.
  intros Hp. apply Bool.eq_true_iff_eq. rewrite !existsb_exists.
  split; intros (x & Hin & Hf); exists x; split; auto.
  - now apply (Permutation_in _ Hp).
  - now apply (Permutation_in _ (Permutation_sym Hp)).
Qed.

Lemma filter_length_perm {X} (f : X -> bool) (l l' : list X) :
  Permutation l l' -> length (List.filter f l) = length (List.filter f l').
Proof.
  induction 1 as [|x l l' Hp IH|x y l|l1 l2 l3 H1 IH1 H2 IH2]; simpl.
  - reflexivity.
  - destruct (f x); simpl; congruence.
  - destruct (f x), (f y); reflexivity.
  - congruence.
Qed.

End pdns_facts.

(** ** PowerDNS: zone selection, the apex alias, construction *)

Module pdns_spec.

Import endpoint pdns pdns_facts invariants.

Local Open Scope list_scope.

Section Conversion.

Variable EnsureTrailingDot : string -> string.
Context {B : Type}.
Variable client : PDNSAPIProvider B.

Abbreviation dnsnameOf ep := (EnsureTrailingDot (DNSName ep)).

Lemma ConvertEndpointsToZones_listed eps ct b zones b' :
  ListZones client b = ((zones, None), b') ->
  ConvertEndpointsToZones EnsureTrailingDot client eps ct b =
  (convertWithZones EnsureTrailingDot client eps ct zones, b').
Proof.
  unfold ConvertEndpointsToZones. now intros ->.
Qed.

(** The zone list of a successful conversion is the result of the loop over
    the filtered zones, sorted by descending name length, on the sorted
    endpoints. *)
Lemma convertWithZones_inr eps ct zones zoneList :
  result (convertWithZones EnsureTrailingDot client eps ct zones) = inr zoneList ->
  exists endpoints',
    filteredLoop EnsureTrailingDot ct [] (sort.SliceStable endpointLess eps)
      (sort.SliceStable zoneLonger (fst (PartitionZones client zones)))
    = inr (zoneList, endpoints') /\
    warned (convertWithZones EnsureTrailingDot client eps ct zones) =
    residualLoop EnsureTrailingDot endpoints' (snd (PartitionZones client zones)).
Proof.
  unfold convertWithZones.
  destruct (PartitionZones client zones) as [fz rz]; simpl.
  destruct (filteredLoop _ _ _ _ _) as [err|[zl eps']]; simpl; [discriminate|].
  intros H. inversion H; subst. eauto.
Qed.

Lemma convertWithZones_inl eps ct zones err :
  result (convertWithZones EnsureTrailingDot client eps ct zones) = inl err ->
  filteredLoop EnsureTrailingDot ct [] (sort.SliceStable endpointLess eps)
    (sort.SliceStable zoneLonger (fst (PartitionZones client zones)))
  = inl err.
Proof.
  unfold convertWithZones.
  destruct (PartitionZones client zones) as [fz rz]; simpl.
  destruct (filteredLoop _ _ _ _ _) as [err'|[zl eps']]; simpl; [|discriminate].
  now intros [= ->].
Qed.

Lemma sorted_zones_In (zs : list Zone) (z : Zone) :
  In z (sort.SliceStable zoneLonger zs) <-> In z zs.
Proof. apply sort_facts.SliceStable_In. Qed.

Lemma sorted_zones_longest (zs pre post : list Zone) (zone z : Zone) :
  sort.SliceStable zoneLonger zs = pre ++ zone :: post ->
  In z post ->
  (String.length (Zone_Name z) <= String.length (Zone_Name zone))%nat.
Proof.
  intros Heq Hin.
  pose proof (sort_facts.SliceStable_sorted zoneLonger
                (fun z => String.length (Zone_Name z)) (fun a b => eq_refl) zs) as Hs.
  rewrite Heq in Hs. clear Heq.
  induction pre as [|p pre IH]; simpl in Hs.
  - inversion Hs as [|? ? _ HF]; subst.
    rewrite List.Forall_forall in HF. now apply HF.
  - inversion Hs; subst. auto.
Qed.

Lemma existsb_matches (zs : list Zone) (e : Endpoint) (z : Zone) :
  In z zs -> matchesZone (dnsnameOf e) z = true ->
  existsb (fun z => matchesZone (dnsnameOf e) z) (sort.SliceStable zoneLonger zs) = true.
Proof.
  intros Hin Hm. apply existsb_exists. exists z. split; [|exact Hm].
  now apply sorted_zones_In.
Qed.

(** Where a successful conversion puts an endpoint that matches some
    filtered zone. *)
Lemma assigned_zone eps ct zones zoneList e z :
  result (convertWithZones EnsureTrailingDot client eps ct zones) = inr zoneList ->
  In e eps ->
  In z (fst (PartitionZones client zones)) ->
  matchesZone (dnsnameOf e) z = true ->
  exists zone rrsets rr,
    In zone (fst (PartitionZones client zones)) /\
    matchesZone (dnsnameOf e) zone = true /\
    (forall z', In z' (fst (PartitionZones client zones)) ->
                matchesZone (dnsnameOf e) z' = true ->
                (String.length (Zone_Name z') <= String.length (Zone_Name zone))%nat) /\
    In (set_Rrsets rrsets zone) zoneList /\
    In rr rrsets /\
    rrsetFor EnsureTrailingDot zone e ct = inr rr.
Proof.
  intros Hres Hin Hz Hm.
  apply convertWithZones_inr in Hres as (eps' & Hloop & _).
  destruct (filteredLoop_complete EnsureTrailingDot ct _ _ _ _ _ e Hloop)
    as (pre & zone & post & rrsets & rr & Heq & Hpre & Hzone & Hzl & Hrr & Hok).
  { now apply sort_facts.SliceStable_In. }
  { now apply (existsb_matches _ _ z). }
  exists zone, rrsets, rr.
  assert (Hzin : In zone (sort.SliceStable zoneLonger (fst (PartitionZones client zones)))).
  { rewrite Heq. apply in_or_app. right. now left. }
  split; [now apply sorted_zones_In|]. split; [exact Hzone|].
  split; [|auto].
  intros z' Hz' Hm'. apply sorted_zones_In in Hz'. rewrite Heq in Hz'.
  apply in_app_or in Hz' as [Hz'|[<-|Hz']].
  - rewrite (Hpre z' Hz') in Hm'. discriminate.
  - lia.
  - now apply (sorted_zones_longest _ _ _ _ _ Heq).
Qed.

(** A successful conversion emits one rrset for each endpoint that matches
    some filtered zone, and none for the others. *)
Lemma routed_count eps ct zones zoneList :
  result (convertWithZones EnsureTrailingDot client eps ct zones) = inr zoneList ->
  rrsetCount zoneList
  = length (List.filter
              (fun e => existsb (fun z => matchesZone (dnsnameOf e) z)
                                (fst (PartitionZones client zones)))
              eps).
Proof.
  intros Hres.
  apply convertWithZones_inr in Hres as (eps' & Hloop & _).
  pose proof (filteredLoop_count EnsureTrailingDot ct _ _ _ _ _ Hloop) as Hcount.
  apply filteredLoop_sound in Hloop as [-> _].
  change (rrsetCount []) with 0%nat in Hcount.
  pose proof (filter_split_length
                (fun e => existsb (fun z => matchesZone (dnsnameOf e) z)
                            (sort.SliceStable zoneLonger (fst (PartitionZones client zones))))
                (sort.SliceStable endpointLess eps)) as Hsplit.
  rewrite (filter_length_perm _ _ eps (sort_facts.SliceStable_perm endpointLess eps))
    in Hsplit at 1.
  rewrite (List.filter_ext _
             (fun e => existsb (fun z => matchesZone (dnsnameOf e) z)
                               (fst (PartitionZones client zones)))) in Hsplit at 1.
  2: { intros e. apply existsb_perm. apply sort_facts.SliceStable_perm. }
  simpl in Hcount. lia.
Qed.

(** C4. Zone selection: when ConvertEndpointsToZones succeeds, every
    endpoint whose name (with its trailing dot) matches some filtered zone
    at a label boundary has its rrset in a zone of the result that matches
    it and whose name is at least as long as the name of every filtered
    zone that matches it: the longest matching zone wins.  The result
    holds as many rrsets as the batch has endpoints that match some
    filtered zone, so an endpoint is put in one zone only. *)
Theorem longest_matching_zone_wins eps ct b zones b' zoneList e z :
  ListZones client b = ((zones, None), b') ->
  result (fst (ConvertEndpointsToZones EnsureTrailingDot client eps ct b)) = inr zoneList ->
  In e eps ->
  In z (fst (PartitionZones client zones)) ->
  matchesZone (dnsnameOf e) z = true ->
  exists zone rrsets rr,
    In zone (fst (PartitionZones client zones)) /\
    (dnsnameOf e = Zone_Name zone \/
     strings.HasSuffix (dnsnameOf e) ("." ++ Zone_Name zone)%string = true) /\
    (forall z', In z' (fst (PartitionZones client zones)) ->
                matchesZone (dnsnameOf e) z' = true ->
                (String.length (Zone_Name z') <= String.length (Zone_Name zone))%nat) /\
    In (set_Rrsets rrsets zone) zoneList /\
    In rr rrsets /\
    rrsetFor EnsureTrailingDot zone e ct = inr rr /\
    rrsetCount zoneList
    = length (List.filter
                (fun e => existsb (fun z => matchesZone (dnsnameOf e) z)
                                  (fst (PartitionZones client zones)))
                eps).
Proof.
  intros Hlist Hres Hin Hz Hm.
  rewrite (ConvertEndpointsToZones_listed _ _ _ _ _ Hlist) in Hres. simpl in Hres.
  destruct (assigned_zone _ _ _ _ _ _ Hres Hin Hz Hm)
    as (zone & rrsets & rr & H1 & H2 & H3 & H4 & H5 & H6).
  exists zone, rrsets, rr.
  split; [exact H1|]. split.
  { unfold matchesZone in H2. apply orb_true_iff in H2 as [H2|H2]; [left|right; exact H2].
    now apply String.eqb_eq. }
  split; [exact H3|]. split; [exact H4|]. split; [exact H5|]. split; [exact H6|].
  exact (routed_count eps ct zones zoneList Hres).
Qed.

Lemma convertRRSetToEndpoints_alias (rr : RrSet) :
  RrSet_Type_ rr = "ALIAS" ->
  map RecordType (fst (convertRRSetToEndpoints rr)) = ["CNAME"] /\
  snd (convertRRSetToEndpoints rr) = None.
Proof.
  unfold convertRRSetToEndpoints. intros ->. simpl. auto.
Qed.

(** C10. The apex alias: when ConvertEndpointsToZones succeeds, a CNAME
    endpoint whose name (with its trailing dot) is the name of a filtered
    zone gets, in a zone of that name, an rrset of type ALIAS, which
    convertRRSetToEndpoints reads back as one endpoint of record type
    CNAME; and convertRRSetToEndpoints maps every rrset of type ALIAS to
    one endpoint of record type CNAME. *)
Theorem apex_cname_alias_roundtrip eps ct b zones b' zoneList e z :
  ListZones client b = ((zones, None), b') ->
  result (fst (ConvertEndpointsToZones EnsureTrailingDot client eps ct b)) = inr zoneList ->
  In e eps ->
  RecordType e = "CNAME" ->
  In z (fst (PartitionZones client zones)) ->
  dnsnameOf e = Zone_Name z ->
  (exists zone rrsets rr,
     In zone (fst (PartitionZones client zones)) /\
     Zone_Name zone = dnsnameOf e /\
     In (set_Rrsets rrsets zone) zoneList /\
     In rr rrsets /\
     rrsetFor EnsureTrailingDot zone e ct = inr rr /\
     RrSet_Name rr = dnsnameOf e /\
     RrSet_Type_ rr = "ALIAS" /\
     map RecordType (fst (convertRRSetToEndpoints rr)) = ["CNAME"]) /\
  (forall rr, RrSet_Type_ rr = "ALIAS" ->
     map RecordType (fst (convertRRSetToEndpoints rr)) = ["CNAME"] /\
     snd (convertRRSetToEndpoints rr) = None).
Proof.
  intros Hlist Hres Hin Hty Hz Hname.
  split; [|exact convertRRSetToEndpoints_alias].
  rewrite (ConvertEndpointsToZones_listed _ _ _ _ _ Hlist) in Hres. simpl in Hres.
  assert (Hm : matchesZone (dnsnameOf e) z = true).
  { unfold matchesZone. rewrite Hname, String.eqb_refl. reflexivity. }
  destruct (assigned_zone _ _ _ _ _ _ Hres Hin Hz Hm)
    as (zone & rrsets & rr & H1 & H2 & H3 & H4 & H5 & H6).
  assert (Hzone : dnsnameOf e = Zone_Name zone).
  { unfold matchesZone in H2. apply orb_true_iff in H2 as [H2|H2].
    - now apply String.eqb_eq.
    - apply HasSuffix_length in H2.
      change (String.length ("." ++ Zone_Name zone)%string)
        with (S (String.length (Zone_Name zone))) in H2.
      specialize (H3 z Hz Hm). rewrite <- Hname in H3. lia. }
  destruct (rrsetFor_fields _ _ _ _ _ H6) as (Hn & _ & _ & Ht).
  rewrite Hzone, String.eqb_refl, Hty in Ht. simpl in Ht.
  exists zone, rrsets, rr.
  split; [exact H1|]. split; [now symmetry|]. split; [exact H4|]. split; [exact H5|].
  split; [exact H6|]. split; [exact Hn|]. split; [exact Ht|].
  now apply convertRRSetToEndpoints_alias.
Qed.

End Conversion.

(** The zone-selection example of the specification, run on the code. *)
Example zone_selection_example :
  result (fst (ConvertEndpointsToZones examples.ensureTrailingDot
                 (examples.pdnsMock [examples.zoneExample; examples.zoneZone1])
                 [examples.ep "foo.zone1.example.com" "A" 0 ["1.2.3.4"]]
                 PdnsReplace []))
  = inr [mkZone "zone1.example.com." "zone1.example.com."
           [mkRrSet "foo.zone1.example.com." "A" 300 "REPLACE" [mkRecord "1.2.3.4" false]]].
Proof. vm_compute. reflexivity. Qed.

Lemma longest_matching_zone_wins_witness :
  exists zone rrsets rr,
    In zone [examples.zoneExample; examples.zoneZone1] /\
    (examples.ensureTrailingDot "foo.zone1.example.com" = Zone_Name zone \/
     strings.HasSuffix (examples.ensureTrailingDot "foo.zone1.example.com")
       ("." ++ Zone_Name zone)%string = true) /\
    (forall z', In z' [examples.zoneExample; examples.zoneZone1] ->
                matchesZone (examples.ensureTrailingDot "foo.zone1.example.com") z' = true ->
                (String.length (Zone_Name z') <= String.length (Zone_Name zone))%nat) /\
    In (set_Rrsets rrsets zone)
       [mkZone "zone1.example.com." "zone1.example.com."
          [mkRrSet "foo.zone1.example.com." "A" 300 "REPLACE" [mkRecord "1.2.3.4" false]]] /\
    In rr rrsets /\
    rrsetFor examples.ensureTrailingDot zone
      (examples.ep "foo.zone1.example.com" "A" 0 ["1.2.3.4"]) PdnsReplace = inr rr /\
    rrsetCount
      [mkZone "zone1.example.com." "zone1.example.com."
         [mkRrSet "foo.zone1.example.com." "A" 300 "REPLACE" [mkRecord "1.2.3.4" false]]]
    = length (List.filter
                (fun e => existsb (fun z => matchesZone
                                              (examples.ensureTrailingDot (DNSName e)) z)
                                  [examples.zoneExample; examples.zoneZone1])
                [examples.ep "foo.zone1.example.com" "A" 0 ["1.2.3.4"]]).
Proof.
  apply (longest_matching_zone_wins examples.ensureTrailingDot
           (examples.pdnsMock [examples.zoneExample; examples.zoneZone1])
           [examples.ep "foo.zone1.example.com" "A" 0 ["1.2.3.4"]]
           PdnsReplace [] [examples.zoneExample; examples.zoneZone1] []
           [mkZone "zone1.example.com." "zone1.example.com."
              [mkRrSet "foo.zone1.example.com." "A" 300 "REPLACE" [mkRecord "1.2.3.4" false]]]
           (examples.ep "foo.zone1.example.com" "A" 0 ["1.2.3.4"])
           examples.zoneExample).
  - reflexivity.
  - vm_compute. reflexivity.
  - simpl. auto.
  - simpl. auto.
  - vm_compute. reflexivity.
Defined.

(** An apex CNAME written and read back. *)
Example apex_example :
  result (fst (ConvertEndpointsToZones examples.ensureTrailingDot
                 (examples.pdnsMock [examples.zoneExample])
                 [examples.ep "example.com" "CNAME" 60 ["lb.example.net"]]
                 PdnsReplace []))
  = inr [mkZone "example.com." "example.com."
           [mkRrSet "example.com." "ALIAS" 60 "REPLACE" [mkRecord "lb.example.net." false]]].
Proof. vm_compute. reflexivity. Qed.

Lemma apex_cname_alias_roundtrip_witness :
  (exists zone rrsets rr,
     In zone [examples.zoneExample] /\
     Zone_Name zone = examples.ensureTrailingDot "example.com" /\
     In (set_Rrsets rrsets zone)
        [mkZone "example.com." "example.com."
           [mkRrSet "example.com." "ALIAS" 60 "REPLACE" [mkRecord "lb.example.net." false]]] /\
     In rr rrsets /\
     rrsetFor examples.ensureTrailingDot zone
       (examples.ep "example.com" "CNAME" 60 ["lb.example.net"]) PdnsReplace = inr rr /\
     RrSet_Name rr = examples.ensureTrailingDot "example.com" /\
     RrSet_Type_ rr = "ALIAS" /\
     map RecordType (fst (convertRRSetToEndpoints rr)) = ["CNAME"]) /\
  (forall rr, RrSet_Type_ rr = "ALIAS" ->
     map RecordType (fst (convertRRSetToEndpoints rr)) = ["CNAME"] /\
     snd (convertRRSetToEndpoints rr) = None).
Proof.
  apply (apex_cname_alias_roundtrip examples.ensureTrailingDot
           (examples.pdnsMock [examples.zoneExample])
           [examples.ep "example.com" "CNAME" 60 ["lb.example.net"]]
           PdnsReplace [] [examples.zoneExample] []
           [mkZone "example.com." "example.com."
              [mkRrSet "example.com." "ALIAS" 60 "REPLACE" [mkRecord "lb.example.net." false]]]
           (examples.ep "example.com" "CNAME" 60 ["lb.example.net"])
           examples.zoneExample).
  - reflexivity.
  - vm_compute. reflexivity.
  - simpl. auto.
  - reflexivity.
  - simpl. auto.
  - vm_compute. reflexivity.
Defined.

End pdns_spec.

(** ** Computations: what a loop preserves *)

Module go_facts.

Import go.

Local Open Scope list_scope.

Section Preserves.

Context {S : Type} (I : S -> S -> Prop).
Hypothesis I_refl : forall s, I s s.
Hypothesis I_trans : forall s1 s2 s3, I s1 s2 -> I s2 s3 -> I s1 s3.

Abbreviation preserves := (invariants.preserves I).

Lemma preserves_ret {A} (a : A) : preserves (ret a).
Proof. intros s. apply I_refl. Qed.

Lemma preserves_panic {A} : preserves (@panic S A).
Proof. intros s. apply I_refl. Qed.

Lemma preserves_get : preserves (@get S).
Proof. intros s. apply I_refl. Qed.

Lemma preserves_bind {A A'} (m : M S A) (k : A -> M S A') :
  preserves m -> (forall a, preserves (k a)) -> preserves (bind m k).
Proof.
  intros Hm Hk s. unfold bind. specialize (Hm s).
  destruct (m s) as [[a|] s']; simpl in *; [|exact Hm].
  eapply I_trans; [exact Hm|apply Hk].
Qed.

Lemma preserves_forEach {X} (body : X -> M S unit) (l : list X) :
  (forall x, In x l -> preserves (body x)) -> preserves (forEach body l).
Proof.
  induction l as [|x l IH]; simpl; intros H.
  - apply preserves_ret.
  - apply preserves_bind; [apply H; now left|].
    intros _. apply IH. intros y Hy. apply H. now right.
Qed.

Lemma preserves_forEachErr {X} (body : X -> M S (option error)) (l : list X) :
  (forall x, In x l -> preserves (body x)) -> preserves (forEachErr body l).
Proof.
  induction l as [|x l IH]; simpl; intros H.
  - apply preserves_ret.
  - apply preserves_bind; [apply H; now left|].
    intros [e|]; [apply preserves_ret|].
    apply IH. intros y Hy. apply H. now right.
Qed.

End Preserves.

(** A loop whose body does nothing does nothing. *)
Lemma forEach_skip {S X} (body : X -> M S unit) (l : list X) (s : S) :
  (forall x, In x l -> body x s = (returns tt, s)) ->
  forEach body l s = (returns tt, s).
Proof.
  induction l as [|x l IH]; simpl; intros H; [reflexivity|].
  unfold bind. rewrite (H x (or_introl eq_refl)).
  apply IH. intros y Hy. apply H. now right.
Qed.

End go_facts.

(** ** Azure Private DNS: the change maps and the calls *)

Module azure_facts.

Import endpoint go azure go_facts tracing invariants.

Local Open Scope list_scope.

Section Provider.

Context {B : Type}.
Variable domainFilter_Match : string -> bool.
Variable zoneNameFilter_Match : string -> bool.
Variable zoneNameFilter_Filters : list string.
Variable zoneIDFilter_Match : string -> bool.
Variable FindZone : gmap string string -> string -> string * string.
Variable parseMxTarget : string -> error + MxRecord.
Variable defaultTTL : Z.
Variable TTL_IsConfigured : Z -> bool.
Variable rangeMap : gmap string (list Endpoint) -> list (string * list Endpoint).
Variable dryRun : bool.
Variable resourceGroup : string.
Variable zonesClient_pages : list (error + list PrivateZone).
Variable recordSetsClient : PrivateRecordSetsClient B.

Abbreviation zonesOf :=
  (@zones B domainFilter_Match zoneNameFilter_Match zoneNameFilter_Filters
     zoneIDFilter_Match zonesClient_pages).

(** Listing the zones leaves the backend alone. *)
Lemma zones_backend now (s : State B) : backend (snd (zonesOf now s)) = backend s.
Proof.
  unfold zones, bind, get, put, ret, panic. simpl.
  destruct (negb _); simpl; [reflexivity|].
  destruct (zones_pages _ _ _ _ _ _) as [[err|zs]|]; reflexivity.
Qed.

Abbreviation routed := (invariants.routed FindZone).
Abbreviation routable := (invariants.routable FindZone).
Abbreviation routableChanges := (invariants.routableChanges FindZone).
Abbreviation fits := (invariants.fits rangeMap).
Abbreviation sameBackend := (@invariants.sameBackend B).

Lemma routed_empty mapper : routed mapper ∅.
Proof. intros zone eps H. rewrite lookup_empty in H. discriminate. Qed.

Lemma mapChange_routed mapper m change :
  routed mapper m -> routed mapper (mapChange FindZone mapper m change).
Proof.
  unfold mapChange. intros Hr.
  destruct (String.eqb_spec (fst (FindZone mapper (DNSName change))) "") as [Heq|Hne];
    [exact Hr|].
  cbv iota. intros zone eps Hl.
  destruct (decide (fst (FindZone mapper (DNSName change)) = zone)) as [Hz|Hz].
  - rewrite Hz in Hl. rewrite lookup_insert_eq in Hl. inversion Hl; subst eps. clear Hl.
    split; [now rewrite <- Hz|].
    intros e He. apply in_app_or in He as [He|[<-|[]]]; [|exact Hz].
    destruct (m !! zone) as [l|] eqn:Hm; simpl in He; [|destruct He].
    now apply (Hr zone l Hm).
  - rewrite lookup_insert_ne in Hl by exact Hz. now apply Hr.
Qed.

Lemma fold_mapChange_routed mapper changes : forall m,
  routed mapper m -> routed mapper (fold_left (mapChange FindZone mapper) changes m).
Proof.
  induction changes as [|c l IH]; simpl; intros m Hr; [exact Hr|].
  apply IH. now apply mapChange_routed.
Qed.

Lemma mapChanges_routed zs changes :
  routed (zoneNameIDMapper zs ∅) (fst (mapChanges FindZone zs changes)) /\
  routed (zoneNameIDMapper zs ∅) (snd (mapChanges FindZone zs changes)).
Proof.
  unfold mapChanges. simpl. split; repeat apply fold_mapChange_routed; apply routed_empty.
Qed.

(** A change whose name finds no zone leaves the change map as it is. *)
Lemma fold_mapChange_routable mapper changes : forall m,
  fold_left (mapChange FindZone mapper) (List.filter (routable mapper) changes) m =
  fold_left (mapChange FindZone mapper) changes m.
Proof.
  induction changes as [|c l IH]; simpl; intros m; [reflexivity|].
  unfold routable at 1.
  destruct (String.eqb (fst (FindZone mapper (DNSName c))) "") eqn:Hc; simpl.
  - rewrite IH. unfold mapChange at 3. now rewrite Hc.
  - apply IH.
Qed.

Lemma UpdateNew_routable mapper changes :
  plan.UpdateNew (routableChanges mapper changes) =
  List.filter (routable mapper) (plan.UpdateNew changes).
Proof.
  unfold plan.UpdateNew, routableChanges. simpl.
  induction (plan.Update changes) as [|[o n] l IH]; simpl; [reflexivity|].
  destruct (routable mapper n); simpl; now rewrite IH.
Qed.

Lemma mapChanges_routable zs changes :
  mapChanges FindZone zs (routableChanges (zoneNameIDMapper zs ∅) changes) =
  mapChanges FindZone zs changes.
Proof.
  unfold mapChanges. rewrite UpdateNew_routable. simpl.
  now rewrite !fold_mapChange_routable.
Qed.

(** *** Dry run *)

Lemma sameBackend_refl s : sameBackend s s.
Proof. reflexivity. Qed.

Lemma sameBackend_trans s1 s2 s3 : sameBackend s1 s2 -> sameBackend s2 s3 -> sameBackend s1 s3.
Proof. unfold invariants.sameBackend. congruence. Qed.

Abbreviation deleteRecordsOf dry :=
  (@deleteRecords B domainFilter_Match rangeMap dry resourceGroup recordSetsClient).
Abbreviation updateRecordsOf dry :=
  (@updateRecords B domainFilter_Match parseMxTarget defaultTTL TTL_IsConfigured rangeMap
     dry resourceGroup recordSetsClient).
Abbreviation deleteRecordOf dry :=
  (@deleteRecord B domainFilter_Match dry resourceGroup recordSetsClient).
Abbreviation updateRecordOf dry :=
  (@updateRecord B domainFilter_Match parseMxTarget defaultTTL TTL_IsConfigured
     dry resourceGroup recordSetsClient).
Abbreviation ApplyChangesOf dry :=
  (@ApplyChanges B domainFilter_Match zoneNameFilter_Match zoneNameFilter_Filters
     zoneIDFilter_Match FindZone parseMxTarget defaultTTL TTL_IsConfigured rangeMap
     dry resourceGroup zonesClient_pages recordSetsClient).

Lemma deleteRecord_dry zone e :
  preserves sameBackend (deleteRecordOf true zone e).
Proof.
  intros s. unfold deleteRecord.
  destruct (recordSetNameForZone zone e); [|reflexivity].
  destruct (negb _); reflexivity.
Qed.

Lemma updateRecord_dry zone e :
  preserves sameBackend (updateRecordOf true zone e).
Proof.
  intros s. unfold updateRecord.
  destruct (recordSetNameForZone zone e); [|reflexivity].
  destruct (negb _); reflexivity.
Qed.

Lemma deleteRecords_dry m : preserves sameBackend (deleteRecordsOf true m).
Proof.
  apply preserves_forEach; [exact sameBackend_refl|exact sameBackend_trans|].
  intros [zone eps] _.
  apply preserves_forEach; [exact sameBackend_refl|exact sameBackend_trans|].
  intros e _. apply deleteRecord_dry.
Qed.

Lemma updateRecords_dry m : preserves sameBackend (updateRecordsOf true m).
Proof.
  apply preserves_forEach; [exact sameBackend_refl|exact sameBackend_trans|].
  intros [zone eps] _.
  apply preserves_forEach; [exact sameBackend_refl|exact sameBackend_trans|].
  intros e _. apply updateRecord_dry.
Qed.

Lemma zones_preserves now : preserves sameBackend (zonesOf now).
Proof. intros s. apply zones_backend. Qed.

Lemma ApplyChanges_dry now changes :
  preserves sameBackend (ApplyChangesOf true now changes).
Proof.
  unfold ApplyChanges.
  apply (preserves_bind _ sameBackend_trans); [apply zones_preserves|].
  intros [err|zs]; [apply (preserves_ret _ sameBackend_refl)|].
  destruct (mapChanges FindZone zs changes) as [deleted updated].
  apply (preserves_bind _ sameBackend_trans); [apply deleteRecords_dry|].
  intros _.
  apply (preserves_bind _ sameBackend_trans); [apply updateRecords_dry|].
  intros _. apply (preserves_ret _ sameBackend_refl).
Qed.

(** In a dry run a record whose zone is not longer than its name is only
    logged. *)
Lemma deleteRecord_dry_returns zone e s :
  (String.length zone <= String.length (DNSName e))%nat ->
  deleteRecordOf true zone e s = (returns tt, s).
Proof.
  intros Hlen. unfold deleteRecord, recordSetNameForZone.
  destruct (Nat.ltb_spec (String.length (DNSName e)) (String.length zone)); [lia|].
  destruct (String.eqb _ ""); destruct (negb _); reflexivity.
Qed.

Lemma updateRecord_dry_returns zone e s :
  (String.length zone <= String.length (DNSName e))%nat ->
  updateRecordOf true zone e s = (returns tt, s).
Proof.
  intros Hlen. unfold updateRecord, recordSetNameForZone.
  destruct (Nat.ltb_spec (String.length (DNSName e)) (String.length zone)); [lia|].
  destruct (String.eqb _ ""); destruct (negb _); reflexivity.
Qed.

(** The zones of a change map are not longer than the names routed to it,
    when the zone finder answers with a zone no longer than the name and
    the range is over the entries of the map. *)
Lemma routed_fits mapper m :
  (forall h, (String.length (fst (FindZone mapper h)) <= String.length h)%nat) ->
  (forall zone eps, In (zone, eps) (rangeMap m) -> m !! zone = Some eps) ->
  routed mapper m -> fits m.
Proof.
  intros Hlen Hrange Hr zone eps e Hin He.
  destruct (Hr zone eps (Hrange _ _ Hin)) as [_ Hz].
  rewrite <- (Hz e He). apply Hlen.
Qed.

Lemma deleteRecords_dry_returns m s :
  fits m -> deleteRecordsOf true m s = (returns tt, s).
Proof.
  intros Hfit. unfold deleteRecords. apply forEach_skip.
  intros [zone eps] Hin. apply forEach_skip.
  intros e He. apply deleteRecord_dry_returns. now apply (Hfit zone eps).
Qed.

Lemma updateRecords_dry_returns m s :
  fits m -> updateRecordsOf true m s = (returns tt, s).
Proof.
  intros Hfit. unfold updateRecords. apply forEach_skip.
  intros [zone eps] Hin. apply forEach_skip.
  intros e He. apply updateRecord_dry_returns. now apply (Hfit zone eps).
Qed.

(** *** Records *)

Abbreviation recordsPagesOf :=
  (records_pages domainFilter_Match zoneNameFilter_Filters).

Lemma records_pages_soft formatName zoneName pages : forall eps err,
  recordsPagesOf formatName zoneName pages eps = returns (inl err) ->
  provider.IsSoftError err = true.
Proof.
  induction pages as [|[e|page] rest IH]; simpl; intros eps err H; [discriminate| |].
  - inversion H; subst. reflexivity.
  - destruct (records_page _ _ _ _ _ _) as [eps'|]; [|discriminate]. eauto.
Qed.

Lemma records_pages_fail formatName zoneName good e rest : forall eps eps',
  recordsPagesOf formatName zoneName good eps = returns (inr eps') ->
  recordsPagesOf formatName zoneName (good ++ inl e :: rest) eps =
  returns (inl (provider.NewSoftErrorf "failed to fetch dns records: %v" (Some e))).
Proof.
  induction good as [|[e0|page] good IH]; simpl; intros eps eps' H.
  - reflexivity.
  - discriminate.
  - destruct (records_page _ _ _ _ _ _) as [eps1|]; [|discriminate]. eauto.
Qed.

End Provider.

(** *** The order of the calls *)

Section Trace.

Context {B : Type}.
Variable domainFilter_Match : string -> bool.
Variable zoneNameFilter_Match : string -> bool.
Variable zoneNameFilter_Filters : list string.
Variable zoneIDFilter_Match : string -> bool.
Variable FindZone : gmap string string -> string -> string * string.
Variable parseMxTarget : string -> error + MxRecord.
Variable defaultTTL : Z.
Variable TTL_IsConfigured : Z -> bool.
Variable rangeMap : gmap string (list Endpoint) -> list (string * list Endpoint).
Variable dryRun : bool.
Variable resourceGroup : string.
Variable zonesClient_pages : list (error + list PrivateZone).
Variable c : PrivateRecordSetsClient B.

Abbreviation St := (State (B * list AzureCall)).
Abbreviation logOf := (@invariants.logOf B).
Abbreviation grewBy := (@invariants.grewBy B).

Lemma grewBy_refl kind s : grewBy kind s s.
Proof. exists []. split; [now rewrite app_nil_r|constructor]. Qed.

Lemma grewBy_trans kind s1 s2 s3 :
  grewBy kind s1 s2 -> grewBy kind s2 s3 -> grewBy kind s1 s3.
Proof.
  intros (l1 & H1 & F1) (l2 & H2 & F2). exists (l1 ++ l2).
  split; [now rewrite H2, H1, app_assoc|].
  apply Forall_app. auto.
Qed.

Lemma deleteRecord_log zone e :
  preserves (grewBy isDelete)
    (deleteRecord domainFilter_Match dryRun resourceGroup (azureTraced c) zone e).
Proof.
  intros s. unfold deleteRecord.
  destruct (recordSetNameForZone zone e) as [name|]; [|apply grewBy_refl].
  destruct (negb _); [apply grewBy_refl|].
  destruct dryRun; [apply grewBy_refl|].
  unfold bind, liftB, ret. simpl.
  destruct (Delete c _ _ _ _ _) as [err b']. simpl.
  exists [CallDelete resourceGroup zone (RecordType e) name].
  split; [reflexivity|]. repeat constructor.
Qed.

Lemma updateRecord_log zone e :
  preserves (grewBy isCreateOrUpdate)
    (updateRecord domainFilter_Match parseMxTarget defaultTTL TTL_IsConfigured
       dryRun resourceGroup (azureTraced c) zone e).
Proof.
  intros s. unfold updateRecord.
  destruct (recordSetNameForZone zone e) as [name|]; [|apply grewBy_refl].
  destruct (negb _); [apply grewBy_refl|].
  destruct dryRun; [apply grewBy_refl|].
  destruct (newRecordSet _ _ _ _) as [[err|recordSet]|]; try apply grewBy_refl.
  unfold bind, liftB, ret. simpl.
  destruct (CreateOrUpdate c _ _ _ _ _ _) as [err b']. simpl.
  exists [CallCreateOrUpdate resourceGroup zone (RecordType e) name recordSet].
  split; [reflexivity|]. repeat constructor.
Qed.

Lemma deleteRecords_log m :
  preserves (grewBy isDelete)
    (deleteRecords domainFilter_Match rangeMap dryRun resourceGroup (azureTraced c) m).
Proof.
  apply preserves_forEach; [apply grewBy_refl|apply grewBy_trans|].
  intros [zone eps] _.
  apply preserves_forEach; [apply grewBy_refl|apply grewBy_trans|].
  intros e _. apply deleteRecord_log.
Qed.

Lemma updateRecords_log m :
  preserves (grewBy isCreateOrUpdate)
    (updateRecords domainFilter_Match parseMxTarget defaultTTL TTL_IsConfigured rangeMap
       dryRun resourceGroup (azureTraced c) m).
Proof.
  apply preserves_forEach; [apply grewBy_refl|apply grewBy_trans|].
  intros [zone eps] _.
  apply preserves_forEach; [apply grewBy_refl|apply grewBy_trans|].
  intros e _. apply updateRecord_log.
Qed.

(** The log of ApplyChanges: deletions, then creations and updates. *)
Lemma azure_ApplyChanges_log now changes (s : St) :
  exists deletions updates,
    logOf (snd (ApplyChanges domainFilter_Match zoneNameFilter_Match
                  zoneNameFilter_Filters zoneIDFilter_Match FindZone parseMxTarget
                  defaultTTL TTL_IsConfigured rangeMap dryRun resourceGroup
                  zonesClient_pages (azureTraced c) now changes s))
    = logOf s ++ deletions ++ updates /\
    Forall (fun call => isDelete call = true) deletions /\
    Forall (fun call => isCreateOrUpdate call = true) updates.
Proof.
  unfold ApplyChanges, bind.
  pose proof (zones_backend domainFilter_Match zoneNameFilter_Match
                zoneNameFilter_Filters zoneIDFilter_Match zonesClient_pages now s) as Hz.
  destruct (zones _ _ _ _ _ now s) as [[[err|zs]|] s1]; simpl in Hz;
    try (exists [], []; simpl; unfold logOf; rewrite Hz, !app_nil_r;
         repeat split; constructor).
  destruct (mapChanges FindZone zs changes) as [deleted updated].
  unfold bind.
  pose proof (deleteRecords_log deleted s1) as (dels & Hd & Fd).
  destruct (deleteRecords _ _ _ _ _ deleted s1) as [[[]|] s2]; simpl in Hd.
  - pose proof (updateRecords_log updated s2) as (ups & Hu & Fu).
    destruct (updateRecords _ _ _ _ _ _ _ _ updated s2) as [[[]|] s3]; simpl in Hu;
      exists dels, ups; simpl; (split; [|auto]);
      rewrite Hu, Hd; unfold logOf; rewrite Hz, app_assoc; reflexivity.
  - exists dels, []. simpl. split; [|split; [exact Fd|constructor]].
    rewrite Hd. unfold logOf. now rewrite Hz, app_nil_r.
Qed.

End Trace.

End azure_facts.

(** ** PowerDNS: TTLs, retries, and the order of the patches *)

Module pdns_calls.

Import endpoint pdns pdns_facts pdns_spec tracing invariants.

Local Open Scope list_scope.

Section TTL.

Variable EnsureTrailingDot : string -> string.

Lemma rrsetFor_replace_ttl zone e rr :
  rrsetFor EnsureTrailingDot zone e PdnsReplace = inr rr ->
  RecordTTL e <= MaxInt32 /\
  RrSet_Ttl rr = (if RecordTTL e =? 0 then 300 else int32 (RecordTTL e)).
Proof.
  unfold rrsetFor. simpl.
  destruct (Z.ltb_spec MaxInt32 (RecordTTL e)) as [Hlt|Hle]; [discriminate|].
  destruct (RecordTTL e =? 0); intros Heq; inversion Heq; subst; simpl; auto.
Qed.

Lemma rrsetFor_delete_ttl zone e rr :
  rrsetFor EnsureTrailingDot zone e PdnsDelete = inr rr -> RrSet_Ttl rr = 0.
Proof.
  unfold rrsetFor. simpl. intros H. inversion H; subst. reflexivity.
Qed.

Lemma rrsetFor_overflow zone e :
  MaxInt32 < RecordTTL e ->
  exists err, rrsetFor EnsureTrailingDot zone e PdnsReplace = inl err.
Proof.
  unfold rrsetFor. simpl. intros Hlt.
  destruct (Z.ltb_spec MaxInt32 (RecordTTL e)); [eauto|lia].
Qed.

Lemma rrsetFor_total zone e ct :
  (ct = PdnsReplace -> RecordTTL e <= MaxInt32) ->
  exists rr, rrsetFor EnsureTrailingDot zone e ct = inr rr.
Proof.
  unfold rrsetFor. intros Hle.
  destruct (String.eqb_spec ct PdnsReplace) as [Hct|Hct]; [|eauto].
  specialize (Hle Hct).
  destruct (Z.ltb_spec MaxInt32 (RecordTTL e)); [lia|].
  destruct (RecordTTL e =? 0); eauto.
Qed.

End TTL.

Section Retries.

Context {A : Type}.
Variable ZonesApi_ListZones : A -> (list Zone * option error) * A.

(** Whatever the server answers, an error of ListZones is a soft error. *)
Lemma ListZones_loop_soft n : forall i zones err w zones' err' w',
  ListZones_loop ZonesApi_ListZones n i zones err w = ((zones', Some err'), w') ->
  provider.IsSoftError err' = true.
Proof.
  induction n as [|n IH]; simpl; intros i zones err w zones' err' w' H.
  - inversion H; subst. destruct err; reflexivity.
  - destruct (ZonesApi_ListZones (remote w)) as [[zs [e|]] a']; [eauto|discriminate].
Qed.

End Retries.

Section Patches.

Variable EnsureTrailingDot : string -> string.
Context {B : Type}.
Variable c : PDNSAPIProvider B.

Abbreviation Log := (B * list PdnsCall)%type.
Abbreviation patchedWith := (@invariants.patchedWith B).

Lemma patchedWith_refl ct s : patchedWith ct s s.
Proof. exists []. split; [now rewrite app_nil_r|constructor]. Qed.

Lemma patchedWith_same ct (s s' : Log) : snd s' = snd s -> patchedWith ct s s'.
Proof. intros H. exists []. split; [now rewrite app_nil_r|constructor]. Qed.

Lemma patchedWith_trans ct s1 s2 s3 :
  patchedWith ct s1 s2 -> patchedWith ct s2 s3 -> patchedWith ct s1 s3.
Proof.
  intros (l1 & H1 & F1) (l2 & H2 & F2). exists (l1 ++ l2).
  split; [now rewrite H2, H1, app_assoc|]. apply Forall_app. auto.
Qed.

Lemma patchZones_log ct zonelist : forall s,
  Forall (fun z => Forall (fun rr => RrSet_Changetype rr = ct) (Zone_Rrsets z)) zonelist ->
  patchedWith ct s (snd (patchZones (pdnsTraced c) zonelist s)).
Proof.
  induction zonelist as [|zone rest IH]; simpl; intros s HF; [apply patchedWith_refl|].
  inversion HF as [|? ? Hz Hrest]; subst.
  destruct (PatchZone c (Zone_Id zone) zone (fst s)) as [err b'] eqn:Hp.
  assert (Hstep : patchedWith ct s (b', snd s ++ [(Zone_Id zone, zone)])).
  { exists [(Zone_Id zone, zone)]. split; [reflexivity|]. repeat constructor. exact Hz. }
  destruct err as [err|]; simpl; [exact Hstep|].
  eapply patchedWith_trans; [exact Hstep|]. now apply IH.
Qed.

(** The zones of a conversion carry the changetype asked for. *)
Lemma convertWithZones_changetype eps ct zones zonelist :
  result (convertWithZones EnsureTrailingDot (pdnsTraced c) eps ct zones) = inr zonelist ->
  Forall (fun z => Forall (fun rr => RrSet_Changetype rr = ct) (Zone_Rrsets z)) zonelist.
Proof.
  intros H. apply convertWithZones_inr in H as (eps' & Hloop & _).
  apply filteredLoop_sound in Hloop as [_ (out & -> & Hout)]. simpl.
  rewrite List.Forall_forall. intros z' Hz'.
  destruct (Hout z' Hz') as [_ (pre & zone & post & _ & _ & Hrr)].
  rewrite List.Forall_forall. intros rr Hin.
  destruct (Hrr rr Hin) as (e & _ & _ & _ & Hok).
  now apply rrsetFor_fields in Hok as (_ & Hct & _).
Qed.

Lemma mutateRecords_log eps ct s :
  patchedWith ct s (snd (mutateRecords EnsureTrailingDot (pdnsTraced c) eps ct s)).
Proof.
  unfold mutateRecords, ConvertEndpointsToZones. simpl.
  destruct (ListZones c (fst s)) as [[zones err] b'].
  destruct err as [e|]; simpl; [now apply patchedWith_same|].
  destruct (result (convertWithZones _ _ eps ct zones)) as [e|zonelist] eqn:Hres; simpl;
    [now apply patchedWith_same|].
  pose proof (patchZones_log ct zonelist (b', snd s)
                (convertWithZones_changetype _ _ _ _ Hres)) as (l & Hl & HF).
  exists l. auto.
Qed.

Lemma mutateRecords_if_log (nonempty : bool) eps ct s :
  patchedWith ct s
    (snd (if nonempty then mutateRecords EnsureTrailingDot (pdnsTraced c) eps ct s
          else (None, s))).
Proof.
  destruct nonempty; [apply mutateRecords_log|apply patchedWith_refl].
Qed.

(** The log of ApplyChanges: REPLACE patches for the creations and the
    updates, then DELETE patches. *)
Lemma pdns_ApplyChanges_log changes (s : Log) :
  exists replaces deletes,
    snd (snd (ApplyChanges EnsureTrailingDot (pdnsTraced c) changes s))
    = snd s ++ replaces ++ deletes /\
    Forall (allChangetype PdnsReplace) replaces /\
    Forall (allChangetype PdnsDelete) deletes.
Proof.
  unfold ApplyChanges.
  pose proof (mutateRecords_if_log (0 <? length (plan.Create changes))%nat
                (plan.Create changes) PdnsReplace s) as (l1 & H1 & F1).
  destruct (if (0 <? length (plan.Create changes))%nat then _ else _) as [err1 s1].
  simpl in H1.
  destruct err1 as [e|]; simpl.
  { exists l1, []. rewrite app_nil_r. repeat split; auto. }
  pose proof (mutateRecords_if_log (0 <? length (plan.UpdateNew changes))%nat
                (plan.UpdateNew changes) PdnsReplace s1) as (l2 & H2 & F2).
  destruct (if (0 <? length (plan.UpdateNew changes))%nat then _ else _) as [err2 s2].
  simpl in H2.
  destruct err2 as [e|]; simpl.
  { exists (l1 ++ l2), []. rewrite app_nil_r, H2, H1, app_assoc.
    repeat split; auto. apply Forall_app. auto. }
  pose proof (mutateRecords_if_log (0 <? length (plan.Delete changes))%nat
                (plan.Delete changes) PdnsDelete s2) as (l3 & H3 & F3).
  exists (l1 ++ l2), l3. rewrite H3, H2, H1, !app_assoc.
  repeat split; auto. apply Forall_app. auto.
Qed.

End Patches.

End pdns_calls.

(** ** CoreDNS: what a dry run leaves alone *)

Module coredns_facts.

Import endpoint go coredns go_facts invariants.

Local Open Scope list_scope.

Section Frame.

Context {B : Type}.
Variable domainFilter_Match : string -> bool.
Variable randomPrefix : nat -> string.
Variable rangeLabels : gmap string string -> list (string * string).
Variable rangeGrouped : gmap string (list ptr) -> list (string * list ptr).
Variable coreDNSPrefix : string.
Variable client : coreDNSClient B.

Abbreviation sameEtcd := (@invariants.sameEtcd B).

Lemma sameEtcd_refl s : sameEtcd s s.
Proof. reflexivity. Qed.

Lemma sameEtcd_trans s1 s2 s3 : sameEtcd s1 s2 -> sameEtcd s2 s3 -> sameEtcd s1 s3.
Proof. unfold invariants.sameEtcd. congruence. Qed.

Lemma load_frame p : preserves sameEtcd (@load B p).
Proof. intros s. unfold load. destruct (objects s !! p); reflexivity. Qed.

Lemma store_frame p e : preserves sameEtcd (@store B p e).
Proof. intros s. unfold store. destruct (objects s !! p); reflexivity. Qed.

Lemma readLabel_frame m key : preserves sameEtcd (@readLabel B m key).
Proof. intros s. reflexivity. Qed.

Lemma writeLabel_frame m key value : preserves sameEtcd (@writeLabel B m key value).
Proof. intros s. unfold writeLabel. destruct (labelMaps s !! m); reflexivity. Qed.

Lemma newRandomPrefix_frame : preserves sameEtcd (@newRandomPrefix B randomPrefix).
Proof. intros s. reflexivity. Qed.

Ltac frame :=
  repeat match goal with
  | |- preserves _ (bind _ _) => apply (preserves_bind _ sameEtcd_trans); [|intros ?]
  | |- preserves _ (ret _) => apply (preserves_ret _ sameEtcd_refl)
  | |- preserves _ panic => apply (preserves_panic _ sameEtcd_refl)
  | |- preserves _ get => apply (preserves_get _ sameEtcd_refl)
  | |- preserves _ (load _) => apply load_frame
  | |- preserves _ (store _ _) => apply store_frame
  | |- preserves _ (readLabel _ _) => apply readLabel_frame
  | |- preserves _ (writeLabel _ _ _) => apply writeLabel_frame
  | |- preserves _ (newRandomPrefix _) => apply newRandomPrefix_frame
  | |- preserves _ (if ?b then _ else _) => destruct b
  | |- preserves _ (match ?x with _ => _ end) => destruct x
  end.

Abbreviation groupEndpointsOf := (@groupEndpoints B).

Lemma groupCreate_frame create : forall grouped,
  preserves sameEtcd (@groupCreate B create grouped).
Proof.
  induction create as [|p rest IH]; simpl; intros grouped; frame. apply IH.
Qed.

Lemma groupUpdate_frame update : forall grouped,
  preserves sameEtcd (@groupUpdate B update grouped).
Proof.
  induction update as [|[old p] rest IH]; simpl; intros grouped; frame. apply IH.
Qed.

Lemma groupEndpoints_frame changes : preserves sameEtcd (groupEndpointsOf changes).
Proof.
  unfold groupEndpoints. frame; [apply groupCreate_frame|apply groupUpdate_frame].
Qed.

Lemma servicesForTargets_frame dnsName e targets : forall services,
  preserves sameEtcd
    (@servicesForTargets B randomPrefix coreDNSPrefix dnsName e targets services).
Proof.
  induction targets as [|t rest IH]; simpl; intros services; frame; apply IH.
Qed.

Lemma cleanLabel_dry dnsName e entry :
  preserves sameEtcd (cleanLabel true coreDNSPrefix client dnsName e entry).
Proof. unfold cleanLabel. destruct entry as [label labelPrefix]. frame. Qed.

Lemma createServicesForEndpoint_dry dnsName p :
  preserves sameEtcd
    (createServicesForEndpoint randomPrefix rangeLabels true coreDNSPrefix client dnsName p).
Proof.
  unfold createServicesForEndpoint. frame.
  - apply servicesForTargets_frame.
  - apply (preserves_forEachErr _ sameEtcd_refl sameEtcd_trans).
    intros entry _. apply cleanLabel_dry.
Qed.

Lemma setTXT_frame dnsName group : forall index services,
  preserves sameEtcd (@setTXT B randomPrefix coreDNSPrefix dnsName group index services).
Proof.
  induction group as [|p rest IH]; simpl; intros index services; frame; apply IH.
Qed.

Lemma servicesForGroup_dry dnsName group : forall services,
  preserves sameEtcd
    (servicesForGroup randomPrefix rangeLabels true coreDNSPrefix client dnsName group
       services).
Proof.
  induction group as [|p rest IH]; simpl; intros services; frame; try apply IH.
  apply createServicesForEndpoint_dry.
Qed.

Lemma applyGroup_dry dnsName group :
  preserves sameEtcd
    (applyGroup randomPrefix rangeLabels true coreDNSPrefix client dnsName group).
Proof.
  unfold applyGroup, updateTXTRecords. frame.
  - apply servicesForGroup_dry.
  - apply setTXT_frame.
  - apply (preserves_forEachErr _ sameEtcd_refl sameEtcd_trans).
    intros service _. unfold saveService. frame.
Qed.

Lemma deleteEndpoints_dry endpoints :
  preserves sameEtcd (deleteEndpoints true coreDNSPrefix client endpoints).
Proof.
  apply (preserves_forEachErr _ sameEtcd_refl sameEtcd_trans).
  intros p _. unfold deleteEndpoint. frame.
Qed.

Lemma coredns_ApplyChanges_dry changes :
  preserves sameEtcd
    (coredns.ApplyChanges domainFilter_Match randomPrefix rangeLabels rangeGrouped
       true coreDNSPrefix client changes).
Proof.
  unfold coredns.ApplyChanges. frame.
  - apply groupEndpoints_frame.
  - apply (preserves_forEachErr _ sameEtcd_refl sameEtcd_trans).
    intros [dnsName group] _. unfold applyOneGroup. frame. apply applyGroup_dry.
  - apply deleteEndpoints_dry.
Qed.

End Frame.

(** *** A dry run on a well-formed store returns *)

Section Total.

Context {B : Type}.
Variable domainFilter_Match : string -> bool.
Variable randomPrefix : nat -> string.
Variable rangeLabels : gmap string string -> list (string * string).
Variable rangeGrouped : gmap string (list ptr) -> list (string * list ptr).
Variable coreDNSPrefix : string.
Variable client : coreDNSClient B.

(** The sizes of the two stores; [ApplyChanges] allocates in neither. *)
Variable n k : nat.

Abbreviation sound := (invariants.sound k).
Abbreviation wellFormed := (@invariants.wellFormed B n k).
Abbreviation total := (@invariants.total B n k).
Abbreviation validGroups := (invariants.validGroups n).
Abbreviation validChanges := (invariants.validChanges n).

Lemma total_ret {A} (a : A) (Q : A -> Prop) : Q a -> total (ret a) Q.
Proof. intros Ha s Hs. exists a, s. auto. Qed.

Lemma total_bind {A A'} (m : M (Store B) A) (f : A -> M (Store B) A')
    (Q : A -> Prop) (R : A' -> Prop) :
  total m Q -> (forall a, Q a -> total (f a) R) -> total (bind m f) R.
Proof.
  intros Hm Hf s Hs. destruct (Hm s Hs) as (a & s1 & Heq & Hs1 & Ha).
  destruct (Hf a Ha s1 Hs1) as (a' & s2 & Heq' & Hs2 & Ha').
  exists a', s2. unfold bind. rewrite Heq. auto.
Qed.

Lemma total_weaken {A} (m : M (Store B) A) (Q R : A -> Prop) :
  total m Q -> (forall a, Q a -> R a) -> total m R.
Proof.
  intros Hm HQR s Hs. destruct (Hm s Hs) as (a & s' & Heq & Hs' & Ha).
  exists a, s'. auto.
Qed.

Lemma total_load p : (p < n)%nat -> total (load p) sound.
Proof.
  intros Hp s Hs. destruct Hs as (Hn & Hk & Hall).
  destruct (lookup_lt_is_Some_2 (objects s) p) as [e He]; [lia|].
  exists e, s. unfold load. rewrite He. split; [reflexivity|].
  split; [now repeat split|].
  rewrite Forall_forall in Hall. apply Hall. now apply list_elem_of_lookup_2 in He.
Qed.

Lemma total_store p e : (p < n)%nat -> sound e -> total (store p e) (fun _ => True).
Proof.
  intros Hp He s (Hn & Hk & Hall).
  destruct (lookup_lt_is_Some_2 (objects s) p) as [e0 He0]; [lia|].
  exists tt, (mkStore (<[p := e]> (objects s)) (labelMaps s) (drawn s) (etcd s)).
  unfold store. rewrite He0. split; [reflexivity|]. split; [|exact I].
  repeat split; simpl; [now rewrite length_insert|exact Hk|].
  now apply Forall_insert.
Qed.

Lemma total_readLabel m key : total (readLabel m key) (fun _ => True).
Proof.
  intros s Hs. exists (default "" (labelsAt s m !! key)), s.
  split; [reflexivity|]. split; [exact Hs|exact I].
Qed.

Lemma total_writeLabel m key value :
  (m < k)%nat -> total (writeLabel m key value) (fun _ => True).
Proof.
  intros Hm s (Hn & Hk & Hall).
  destruct (lookup_lt_is_Some_2 (labelMaps s) m) as [labels Hl]; [lia|].
  unfold writeLabel. rewrite Hl. eexists tt, _. split; [reflexivity|].
  split; [|exact I]. repeat split; simpl; [exact Hn|now rewrite length_insert|exact Hall].
Qed.

Lemma total_newRandomPrefix : total (newRandomPrefix randomPrefix) (fun _ => True).
Proof.
  intros s (Hn & Hk & Hall).
  exists (randomPrefix (drawn s)),
         (mkStore (objects s) (labelMaps s) (S (drawn s)) (etcd s)).
  split; [reflexivity|]. split; [|exact I]. now repeat split.
Qed.

Lemma total_get : total get (fun _ => True).
Proof. intros s Hs. exists s, s. auto. Qed.

Lemma total_forEachErr {X} (body : X -> M (Store B) (option error)) (l : list X) :
  (forall x, In x l -> total (body x) (fun err => err = None)) ->
  total (forEachErr body l) (fun err => err = None).
Proof.
  induction l as [|x l IH]; simpl; intros H.
  - now apply total_ret.
  - eapply total_bind; [apply H; now left|].
    intros err ->. apply IH. intros y Hy. apply H. now right.
Qed.

Lemma validGroups_empty : validGroups ∅.
Proof. intros dnsName group H. rewrite lookup_empty in H. discriminate. Qed.

Lemma appendGroup_valid grouped dnsName p :
  validGroups grouped -> (p < n)%nat -> validGroups (appendGroup grouped dnsName p).
Proof.
  intros Hg Hp key group. unfold appendGroup.
  destruct (decide (dnsName = key)) as [->|Hne].
  - rewrite lookup_insert_eq. intros [= <-].
    apply Forall_app. split; [|repeat constructor; exact Hp].
    destruct (grouped !! key) as [g|] eqn:Hk; simpl; [now apply (Hg key)|constructor].
  - rewrite lookup_insert_ne by exact Hne. apply Hg.
Qed.

Lemma groupCreate_total create : forall grouped,
  Forall (fun p => (p < n)%nat) create -> validGroups grouped ->
  total (groupCreate create grouped) validGroups.
Proof.
  induction create as [|p rest IH]; simpl; intros grouped Hc Hg.
  - now apply total_ret.
  - inversion Hc; subst.
    eapply total_bind; [now apply total_load|].
    intros e _. apply IH; [assumption|]. now apply appendGroup_valid.
Qed.

Lemma groupUpdate_total update : forall grouped,
  Forall (fun u => (fst u < n)%nat /\ (snd u < n)%nat) update -> validGroups grouped ->
  total (groupUpdate update grouped) validGroups.
Proof.
  induction update as [|[old p] rest IH]; simpl; intros grouped Hu Hg.
  - now apply total_ret.
  - inversion Hu as [|? ? [Hold Hp] Hrest]; subst. simpl in Hold, Hp.
    eapply total_bind; [now apply total_load|]. intros o [Ho _].
    eapply total_bind; [now apply total_load|]. intros e [_ He].
    eapply total_bind; [apply total_store; [exact Hp|now split]|]. intros _ _.
    apply IH; [assumption|]. now apply appendGroup_valid.
Qed.

Lemma servicesForTargets_total dnsName e targets : forall services,
  sound e ->
  total (servicesForTargets randomPrefix coreDNSPrefix dnsName e targets services)
        (fun _ => True).
Proof.
  induction targets as [|t rest IH]; simpl; intros services He.
  - now apply total_ret.
  - eapply total_bind; [apply total_readLabel|]. intros prefix _.
    eapply total_bind.
    { destruct (String.eqb prefix ""); [apply total_newRandomPrefix|now apply total_ret]. }
    intros prefix' _.
    eapply total_bind; [apply total_readLabel|]. intros originalText _.
    eapply total_bind; [apply total_writeLabel; apply He|]. intros _ _.
    now apply IH.
Qed.

Lemma cleanLabel_total dnsName e entry :
  total (cleanLabel true coreDNSPrefix client dnsName e entry) (fun err => err = None).
Proof.
  unfold cleanLabel. destruct entry as [label labelPrefix].
  destruct (shouldSkipLabel label); [now apply total_ret|].
  destruct (snd (findLabelInTargets (Targets e) label)); now apply total_ret.
Qed.

Lemma createServicesForEndpoint_total dnsName p :
  (p < n)%nat ->
  total (createServicesForEndpoint randomPrefix rangeLabels true coreDNSPrefix client
           dnsName p)
        (fun r => exists services, r = inr services).
Proof.
  intros Hp. unfold createServicesForEndpoint.
  eapply total_bind; [now apply total_load|]. intros e He.
  eapply total_bind; [now apply servicesForTargets_total|]. intros services _.
  eapply total_bind; [apply total_get|]. intros s _.
  eapply total_bind.
  { apply total_forEachErr. intros entry _. apply cleanLabel_total. }
  intros err ->. apply total_ret. eauto.
Qed.

Lemma servicesForGroup_total dnsName group : forall services,
  Forall (fun p => (p < n)%nat) group ->
  total (servicesForGroup randomPrefix rangeLabels true coreDNSPrefix client dnsName
           group services)
        (fun r => exists services', r = inr services').
Proof.
  induction group as [|p rest IH]; simpl; intros services Hg.
  - apply total_ret. eauto.
  - inversion Hg; subst.
    eapply total_bind; [now apply total_load|]. intros e _.
    destruct (negb (String.eqb (RecordType e) RecordTypeTXT)); [|now apply IH].
    eapply total_bind; [now apply createServicesForEndpoint_total|].
    intros r [srvs ->]. now apply IH.
Qed.

Lemma setTXT_total dnsName group : forall index services,
  Forall (fun p => (p < n)%nat) group -> (index <= length services)%nat ->
  total (setTXT randomPrefix coreDNSPrefix dnsName group index services)
        (fun _ => True).
Proof.
  induction group as [|p rest IH]; simpl; intros index services Hg Hi.
  - now apply total_ret.
  - inversion Hg; subst.
    eapply total_bind; [now apply total_load|]. intros e [_ He].
    destruct (String.eqb_spec (RecordType e) RecordTypeTXT) as [Htxt|_]; simpl;
      [|now apply IH].
    eapply (total_bind _ _ (fun services' => (index < length services')%nat)).
    { destruct (Nat.leb_spec (length services) index).
      - eapply total_bind; [apply total_readLabel|]. intros prefix _.
        eapply total_bind.
        { destruct (String.eqb prefix ""); [apply total_newRandomPrefix|now apply total_ret]. }
        intros prefix' _. apply total_ret. rewrite length_app. simpl. lia.
      - now apply total_ret. }
    intros services' Hlt.
    destruct (Targets e) as [|target targets] eqn:Ht; [now destruct (He Htxt)|].
    destruct (lookup_lt_is_Some_2 services' index Hlt) as [service Hs].
    rewrite Hs. apply IH; [assumption|]. rewrite length_insert. lia.
Qed.

Lemma applyGroup_total dnsName group :
  Forall (fun p => (p < n)%nat) group ->
  total (applyGroup randomPrefix rangeLabels true coreDNSPrefix client dnsName group)
        (fun err => err = None).
Proof.
  intros Hg. unfold applyGroup.
  eapply total_bind; [now apply servicesForGroup_total|]. intros r [services ->].
  unfold updateTXTRecords.
  eapply total_bind.
  { eapply total_bind; [apply setTXT_total; [exact Hg|lia]|].
    intros r _. now apply (total_ret _ (fun _ => True)). }
  intros services' _. apply total_forEachErr.
  intros service _. unfold saveService. now apply total_ret.
Qed.

Lemma deleteEndpoints_total endpoints :
  Forall (fun p => (p < n)%nat) endpoints ->
  total (deleteEndpoints true coreDNSPrefix client endpoints) (fun err => err = None).
Proof.
  intros He. apply total_forEachErr. intros p Hp.
  rewrite List.Forall_forall in He. specialize (He p Hp).
  unfold deleteEndpoint.
  eapply total_bind; [now apply total_load|]. intros e _.
  eapply total_bind; [apply total_readLabel|]. intros prefix _.
  now apply total_ret.
Qed.

Lemma coredns_ApplyChanges_total changes :
  validChanges changes ->
  (forall grouped dnsName group,
     In (dnsName, group) (rangeGrouped grouped) -> grouped !! dnsName = Some group) ->
  total (coredns.ApplyChanges domainFilter_Match randomPrefix rangeLabels rangeGrouped
           true coreDNSPrefix client changes)
        (fun err => err = None).
Proof.
  intros (Hc & Hu & Hd) Hrange. unfold coredns.ApplyChanges.
  eapply total_bind.
  { unfold groupEndpoints.
    eapply total_bind; [apply groupCreate_total; [exact Hc|apply validGroups_empty]|].
    intros grouped Hg. now apply groupUpdate_total. }
  intros grouped Hg.
  eapply total_bind.
  { apply total_forEachErr. intros [dnsName group] Hin. unfold applyOneGroup.
    destruct (negb (domainFilter_Match dnsName)); [now apply total_ret|].
    apply applyGroup_total. apply (Hg dnsName). now apply Hrange. }
  intros err ->. now apply deleteEndpoints_total.
Qed.

End Total.

(** *** Grouping shares the label maps *)

Section Sharing.

Context {B : Type}.

Lemma groupCreate_state create : forall grouped (s : Store B) grouped' s',
  groupCreate create grouped s = (returns grouped', s') -> s' = s.
Proof.
  induction create as [|p rest IH]; simpl; intros grouped s grouped' s' H.
  - now inversion H.
  - unfold bind, load in H. destruct (objects s !! p); [eauto|discriminate].
Qed.

Lemma groupCreate_returns create : forall grouped (s : Store B),
  Forall (fun p => (p < length (objects s))%nat) create ->
  exists grouped', groupCreate create grouped s = (returns grouped', s).
Proof.
  induction create as [|p rest IH]; simpl; intros grouped s Hc.
  - eexists. reflexivity.
  - inversion Hc as [|? ? Hp Hrest]; subst.
    destruct (lookup_lt_is_Some_2 (objects s) p Hp) as [e He].
    unfold bind, load. rewrite He. now apply IH.
Qed.

Lemma groupUpdate_shares update : forall grouped (s : Store B),
  Forall (fun u => (fst u < length (objects s))%nat /\ (snd u < length (objects s))%nat)
         update ->
  List.NoDup (map snd update) ->
  (forall o p, In o (map fst update) -> In p (map snd update) -> o <> p) ->
  exists grouped' s',
    groupUpdate update grouped s = (returns grouped', s') /\
    labelMaps s' = labelMaps s /\
    length (objects s') = length (objects s) /\
    (forall q, ~ In q (map snd update) -> objects s' !! q = objects s !! q) /\
    (forall old p, In (old, p) update ->
       exists o e, objects s !! old = Some o /\ objects s !! p = Some e /\
                   objects s' !! p = Some (set_Labels (Labels o) e)).
Proof.
  induction update as [|[old p] rest IH]; simpl; intros grouped s Hv Hnd Hdis.
  - exists grouped, s. repeat split; auto. intros old p [].
  - inversion Hv as [|? ? [Hold Hp] Hrest]; subst. simpl in Hold, Hp.
    inversion Hnd as [|? ? Hnotin Hnd']; subst.
    destruct (lookup_lt_is_Some_2 (objects s) old Hold) as [o Ho].
    destruct (lookup_lt_is_Some_2 (objects s) p Hp) as [e He].
    set (s1 := mkStore (<[p := set_Labels (Labels o) e]> (objects s)) (labelMaps s)
                       (drawn s) (etcd s)).
    destruct (IH (appendGroup grouped (DNSName e) p) s1)
      as (grouped' & s' & Heq & Hmaps & Hlen & Hkeep & Hpairs).
    { simpl. rewrite length_insert. exact Hrest. }
    { exact Hnd'. }
    { intros o' p' Ho' Hp'. apply Hdis; now right. }
    exists grouped', s'.
    split.
    { unfold bind, load, store. rewrite Ho, He, He. exact Heq. }
    split; [exact Hmaps|].
    split; [rewrite Hlen; simpl; now rewrite length_insert|].
    split.
    { intros q Hq. rewrite Hkeep by tauto. simpl.
      apply list_lookup_insert_ne. intros ->. apply Hq. now left. }
    intros old' p' [Heq'|Hin].
    + inversion Heq'; subst old' p'. exists o, e. repeat split; auto.
      rewrite (Hkeep p Hnotin). simpl. now apply list_lookup_insert_eq.
    + destruct (Hpairs old' p' Hin) as (o' & e' & Ho' & He' & Hs').
      assert (Hin_old : In old' (map fst rest)) by (now apply (in_map fst) in Hin).
      assert (Hin_new : In p' (map snd rest)) by (now apply (in_map snd) in Hin).
      exists o', e'. split; [|split; [|exact Hs']].
      * simpl in Ho'. rewrite list_lookup_insert_ne in Ho'; [exact Ho'|].
        intros ->. apply (Hdis old' old'); [now right|now left|reflexivity].
      * simpl in He'. rewrite list_lookup_insert_ne in He'; [exact He'|].
        intros ->. contradiction.
Qed.

Lemma writeLabel_read m key value (s s'' : Store B) :
  writeLabel m key value s = (returns tt, s'') ->
  labelsAt s'' m !! key = Some value.
Proof.
  unfold writeLabel, labelsAt.
  destruct (labelMaps s !! m) as [labels|] eqn:Hl; [|discriminate].
  intros H. inversion H; subst. simpl.
  rewrite list_lookup_insert_eq by (now apply lookup_lt_Some in Hl). simpl.
  apply lookup_insert_eq.
Qed.

End Sharing.

End coredns_facts.

(** ** Construction, errors and TTLs across the providers *)

Module providers_spec.

Import endpoint go.

Local Open Scope list_scope.

(** C8. Configuration errors fail at construction: NewPDNSProvider returns
    an error and no provider when the API key is empty or dry-run is
    requested; NewIngressSource returns an error and no source, before the
    informer is started, when ingress-class names are given together with
    an annotation filter whose selector has a requirement on the key
    kubernetes.io/ingress.class. *)
Theorem config_errors_fail_at_construction :
  (forall NewTLSConfig config,
     pdns.APIKey config = "" \/ pdns.DryRun config = true ->
     exists err, pdns.NewPDNSProvider NewTLSConfig config = inl err) /\
  (forall (Template : Type) (ParseTemplate : string -> error + Template)
          getLabelSelector WaitForCacheSync
          namespace annotationFilter fqdnTemplate
          combineFqdnAnnotation ignoreHostnameAnnotation ignoreIngressTLSSpec
          ignoreIngressRulesSpec names requirements requirement c,
     annotationFilter <> "" ->
     getLabelSelector annotationFilter = inr requirements ->
     In requirement requirements ->
     source.Requirement_Key requirement = source.IngressClassAnnotationKey ->
     exists err,
       source.NewIngressSource ParseTemplate getLabelSelector WaitForCacheSync
         namespace annotationFilter fqdnTemplate combineFqdnAnnotation
         ignoreHostnameAnnotation ignoreIngressTLSSpec ignoreIngressRulesSpec
         (Some names) c
       = (inl err, c)).
Proof.
  split.
  - intros NewTLSConfig config [Hkey|Hdry]; unfold pdns.NewPDNSProvider.
    + rewrite Hkey. simpl. eauto.
    + rewrite Hdry. destruct (String.eqb (pdns.APIKey config) ""); eauto.
  - intros Template ParseTemplate getLabelSelector WaitForCacheSync namespace
      annotationFilter fqdnTemplate b1 b2 b3 b4 names requirements requirement c
      Hfilter Hsel Hin Hkey.
    unfold source.NewIngressSource.
    destruct (ParseTemplate fqdnTemplate) as [err|tmpl]; [eauto|].
    destruct (String.eqb_spec annotationFilter "") as [Heq|_]; [contradiction|].
    simpl. rewrite Hsel.
    assert (Hhas : source.hasIngressClassKey requirements = true).
    { clear Hsel. induction requirements as [|r l IH]; [destruct Hin|].
      simpl. destruct Hin as [->|Hin].
      - rewrite Hkey. reflexivity.
      - destruct (String.eqb _ _); [reflexivity|auto]. }
    rewrite Hhas. eauto.
Qed.

Lemma config_errors_fail_at_construction_witness :
  (exists err,
     pdns.NewPDNSProvider (fun _ => None)
       (pdns.mkPDNSConfig true "http://pdns:8081" "localhost" "secret"
          (pdns.mkTLSConfig false "" "" ""))
     = inl err) /\
  (exists err,
     source.NewIngressSource (fun t : string => inr t)
       (fun _ => inr [source.mkRequirement "kubernetes.io/ingress.class" "in" ["nginx"]])
       None "default" "kubernetes.io/ingress.class=nginx" "" false false false false
       (Some ["nginx"]) (source.mkCluster false)
     = (inl err, source.mkCluster false)).
Proof.
  destruct config_errors_fail_at_construction as [Hpdns Hingress].
  split.
  - apply Hpdns. right. reflexivity.
  - apply (Hingress string (fun t : string => inr t)
             (fun _ => inr [source.mkRequirement "kubernetes.io/ingress.class" "in" ["nginx"]])
             None "default" "kubernetes.io/ingress.class=nginx" "" false false false false
             ["nginx"]
             [source.mkRequirement "kubernetes.io/ingress.class" "in" ["nginx"]]
             (source.mkRequirement "kubernetes.io/ingress.class" "in" ["nginx"])).
    + discriminate.
    + reflexivity.
    + simpl. auto.
    + reflexivity.
Defined.

Section SoftErrors.

Context {B : Type}.
Variable domainFilter_Match : string -> bool.
Variable zoneNameFilter_Match : string -> bool.
Variable zoneNameFilter_Filters : list string.
Variable zoneIDFilter_Match : string -> bool.
Variable formatAzureDNSName : string -> string -> string.
Variable resourceGroup : string.
Variable zonesClient_pages : list (error + list azure.PrivateZone).
Variable recordSetsClient : azure.PrivateRecordSetsClient B.

Abbreviation recordsZones :=
  (azure.records_zones domainFilter_Match zoneNameFilter_Filters formatAzureDNSName
     resourceGroup recordSetsClient).
Abbreviation recordsPages :=
  (azure.records_pages domainFilter_Match zoneNameFilter_Filters formatAzureDNSName).
Abbreviation azureZonesOf :=
  (@azure.zones B domainFilter_Match zoneNameFilter_Match zoneNameFilter_Filters
     zoneIDFilter_Match zonesClient_pages).
Abbreviation azureRecordsOf :=
  (azure.Records domainFilter_Match zoneNameFilter_Match zoneNameFilter_Filters
     zoneIDFilter_Match formatAzureDNSName resourceGroup zonesClient_pages
     recordSetsClient).

Lemma records_zones_soft b zs : forall eps err,
  recordsZones b zs eps = returns (inl err) -> provider.IsSoftError err = true.
Proof.
  induction zs as [|z zs IH]; simpl; intros eps err H; [discriminate|].
  destruct (azure.PrivateZone_Name z) as [name|]; [|discriminate].
  destruct (recordsPages name _ eps) as [[e|eps']|] eqn:Hp; [|eauto|discriminate].
  inversion H; subst. now apply azure_facts.records_pages_soft in Hp.
Qed.

Lemma records_zones_fail b zs1 z zs2 name good e rest : forall eps eps1 eps2,
  recordsZones b zs1 eps = returns (inr eps1) ->
  azure.PrivateZone_Name z = Some name ->
  azure.NewListPager recordSetsClient resourceGroup name b = good ++ inl e :: rest ->
  recordsPages name good eps1 = returns (inr eps2) ->
  recordsZones b (zs1 ++ z :: zs2) eps =
  returns (inl (provider.NewSoftErrorf "failed to fetch dns records: %v" (Some e))).
Proof.
  induction zs1 as [|z1 zs1 IH]; simpl; intros eps eps1 eps2 H1 Hname Hpager Hgood.
  - inversion H1; subst. rewrite Hname, Hpager.
    now rewrite (azure_facts.records_pages_fail _ _ _ _ _ _ _ _ _ Hgood).
  - destruct (azure.PrivateZone_Name z1) as [name1|]; [|discriminate].
    destruct (recordsPages name1 _ eps) as [[e1|eps']|]; [discriminate| |discriminate].
    now apply (IH eps' eps1 eps2).
Qed.

(** C6. Backend failures surface as soft errors.  PDNSAPIClient.ListZones
    calls the zone-list API at most three times, sleeping 250, 500 and 1000
    milliseconds after the failed attempts; when all three fail it returns
    a soft error, and no error it returns is anything but soft; a first
    attempt that succeeds is returned as it is.  AzurePrivateDNSProvider.
    Records returns a soft error when the fetch of a page of record sets
    fails (the zones and pages before it having been read), and any error
    it returns is either the error of the zone listing or a soft error. *)
Theorem backend_failures_are_soft :
  (forall (A : Type) (api : A -> (list pdns.Zone * option error) * A) w zones err w',
     pdns.APIClient_ListZones api w = ((zones, Some err), w') ->
     provider.IsSoftError err = true) /\
  (forall (A : Type) (api : A -> (list pdns.Zone * option error) * A)
          a0 sl z1 e1 a1 z2 e2 a2 z3 e3 a3,
     api a0 = ((z1, Some e1), a1) ->
     api a1 = ((z2, Some e2), a2) ->
     api a2 = ((z3, Some e3), a3) ->
     pdns.APIClient_ListZones api (pdns.mkWorld a0 sl) =
     ((z3, Some (provider.NewSoftErrorf "unable to list zones: %v" (Some e3))),
      pdns.mkWorld a3 (sl ++ [250; 500; 1000]))) /\
  (forall (A : Type) (api : A -> (list pdns.Zone * option error) * A) a0 sl zs a1,
     api a0 = ((zs, None), a1) ->
     pdns.APIClient_ListZones api (pdns.mkWorld a0 sl) = ((zs, None), pdns.mkWorld a1 sl)) /\
  (forall now s s1 zs1 z zs2 name good e rest eps1 eps2,
     azureZonesOf now s = (returns (inr (zs1 ++ z :: zs2)), s1) ->
     recordsZones (azure.backend s1) zs1 [] = returns (inr eps1) ->
     azure.PrivateZone_Name z = Some name ->
     azure.NewListPager recordSetsClient resourceGroup name (azure.backend s1)
       = good ++ inl e :: rest ->
     recordsPages name good eps1 = returns (inr eps2) ->
     exists err,
       azureRecordsOf now s = (returns (inl err), s1) /\
       provider.IsSoftError err = true) /\
  (forall now s err s',
     azureRecordsOf now s = (returns (inl err), s') ->
     azureZonesOf now s = (returns (inl err), s') \/ provider.IsSoftError err = true).
Proof.
  split; [|split; [|split; [|split]]].
  - intros A api w zones err w'. unfold pdns.APIClient_ListZones.
    apply pdns_calls.ListZones_loop_soft.
  - intros A api a0 sl z1 e1 a1 z2 e2 a2 z3 e3 a3 H0 H1 H2.
    unfold pdns.APIClient_ListZones, pdns.retryLimit. simpl.
    rewrite H0. simpl. rewrite H1. simpl. rewrite H2. simpl.
    unfold pdns.Sleep. simpl. rewrite <- !app_assoc. reflexivity.
  - intros A api a0 sl zs a1 H0.
    unfold pdns.APIClient_ListZones, pdns.retryLimit. simpl. now rewrite H0.
  - intros now s s1 zs1 z zs2 name good e rest eps1 eps2 Hz H1 Hname Hpager Hgood.
    exists (provider.NewSoftErrorf "failed to fetch dns records: %v" (Some e)).
    split; [|reflexivity].
    unfold azure.Records, bind. rewrite Hz. unfold get. simpl.
    now rewrite (records_zones_fail _ _ _ _ _ _ _ _ _ _ _ H1 Hname Hpager Hgood).
  - intros now s err s'. unfold azure.Records, bind.
    destruct (azureZonesOf now s) as [[[e|zs]|] s1]; simpl.
    + intros H. inversion H; subst. now left.
    + unfold get. simpl.
      destruct (recordsZones (azure.backend s1) zs []) as [[e|eps]|] eqn:Hr; simpl;
        intros H; inversion H; subst.
      right. now apply records_zones_soft in Hr.
    + discriminate.
Qed.

End SoftErrors.

Lemma backend_failures_are_soft_witness :
  provider.IsSoftError
    (provider.NewSoftErrorf "unable to list zones: %v"
       (Some (errorsNew "503 Service Unavailable"))) = true /\
  pdns.APIClient_ListZones examples.unavailable (pdns.mkWorld 0%nat []) =
    (([], Some (provider.NewSoftErrorf "unable to list zones: %v"
                  (Some (errorsNew "503 Service Unavailable")))),
     pdns.mkWorld 3%nat [250; 500; 1000]) /\
  pdns.APIClient_ListZones (fun calls : nat => (([examples.zoneExample], None), S calls))
    (pdns.mkWorld 0%nat []) = (([examples.zoneExample], None), pdns.mkWorld 1%nat []) /\
  (exists err,
     examples.azureRecords (examples.azureMock [inl (errorsNew "timeout")])
       (examples.azureStart tt)
     = (returns (inl err),
        azure.mkState (azure.mkZonesCache 0 0 examples.azureZones) tt) /\
     provider.IsSoftError err = true) /\
  (azure.zones (fun _ => true) (fun _ => true) [] (fun _ => true) [inr examples.azureZones]
     0 (examples.azureStart tt)
   = (returns (inl (softError (fmtErrorf "failed to fetch dns records: %v"
                                 (errorsNew "timeout")))),
      azure.mkState (azure.mkZonesCache 0 0 examples.azureZones) tt)
   \/ provider.IsSoftError
        (softError (fmtErrorf "failed to fetch dns records: %v" (errorsNew "timeout")))
      = true).
Proof.
  destruct (backend_failures_are_soft (fun _ => true) (fun _ => true) [] (fun _ => true)
              examples.formatName "rg" [inr examples.azureZones]
              (examples.azureMock [inl (errorsNew "timeout")]))
    as (H1 & H2 & H3 & H4 & H5).
  split; [|split; [|split; [|split]]].
  - apply (H1 nat examples.unavailable (pdns.mkWorld 0%nat []) []
             (provider.NewSoftErrorf "unable to list zones: %v"
                (Some (errorsNew "503 Service Unavailable")))
             (pdns.mkWorld 3%nat [250; 500; 1000])).
    vm_compute. reflexivity.
  - apply (H2 nat examples.unavailable 0%nat [] [] (errorsNew "503 Service Unavailable") 1%nat
             [] (errorsNew "503 Service Unavailable") 2%nat
             [] (errorsNew "503 Service Unavailable") 3%nat); reflexivity.
  - apply (H3 nat (fun calls : nat => (([examples.zoneExample], None), S calls))
             0%nat [] [examples.zoneExample] 1%nat). reflexivity.
  - apply (H4 0 (examples.azureStart tt)
             (azure.mkState (azure.mkZonesCache 0 0 examples.azureZones) tt)
             [] (azure.mkPrivateZone (Some "/privateDnsZones/example.com") (Some "example.com"))
             [] "example.com" [] (errorsNew "timeout") [] [] []); reflexivity.
  - apply (H5 0 (examples.azureStart tt)). vm_compute. reflexivity.
Defined.

Section Routing.

Variable EnsureTrailingDot : string -> string.
Context {B : Type}.
Variable client : pdns.PDNSAPIProvider B.

Abbreviation dnsnameOf e := (EnsureTrailingDot (DNSName e)).
Abbreviation convert := (pdns.ConvertEndpointsToZones EnsureTrailingDot client).
Abbreviation filteredOf zones := (fst (pdns.PartitionZones client zones)).
Abbreviation residualOf zones := (snd (pdns.PartitionZones client zones)).

(** Every rrset of a successful conversion is the rrset of an endpoint of
    the batch, in a filtered zone that matches it. *)
Lemma converted_rrset eps ct zones zoneList zone' rr :
  pdns.result (pdns.convertWithZones EnsureTrailingDot client eps ct zones) = inr zoneList ->
  In zone' zoneList -> In rr (pdns.Zone_Rrsets zone') ->
  exists zone e,
    In zone (filteredOf zones) /\ In e eps /\
    pdns.matchesZone (dnsnameOf e) zone = true /\
    pdns.Zone_Name zone' = pdns.Zone_Name zone /\
    pdns.rrsetFor EnsureTrailingDot zone e ct = inr rr.
Proof.
  intros Hres Hz Hrr.
  apply pdns_spec.convertWithZones_inr in Hres as (eps' & Hloop & _).
  apply pdns_facts.filteredLoop_sound in Hloop as [_ (out & Hout & Hall)].
  simpl in Hout. subst out.
  destruct (Hall zone' Hz) as [_ (pre & zone & post & Heq & Hset & Hfrom)].
  destruct (Hfrom rr Hrr) as (e & He & Hm & _ & Hok).
  exists zone, e. split; [|split; [|split; [exact Hm|split; [|exact Hok]]]].
  - apply pdns_spec.sorted_zones_In. rewrite Heq. apply in_or_app. right. now left.
  - now apply (proj1 (sort_facts.SliceStable_In _ _ _)) in He.
  - rewrite Hset. reflexivity.
Qed.

(** The conversion succeeds when the rrset of every endpoint that matches
    a filtered zone can be built. *)
Lemma convert_total eps ct zones :
  (forall e z, In e eps -> In z (filteredOf zones) ->
     pdns.matchesZone (dnsnameOf e) z = true ->
     ct = pdns.PdnsReplace -> RecordTTL e <= pdns.MaxInt32) ->
  exists zoneList,
    pdns.result (pdns.convertWithZones EnsureTrailingDot client eps ct zones) = inr zoneList.
Proof.
  intros Hok.
  destruct (pdns.result (pdns.convertWithZones EnsureTrailingDot client eps ct zones))
    as [err|zoneList] eqn:Hres; [|eauto].
  apply pdns_spec.convertWithZones_inl in Hres.
  apply pdns_facts.filteredLoop_inl in Hres as (zone & e & Hz & He & Hm & Herr).
  apply pdns_facts.rrsetFor_inl in Herr as (Hct & Hlt & _).
  apply (proj1 (pdns_spec.sorted_zones_In _ _)) in Hz.
  apply (proj1 (sort_facts.SliceStable_In _ _ _)) in He.
  specialize (Hok e zone He Hz Hm Hct). lia.
Qed.

Lemma existsb_none {X} (f : X -> bool) (l : list X) :
  (forall x, In x l -> f x = false) -> existsb f l = false.
Proof.
  induction l as [|x l IH]; simpl; intros H; [reflexivity|].
  rewrite (H x (or_introl eq_refl)). simpl. apply IH. auto.
Qed.

(** An endpoint that matches no zone ends in the warning. *)
Lemma unmatched_warned eps ct zones zoneList e :
  pdns.result (pdns.convertWithZones EnsureTrailingDot client eps ct zones) = inr zoneList ->
  In e eps ->
  (forall z, In z (filteredOf zones ++ residualOf zones) ->
             pdns.matchesZone (dnsnameOf e) z = false) ->
  In e (pdns.warned (pdns.convertWithZones EnsureTrailingDot client eps ct zones)).
Proof.
  intros Hres He Hno.
  apply pdns_spec.convertWithZones_inr in Hres as (eps' & Hloop & ->).
  apply pdns_facts.filteredLoop_sound in Hloop as [-> _].
  rewrite pdns_facts.residualLoop_filter.
  apply filter_In. split.
  - apply filter_In. split; [now apply sort_facts.SliceStable_In|].
    apply negb_true_iff, existsb_none. intros z Hz. apply Hno.
    apply in_or_app. left. now apply (proj1 (pdns_spec.sorted_zones_In _ _)) in Hz.
  - apply negb_true_iff, existsb_none. intros z Hz. apply Hno.
    apply in_or_app. now right.
Qed.

(** The warning names only endpoints of the batch that match no zone. *)
Lemma warned_unmatched eps ct zones zoneList e :
  pdns.result (pdns.convertWithZones EnsureTrailingDot client eps ct zones) = inr zoneList ->
  In e (pdns.warned (pdns.convertWithZones EnsureTrailingDot client eps ct zones)) ->
  In e eps /\
  forall z, In z (filteredOf zones ++ residualOf zones) ->
            pdns.matchesZone (dnsnameOf e) z = false.
Proof.
  intros Hres Hw.
  apply pdns_spec.convertWithZones_inr in Hres as (eps' & Hloop & Hwarn).
  rewrite Hwarn in Hw.
  apply pdns_facts.filteredLoop_sound in Hloop as [-> _].
  rewrite pdns_facts.residualLoop_filter in Hw.
  apply filter_In in Hw as [Hw Hresidual]. apply filter_In in Hw as [Hin Hfiltered].
  apply negb_true_iff in Hresidual, Hfiltered.
  split; [now apply (proj1 (sort_facts.SliceStable_In _ _ _)) in Hin|].
  intros z Hz.
  destruct (pdns.matchesZone (dnsnameOf e) z) eqn:Hm; [|reflexivity].
  apply in_app_or in Hz as [Hz|Hz].
  - rewrite (pdns_spec.existsb_matches EnsureTrailingDot _ e z Hz Hm) in Hfiltered.
    discriminate.
  - assert (Hex : existsb (fun z => pdns.matchesZone (dnsnameOf e) z) (residualOf zones)
                  = true)
      by (apply existsb_exists; eauto).
    rewrite Hex in Hresidual. discriminate.
Qed.

End Routing.

Section TTLs.

Variable EnsureTrailingDot : string -> string.
Context {B : Type}.
Variable client : pdns.PDNSAPIProvider B.
Variable parseMxTarget : string -> error + azure.MxRecord.
Variable defaultTTL : Z.
Variable TTL_IsConfigured : Z -> bool.

Abbreviation convertTtl := (pdns.ConvertEndpointsToZones EnsureTrailingDot client).
Abbreviation newRecordSetOf :=
  (azure.newRecordSet parseMxTarget defaultTTL TTL_IsConfigured).

Lemma newRecordSet_ttl e rs :
  newRecordSetOf e = returns (inr rs) ->
  exists props,
    azure.RecordSet_Properties rs = Some props /\
    azure.TTL props =
      Some (if TTL_IsConfigured (RecordTTL e) then RecordTTL e else defaultTTL).
Proof.
  unfold azure.newRecordSet.
  destruct (String.eqb (RecordType e) "A").
  { intros H. inversion H; subst. simpl. eauto. }
  destruct (String.eqb (RecordType e) "AAAA").
  { intros H. inversion H; subst. simpl. eauto. }
  destruct (String.eqb (RecordType e) "CNAME").
  { destruct (Targets e); [discriminate|].
    intros H. inversion H; subst. simpl. eauto. }
  destruct (String.eqb (RecordType e) "MX").
  { destruct (azure.mxRecords parseMxTarget (Targets e)); [discriminate|].
    intros H. inversion H; subst. simpl. eauto. }
  destruct (String.eqb (RecordType e) "TXT"); [|discriminate].
  destruct (Targets e); [discriminate|].
  intros H. inversion H; subst. simpl. eauto.
Qed.

(** C9. A zero RecordTTL means the provider default.  PowerDNS, for a
    REPLACE: every rrset of a successful conversion is the rrset built
    from one endpoint of the batch (its name, type and records are that
    endpoint's) and carries TTL 300 when that endpoint's RecordTTL is 0 and
    the endpoint's own TTL otherwise (for a TTL the int32 of the API can
    hold, which every non-negative TTL up to the maximum is); conversely
    every endpoint of the batch that matches a filtered zone has its rrset,
    with that TTL, in the result; the
    conversion fails with a soft error when an endpoint routed to a zone
    has a TTL above the int32 maximum, and succeeds when none has.  For a
    DELETE the conversion succeeds and no rrset carries a TTL (the field
    keeps its zero value).  Azure Private DNS: any record set built by
    newRecordSet carries the default TTL when the endpoint's TTL is not
    configured and the endpoint's TTL when it is, and one is built for
    every A endpoint. *)
Theorem zero_ttl_means_provider_default :
  (forall eps b zones b' zoneList zone' rr,
     pdns.ListZones client b = ((zones, None), b') ->
     pdns.result (fst (convertTtl eps pdns.PdnsReplace b)) = inr zoneList ->
     In zone' zoneList -> In rr (pdns.Zone_Rrsets zone') ->
     exists zone e, In e eps /\
       In zone (fst (pdns.PartitionZones client zones)) /\
       pdns.rrsetFor EnsureTrailingDot zone e pdns.PdnsReplace = inr rr /\
       pdns.RrSet_Name rr = EnsureTrailingDot (DNSName e) /\
       (RecordTTL e = 0 -> pdns.RrSet_Ttl rr = 300) /\
       (RecordTTL e <> 0 -> - 2 ^ 31 <= RecordTTL e -> pdns.RrSet_Ttl rr = RecordTTL e)) /\
  (forall eps b zones b' zoneList e z,
     pdns.ListZones client b = ((zones, None), b') ->
     pdns.result (fst (convertTtl eps pdns.PdnsReplace b)) = inr zoneList ->
     In e eps -> In z (fst (pdns.PartitionZones client zones)) ->
     pdns.matchesZone (EnsureTrailingDot (DNSName e)) z = true ->
     exists zone zone' rr,
       In zone' zoneList /\ In rr (pdns.Zone_Rrsets zone') /\
       pdns.rrsetFor EnsureTrailingDot zone e pdns.PdnsReplace = inr rr /\
       (RecordTTL e = 0 -> pdns.RrSet_Ttl rr = 300) /\
       (RecordTTL e <> 0 -> - 2 ^ 31 <= RecordTTL e -> pdns.RrSet_Ttl rr = RecordTTL e)) /\
  (forall eps b zones b' e z,
     pdns.ListZones client b = ((zones, None), b') ->
     In e eps -> In z (fst (pdns.PartitionZones client zones)) ->
     pdns.matchesZone (EnsureTrailingDot (DNSName e)) z = true ->
     pdns.MaxInt32 < RecordTTL e ->
     exists err,
       pdns.result (fst (convertTtl eps pdns.PdnsReplace b)) = inl err /\
       provider.IsSoftError err = true) /\
  (forall eps b zones b',
     pdns.ListZones client b = ((zones, None), b') ->
     (forall e, In e eps -> RecordTTL e <= pdns.MaxInt32) ->
     exists zoneList,
       pdns.result (fst (convertTtl eps pdns.PdnsReplace b)) = inr zoneList) /\
  (forall eps b zones b',
     pdns.ListZones client b = ((zones, None), b') ->
     exists zoneList,
       pdns.result (fst (convertTtl eps pdns.PdnsDelete b)) = inr zoneList /\
       forall zone' rr, In zone' zoneList -> In rr (pdns.Zone_Rrsets zone') ->
         pdns.RrSet_Ttl rr = 0) /\
  (forall e rs,
     newRecordSetOf e = returns (inr rs) ->
     exists props,
       azure.RecordSet_Properties rs = Some props /\
       (TTL_IsConfigured (RecordTTL e) = false -> azure.TTL props = Some defaultTTL) /\
       (TTL_IsConfigured (RecordTTL e) = true -> azure.TTL props = Some (RecordTTL e))) /\
  (forall e, RecordType e = "A" -> exists rs, newRecordSetOf e = returns (inr rs)).
Proof.
  split; [|split; [|split; [|split; [|split; [|split]]]]].
  - intros eps b zones b' zoneList zone' rr Hlist Hres Hz Hrr.
    rewrite (pdns_spec.ConvertEndpointsToZones_listed _ _ _ _ _ _ _ Hlist) in Hres.
    simpl in Hres.
    destruct (converted_rrset _ _ _ _ _ _ _ _ Hres Hz Hrr)
      as (zone & e & Hzone & He & _ & _ & Hok).
    exists zone, e. split; [exact He|]. split; [exact Hzone|]. split; [exact Hok|].
    destruct (pdns_facts.rrsetFor_fields _ _ _ _ _ Hok) as (Hname & _).
    destruct (pdns_calls.rrsetFor_replace_ttl _ _ _ _ Hok) as (Hmax & Httl).
    split; [exact Hname|]. split.
    + intros H0. rewrite Httl, H0. reflexivity.
    + intros Hne Hmin. rewrite Httl.
      destruct (Z.eqb_spec (RecordTTL e) 0); [contradiction|].
      apply pdns_facts.int32_id. lia.
  - intros eps b zones b' zoneList e z Hlist Hres He Hz Hm.
    rewrite (pdns_spec.ConvertEndpointsToZones_listed _ _ _ _ _ _ _ Hlist) in Hres.
    simpl in Hres.
    destruct (pdns_spec.assigned_zone _ _ _ _ _ _ _ _ Hres He Hz Hm)
      as (zone & rrsets & rr & _ & _ & _ & Hin & Hrr & Hok).
    exists zone, (pdns.set_Rrsets rrsets zone), rr.
    split; [exact Hin|]. split; [exact Hrr|]. split; [exact Hok|].
    destruct (pdns_calls.rrsetFor_replace_ttl _ _ _ _ Hok) as (Hmax & Httl).
    split.
    + intros H0. rewrite Httl, H0. reflexivity.
    + intros Hne Hmin. rewrite Httl.
      destruct (Z.eqb_spec (RecordTTL e) 0); [contradiction|].
      apply pdns_facts.int32_id. lia.
  - intros eps b zones b' e z Hlist He Hz Hm Hlt.
    rewrite (pdns_spec.ConvertEndpointsToZones_listed _ _ _ _ _ _ _ Hlist). simpl.
    destruct (pdns.result (pdns.convertWithZones EnsureTrailingDot client eps
                             pdns.PdnsReplace zones)) as [err|zoneList] eqn:Hres.
    + exists err. split; [reflexivity|].
      apply pdns_spec.convertWithZones_inl in Hres.
      apply pdns_facts.filteredLoop_inl in Hres as (zone & e' & _ & _ & _ & Herr).
      now apply pdns_facts.rrsetFor_inl in Herr.
    + destruct (pdns_spec.assigned_zone _ _ _ _ _ _ _ _ Hres He Hz Hm)
        as (zone & rrsets & rr & _ & _ & _ & _ & _ & Hok).
      apply pdns_calls.rrsetFor_replace_ttl in Hok as [Hmax _]. lia.
  - intros eps b zones b' Hlist Hmax.
    rewrite (pdns_spec.ConvertEndpointsToZones_listed _ _ _ _ _ _ _ Hlist). simpl.
    apply convert_total. intros e z He _ _ _. now apply Hmax.
  - intros eps b zones b' Hlist.
    rewrite (pdns_spec.ConvertEndpointsToZones_listed _ _ _ _ _ _ _ Hlist). simpl.
    destruct (convert_total EnsureTrailingDot client eps pdns.PdnsDelete zones)
      as (zoneList & Hres); [intros e z _ _ _ Hct; discriminate|].
    exists zoneList. split; [exact Hres|].
    intros zone' rr Hz Hrr.
    destruct (converted_rrset _ _ _ _ _ _ _ _ Hres Hz Hrr) as (zone & e & _ & _ & _ & _ & Hok).
    now apply pdns_calls.rrsetFor_delete_ttl in Hok.
  - intros e rs Hrs. destruct (newRecordSet_ttl e rs Hrs) as (props & Hp & Httl).
    exists props. split; [exact Hp|].
    split; intros Hc; rewrite Hc in Httl; exact Httl.
  - intros e Hty. unfold azure.newRecordSet. rewrite Hty. simpl. eauto.
Qed.

End TTLs.

Lemma zero_ttl_means_provider_default_witness :
  (exists zone e, In e [examples.ep "a.example.com" "A" 0 ["1.2.3.4"]] /\
     In zone [examples.zoneExample] /\
     pdns.rrsetFor examples.ensureTrailingDot zone e pdns.PdnsReplace
       = inr (pdns.mkRrSet "a.example.com." "A" 300 "REPLACE"
                [pdns.mkRecord "1.2.3.4" false]) /\
     "a.example.com." = examples.ensureTrailingDot (DNSName e) /\
     (RecordTTL e = 0 -> 300 = 300) /\
     (RecordTTL e <> 0 -> - 2 ^ 31 <= RecordTTL e -> 300 = RecordTTL e)) /\
  (exists zone zone' rr,
     In zone' [pdns.mkZone "example.com." "example.com."
                 [pdns.mkRrSet "a.example.com." "A" 600 "REPLACE"
                    [pdns.mkRecord "1.2.3.4" false]]] /\
     In rr (pdns.Zone_Rrsets zone') /\
     pdns.rrsetFor examples.ensureTrailingDot zone
       (examples.ep "a.example.com" "A" 600 ["1.2.3.4"]) pdns.PdnsReplace = inr rr /\
     (600 = 0 -> pdns.RrSet_Ttl rr = 300) /\
     (600 <> 0 -> - 2 ^ 31 <= 600 -> pdns.RrSet_Ttl rr = 600)) /\
  (exists err,
     pdns.result (fst (pdns.ConvertEndpointsToZones examples.ensureTrailingDot
                         (examples.pdnsMock [examples.zoneExample])
                         [examples.ep "a.example.com" "A" 2147483648 ["1.2.3.4"]]
                         pdns.PdnsReplace [])) = inl err /\
     provider.IsSoftError err = true) /\
  (exists zoneList,
     pdns.result (fst (pdns.ConvertEndpointsToZones examples.ensureTrailingDot
                         (examples.pdnsMock [examples.zoneExample])
                         [examples.ep "a.example.com" "A" 600 ["1.2.3.4"]]
                         pdns.PdnsReplace [])) = inr zoneList) /\
  (exists zoneList,
     pdns.result (fst (pdns.ConvertEndpointsToZones examples.ensureTrailingDot
                         (examples.pdnsMock [examples.zoneExample])
                         [examples.ep "a.example.com" "A" 600 ["1.2.3.4"]]
                         pdns.PdnsDelete [])) = inr zoneList /\
     forall zone' rr, In zone' zoneList -> In rr (pdns.Zone_Rrsets zone') ->
       pdns.RrSet_Ttl rr = 0) /\
  (exists props,
     Some (azure.mkRecordSetProperties (Some 300) [azure.mkARecord (Some "1.2.3.4")]
             [] None [] []) = Some props /\
     (examples.ttlIsConfigured 0 = false -> azure.TTL props = Some 300) /\
     (examples.ttlIsConfigured 0 = true -> azure.TTL props = Some 0)) /\
  (exists rs,
     azure.newRecordSet examples.parseMx 300 examples.ttlIsConfigured
       (examples.ep "a.example.com" "A" 0 ["1.2.3.4"]) = returns (inr rs)).
Proof.
  destruct (zero_ttl_means_provider_default examples.ensureTrailingDot
              (examples.pdnsMock [examples.zoneExample])
              examples.parseMx 300 examples.ttlIsConfigured)
    as (H1 & H1' & H2 & H3 & H4 & H5 & H6).
  split; [|split; [|split; [|split; [|split; [|split]]]]].
  - apply (H1 [examples.ep "a.example.com" "A" 0 ["1.2.3.4"]] [] [examples.zoneExample] []
             [pdns.mkZone "example.com." "example.com."
                [pdns.mkRrSet "a.example.com." "A" 300 "REPLACE" [pdns.mkRecord "1.2.3.4" false]]]
             (pdns.mkZone "example.com." "example.com."
                [pdns.mkRrSet "a.example.com." "A" 300 "REPLACE" [pdns.mkRecord "1.2.3.4" false]])
             (pdns.mkRrSet "a.example.com." "A" 300 "REPLACE" [pdns.mkRecord "1.2.3.4" false])).
    + reflexivity.
    + vm_compute. reflexivity.
    + simpl. auto.
    + simpl. auto.
  - apply (H1' [examples.ep "a.example.com" "A" 600 ["1.2.3.4"]] [] [examples.zoneExample] []
             [pdns.mkZone "example.com." "example.com."
                [pdns.mkRrSet "a.example.com." "A" 600 "REPLACE"
                   [pdns.mkRecord "1.2.3.4" false]]]
             (examples.ep "a.example.com" "A" 600 ["1.2.3.4"]) examples.zoneExample).
    + reflexivity.
    + vm_compute. reflexivity.
    + simpl. auto.
    + simpl. auto.
    + vm_compute. reflexivity.
  - apply (H2 [examples.ep "a.example.com" "A" 2147483648 ["1.2.3.4"]] []
             [examples.zoneExample] []
             (examples.ep "a.example.com" "A" 2147483648 ["1.2.3.4"]) examples.zoneExample).
    + reflexivity.
    + simpl. auto.
    + simpl. auto.
    + vm_compute. reflexivity.
    + vm_compute. reflexivity.
  - apply (H3 [examples.ep "a.example.com" "A" 600 ["1.2.3.4"]] []
             [examples.zoneExample] []).
    + reflexivity.
    + intros e [<-|[]]. vm_compute. discriminate.
  - apply (H4 [examples.ep "a.example.com" "A" 600 ["1.2.3.4"]] []
             [examples.zoneExample] []). reflexivity.
  - apply (H5 (examples.ep "a.example.com" "A" 0 ["1.2.3.4"])
             (azure.mkRecordSet None None
                (Some (azure.mkRecordSetProperties (Some 300)
                         [azure.mkARecord (Some "1.2.3.4")] [] None [] [])))).
    reflexivity.
  - apply H6. reflexivity.
Defined.

Section Unroutable.

Variable EnsureTrailingDot : string -> string.
Context {B : Type}.
Variable client : pdns.PDNSAPIProvider B.

Context {BA : Type}.
Variable domainFilter_Match : string -> bool.
Variable zoneNameFilter_Match : string -> bool.
Variable zoneNameFilter_Filters : list string.
Variable zoneIDFilter_Match : string -> bool.
Variable FindZone : gmap string string -> string -> string * string.
Variable parseMxTarget : string -> error + azure.MxRecord.
Variable defaultTTL : Z.
Variable TTL_IsConfigured : Z -> bool.
Variable rangeMap : gmap string (list azure.Endpoint) -> list (string * list azure.Endpoint).
Variable dryRun : bool.
Variable resourceGroup : string.
Variable zonesClient_pages : list (error + list azure.PrivateZone).
Variable recordSetsClient : azure.PrivateRecordSetsClient BA.

Abbreviation convertOf := (pdns.ConvertEndpointsToZones EnsureTrailingDot client).
Abbreviation azureApply :=
  (azure.ApplyChanges domainFilter_Match zoneNameFilter_Match zoneNameFilter_Filters
     zoneIDFilter_Match FindZone parseMxTarget defaultTTL TTL_IsConfigured rangeMap
     dryRun resourceGroup zonesClient_pages recordSetsClient).
Abbreviation azureZonesList :=
  (@azure.zones BA domainFilter_Match zoneNameFilter_Match zoneNameFilter_Filters
     zoneIDFilter_Match zonesClient_pages).

Lemma azure_ApplyChanges_error now changes s err s' :
  azureApply now changes s = (returns (Some err), s') ->
  azureZonesList now s = (returns (inl err), s').
Proof.
  unfold azure.ApplyChanges, bind.
  destruct (azureZonesList now s) as [[[e|zs]|] s1]; cbv beta iota.
  - intros H. inversion H; subst. reflexivity.
  - destruct (azure.mapChanges FindZone zs changes) as [deleted updated].
    destruct (azure.deleteRecords domainFilter_Match rangeMap dryRun resourceGroup
                recordSetsClient deleted s1) as [[[]|] s2]; cbv beta iota; [|discriminate].
    destruct (azure.updateRecords domainFilter_Match parseMxTarget defaultTTL
                TTL_IsConfigured rangeMap dryRun resourceGroup recordSetsClient
                updated s2) as [[[]|] s3]; cbv beta iota; unfold ret; discriminate.
  - discriminate.
Qed.

(** A change whose name finds a zone stays in the map under that zone. *)
Lemma fold_mapChange_keeps mapper (changes : list azure.Endpoint) e zone :
  fst (FindZone mapper (DNSName e)) = zone -> zone <> "" ->
  forall m : gmap string (list azure.Endpoint),
  (In e changes \/ exists eps, m !! zone = Some eps /\ In e eps) ->
  exists eps,
    fold_left (azure.mapChange FindZone mapper) changes m !! zone = Some eps /\ In e eps.
Proof.
  intros Hfind Hzone.
  induction changes as [|change rest IH]; simpl; intros m H.
  - destruct H as [[]|H]. exact H.
  - apply IH. destruct H as [[->|Hin]|(eps & Hm & Hin)].
    + right. unfold azure.mapChange. rewrite Hfind.
      destruct (String.eqb_spec zone "") as [Heq|_]; [contradiction|].
      rewrite lookup_insert_eq. eexists. split; [reflexivity|].
      apply in_or_app. right. now left.
    + now left.
    + right. unfold azure.mapChange.
      destruct (String.eqb (fst (FindZone mapper (DNSName change))) ""); [eauto|].
      destruct (String.eqb_spec (fst (FindZone mapper (DNSName change))) zone) as [->|Hne].
      * rewrite lookup_insert_eq, Hm. eexists. split; [reflexivity|].
        apply in_or_app. now left.
      * rewrite lookup_insert_ne by exact Hne. eauto.
Qed.

(** C7. An endpoint that matches no zone is dropped and the batch goes on.
    PowerDNS: when the zones are listed and the rrset of every endpoint
    that matches a filtered zone can be built, ConvertEndpointsToZones
    returns a zone list and no error, whatever the unmatched endpoints are;
    an endpoint whose name matches no zone, filtered or residual, is named
    in the warning and no rrset of the result bears its name; the warning
    names no other endpoint; and every endpoint that matches a filtered
    zone is kept out of the warning and has its rrset in the result, under
    a filtered zone that matches it.  Azure Private DNS: mapChanges puts
    in its maps only changes for which the zone finder found a zone, and
    every such change of the batch is in them, under its zone; changes
    without a zone make no difference to the maps nor to what ApplyChanges
    does, and ApplyChanges returns no error unless the listing of the
    zones failed. *)
Theorem unroutable_endpoints_are_dropped :
  (forall eps ct b zones b',
     pdns.ListZones client b = ((zones, None), b') ->
     (forall e z, In e eps -> In z (fst (pdns.PartitionZones client zones)) ->
        pdns.matchesZone (EnsureTrailingDot (DNSName e)) z = true ->
        ct = pdns.PdnsReplace -> RecordTTL e <= pdns.MaxInt32) ->
     exists zoneList,
       pdns.result (fst (convertOf eps ct b)) = inr zoneList /\
       (forall e, In e eps ->
          (forall z, In z (fst (pdns.PartitionZones client zones)
                           ++ snd (pdns.PartitionZones client zones)) ->
             pdns.matchesZone (EnsureTrailingDot (DNSName e)) z = false) ->
          In e (pdns.warned (fst (convertOf eps ct b))) /\
          forall zone' rr, In zone' zoneList -> In rr (pdns.Zone_Rrsets zone') ->
            pdns.RrSet_Name rr <> EnsureTrailingDot (DNSName e)) /\
       (forall e, In e (pdns.warned (fst (convertOf eps ct b))) ->
          In e eps /\
          forall z, In z (fst (pdns.PartitionZones client zones)
                          ++ snd (pdns.PartitionZones client zones)) ->
            pdns.matchesZone (EnsureTrailingDot (DNSName e)) z = false) /\
       (forall e z, In e eps -> In z (fst (pdns.PartitionZones client zones)) ->
          pdns.matchesZone (EnsureTrailingDot (DNSName e)) z = true ->
          ~ In e (pdns.warned (fst (convertOf eps ct b))) /\
          exists zone zone' rr,
            In zone (fst (pdns.PartitionZones client zones)) /\
            pdns.matchesZone (EnsureTrailingDot (DNSName e)) zone = true /\
            In zone' zoneList /\
            pdns.Zone_Id zone' = pdns.Zone_Id zone /\
            pdns.Zone_Name zone' = pdns.Zone_Name zone /\
            In rr (pdns.Zone_Rrsets zone') /\
            pdns.rrsetFor EnsureTrailingDot zone e ct = inr rr)) /\
  (forall zs changes zone eps e,
     (fst (azure.mapChanges FindZone zs changes) !! zone = Some eps \/
      snd (azure.mapChanges FindZone zs changes) !! zone = Some eps) ->
     In e eps ->
     fst (FindZone (azure.zoneNameIDMapper zs ∅) (DNSName e)) = zone /\ zone <> "") /\
  (forall zs changes e zone,
     fst (FindZone (azure.zoneNameIDMapper zs ∅) (DNSName e)) = zone -> zone <> "" ->
     (In e (plan.Delete changes) ->
        exists eps,
          fst (azure.mapChanges FindZone zs changes) !! zone = Some eps /\ In e eps) /\
     (In e (plan.Create changes ++ plan.UpdateNew changes) ->
        exists eps,
          snd (azure.mapChanges FindZone zs changes) !! zone = Some eps /\ In e eps)) /\
  (forall zs changes,
     azure.mapChanges FindZone zs
       (invariants.routableChanges FindZone (azure.zoneNameIDMapper zs ∅) changes)
     = azure.mapChanges FindZone zs changes) /\
  (forall now changes s zs s1,
     azureZonesList now s = (returns (inr zs), s1) ->
     azureApply now
       (invariants.routableChanges FindZone (azure.zoneNameIDMapper zs ∅) changes) s
     = azureApply now changes s) /\
  (forall now changes s err s',
     azureApply now changes s = (returns (Some err), s') ->
     azureZonesList now s = (returns (inl err), s')).
Proof.
  split; [|split; [|split; [|split; [|split]]]].
  - intros eps ct b zones b' Hlist Hok.
    rewrite (pdns_spec.ConvertEndpointsToZones_listed _ _ _ _ _ _ _ Hlist). simpl.
    destruct (convert_total EnsureTrailingDot client eps ct zones Hok) as (zoneList & Hres).
    exists zoneList. split; [exact Hres|]. split; [|split].
    + intros e He Hno. split; [now apply (unmatched_warned _ _ _ _ _ zoneList)|].
      intros zone' rr Hz Hrr Hname.
      destruct (converted_rrset _ _ _ _ _ _ _ _ Hres Hz Hrr)
        as (zone & e' & Hzone & _ & Hm & _ & Hok').
      apply pdns_facts.rrsetFor_fields in Hok' as (Hn & _).
      rewrite Hn in Hname. rewrite Hname in Hm.
      rewrite (Hno zone) in Hm; [discriminate|].
      apply in_or_app. now left.
    + intros e Hw. exact (warned_unmatched _ _ _ _ _ _ _ Hres Hw).
    + intros e z He Hz Hm. split.
      * intros Hw.
        destruct (warned_unmatched _ _ _ _ _ _ _ Hres Hw) as [_ Hno].
        rewrite (Hno z) in Hm; [discriminate|]. apply in_or_app. now left.
      * destruct (pdns_spec.assigned_zone _ _ _ _ _ _ _ _ Hres He Hz Hm)
          as (zone & rrsets & rr & Hzone & Hmz & _ & Hin & Hrr & Hok').
        exists zone, (pdns.set_Rrsets rrsets zone), rr. repeat split; assumption.
  - intros zs changes zone eps e Hl He.
    destruct (azure_facts.mapChanges_routed FindZone zs changes) as [Hd Hu].
    destruct Hl as [Hl|Hl].
    + destruct (Hd zone eps Hl) as [Hne Hall]. split; [now apply Hall|exact Hne].
    + destruct (Hu zone eps Hl) as [Hne Hall]. split; [now apply Hall|exact Hne].
  - intros zs changes e zone Hfind Hzone. unfold azure.mapChanges. simpl. split.
    + intros Hin. apply (fold_mapChange_keeps _ _ e zone Hfind Hzone). now left.
    + intros Hin. apply (fold_mapChange_keeps _ _ e zone Hfind Hzone).
      apply in_app_or in Hin as [Hin|Hin]; [|now left].
      right. apply (fold_mapChange_keeps _ _ e zone Hfind Hzone). now left.
  - intros zs changes. apply azure_facts.mapChanges_routable.
  - intros now changes s zs s1 Hz. unfold azure.ApplyChanges, bind.
    rewrite Hz. now rewrite azure_facts.mapChanges_routable.
  - exact azure_ApplyChanges_error.
Qed.

End Unroutable.

Lemma unroutable_endpoints_are_dropped_witness :
  (exists zoneList,
     pdns.result (fst (pdns.ConvertEndpointsToZones examples.ensureTrailingDot
                         (examples.pdnsMock [examples.zoneExample])
                         (plan.Create examples.sampleChanges) pdns.PdnsReplace []))
     = inr zoneList /\
     (forall e, In e (plan.Create examples.sampleChanges) ->
        (forall z, In z ([examples.zoneExample] ++ []) ->
           pdns.matchesZone (examples.ensureTrailingDot (DNSName e)) z = false) ->
        In e (pdns.warned (fst (pdns.ConvertEndpointsToZones examples.ensureTrailingDot
                                  (examples.pdnsMock [examples.zoneExample])
                                  (plan.Create examples.sampleChanges) pdns.PdnsReplace []))) /\
        forall zone' rr, In zone' zoneList -> In rr (pdns.Zone_Rrsets zone') ->
          pdns.RrSet_Name rr <> examples.ensureTrailingDot (DNSName e)) /\
     (forall e,
        In e (pdns.warned (fst (pdns.ConvertEndpointsToZones examples.ensureTrailingDot
                                  (examples.pdnsMock [examples.zoneExample])
                                  (plan.Create examples.sampleChanges) pdns.PdnsReplace []))) ->
        In e (plan.Create examples.sampleChanges) /\
        forall z, In z ([examples.zoneExample] ++ []) ->
          pdns.matchesZone (examples.ensureTrailingDot (DNSName e)) z = false) /\
     (forall e z, In e (plan.Create examples.sampleChanges) ->
        In z [examples.zoneExample] ->
        pdns.matchesZone (examples.ensureTrailingDot (DNSName e)) z = true ->
        ~ In e (pdns.warned (fst (pdns.ConvertEndpointsToZones examples.ensureTrailingDot
                                    (examples.pdnsMock [examples.zoneExample])
                                    (plan.Create examples.sampleChanges)
                                    pdns.PdnsReplace []))) /\
        exists zone zone' rr,
          In zone [examples.zoneExample] /\
          pdns.matchesZone (examples.ensureTrailingDot (DNSName e)) zone = true /\
          In zone' zoneList /\
          pdns.Zone_Id zone' = pdns.Zone_Id zone /\
          pdns.Zone_Name zone' = pdns.Zone_Name zone /\
          In rr (pdns.Zone_Rrsets zone') /\
          pdns.rrsetFor examples.ensureTrailingDot zone e pdns.PdnsReplace = inr rr)) /\
  (fst (azure.longestZone (azure.zoneNameIDMapper examples.azureZones ∅) "new.example.com")
     = "example.com" /\ "example.com" <> "") /\
  (exists eps,
     snd (azure.mapChanges azure.longestZone examples.azureZones examples.sampleChanges)
       !! "example.com" = Some eps /\
     In (examples.ep "new.example.com" "A" 0 ["1.2.3.4"]) eps) /\
  examples.azureApplyChanges false (examples.azureMock [])
    (invariants.routableChanges azure.longestZone
       (azure.zoneNameIDMapper examples.azureZones ∅) examples.sampleChanges)
    (examples.azureStart tt)
  = examples.azureApplyChanges false (examples.azureMock []) examples.sampleChanges
      (examples.azureStart tt).
Proof.
  destruct (unroutable_endpoints_are_dropped examples.ensureTrailingDot
              (examples.pdnsMock [examples.zoneExample])
              (fun _ => true) (fun _ => true) [] (fun _ => true) azure.longestZone
              examples.parseMx 300 examples.ttlIsConfigured map_to_list false "rg"
              [inr examples.azureZones] (examples.azureMock []))
    as (H1 & H2 & H3 & _ & H4 & _).
  split; [|split; [|split]].
  - apply (H1 (plan.Create examples.sampleChanges) pdns.PdnsReplace []
             [examples.zoneExample] []).
    + reflexivity.
    + intros e z [<-|[<-|[]]] _ _ _; vm_compute; discriminate.
  - apply (H2 examples.azureZones examples.sampleChanges "example.com"
             [examples.ep "new.example.com" "A" 0 ["1.2.3.4"]]
             (examples.ep "new.example.com" "A" 0 ["1.2.3.4"])).
    + right. vm_compute. reflexivity.
    + simpl. auto.
  - apply (proj2 (H3 examples.azureZones examples.sampleChanges
                    (examples.ep "new.example.com" "A" 0 ["1.2.3.4"]) "example.com"
                    eq_refl ltac:(discriminate))).
    simpl. auto.
  - apply (H4 0 examples.sampleChanges (examples.azureStart tt) examples.azureZones
             (azure.mkState (azure.mkZonesCache 0 0 examples.azureZones) tt)).
    reflexivity.
Defined.

Section DryRun.

Context {BA : Type}.
Variable domainFilter_Match : string -> bool.
Variable zoneNameFilter_Match : string -> bool.
Variable zoneNameFilter_Filters : list string.
Variable zoneIDFilter_Match : string -> bool.
Variable FindZone : gmap string string -> string -> string * string.
Variable parseMxTarget : string -> error + azure.MxRecord.
Variable defaultTTL : Z.
Variable TTL_IsConfigured : Z -> bool.
Variable rangeMap : gmap string (list azure.Endpoint) -> list (string * list azure.Endpoint).
Variable resourceGroup : string.
Variable zonesClient_pages : list (error + list azure.PrivateZone).
Variable recordSetsClient : azure.PrivateRecordSetsClient BA.

Context {BC : Type}.
Variable coredns_domainFilter_Match : string -> bool.
Variable randomPrefix : nat -> string.
Variable rangeLabels : gmap string string -> list (string * string).
Variable rangeGrouped : gmap string (list nat) -> list (string * list nat).
Variable coreDNSPrefix : string.
Variable client : coredns.coreDNSClient BC.

Abbreviation azureDryRun :=
  (azure.ApplyChanges domainFilter_Match zoneNameFilter_Match zoneNameFilter_Filters
     zoneIDFilter_Match FindZone parseMxTarget defaultTTL TTL_IsConfigured rangeMap
     true resourceGroup zonesClient_pages recordSetsClient).
Abbreviation azureListZones :=
  (@azure.zones BA domainFilter_Match zoneNameFilter_Match zoneNameFilter_Filters
     zoneIDFilter_Match zonesClient_pages).
Abbreviation corednsDryRun :=
  (coredns.ApplyChanges coredns_domainFilter_Match randomPrefix rangeLabels rangeGrouped
     true coreDNSPrefix client).

Lemma azure_dry_run_returns now changes s zs s1 :
  azureListZones now s = (returns (inr zs), s1) ->
  (forall h,
     (String.length (fst (FindZone (azure.zoneNameIDMapper zs ∅) h)) <= String.length h)%nat) ->
  (forall (m : gmap string (list azure.Endpoint)) zone eps,
     In (zone, eps) (rangeMap m) -> m !! zone = Some eps) ->
  azureDryRun now changes s = (returns None, s1).
Proof.
  intros Hz Hlen Hrange. unfold azure.ApplyChanges, bind. rewrite Hz.
  pose proof (azure_facts.mapChanges_routed FindZone zs changes) as [Hd Hu].
  destruct (azure.mapChanges FindZone zs changes) as [deleted updated].
  simpl in Hd, Hu. unfold bind.
  rewrite (azure_facts.deleteRecords_dry_returns domainFilter_Match rangeMap resourceGroup
             recordSetsClient deleted s1).
  2: { apply (azure_facts.routed_fits FindZone rangeMap (azure.zoneNameIDMapper zs ∅));
       auto. }
  rewrite (azure_facts.updateRecords_dry_returns domainFilter_Match parseMxTarget
             defaultTTL TTL_IsConfigured rangeMap resourceGroup recordSetsClient
             updated s1).
  2: { apply (azure_facts.routed_fits FindZone rangeMap (azure.zoneNameIDMapper zs ∅));
       auto. }
  reflexivity.
Qed.

(** C1. Dry run.  With dryRun set, ApplyChanges of the Azure Private DNS
    provider and of the CoreDNS provider leave the state behind the client
    as it was, whatever the client, the change set and the outcome, so no
    Delete, CreateOrUpdate, SaveService or DeleteService reaches the
    backend.  Azure returns nil once the zones are listed (the zone finder
    answering with zones no longer than the name looked up, and the range
    being over the entries of the map); CoreDNS returns nil on a
    well-formed memory: the pointers of the change set are in the store,
    every endpoint has a label map and every TXT endpoint a target. *)
Theorem dry_run_leaves_the_backend_unchanged :
  (forall now changes s,
     azure.backend (snd (azureDryRun now changes s)) = azure.backend s) /\
  (forall now changes s zs s1,
     azureListZones now s = (returns (inr zs), s1) ->
     (forall h,
        (String.length (fst (FindZone (azure.zoneNameIDMapper zs ∅) h))
         <= String.length h)%nat) ->
     (forall (m : gmap string (list azure.Endpoint)) zone eps,
        In (zone, eps) (rangeMap m) -> m !! zone = Some eps) ->
     azureDryRun now changes s = (returns None, s1) /\
     azure.backend s1 = azure.backend s) /\
  (forall changes s,
     coredns.etcd (snd (corednsDryRun changes s)) = coredns.etcd s) /\
  (forall changes s n k,
     invariants.wellFormed n k s ->
     invariants.validChanges n changes ->
     (forall (grouped : gmap string (list nat)) dnsName group,
        In (dnsName, group) (rangeGrouped grouped) -> grouped !! dnsName = Some group) ->
     exists s',
       corednsDryRun changes s = (returns None, s') /\
       coredns.etcd s' = coredns.etcd s).
Proof.
  split; [|split; [|split]].
  - intros now changes s. apply azure_facts.ApplyChanges_dry.
  - intros now changes s zs s1 Hz Hlen Hrange.
    split; [now apply (azure_dry_run_returns now changes s zs)|].
    pose proof (azure_facts.zones_backend domainFilter_Match zoneNameFilter_Match
                  zoneNameFilter_Filters zoneIDFilter_Match zonesClient_pages now s) as Hb.
    now rewrite Hz in Hb.
  - intros changes s. apply coredns_facts.coredns_ApplyChanges_dry.
  - intros changes s n k Hwf Hvalid Hrange.
    destruct (coredns_facts.coredns_ApplyChanges_total coredns_domainFilter_Match
                randomPrefix rangeLabels rangeGrouped coreDNSPrefix client n k changes
                Hvalid Hrange s Hwf) as (err & s' & Heq & _ & ->).
    exists s'. split; [exact Heq|].
    pose proof (coredns_facts.coredns_ApplyChanges_dry coredns_domainFilter_Match
                  randomPrefix rangeLabels rangeGrouped coreDNSPrefix client changes s) as Hf.
    now rewrite Heq in Hf.
Qed.

End DryRun.

Lemma map_to_list_entries {V} (m : gmap string V) (key : string) (v : V) :
  In (key, v) (map_to_list m) -> m !! key = Some v.
Proof. intros H. apply elem_of_map_to_list. now apply list_elem_of_In. Qed.

(** The zone the finder of the examples answers with is not longer than
    the name looked up. *)
Lemma longestZone_example_fits (h : string) :
  (String.length (fst (azure.longestZone (azure.zoneNameIDMapper examples.azureZones ∅) h))
   <= String.length h)%nat.
Proof.
  unfold azure.longestZone.
  replace (map_to_list (azure.zoneNameIDMapper examples.azureZones ∅))
    with [("example.com", "example.com")] by (vm_compute; reflexivity).
  cbn [fold_right snd fst]. unfold azure.suffixMatch.
  change (String.eqb "" "") with true. cbn [orb andb].
  rewrite andb_true_r.
  destruct (String.eqb_spec h "example.com") as [->|_]; cbn [orb fst].
  { apply Nat.le_refl. }
  destruct (strings.HasSuffix h ("." ++ "example.com")%string) eqn:Hs; cbn [fst].
  - apply pdns_facts.HasSuffix_length in Hs.
    change (String.length ("." ++ "example.com")%string)
      with (S (String.length "example.com")) in Hs.
    lia.
  - change (String.length "") with 0%nat. lia.
Qed.

Lemma dry_run_leaves_the_backend_unchanged_witness :
  (examples.azureApplyChanges true (tracing.azureTraced (examples.azureMock []))
     examples.sampleChanges (examples.azureStart (tt, []))
   = (returns None,
      azure.mkState (azure.mkZonesCache 0 0 examples.azureZones) (tt, [])) /\
   azure.backend (azure.mkState (azure.mkZonesCache 0 0 examples.azureZones)
                    (tt, @nil tracing.AzureCall))
   = azure.backend (examples.azureStart (tt, []))) /\
  (exists s',
     examples.corednsApplyChanges true examples.storeChanges examples.sampleStore
       = (returns None, s') /\
     coredns.etcd s' = coredns.etcd examples.sampleStore).
Proof.
  destruct (dry_run_leaves_the_backend_unchanged
              (fun _ => true) (fun _ => true) [] (fun _ => true) azure.longestZone
              examples.parseMx 300 examples.ttlIsConfigured map_to_list "rg"
              [inr examples.azureZones] (tracing.azureTraced (examples.azureMock []))
              (fun _ => true) examples.prefixOfDraw map_to_list map_to_list "/skydns/"
              examples.corednsMock)
    as (_ & Hazure & _ & Hcoredns).
  split.
  - apply (Hazure 0 examples.sampleChanges (examples.azureStart (tt, []))
             examples.azureZones).
    + reflexivity.
    + exact longestZone_example_fits.
    + intros m zone eps. apply map_to_list_entries.
  - apply (Hcoredns examples.storeChanges examples.sampleStore 4%nat 4%nat).
    + repeat split; repeat constructor; simpl; try lia; discriminate.
    + repeat split; repeat constructor; simpl; lia.
    + intros grouped dnsName group. apply map_to_list_entries.
Defined.

Section Order.

Variable EnsureTrailingDot : string -> string.
Context {B : Type}.
Variable c : pdns.PDNSAPIProvider B.

Abbreviation PatchLog := (B * list tracing.PdnsCall)%type.

Lemma patchZones_each (Q : pdns.Zone -> Prop) zonelist : forall s : PatchLog,
  Forall Q zonelist ->
  exists l,
    snd (snd (pdns.patchZones (tracing.pdnsTraced c) zonelist s)) = snd s ++ l /\
    Forall (fun call => Q (snd call)) l.
Proof.
  induction zonelist as [|zone rest IH]; simpl; intros s HF.
  - exists []. split; [now rewrite app_nil_r|constructor].
  - inversion HF as [|? ? Hz Hrest]; subst.
    destruct (pdns.PatchZone c (pdns.Zone_Id zone) zone (fst s)) as [[err|] b']; simpl.
    + exists [(pdns.Zone_Id zone, zone)]. split; [reflexivity|]. now repeat constructor.
    + destruct (IH (b', snd s ++ [(pdns.Zone_Id zone, zone)]) Hrest) as (l & Hl & Fl).
      exists ((pdns.Zone_Id zone, zone) :: l). simpl in Hl.
      split; [now rewrite Hl, <- app_assoc|]. now constructor.
Qed.

(** The patches of mutateRecords carry the changetype asked for, and every
    rrset of them is built from an endpoint handed in. *)
Lemma mutateRecords_built (nonempty : bool) eps ct (s : PatchLog) :
  exists l,
    snd (snd (if nonempty
              then pdns.mutateRecords EnsureTrailingDot (tracing.pdnsTraced c) eps ct s
              else (None, s)))
    = snd s ++ l /\
    Forall (tracing.allChangetype ct) l /\
    Forall (invariants.builtFrom EnsureTrailingDot eps ct) l.
Proof.
  assert (Hnone : exists l : list tracing.PdnsCall,
            snd s = snd s ++ l /\ Forall (tracing.allChangetype ct) l /\
            Forall (invariants.builtFrom EnsureTrailingDot eps ct) l).
  { exists []. split; [now rewrite app_nil_r|]. split; constructor. }
  destruct nonempty; [|exact Hnone].
  unfold pdns.mutateRecords, pdns.ConvertEndpointsToZones. simpl.
  destruct (pdns.ListZones c (fst s)) as [[zones err] b'].
  destruct err as [e|]; simpl; [exact Hnone|].
  destruct (pdns.result (pdns.convertWithZones _ _ eps ct zones)) as [e|zonelist] eqn:Hres;
    simpl; [exact Hnone|].
  destruct (patchZones_each
              (fun z => Forall (fun rr => pdns.RrSet_Changetype rr = ct) (pdns.Zone_Rrsets z)
                        /\ Forall (fun rr => exists zone e,
                                     In e eps /\
                                     pdns.rrsetFor EnsureTrailingDot zone e ct = inr rr)
                                  (pdns.Zone_Rrsets z))
              zonelist (b', snd s)) as (l & Hl & Fl).
  { rewrite List.Forall_forall. intros zone' Hz.
    split; rewrite List.Forall_forall; intros rr Hrr;
      destruct (converted_rrset _ _ _ _ _ _ _ _ Hres Hz Hrr)
        as (zone & e & _ & He & _ & _ & Hok).
    - now apply pdns_facts.rrsetFor_fields in Hok as (_ & Hct & _).
    - eauto. }
  exists l. split; [exact Hl|].
  split; eapply List.Forall_impl; try exact Fl; intros call [H1 H2]; assumption.
Qed.

End Order.

(** A PATCH with a REPLACE rrset comes before any PATCH with a DELETE
    rrset, in a log of REPLACE patches followed by DELETE patches. *)
Lemma replace_before_delete (replaces deletes : list tracing.PdnsCall) :
  Forall (tracing.allChangetype pdns.PdnsReplace) replaces ->
  Forall (tracing.allChangetype pdns.PdnsDelete) deletes ->
  forall i j create delete name,
    (replaces ++ deletes) !! i = Some create ->
    tracing.patches pdns.PdnsReplace name create = true ->
    (replaces ++ deletes) !! j = Some delete ->
    tracing.patches pdns.PdnsDelete name delete = true ->
    (i < j)%nat.
Proof.
  intros Hr Hd i j create delete name Hi Hc Hj Hdel.
  assert (Hhas : forall ct ct' call,
            tracing.patches ct name call = true -> tracing.allChangetype ct' call ->
            ct' = ct).
  { intros ct ct' call Hp Hall. unfold tracing.patches in Hp.
    apply existsb_exists in Hp as (rr & Hin & Hrr).
    apply andb_true_iff in Hrr as [_ Hct]. apply String.eqb_eq in Hct.
    unfold tracing.allChangetype in Hall. rewrite List.Forall_forall in Hall.
    now rewrite <- (Hall rr Hin). }
  apply lookup_app_Some in Hi as [Hi|[_ Hi]].
  2: { pose proof (Hhas _ _ _ Hc (Forall_lookup_1 _ _ _ _ Hd Hi)). discriminate. }
  apply lookup_app_Some in Hj as [Hj|[Hj _]].
  { pose proof (Hhas _ _ _ Hdel (Forall_lookup_1 _ _ _ _ Hr Hj)). discriminate. }
  apply lookup_lt_Some in Hi. lia.
Qed.

(** C2 (amended). The order of the mutating calls.  Whatever the client
    answers, the Azure Private DNS provider's ApplyChanges issues all its
    Delete calls before any CreateOrUpdate call.  The PowerDNS provider's
    ApplyChanges does not delete first: it sends the REPLACE patches of the
    creations, then the REPLACE patches of the updates, and only then the
    DELETE patches of the deletions, every rrset of a patch being built
    from an endpoint of its own part of the change set; so a patch that
    creates a name is issued before any patch that deletes that name. *)
Theorem azure_deletes_first_pdns_deletes_last :
  (forall (BA : Type) domainFilter_Match zoneNameFilter_Match zoneNameFilter_Filters
          zoneIDFilter_Match FindZone parseMxTarget defaultTTL TTL_IsConfigured
          rangeMap dryRun resourceGroup zonesClient_pages
          (c : azure.PrivateRecordSetsClient BA) now changes s,
     exists deletions updates,
       invariants.logOf
         (snd (azure.ApplyChanges domainFilter_Match zoneNameFilter_Match
                 zoneNameFilter_Filters zoneIDFilter_Match FindZone parseMxTarget
                 defaultTTL TTL_IsConfigured rangeMap dryRun resourceGroup
                 zonesClient_pages (tracing.azureTraced c) now changes s))
       = invariants.logOf s ++ deletions ++ updates /\
       Forall (fun call => tracing.isDelete call = true) deletions /\
       Forall (fun call => tracing.isCreateOrUpdate call = true) updates) /\
  (forall EnsureTrailingDot (B : Type) (c : pdns.PDNSAPIProvider B) changes s,
     exists creates updates deletes,
       snd (snd (pdns.ApplyChanges EnsureTrailingDot (tracing.pdnsTraced c) changes s))
       = snd s ++ creates ++ updates ++ deletes /\
       Forall (tracing.allChangetype pdns.PdnsReplace) (creates ++ updates) /\
       Forall (tracing.allChangetype pdns.PdnsDelete) deletes /\
       Forall (invariants.builtFrom EnsureTrailingDot (plan.Create changes)
                 pdns.PdnsReplace) creates /\
       Forall (invariants.builtFrom EnsureTrailingDot (plan.UpdateNew changes)
                 pdns.PdnsReplace) updates /\
       Forall (invariants.builtFrom EnsureTrailingDot (plan.Delete changes)
                 pdns.PdnsDelete) deletes /\
       (forall i j create delete name,
          (creates ++ updates ++ deletes) !! i = Some create ->
          tracing.patches pdns.PdnsReplace name create = true ->
          (creates ++ updates ++ deletes) !! j = Some delete ->
          tracing.patches pdns.PdnsDelete name delete = true ->
          (i < j)%nat)).
Proof.
  split.
  - intros. apply azure_facts.azure_ApplyChanges_log.
  - intros EnsureTrailingDot B c changes s.
    assert (Hpack : forall creates updates deletes : list tracing.PdnsCall,
              Forall (tracing.allChangetype pdns.PdnsReplace) creates ->
              Forall (tracing.allChangetype pdns.PdnsReplace) updates ->
              Forall (tracing.allChangetype pdns.PdnsDelete) deletes ->
              Forall (tracing.allChangetype pdns.PdnsReplace) (creates ++ updates) /\
              Forall (tracing.allChangetype pdns.PdnsDelete) deletes /\
              (forall i j create delete name,
                 (creates ++ updates ++ deletes) !! i = Some create ->
                 tracing.patches pdns.PdnsReplace name create = true ->
                 (creates ++ updates ++ deletes) !! j = Some delete ->
                 tracing.patches pdns.PdnsDelete name delete = true ->
                 (i < j)%nat)).
    { intros creates updates deletes Fc Fu Fd.
      assert (Fr : Forall (tracing.allChangetype pdns.PdnsReplace) (creates ++ updates))
        by (apply Forall_app; auto).
      split; [exact Fr|]. split; [exact Fd|].
      rewrite app_assoc. now apply replace_before_delete. }
    unfold pdns.ApplyChanges.
    destruct (mutateRecords_built EnsureTrailingDot c
                (0 <? length (plan.Create changes))%nat
                (plan.Create changes) pdns.PdnsReplace s) as (l1 & H1 & F1 & G1).
    destruct (if (0 <? length (plan.Create changes))%nat then _ else _) as [err1 s1].
    simpl in H1.
    destruct err1 as [e|]; simpl.
    { exists l1, [], []. rewrite !app_nil_r.
      destruct (Hpack l1 [] []) as (Ha & Hb & Hc); auto.
      rewrite !app_nil_r in Ha, Hc. repeat split; auto. }
    destruct (mutateRecords_built EnsureTrailingDot c
                (0 <? length (plan.UpdateNew changes))%nat
                (plan.UpdateNew changes) pdns.PdnsReplace s1) as (l2 & H2 & F2 & G2).
    destruct (if (0 <? length (plan.UpdateNew changes))%nat then _ else _) as [err2 s2].
    simpl in H2.
    destruct err2 as [e|]; simpl.
    { exists l1, l2, []. rewrite H2, H1, !app_nil_r, <- app_assoc.
      destruct (Hpack l1 l2 []) as (Ha & Hb & Hc); auto.
      rewrite !app_nil_r in Hc. repeat split; auto. }
    destruct (mutateRecords_built EnsureTrailingDot c
                (0 <? length (plan.Delete changes))%nat
                (plan.Delete changes) pdns.PdnsDelete s2) as (l3 & H3 & F3 & G3).
    exists l1, l2, l3. rewrite H3, H2, H1, <- !app_assoc.
    destruct (Hpack l1 l2 l3) as (Ha & Hb & Hc); auto.
    repeat split; auto.
Qed.

(** The PATCH log of PowerDNS for a change set that replaces the A record
    of a name by a CNAME record: the creation comes first. *)
Example pdns_switch_log :
  map (fun call => map (fun rr => (pdns.RrSet_Name rr, pdns.RrSet_Type_ rr,
                                   pdns.RrSet_Changetype rr))
                       (pdns.Zone_Rrsets (snd call)))
      (snd (snd (pdns.ApplyChanges examples.ensureTrailingDot
                   (tracing.pdnsTraced (examples.pdnsMock [examples.zoneExample]))
                   examples.switchChanges ([], []))))
  = [[("www.example.com.", "CNAME", "REPLACE")]; [("www.example.com.", "A", "DELETE")]].
Proof. vm_compute. reflexivity. Qed.

(** On that change set the Delete of the name is not issued before its
    Create. *)
Lemma pdns_creates_before_it_deletes :
  ~ tracing.deleteBeforeCreate
      (snd (snd (pdns.ApplyChanges examples.ensureTrailingDot
                   (tracing.pdnsTraced (examples.pdnsMock [examples.zoneExample]))
                   examples.switchChanges ([], [])))).
Proof.
  intros H.
  assert (Hlt : (1 < 0)%nat); [|lia].
  apply (H 0%nat 1%nat
           ("example.com.",
            pdns.mkZone "example.com." "example.com."
              [pdns.mkRrSet "www.example.com." "CNAME" 300 "REPLACE"
                 [pdns.mkRecord "lb.example.net." false]])
           ("example.com.",
            pdns.mkZone "example.com." "example.com."
              [pdns.mkRrSet "www.example.com." "A" 0 "DELETE"
                 [pdns.mkRecord "1.2.3.4" false]])
           "www.example.com."); vm_compute; reflexivity.
Qed.

End providers_spec.

(** ** CoreDNS: the records read back and the labels of an update *)

Module coredns_spec.

Import endpoint go coredns coredns_facts.

Local Open Scope list_scope.

(** C3. On two services that carry the two addresses of one name, Records
    merges the addresses into one endpoint object and returns the pointer
    to it twice: the endpoint does not appear exactly once. *)
Theorem coredns_records_repeat_the_endpoint :
  fst (examples.corednsRecords (mkStore [] [] 0%nat examples.twoHosts))
    = returns (inr [0%nat; 0%nat]) /\
  objects (snd (examples.corednsRecords (mkStore [] [] 0%nat examples.twoHosts)))
    = [mkEndpoint "a.example.com" ["1.1.1.1"; "2.2.2.2"] "A" "" 30 0%nat].
Proof. split; vm_compute; reflexivity. Qed.

Section Update.

Context {B : Type}.

(** C5 (amended). When the CoreDNS provider groups an update whose pointers
    are in the store, with the new endpoints distinct from each other and
    from the old ones, the new endpoint's Labels becomes the old
    endpoint's Labels map itself: the same reference, hence equal in
    content, and what is written through the new endpoint's Labels
    afterwards is read through the old endpoint's. *)
Theorem update_shares_the_old_labels (changes : plan.Changes ptr) (s : Store B) :
  Forall (fun p => (p < length (objects s))%nat) (plan.Create changes) ->
  Forall (fun u => (fst u < length (objects s))%nat /\ (snd u < length (objects s))%nat)
         (plan.Update changes) ->
  List.NoDup (plan.UpdateNew changes) ->
  (forall o p, In o (plan.UpdateOld changes) -> In p (plan.UpdateNew changes) -> o <> p) ->
  exists grouped s',
    groupEndpoints changes s = (returns grouped, s') /\
    labelMaps s' = labelMaps s /\
    forall old new, In (old, new) (plan.Update changes) ->
      exists o n,
        objects s !! old = Some o /\
        objects s' !! old = Some o /\
        objects s' !! new = Some n /\
        Labels n = Labels o /\
        labelsAt s' (Labels n) = labelsAt s (Labels o) /\
        forall key value s'',
          writeLabel (Labels n) key value s' = (returns tt, s'') ->
          labelsAt s'' (Labels o) !! key = Some value.
Proof.
  intros Hc Hu Hnd Hdis. unfold groupEndpoints.
  destruct (groupCreate_returns (plan.Create changes) ∅ s Hc) as [grouped0 Hg0].
  destruct (groupUpdate_shares (plan.Update changes) grouped0 s Hu Hnd Hdis)
    as (grouped & s' & Hg & Hmaps & Hlen & Hkeep & Hpairs).
  exists grouped, s'. split; [unfold bind; now rewrite Hg0|].
  split; [exact Hmaps|].
  intros old new Hin.
  destruct (Hpairs old new Hin) as (o & e & Ho & He & Hn).
  exists o, (set_Labels (Labels o) e).
  split; [exact Ho|]. split.
  { rewrite Hkeep; [exact Ho|]. intros Hold.
    apply (Hdis old old); [|exact Hold|reflexivity].
    unfold plan.UpdateOld. now apply (in_map fst) in Hin. }
  split; [exact Hn|]. split; [reflexivity|]. split.
  { unfold labelsAt. simpl. now rewrite Hmaps. }
  intros key value s'' Hw. simpl in Hw |- *.
  now apply writeLabel_read in Hw.
Qed.

End Update.

Lemma update_shares_the_old_labels_witness :
  exists grouped s',
    examples.corednsGroupEndpoints examples.storeChanges examples.sampleStore
      = (returns grouped, s') /\
    labelMaps s' = labelMaps examples.sampleStore /\
    forall old new, In (old, new) (plan.Update examples.storeChanges) ->
      exists o n,
        objects examples.sampleStore !! old = Some o /\
        objects s' !! old = Some o /\
        objects s' !! new = Some n /\
        Labels n = Labels o /\
        labelsAt s' (Labels n) = labelsAt examples.sampleStore (Labels o) /\
        forall key value s'',
          writeLabel (Labels n) key value s' = (returns tt, s'') ->
          labelsAt s'' (Labels o) !! key = Some value.
Proof.
  apply (update_shares_the_old_labels examples.storeChanges examples.sampleStore).
  - repeat constructor.
  - repeat constructor.
  - repeat constructor; simpl; tauto.
  - simpl. intros o p [<-|[]] [<-|[]]. discriminate.
Defined.

(** After the grouping of the example the old and the new endpoint of the
    update hold the same map reference: the independence claimed of them
    does not hold. *)
Lemma update_labels_are_not_independent :
  ~ tracing.labelsIndependent
      (snd (examples.corednsGroupEndpoints examples.storeChanges examples.sampleStore))
      1%nat 2%nat.
Proof.
  intros H.
  apply (H (mkEndpoint "www.example.com" ["2.2.2.2"] "A" "" 30 1%nat)
           (mkEndpoint "www.example.com" ["3.3.3.3"] "A" "" 30 1%nat));
    reflexivity.
Qed.

(** The write that leaks: in a dry run of the example, the prefix drawn for
    the target of the new endpoint lands in the label map of the old one. *)
Example update_write_reaches_old_labels :
  labelsAt examples.sampleStore 1%nat !! "3.3.3.3" = None /\
  labelsAt (snd (examples.corednsApplyChanges true examples.storeChanges
                   examples.sampleStore)) 1%nat !! "3.3.3.3"
  = Some "00000000".
Proof. split; vm_compute; reflexivity. Qed.

End coredns_spec.

(** ** PowerDNS: reading the records back *)

Module pdns_reading.

Import endpoint pdns.

Local Open Scope list_scope.

Lemma visibleTargets_filter (records : list Record_) :
  visibleTargets records =
  map Record_Content (List.filter (fun r => negb (Record_Disabled r)) records).
Proof.
  induction records as [|r rest IH]; simpl; [reflexivity|].
  destruct (Record_Disabled r); simpl; now rewrite IH.
Qed.

Lemma convertRRSetToEndpoints_readBack (rr : RrSet) :
  convertRRSetToEndpoints rr = ([invariants.readBack rr], None).
Proof.
  unfold convertRRSetToEndpoints, invariants.readBack, NewEndpointWithTTL, NewLabels.
  now rewrite visibleTargets_filter.
Qed.

Lemma Records_rrsets_readBack (rrsets : list RrSet) : forall endpoints,
  Records_rrsets rrsets endpoints = inr (endpoints ++ map invariants.readBack rrsets).
Proof.
  induction rrsets as [|rr rest IH]; intros endpoints; cbn [Records_rrsets].
  - now rewrite app_nil_r.
  - rewrite convertRRSetToEndpoints_readBack, IH. now rewrite <- app_assoc.
Qed.

Section Steady.

Context {B : Type}.
Variable client : PDNSAPIProvider B.
Variable zones : list Zone.
Variable detail : string -> Zone.

Hypothesis listed : forall b, ListZones client b = ((zones, None), b).
Hypothesis detailed : forall zoneID b, ListZone client zoneID b = ((detail zoneID, None), b).

Lemma Records_zones_steady (filteredZones : list Zone) : forall endpoints b,
  Records_zones client filteredZones endpoints b =
  (inr (endpoints ++
        flat_map (fun zone => map invariants.readBack (Zone_Rrsets (detail (Zone_Id zone))))
                 filteredZones), b).
Proof.
  induction filteredZones as [|zone rest IH]; intros endpoints b; simpl.
  - now rewrite app_nil_r.
  - rewrite detailed, Records_rrsets_readBack, IH. now rewrite <- app_assoc.
Qed.

(** X1. Against a server that lists its zones and serves their details
    without failing, Records returns, for the zones that pass the domain
    filter and in their order, one endpoint per rrset of the zone's
    details: named as the rrset, with its TTL, typed as the rrset except
    that ALIAS reads as CNAME, its targets the contents of the records that
    are not disabled. *)
Theorem pdns_records_of_a_steady_server (b : B) :
  Records client b =
  (inr (flat_map (fun zone => map invariants.readBack (Zone_Rrsets (detail (Zone_Id zone))))
                 (fst (PartitionZones client zones))), b).
Proof.
  unfold Records. rewrite listed.
  destruct (PartitionZones client zones) as [filteredZones residualZones].
  now rewrite Records_zones_steady.
Qed.

End Steady.

Lemma pdns_records_of_a_steady_server_witness :
  Records (examples.pdnsServer [examples.zoneWithRecords]) tt =
  (inr [mkEndpoint "www.example.com." ["1.2.3.4"] "A" "" 300 ∅;
        mkEndpoint "example.com." ["lb.example.net."] "CNAME" "" 60 ∅], tt).
Proof.
  apply (pdns_records_of_a_steady_server (examples.pdnsServer [examples.zoneWithRecords])
           [examples.zoneWithRecords]
           (fun zoneID =>
              default (mkZone "" "" [])
                (List.find (fun z => String.eqb (Zone_Id z) zoneID)
                           [examples.zoneWithRecords]))).
  - reflexivity.
  - reflexivity.
Defined.

Section Errors.

Context {A : Type}.
Variable ZonesApi_ListZones : A -> (list Zone * option error) * A.
Variable ZonesApi_ListZone : string -> A -> (Zone * option error) * A.
Variable ZonesApi_PatchZone : string -> Zone -> A -> option error * A.
Variable domainFilter_IsConfigured : bool.
Variable domainFilter_Match : string -> bool.

Abbreviation apiClient :=
  (APIClient ZonesApi_ListZones ZonesApi_ListZone ZonesApi_PatchZone
     domainFilter_IsConfigured domainFilter_Match).

Lemma Records_zones_soft (filteredZones : list Zone) : forall endpoints w err w',
  Records_zones apiClient filteredZones endpoints w = (inl err, w') ->
  provider.IsSoftError err = true.
Proof.
  induction filteredZones as [|zone rest IH]; intros endpoints w err w'; simpl.
  - discriminate.
  - destruct (APIClient_ListZone ZonesApi_ListZone (Zone_Id zone) w) as [[z e] w1].
    destruct e as [e|].
    + intros [= <- _]. reflexivity.
    + rewrite Records_rrsets_readBack. apply IH.
Qed.

(** X2. Through the PowerDNS API client every failure of Records is a soft
    error: the zone listing fails softly after its retries, and a zone
    whose details cannot be fetched is reported as the soft error "unable
    to fetch records". *)
Theorem pdns_records_fail_softly (w : World A) (err : error) (w' : World A) :
  Records apiClient w = (inl err, w') -> provider.IsSoftError err = true.
Proof.
  unfold Records. simpl.
  destruct (APIClient_ListZones ZonesApi_ListZones w) as [[zs e] w1] eqn:Hlist.
  destruct e as [e|].
  - intros [= <- _]. unfold APIClient_ListZones in Hlist.
    now apply pdns_calls.ListZones_loop_soft in Hlist.
  - destruct (APIClient_PartitionZones domainFilter_IsConfigured domainFilter_Match zs)
      as [filteredZones residualZones].
    apply Records_zones_soft.
Qed.

End Errors.

Lemma pdns_records_fail_softly_witness :
  provider.IsSoftError
    (provider.NewSoftErrorf "unable to fetch records: %v"
       (Some (provider.NewSoftErrorf "unable to list zone" None))) = true.
Proof.
  apply (pdns_records_fail_softly
           (fun calls : nat => (([examples.zoneExample], None), S calls))
           (fun _ (calls : nat) =>
              ((mkZone "" "" [], Some (errorsNew "504 Gateway Timeout")), S calls))
           (fun _ _ (calls : nat) => (None, S calls))
           false (fun _ => true)
           (mkWorld 0%nat []) _ (mkWorld 4%nat [250; 500; 1000])).
  reflexivity.
Defined.

End pdns_reading.

(** ** PowerDNS: what is patched, and what is not *)

Module pdns_patching.

Import endpoint pdns tracing.

Local Open Scope list_scope.

Section Traced.

Variable EnsureTrailingDot : string -> string.
Context {B : Type}.
Variable c : PDNSAPIProvider B.

Abbreviation Log := (B * list PdnsCall)%type.
Abbreviation patchedOnly := (@invariants.patchedOnly B).

Lemma Records_zones_log (filteredZones : list Zone) : forall endpoints (s : Log),
  snd (snd (Records_zones (pdnsTraced c) filteredZones endpoints s)) = snd s.
Proof.
  induction filteredZones as [|zone rest IH]; intros endpoints s; simpl; [reflexivity|].
  destruct (ListZone c (Zone_Id zone) (fst s)) as [[z err] b'].
  destruct err as [e|]; simpl; [reflexivity|].
  destruct (Records_rrsets (Zone_Rrsets z) endpoints) as [e|endpoints']; [reflexivity|].
  now rewrite IH.
Qed.

(** X3. Records sends no PATCH: behind any client, the log of the patches
    is after Records what it was before, whether Records succeeds or
    fails. *)
Theorem pdns_records_never_patch (s : Log) :
  snd (snd (Records (pdnsTraced c) s)) = snd s.
Proof.
  unfold Records. simpl.
  destruct (ListZones c (fst s)) as [[zones err] b'].
  destruct err as [e|]; simpl; [reflexivity|].
  destruct (PartitionZones c zones) as [filteredZones residualZones].
  now rewrite Records_zones_log.
Qed.

Lemma patchedOnly_refl P (s : Log) : patchedOnly P s s.
Proof. exists []. split; [now rewrite app_nil_r|constructor]. Qed.

Lemma patchedOnly_same P (s s' : Log) : snd s' = snd s -> patchedOnly P s s'.
Proof. intros H. exists []. split; [now rewrite app_nil_r|constructor]. Qed.

Lemma patchedOnly_trans P (s1 s2 s3 : Log) :
  patchedOnly P s1 s2 -> patchedOnly P s2 s3 -> patchedOnly P s1 s3.
Proof.
  intros (l1 & H1 & F1) (l2 & H2 & F2). exists (l1 ++ l2).
  split; [now rewrite H2, H1, app_assoc|]. apply Forall_app. auto.
Qed.

Lemma patchZones_proper (zonelist : list Zone) : forall s : Log,
  Forall (fun z => Zone_Rrsets z <> []) zonelist ->
  patchedOnly invariants.properPatch s (snd (patchZones (pdnsTraced c) zonelist s)).
Proof.
  induction zonelist as [|zone rest IH]; simpl; intros s HF; [apply patchedOnly_refl|].
  inversion HF as [|? ? Hz Hrest]; subst.
  destruct (PatchZone c (Zone_Id zone) zone (fst s)) as [err b'] eqn:Hp.
  assert (Hstep : patchedOnly invariants.properPatch s
                    (b', snd s ++ [(Zone_Id zone, zone)])).
  { exists [(Zone_Id zone, zone)]. split; [reflexivity|].
    repeat constructor. exact Hz. }
  destruct err as [err|]; simpl; [exact Hstep|].
  eapply patchedOnly_trans; [exact Hstep|]. now apply IH.
Qed.

(** A conversion keeps only the zones that received an rrset. *)
Lemma convertWithZones_nonempty client eps ct zones zonelist :
  result (@convertWithZones EnsureTrailingDot B client eps ct zones) = inr zonelist ->
  Forall (fun z => Zone_Rrsets z <> []) zonelist.
Proof.
  intros H. apply pdns_spec.convertWithZones_inr in H as (eps' & Hloop & _).
  apply pdns_facts.filteredLoop_sound in Hloop as [_ (out & -> & Hout)]. simpl.
  rewrite List.Forall_forall. intros z' Hz'. now destruct (Hout z' Hz').
Qed.

Lemma mutateRecords_proper eps ct (s : Log) :
  patchedOnly invariants.properPatch s
    (snd (mutateRecords EnsureTrailingDot (pdnsTraced c) eps ct s)).
Proof.
  unfold mutateRecords, ConvertEndpointsToZones. simpl.
  destruct (ListZones c (fst s)) as [[zones err] b'].
  destruct err as [e|]; simpl; [now apply patchedOnly_same|].
  destruct (result (convertWithZones _ _ eps ct zones)) as [e|zonelist] eqn:Hres; simpl;
    [now apply patchedOnly_same|].
  pose proof (patchZones_proper zonelist (b', snd s)
                (convertWithZones_nonempty _ _ _ _ _ Hres)) as (l & Hl & HF).
  exists l. auto.
Qed.

Lemma mutateRecords_if_proper (nonempty : bool) eps ct (s : Log) :
  patchedOnly invariants.properPatch s
    (snd (if nonempty then mutateRecords EnsureTrailingDot (pdnsTraced c) eps ct s
          else (None, s))).
Proof.
  destruct nonempty; [apply mutateRecords_proper|apply patchedOnly_refl].
Qed.

(** X4. Every PATCH that ApplyChanges sends is addressed to the zone it
    carries ([zone.Id]) and carries at least one rrset: a zone that no
    endpoint was routed to is not patched. *)
Theorem pdns_patches_are_never_empty changes (s : Log) :
  exists sent,
    snd (snd (ApplyChanges EnsureTrailingDot (pdnsTraced c) changes s)) = snd s ++ sent /\
    Forall invariants.properPatch sent.
Proof.
  unfold ApplyChanges.
  pose proof (mutateRecords_if_proper (0 <? length (plan.Create changes))%nat
                (plan.Create changes) PdnsReplace s) as H1.
  destruct (if (0 <? length (plan.Create changes))%nat then _ else _) as [err1 s1].
  simpl in H1.
  destruct err1 as [e|]; simpl; [exact H1|].
  pose proof (mutateRecords_if_proper (0 <? length (plan.UpdateNew changes))%nat
                (plan.UpdateNew changes) PdnsReplace s1) as H2.
  destruct (if (0 <? length (plan.UpdateNew changes))%nat then _ else _) as [err2 s2].
  simpl in H2.
  destruct err2 as [e|]; simpl; [exact (patchedOnly_trans _ _ _ _ H1 H2)|].
  pose proof (mutateRecords_if_proper (0 <? length (plan.Delete changes))%nat
                (plan.Delete changes) PdnsDelete s2) as H3.
  exact (patchedOnly_trans _ _ _ _ H1 (patchedOnly_trans _ _ _ _ H2 H3)).
Qed.

Lemma mutateRecords_unlisted eps ct (s : Log) zones e b' :
  ListZones c (fst s) = ((zones, Some e), b') ->
  mutateRecords EnsureTrailingDot (pdnsTraced c) eps ct s = (Some e, (b', snd s)).
Proof.
  intros H. unfold mutateRecords, ConvertEndpointsToZones. simpl. now rewrite H.
Qed.

(** X5. When the zones cannot be listed, ApplyChanges on a change set that
    is not empty returns the error of the listing and sends no PATCH; on
    the empty change set it returns nil without a single call, the zone
    listing included. *)
Theorem pdns_nothing_is_patched_without_the_zones changes (s : Log) :
  (forall b, exists zones e b', ListZones c b = ((zones, Some e), b')) ->
  (plan.Create changes <> [] \/ plan.Update changes <> [] \/ plan.Delete changes <> []) ->
  (exists zones e b',
     ListZones c (fst s) = ((zones, Some e), b') /\
     ApplyChanges EnsureTrailingDot (pdnsTraced c) changes s = (Some e, (b', snd s))) /\
  ApplyChanges EnsureTrailingDot (pdnsTraced c) (plan.mkChanges [] [] []) s = (None, s).
Proof.
  intros Hfail Hne. split; [|reflexivity].
  destruct (Hfail (fst s)) as (zones & e & b' & Hl).
  exists zones, e, b'. split; [exact Hl|].
  unfold ApplyChanges, plan.UpdateNew.
  destruct (plan.Create changes) as [|x xs] eqn:Hc; simpl.
  - destruct (plan.Update changes) as [|u us] eqn:Hu; simpl.
    + destruct (plan.Delete changes) as [|d ds] eqn:Hd; simpl.
      * destruct Hne as [H|[H|H]]; now elim H.
      * now rewrite (mutateRecords_unlisted _ _ _ _ _ _ Hl).
    + now rewrite (mutateRecords_unlisted _ _ _ _ _ _ Hl).
  - now rewrite (mutateRecords_unlisted _ _ _ _ _ _ Hl).
Qed.

End Traced.

Lemma pdns_nothing_is_patched_without_the_zones_witness :
  (exists zones e b',
     ListZones examples.pdnsDown 0%nat = ((zones, Some e), b') /\
     ApplyChanges examples.ensureTrailingDot (pdnsTraced examples.pdnsDown)
       examples.switchChanges (0%nat, []) = (Some e, (b', []))) /\
  ApplyChanges examples.ensureTrailingDot (pdnsTraced examples.pdnsDown)
    (plan.mkChanges [] [] []) (0%nat, []) = (None, (0%nat, [])).
Proof.
  apply (pdns_nothing_is_patched_without_the_zones examples.ensureTrailingDot
           examples.pdnsDown examples.switchChanges (0%nat, [])).
  - intros b. exists [], (errorsNew "503 Service Unavailable"), (S b). reflexivity.
  - left. discriminate.
Defined.

End pdns_patching.

(** ** PowerDNS: retries of the API client *)

Module pdns_retries.

Import endpoint pdns.

Local Open Scope list_scope.

Section Client.

Context {A : Type}.
Variable ZonesApi_ListZone : string -> A -> (Zone * option error) * A.
Variable ZonesApi_PatchZone : string -> Zone -> A -> option error * A.

(** X6. ListZone and PatchZone send a request at most three times, always
    with the same arguments, and stop at the first success: the requests
    sent are the failed ones followed by at most one successful one, which
    is the last and whose answer is returned.  They sleep 250 ms, 500 ms
    and 1 s after the first, second and third failure, and once the third
    request has failed they return a soft error ([ListZone] together with
    the empty zone). *)
Theorem pdns_requests_are_tried_three_times (zoneID : string) (zoneStruct : Zone)
    (w : World (A * list tracing.ZoneRequest)) :
  (exists (failures : list error) (success : list tracing.ZoneRequest),
     let r := APIClient_PatchZone (tracing.patchLogged ZonesApi_PatchZone)
                zoneID zoneStruct w in
     snd (remote (snd r))
       = snd (remote w)
         ++ map (fun e => (zoneID, zoneStruct, Some e)) failures ++ success /\
     slept (snd r) = slept w ++ take (length failures) [250; 500; 1000] /\
     ((success = [(zoneID, zoneStruct, None)] /\ (length failures < 3)%nat /\
       fst r = None) \/
      (success = [] /\ length failures = 3%nat /\
       exists err, fst r = Some err /\ provider.IsSoftError err = true))) /\
  (exists (failures : list (Zone * error)) (success : list tracing.ZoneRequest),
     let r := APIClient_ListZone (tracing.listLogged ZonesApi_ListZone) zoneID w in
     snd (remote (snd r))
       = snd (remote w)
         ++ map (fun f => (zoneID, fst f, Some (snd f))) failures ++ success /\
     slept (snd r) = slept w ++ take (length failures) [250; 500; 1000] /\
     ((exists zone, success = [(zoneID, zone, None)] /\ (length failures < 3)%nat /\
                    fst r = (zone, None)) \/
      (success = [] /\ length failures = 3%nat /\
       exists err, fst r = (mkZone "" "" [], Some err) /\
                   provider.IsSoftError err = true))).
Proof.
  destruct w as [[a0 log] sl]. split.
  - unfold APIClient_PatchZone, tracing.patchLogged. simpl.
    destruct (ZonesApi_PatchZone zoneID zoneStruct a0) as [[e1|] a1]; simpl.
    2: { exists [], [(zoneID, zoneStruct, None)]. simpl. rewrite app_nil_r.
         split; [reflexivity|]. split; [reflexivity|]. left. repeat split. lia. }
    destruct (ZonesApi_PatchZone zoneID zoneStruct a1) as [[e2|] a2]; simpl.
    2: { exists [e1], [(zoneID, zoneStruct, None)]. simpl. rewrite <- app_assoc.
         split; [reflexivity|]. split; [reflexivity|]. left. repeat split. lia. }
    destruct (ZonesApi_PatchZone zoneID zoneStruct a2) as [[e3|] a3]; simpl.
    2: { exists [e1; e2], [(zoneID, zoneStruct, None)]. simpl. rewrite <- !app_assoc.
         split; [reflexivity|]. split; [reflexivity|]. left. repeat split. lia. }
    exists [e1; e2; e3], []. simpl. rewrite <- !app_assoc.
    split; [reflexivity|]. split; [reflexivity|]. right. repeat split. eauto.
  - unfold APIClient_ListZone, tracing.listLogged. simpl.
    destruct (ZonesApi_ListZone zoneID a0) as [[z1 [e1|]] a1]; simpl.
    2: { exists [], [(zoneID, z1, None)]. simpl. rewrite app_nil_r.
         split; [reflexivity|]. split; [reflexivity|]. left. exists z1.
         repeat split. lia. }
    destruct (ZonesApi_ListZone zoneID a1) as [[z2 [e2|]] a2]; simpl.
    2: { exists [(z1, e1)], [(zoneID, z2, None)]. simpl. rewrite <- app_assoc.
         split; [reflexivity|]. split; [reflexivity|]. left. exists z2.
         repeat split. lia. }
    destruct (ZonesApi_ListZone zoneID a2) as [[z3 [e3|]] a3]; simpl.
    2: { exists [(z1, e1); (z2, e2)], [(zoneID, z3, None)]. simpl. rewrite <- !app_assoc.
         split; [reflexivity|]. split; [reflexivity|]. left. exists z3.
         repeat split. lia. }
    exists [(z1, e1); (z2, e2); (z3, e3)], []. simpl. rewrite <- !app_assoc.
    split; [reflexivity|]. split; [reflexivity|]. right. repeat split. eauto.
Qed.

End Client.

End pdns_retries.

(** ** PowerDNS: the conversion in both directions *)

Module pdns_conversion.

Import endpoint pdns.

Local Open Scope list_scope.

Section Conversion.

Variable EnsureTrailingDot : string -> string.
Context {B : Type}.
Variable client : PDNSAPIProvider B.

Abbreviation dnsnameOf e := (EnsureTrailingDot (DNSName e)).

Lemma visibleTargets_recordsOf (e : Endpoint) :
  visibleTargets (recordsOf EnsureTrailingDot e) =
  map (fun t => if needsTrailingDot (RecordType e) then EnsureTrailingDot t else t)
      (Targets e).
Proof.
  unfold recordsOf. induction (Targets e) as [|t rest IH]; simpl; [reflexivity|].
  now rewrite IH.
Qed.

(** X7. What a REPLACE writes for an endpoint with a TTL from 0 to MaxInt32
    is read back as one endpoint: the name with its trailing dot, the
    targets (with a trailing dot for CNAME, ALIAS, MX and SRV), the TTL, or
    300 for the TTL 0, and the record type, where ALIAS, and CNAME at the
    zone apex, read back as CNAME; the set identifier and the labels are
    not carried. *)
Theorem pdns_replace_reads_back (zone : Zone) (e : Endpoint) :
  0 <= RecordTTL e <= MaxInt32 ->
  exists rr,
    rrsetFor EnsureTrailingDot zone e PdnsReplace = inr rr /\
    convertRRSetToEndpoints rr =
    ([mkEndpoint (dnsnameOf e)
        (map (fun t => if needsTrailingDot (RecordType e) then EnsureTrailingDot t else t)
             (Targets e))
        (if String.eqb (RecordType e) "ALIAS" then "CNAME" else RecordType e)
        "" (if RecordTTL e =? 0 then 300 else RecordTTL e) ∅], None).
Proof.
  intros Httl.
  destruct (pdns_calls.rrsetFor_total EnsureTrailingDot zone e PdnsReplace) as [rr Hrr];
    [intros _; lia|].
  exists rr. split; [exact Hrr|].
  pose proof (pdns_facts.rrsetFor_fields EnsureTrailingDot zone e PdnsReplace rr Hrr)
    as (Hname & _ & Hrecords & Htype).
  pose proof (pdns_calls.rrsetFor_replace_ttl EnsureTrailingDot zone e rr Hrr) as [_ Hrttl].
  unfold convertRRSetToEndpoints, NewEndpointWithTTL, NewLabels.
  rewrite Hname, Hrecords, Htype, Hrttl, visibleTargets_recordsOf.
  repeat f_equal.
  - destruct (String.eqb (dnsnameOf e) (Zone_Name zone)); simpl; [|reflexivity].
    destruct (String.eqb_spec (RecordType e) "CNAME") as [->|Hne]; reflexivity.
  - destruct (RecordTTL e =? 0); [reflexivity|]. apply pdns_facts.int32_id. lia.
Qed.

Abbreviation filteredOf zones := (fst (PartitionZones client zones)).
Abbreviation residualOf zones := (snd (PartitionZones client zones)).

(** X8. An endpoint that matches no zone of the domain filter but matches a
    zone outside it is dropped in silence: no rrset carries its name, and
    it is not among the endpoints of the warning "No matching zones were
    found". *)
Theorem pdns_endpoints_of_residual_zones_vanish eps ct zones zoneList e z :
  result (convertWithZones EnsureTrailingDot client eps ct zones) = inr zoneList ->
  (forall z', In z' (filteredOf zones) -> matchesZone (dnsnameOf e) z' = false) ->
  In z (residualOf zones) ->
  matchesZone (dnsnameOf e) z = true ->
  ~ In e (warned (convertWithZones EnsureTrailingDot client eps ct zones)) /\
  forall zone' rr, In zone' zoneList -> In rr (Zone_Rrsets zone') ->
    RrSet_Name rr <> dnsnameOf e.
Proof.
  intros Hres Hnone Hz Hmatch. split.
  - destruct (pdns_spec.convertWithZones_inr _ _ _ _ _ _ Hres) as (eps' & _ & ->).
    rewrite pdns_facts.residualLoop_filter, filter_In. intros [_ Hkeep].
    apply negb_true_iff in Hkeep.
    assert (Hex : existsb (fun z0 => matchesZone (dnsnameOf e) z0) (residualOf zones) = true).
    { apply existsb_exists. exists z. auto. }
    congruence.
  - intros zone' rr Hzone' Hrr Hname.
    destruct (providers_spec.converted_rrset _ _ _ _ _ _ _ _ Hres Hzone' Hrr)
      as (zone & e' & Hzone & _ & Hm & _ & Hok).
    apply pdns_facts.rrsetFor_fields in Hok as (Hn & _).
    rewrite Hname in Hn. rewrite Hn in Hnone.
    rewrite (Hnone zone Hzone) in Hm. discriminate.
Qed.

End Conversion.

Lemma pdns_replace_reads_back_witness :
  exists rr,
    rrsetFor examples.ensureTrailingDot examples.zoneExample
      (examples.ep "example.com" "CNAME" 0 ["lb.example.net"]) PdnsReplace = inr rr /\
    convertRRSetToEndpoints rr =
    ([mkEndpoint "example.com." ["lb.example.net."] "CNAME" "" 300 ∅], None).
Proof.
  apply (pdns_replace_reads_back examples.ensureTrailingDot examples.zoneExample
           (examples.ep "example.com" "CNAME" 0 ["lb.example.net"])).
  simpl. unfold MaxInt32. lia.
Defined.

Lemma pdns_endpoints_of_residual_zones_vanish_witness :
  ~ In (examples.ep "www.other.org" "A" 0 ["1.2.3.4"])
       (warned (convertWithZones examples.ensureTrailingDot examples.pdnsFiltering
                  [examples.ep "www.other.org" "A" 0 ["1.2.3.4"]] PdnsReplace
                  [examples.zoneExample; examples.zoneOther])) /\
  forall zone' rr, In zone' [] -> In rr (Zone_Rrsets zone') ->
    RrSet_Name rr <> "www.other.org.".
Proof.
  apply (pdns_endpoints_of_residual_zones_vanish examples.ensureTrailingDot
           examples.pdnsFiltering [examples.ep "www.other.org" "A" 0 ["1.2.3.4"]]
           PdnsReplace [examples.zoneExample; examples.zoneOther] []
           (examples.ep "www.other.org" "A" 0 ["1.2.3.4"]) examples.zoneOther).
  - reflexivity.
  - intros z' [<-|[]]. reflexivity.
  - left. reflexivity.
  - reflexivity.
Defined.

Section Adjust.

Variable CheckEndpoint : Endpoint -> bool.

Lemma AdjustEndpoints_loop_filter (endpoints : list Endpoint) : forall valid,
  AdjustEndpoints_loop CheckEndpoint endpoints valid =
  valid ++ List.filter CheckEndpoint endpoints.
Proof.
  induction endpoints as [|ep rest IH]; intros valid; simpl.
  - now rewrite app_nil_r.
  - destruct (CheckEndpoint ep); simpl; rewrite IH; [now rewrite <- app_assoc|reflexivity].
Qed.

(** X9. AdjustEndpoints never fails: it returns, in their order, exactly the
    endpoints that pass CheckEndpoint, and adjusting its result again
    changes nothing. *)
Theorem pdns_adjust_keeps_the_valid_endpoints (endpoints : list Endpoint) :
  AdjustEndpoints CheckEndpoint endpoints = (List.filter CheckEndpoint endpoints, None) /\
  AdjustEndpoints CheckEndpoint (fst (AdjustEndpoints CheckEndpoint endpoints))
    = AdjustEndpoints CheckEndpoint endpoints.
Proof.
  unfold AdjustEndpoints. rewrite !AdjustEndpoints_loop_filter. simpl.
  split; [reflexivity|]. f_equal.
  induction endpoints as [|ep rest IH]; simpl; [reflexivity|].
  destruct (CheckEndpoint ep) eqn:Hc; simpl; [rewrite Hc; now f_equal|exact IH].
Qed.

End Adjust.

End pdns_conversion.

(** ** PowerDNS: the order of the endpoints does not matter *)

Module pdns_order.

Import endpoint pdns.

Local Open Scope list_scope.

Lemma ltb_compare (a b : string) : String.ltb a b = true <-> String.compare a b = Lt.
Proof. unfold String.ltb. destruct (String.compare a b); split; congruence. Qed.

Lemma ltb_irrefl (a : string) : String.ltb a a = false.
Proof.
  destruct (String.ltb a a) eqn:H; [|reflexivity].
  apply ltb_compare in H.
  assert (He : String.compare a a = Eq) by now apply OrderedTypeEx.String_as_OT.cmp_eq.
  congruence.
Qed.

Lemma ltb_trans (a b c : string) :
  String.ltb a b = true -> String.ltb b c = true -> String.ltb a c = true.
Proof.
  rewrite !ltb_compare. intros H1 H2.
  apply OrderedTypeEx.String_as_OT.cmp_lt.
  apply OrderedTypeEx.String_as_OT.cmp_lt in H1, H2.
  eapply OrderedTypeEx.String_as_OT.lt_trans; eassumption.
Qed.

Lemma ltb_asym (a b : string) : String.ltb a b = true -> String.ltb b a = false.
Proof.
  intros H. destruct (String.ltb b a) eqn:H'; [|reflexivity].
  pose proof (ltb_trans _ _ _ H H') as Hc. rewrite ltb_irrefl in Hc. discriminate.
Qed.

Lemma ltb_connected (a b : string) :
  String.ltb a b = false -> a <> b -> String.ltb b a = true.
Proof.
  intros H Hne. apply ltb_compare. rewrite String.compare_antisym.
  unfold String.ltb in H. destruct (String.compare a b) eqn:Hc; simpl.
  - now apply String.compare_eq_iff in Hc.
  - discriminate.
  - reflexivity.
Qed.

Lemma endpointLess_trans (a b c : Endpoint) :
  endpointLess a b = true -> endpointLess b c = true -> endpointLess a c = true.
Proof.
  unfold endpointLess.
  destruct (String.eqb_spec (DNSName a) (DNSName b)) as [Hab|Hab];
    destruct (String.eqb_spec (DNSName b) (DNSName c)) as [Hbc|Hbc];
    destruct (String.eqb_spec (DNSName a) (DNSName c)) as [Hac|Hac];
    intros H1 H2; try congruence;
    first [ solve [eapply ltb_trans; eassumption]
          | solve [rewrite Hab; assumption]
          | solve [rewrite <- Hab; assumption]
          | solve [rewrite Hbc; assumption]
          | solve [rewrite <- Hbc; assumption]
          | (pose proof (ltb_trans _ _ _ H1 H2) as H;
             rewrite Hac, ltb_irrefl in H; discriminate) ].
Qed.

Lemma endpointLess_asym (a b : Endpoint) :
  endpointLess a b = true -> endpointLess b a = false.
Proof.
  unfold endpointLess. rewrite (String.eqb_sym (DNSName b)).
  destruct (String.eqb (DNSName a) (DNSName b)); apply ltb_asym.
Qed.

Lemma endpointLess_connected (a b : Endpoint) :
  endpointLess a b = false ->
  (DNSName a = DNSName b -> RecordType a = RecordType b -> False) ->
  endpointLess b a = true.
Proof.
  unfold endpointLess. rewrite (String.eqb_sym (DNSName b)).
  destruct (String.eqb_spec (DNSName a) (DNSName b)) as [Hn|Hn]; intros H Hne.
  - apply ltb_connected; auto.
  - apply ltb_connected; auto.
Qed.

Abbreviation distinctKeys := invariants.distinctKeys.

Lemma insert_ascending (x : Endpoint) (l : list Endpoint) :
  (forall y, In y l -> x <> y -> DNSName x = DNSName y -> RecordType x = RecordType y -> False) ->
  ~ In x l ->
  StronglySorted (fun a b => endpointLess a b = true) l ->
  StronglySorted (fun a b => endpointLess a b = true) (sort.insert endpointLess x l).
Proof.
  intros Hkeys Hnin Hs. induction Hs as [|y l Hs IH Hy]; simpl.
  - repeat constructor.
  - destruct (endpointLess y x) eqn:Hyx.
    + constructor.
      * apply IH; [intros z Hz; apply Hkeys; now right|intros Hin; apply Hnin; now right].
      * rewrite List.Forall_forall. intros z Hz.
        apply (Permutation_in _ (sort_facts.insert_perm endpointLess x l)) in Hz.
        destruct Hz as [<-|Hz]; [exact Hyx|].
        rewrite List.Forall_forall in Hy. now apply Hy.
    + assert (Hxy : endpointLess x y = true).
      { apply endpointLess_connected; [exact Hyx|].
        intros Hn Ht. apply (Hkeys y); [now left| |congruence|congruence].
        intros ->. apply Hnin. now left. }
      constructor; [now constructor|].
      constructor; [exact Hxy|].
      rewrite List.Forall_forall in Hy |- *. intros z Hz.
      eapply endpointLess_trans; [exact Hxy|now apply Hy].
Qed.

Lemma SliceStable_ascending (eps : list Endpoint) :
  distinctKeys eps -> List.NoDup eps ->
  StronglySorted (fun a b => endpointLess a b = true) (sort.SliceStable endpointLess eps).
Proof.
  induction eps as [|x l IH]; intros Hkeys Hnd; simpl; [constructor|].
  inversion Hnd as [|? ? Hnin Hnd']; subst.
  apply insert_ascending.
  - intros y Hy Hne Hn Ht. apply Hne. apply Hkeys; auto.
    + now left.
    + right. now apply (sort_facts.SliceStable_In endpointLess l y).
  - intros Hin. apply Hnin. now apply (sort_facts.SliceStable_In endpointLess l x).
  - apply IH; [|exact Hnd']. intros a b Ha Hb. apply Hkeys; now right.
Qed.

Lemma SliceStable_order (eps eps' : list Endpoint) :
  Permutation eps eps' -> distinctKeys eps -> List.NoDup eps ->
  sort.SliceStable endpointLess eps = sort.SliceStable endpointLess eps'.
Proof.
  intros Hperm Hkeys Hnd.
  apply (StronglySorted_unique_strong (fun a b => endpointLess a b = true)).
  - intros x1 x2 _ _ H12 H21. apply endpointLess_asym in H12. congruence.
  - now apply SliceStable_ascending.
  - apply SliceStable_ascending.
    + intros a b Ha Hb. apply Hkeys; eapply Permutation_in; try eassumption;
        now symmetry.
    + eapply Permutation_NoDup; eassumption.
  - rewrite !sort_facts.SliceStable_perm. exact Hperm.
Qed.

Lemma NoDup_keys (eps : list Endpoint) :
  List.NoDup (map invariants.nameAndType eps) -> distinctKeys eps /\ List.NoDup eps.
Proof.
  induction eps as [|x l IH]; simpl; intros Hnd.
  - split; [intros a b []|constructor].
  - inversion Hnd as [|? ? Hnin Hnd']; subst. destruct (IH Hnd') as [Hkeys Hl].
    assert (Hfresh : forall y, In y l -> DNSName x = DNSName y ->
                       RecordType x = RecordType y -> False).
    { intros y Hy Hn Ht. apply Hnin. apply in_map_iff. exists y.
      split; [|exact Hy]. unfold invariants.nameAndType. now rewrite Hn, Ht. }
    split.
    + intros a b [<-|Ha] [<-|Hb] Hn Ht; [reflexivity| | |now apply Hkeys].
      * now elim (Hfresh b Hb).
      * now elim (Hfresh a Ha).
    + constructor; [|exact Hl]. intros Hin. now apply (Hfresh x Hin).
Qed.

Section Conversion.

Variable EnsureTrailingDot : string -> string.
Context {B : Type}.
Variable client : PDNSAPIProvider B.

(** X10. The endpoints are sorted before they are matched to the zones
    ("so we have deterministic inserts"): for endpoints no two of which
    share both name and record type, the zone structs built, the warning,
    and so the patches sent by mutateRecords, are the same for every
    order in which the endpoints are given. *)
Theorem pdns_conversion_ignores_the_order eps eps' ct (b : B) :
  Permutation eps eps' ->
  List.NoDup (map invariants.nameAndType eps) ->
  ConvertEndpointsToZones EnsureTrailingDot client eps ct b
    = ConvertEndpointsToZones EnsureTrailingDot client eps' ct b /\
  mutateRecords EnsureTrailingDot client eps ct b
    = mutateRecords EnsureTrailingDot client eps' ct b.
Proof.
  intros Hperm Hnd. destruct (NoDup_keys eps Hnd) as [Hkeys Hnd'].
  assert (Hconv : forall zones,
            convertWithZones EnsureTrailingDot client eps ct zones
            = convertWithZones EnsureTrailingDot client eps' ct zones).
  { intros zones. unfold convertWithZones.
    now rewrite (SliceStable_order eps eps' Hperm Hkeys Hnd'). }
  assert (Hc : ConvertEndpointsToZones EnsureTrailingDot client eps ct b
               = ConvertEndpointsToZones EnsureTrailingDot client eps' ct b).
  { unfold ConvertEndpointsToZones.
    destruct (ListZones client b) as [[zones err] b'].
    destruct err as [e|]; [reflexivity|]. now rewrite Hconv. }
  split; [exact Hc|]. unfold mutateRecords. now rewrite Hc.
Qed.

End Conversion.

Lemma pdns_conversion_ignores_the_order_witness :
  ConvertEndpointsToZones examples.ensureTrailingDot (examples.pdnsMock [examples.zoneExample])
    [examples.ep "b.example.com" "A" 0 ["2.2.2.2"];
     examples.ep "a.example.com" "A" 0 ["1.1.1.1"]] PdnsReplace []
  = ConvertEndpointsToZones examples.ensureTrailingDot
      (examples.pdnsMock [examples.zoneExample])
      [examples.ep "a.example.com" "A" 0 ["1.1.1.1"];
       examples.ep "b.example.com" "A" 0 ["2.2.2.2"]] PdnsReplace [] /\
  mutateRecords examples.ensureTrailingDot (examples.pdnsMock [examples.zoneExample])
    [examples.ep "b.example.com" "A" 0 ["2.2.2.2"];
     examples.ep "a.example.com" "A" 0 ["1.1.1.1"]] PdnsReplace []
  = mutateRecords examples.ensureTrailingDot (examples.pdnsMock [examples.zoneExample])
      [examples.ep "a.example.com" "A" 0 ["1.1.1.1"];
       examples.ep "b.example.com" "A" 0 ["2.2.2.2"]] PdnsReplace [].
Proof.
  apply (pdns_conversion_ignores_the_order examples.ensureTrailingDot
           (examples.pdnsMock [examples.zoneExample])).
  - apply perm_swap.
  - repeat constructor; simpl; intuition discriminate.
Defined.

End pdns_order.

(** ** Splitting and joining *)

Module strings_split.

Local Open Scope list_scope.

Lemma append_nil_r (s : string) : (s ++ "")%string = s.
Proof.
  induction s as [|c s IH]; [reflexivity|].
  change (String c (s ++ "") = String c s)%string. now rewrite IH.
Qed.

Lemma append_assoc (a b c : string) : ((a ++ b) ++ c = a ++ b ++ c)%string.
Proof.
  induction a as [|x a IH]; [reflexivity|].
  change (String x ((a ++ b) ++ c) = String x (a ++ b ++ c))%string.
  now rewrite IH.
Qed.

Lemma substring_prefix (a b : string) :
  substring 0 (String.length a) (a ++ b)%string = a.
Proof. induction a as [|c a IH]; simpl; [now destruct b|now rewrite IH]. Qed.

Lemma TrimSuffix_appended (s suffix : string) :
  strings.TrimSuffix (s ++ suffix) suffix = s.
Proof.
  unfold strings.TrimSuffix.
  assert (H : strings.HasSuffix (s ++ suffix) suffix = true)
    by (apply strings_facts.HasSuffix_iff; now exists s).
  rewrite H, strings_facts.length_append.
  replace (String.length s + String.length suffix - String.length suffix)%nat
    with (String.length s) by lia.
  apply substring_prefix.
Qed.

Lemma TrimPrefix_prepended (pre s : string) :
  strings.TrimPrefix (pre ++ s) pre = s.
Proof.
  unfold strings.TrimPrefix, strings.HasPrefix.
  assert (H : String.prefix pre (pre ++ s) = true)
    by (apply prefix_correct, substring_prefix).
  rewrite H, strings_facts.length_append.
  replace (String.length pre + String.length s - String.length pre)%nat
    with (String.length s) by lia.
  apply strings_facts.substring_after.
Qed.

Section Separator.

Variable sep : ascii.

Lemma Split_go_cur (s : string) : forall cur,
  exists h t, strings.Split_go sep "" s = h :: t /\
              strings.Split_go sep cur s = (cur ++ h)%string :: t.
Proof.
  induction s as [|c rest IH]; intros cur; simpl.
  - exists "", []. now rewrite append_nil_r.
  - destruct (Ascii.eqb c sep).
    + exists "", (strings.Split_go sep "" rest). now rewrite append_nil_r.
    + destruct (IH (String c "")) as (h & t & H0 & H1).
      destruct (IH (cur ++ String c "")%string) as (h' & t' & H0' & H1').
      rewrite H0 in H0'. injection H0' as <- <-.
      exists (String c h), t. split; [exact H1|].
      rewrite H1'. now rewrite append_assoc.
Qed.

(** [strings.Split] by cases on the first byte. *)
Lemma Split_cons (c : ascii) (rest : string) :
  strings.Split (String c rest) sep =
  if Ascii.eqb c sep then "" :: strings.Split rest sep
  else match strings.Split rest sep with
       | h :: t => String c h :: t
       | [] => []
       end.
Proof.
  unfold strings.Split. simpl. destruct (Ascii.eqb c sep); [reflexivity|].
  change ("" ++ String c "")%string with (String c "").
  destruct (Split_go_cur rest (String c "")) as (h & t & H0 & H1).
  now rewrite H0, H1.
Qed.

Lemma Split_nonempty (s : string) : strings.Split s sep <> [].
Proof.
  unfold strings.Split. destruct (Split_go_cur s "") as (h & t & H0 & _).
  now rewrite H0.
Qed.

Lemma Join_Split (s : string) :
  strings.Join (strings.Split s sep) (String sep "") = s.
Proof.
  induction s as [|c rest IH]; [reflexivity|].
  rewrite Split_cons.
  destruct (Ascii.eqb_spec c sep) as [->|Hne].
  - pose proof (Split_nonempty rest) as Hn.
    destruct (strings.Split rest sep) as [|h t]; [contradiction|].
    change (String sep (strings.Join (h :: t) (String sep "")) = String sep rest).
    now rewrite IH.
  - pose proof (Split_nonempty rest) as Hn.
    destruct (strings.Split rest sep) as [|h [|h2 t]]; [contradiction| |].
    + simpl in IH |- *. now rewrite IH.
    + change (String c (strings.Join (h :: h2 :: t) (String sep "")) = String c rest).
      now rewrite IH.
Qed.

Lemma Split_length (s : string) :
  length (strings.Split s sep) = S (strings.Count s sep).
Proof.
  induction s as [|c rest IH]; [reflexivity|].
  rewrite Split_cons. simpl.
  destruct (Ascii.eqb c sep); simpl; [now rewrite IH|].
  pose proof (Split_nonempty rest) as Hn.
  destruct (strings.Split rest sep) as [|h t]; [contradiction|]. exact IH.
Qed.

Lemma Split_append (a b : string) :
  strings.Split (a ++ String sep b) sep = strings.Split a sep ++ strings.Split b sep.
Proof.
  induction a as [|c a IH].
  - change (strings.Split (String sep b) sep = "" :: strings.Split b sep).
    rewrite Split_cons. now rewrite Ascii.eqb_refl.
  - change (strings.Split (String c (a ++ String sep b)) sep
            = strings.Split (String c a) sep ++ strings.Split b sep).
    rewrite !Split_cons, IH.
    destruct (Ascii.eqb c sep); [reflexivity|].
    pose proof (Split_nonempty a) as Hn.
    now destruct (strings.Split a sep) as [|h t].
Qed.

Lemma Split_whole (s : string) :
  strings.Count s sep = 0%nat -> strings.Split s sep = [s].
Proof.
  induction s as [|c rest IH]; [reflexivity|].
  simpl. rewrite Split_cons.
  destruct (Ascii.eqb c sep); [discriminate|].
  simpl. intros H. now rewrite (IH H).
Qed.

Lemma Split_Join (parts : list string) :
  parts <> [] ->
  Forall (fun p => strings.Count p sep = 0%nat) parts ->
  strings.Split (strings.Join parts (String sep "")) sep = parts.
Proof.
  induction parts as [|x [|y rest] IH]; intros Hne Hall; [contradiction| |].
  - inversion Hall; subst. now apply Split_whole.
  - inversion Hall as [|? ? Hx Hrest]; subst.
    change (strings.Split (x ++ String sep (strings.Join (y :: rest) (String sep ""))) sep
            = x :: y :: rest).
    rewrite Split_append, (Split_whole x Hx), IH; [reflexivity|discriminate|exact Hrest].
Qed.

(** The pieces of a string without the byte [d] are without it. *)
Lemma Split_without (d : ascii) (s : string) :
  strings.Count s d = 0%nat ->
  Forall (fun p => strings.Count p d = 0%nat) (strings.Split s sep).
Proof.
  induction s as [|c rest IH]; [repeat constructor|].
  simpl. intros H. rewrite Split_cons.
  destruct (Ascii.eqb c d) eqn:Hcd; [discriminate|]. simpl in H.
  specialize (IH H).
  destruct (Ascii.eqb c sep); [constructor; [reflexivity|exact IH]|].
  destruct (strings.Split rest sep) as [|h t]; [constructor|].
  inversion IH; subst. constructor; [|assumption].
  simpl. now rewrite Hcd.
Qed.

End Separator.

End strings_split.

(** ** Azure Private DNS: record sets, names and the grouping of the changes *)

Module azure_records.

Import endpoint go azure tracing strings_split.

Local Open Scope list_scope.

Lemma derefAll_built {X Y} (field : Y -> option X) (build : X -> Y) (l : list X) :
  (forall x, field (build x) = Some x) ->
  derefAll (map field (map build l)) = returns l.
Proof.
  intros H. induction l as [|x l IH]; simpl; [reflexivity|]. now rewrite H, IH.
Qed.

Section RecordSets.

Variable parseMxTarget : string -> error + MxRecord.
Variable defaultTTL : Z.
Variable TTL_IsConfigured : Z -> bool.

Abbreviation newRecordSetOf := (newRecordSet parseMxTarget defaultTTL TTL_IsConfigured).

(** X11. The targets of an endpoint are read back from the record set built
    for it: all of them for an A or AAAA endpoint, the first one only for
    a CNAME or TXT endpoint, whose further targets are not written. *)
Theorem azure_record_set_targets_read_back (e : Endpoint) (rs : RecordSet) :
  newRecordSetOf e = returns (inr rs) ->
  RecordType e <> "MX" ->
  extractAzurePrivateDNSTargets rs =
  returns (if String.eqb (RecordType e) "CNAME" || String.eqb (RecordType e) "TXT"
           then take 1 (Targets e) else Targets e).
Proof.
  unfold newRecordSet. intros H Hmx.
  destruct (String.eqb_spec (RecordType e) "A") as [Ha|_].
  { injection H as <-. rewrite Ha. simpl.
    destruct (Targets e) as [|t ts]; [reflexivity|].
    unfold extractAzurePrivateDNSTargets. cbn -[derefAll map].
    rewrite derefAll_built by reflexivity. reflexivity. }
  destruct (String.eqb_spec (RecordType e) "AAAA") as [Ha|_].
  { injection H as <-. rewrite Ha. simpl.
    destruct (Targets e) as [|t ts]; [reflexivity|].
    unfold extractAzurePrivateDNSTargets. cbn -[derefAll map].
    rewrite derefAll_built by reflexivity. reflexivity. }
  destruct (String.eqb_spec (RecordType e) "CNAME") as [Ha|_].
  { destruct (Targets e) as [|t ts]; [discriminate|].
    injection H as <-. reflexivity. }
  destruct (String.eqb_spec (RecordType e) "MX") as [Ha|_]; [contradiction|].
  destruct (String.eqb_spec (RecordType e) "TXT") as [Ha|_]; [|discriminate].
  destruct (Targets e) as [|t ts]; [discriminate|].
  injection H as <-. reflexivity.
Qed.

End RecordSets.

Lemma azure_record_set_targets_read_back_witness :
  extractAzurePrivateDNSTargets
    (mkRecordSet None None
       (Some (mkRecordSetProperties (Some 300) [] []
                (Some (mkCnameRecord (Some "a.example.net"))) [] [])))
  = returns ["a.example.net"].
Proof.
  apply (azure_record_set_targets_read_back examples.parseMx 300 examples.ttlIsConfigured
           (examples.ep "www.example.com" "CNAME" 0 ["a.example.net"; "b.example.net"])).
  - reflexivity.
  - discriminate.
Defined.

(** X12. The record set name of an endpoint in a zone is its name relative
    to the zone: [@] for the zone's own name, the part before [.zone] for a
    name below it; it is never the empty string, and the call panics
    exactly when the zone name is longer than the endpoint's name (the
    slice bound is then negative). *)
Theorem azure_record_set_name_is_relative (zone : string) (e : Endpoint) :
  (recordSetNameForZone zone e = panics <->
   (String.length (DNSName e) < String.length zone)%nat) /\
  recordSetNameForZone zone e <> returns "" /\
  (DNSName e = zone -> recordSetNameForZone zone e = returns "@") /\
  (forall rel, rel <> "" -> DNSName e = (rel ++ "." ++ zone)%string ->
     recordSetNameForZone zone e = returns rel).
Proof.
  unfold recordSetNameForZone. repeat split.
  - destruct (Nat.ltb_spec (String.length (DNSName e)) (String.length zone)) as [Hlt|Hge];
      [lia|].
    destruct (String.eqb _ ""); discriminate.
  - intros Hlt. apply Nat.ltb_lt in Hlt. now rewrite Hlt.
  - destruct (String.length (DNSName e) <? String.length zone)%nat; [discriminate|].
    destruct (String.eqb_spec
                (strings.TrimSuffix
                   (substring 0 (String.length (DNSName e) - String.length zone) (DNSName e))
                   ".") "") as [Heq|Hne]; [discriminate|].
    intros [= H]. contradiction.
  - intros ->. rewrite Nat.ltb_irrefl, Nat.sub_diag.
    now destruct zone.
  - intros rel Hrel ->.
    rewrite <- append_assoc, strings_facts.length_append.
    destruct (Nat.ltb_spec (String.length (rel ++ ".") + String.length zone)
                (String.length zone)) as [Hlt|_]; [lia|].
    replace (String.length (rel ++ ".") + String.length zone - String.length zone)%nat
      with (String.length (rel ++ ".")) by lia.
    rewrite substring_prefix, TrimSuffix_appended.
    destruct (String.eqb_spec rel "") as [Heq|_]; [contradiction|reflexivity].
Qed.

Lemma azure_record_set_name_is_relative_witness :
  recordSetNameForZone "example.com" (examples.ep "www.example.com" "A" 0 ["1.2.3.4"])
    = returns "www" /\
  recordSetNameForZone "example.com" (examples.ep "example.com" "A" 0 ["1.2.3.4"])
    = returns "@".
Proof.
  split.
  - apply (proj2 (proj2 (proj2 (azure_record_set_name_is_relative "example.com"
             (examples.ep "www.example.com" "A" 0 ["1.2.3.4"]))))).
    + discriminate.
    + reflexivity.
  - apply (proj1 (proj2 (proj2 (azure_record_set_name_is_relative "example.com"
             (examples.ep "example.com" "A" 0 ["1.2.3.4"]))))).
    reflexivity.
Defined.

Section Grouping.

Variable FindZone : gmap string string -> string -> string * string.

Abbreviation routesTo := (invariants.routesTo FindZone).

Lemma fold_mapChange_lookup mapper (changes : list Endpoint) :
  forall (m : gmap string (list Endpoint)) zone,
  zone <> "" ->
  default [] (fold_left (mapChange FindZone mapper) changes m !! zone)
  = default [] (m !! zone) ++ List.filter (routesTo mapper zone) changes.
Proof.
  induction changes as [|change rest IH]; intros m zone Hzone; simpl.
  - now rewrite app_nil_r.
  - rewrite IH by exact Hzone. unfold mapChange, invariants.routesTo.
    destruct (String.eqb_spec (fst (FindZone mapper (DNSName change))) "") as [Hnone|Hsome].
    + rewrite Hnone.
      destruct (String.eqb_spec "" zone) as [Heq|_]; [congruence|reflexivity].
    + destruct (String.eqb_spec (fst (FindZone mapper (DNSName change))) zone) as [->|Hne].
      * rewrite lookup_insert_eq. simpl. now rewrite <- app_assoc.
      * now rewrite lookup_insert_ne.
Qed.

Lemma fold_mapChange_nonempty mapper (changes : list Endpoint) :
  forall (m : gmap string (list Endpoint)),
  (forall zone eps, m !! zone = Some eps -> zone <> "" /\ eps <> []) ->
  forall zone eps,
    fold_left (mapChange FindZone mapper) changes m !! zone = Some eps ->
    zone <> "" /\ eps <> [].
Proof.
  induction changes as [|change rest IH]; intros m Hm; simpl; [exact Hm|].
  apply IH. intros zone eps. unfold mapChange.
  destruct (String.eqb_spec (fst (FindZone mapper (DNSName change))) "") as [_|Hsome];
    [apply Hm|].
  destruct (String.eqb_spec (fst (FindZone mapper (DNSName change))) zone) as [<-|Hne].
  - rewrite lookup_insert_eq. intros [= <-]. split; [exact Hsome|].
    now destruct (default [] _).
  - rewrite lookup_insert_ne by exact Hne. apply Hm.
Qed.

(** X13. mapChanges groups the changes by the zone that their name finds,
    and loses none that finds one: under a zone the deletions are the
    deleted endpoints of that zone, in their order, and the updates are
    its created endpoints followed by the new sides of its updates; no
    group is empty and none is filed under the empty zone name. *)
Theorem azure_changes_are_grouped_by_zone (zs : list PrivateZone)
    (changes : plan.Changes Endpoint) :
  let mapper := zoneNameIDMapper zs ∅ in
  let deleted := fst (mapChanges FindZone zs changes) in
  let updated := snd (mapChanges FindZone zs changes) in
  (forall zone, zone <> "" ->
     default [] (deleted !! zone)
       = List.filter (routesTo mapper zone) (plan.Delete changes) /\
     default [] (updated !! zone)
       = List.filter (routesTo mapper zone)
           (plan.Create changes ++ plan.UpdateNew changes)) /\
  (forall zone eps, deleted !! zone = Some eps \/ updated !! zone = Some eps ->
     zone <> "" /\ eps <> []).
Proof.
  intros mapper deleted updated. split.
  - intros zone Hzone. subst deleted updated. unfold mapChanges. simpl. fold mapper.
    rewrite !fold_mapChange_lookup by exact Hzone.
    rewrite lookup_empty. simpl. split; [reflexivity|].
    now rewrite List.filter_app.
  - intros zone eps. subst deleted updated. unfold mapChanges. simpl. fold mapper.
    assert (Hempty : forall zone (eps : list Endpoint),
              (∅ : gmap string (list Endpoint)) !! zone = Some eps ->
              zone <> "" /\ eps <> []).
    { intros z l H. rewrite lookup_empty in H. discriminate. }
    intros [H|H].
    + exact (fold_mapChange_nonempty mapper _ ∅ Hempty zone eps H).
    + refine (fold_mapChange_nonempty mapper _ _ _ zone eps H).
      apply fold_mapChange_nonempty. exact Hempty.
Qed.

End Grouping.

Lemma azure_changes_are_grouped_by_zone_witness :
  default [] (fst (mapChanges longestZone examples.azureZones examples.sampleChanges)
              !! "example.com")
    = List.filter
        (invariants.routesTo longestZone (zoneNameIDMapper examples.azureZones ∅)
           "example.com")
        (plan.Delete examples.sampleChanges) /\
  default [] (snd (mapChanges longestZone examples.azureZones examples.sampleChanges)
              !! "example.com")
    = List.filter
        (invariants.routesTo longestZone (zoneNameIDMapper examples.azureZones ∅)
           "example.com")
        (plan.Create examples.sampleChanges ++ plan.UpdateNew examples.sampleChanges).
Proof.
  apply (proj1 (azure_changes_are_grouped_by_zone longestZone examples.azureZones
                  examples.sampleChanges)).
  discriminate.
Defined.

End azure_records.

(** ** Azure Private DNS: the calls issued, and the zones listed *)

Module azure_calls.

Import endpoint go azure tracing.
Import go_facts.

Local Open Scope list_scope.

Section Trace.

Context {B : Type}.
Variable domainFilter_Match : string -> bool.
Variable zoneNameFilter_Match : string -> bool.
Variable zoneNameFilter_Filters : list string.
Variable zoneIDFilter_Match : string -> bool.
Variable FindZone : gmap string string -> string -> string * string.
Variable parseMxTarget : string -> error + MxRecord.
Variable defaultTTL : Z.
Variable TTL_IsConfigured : Z -> bool.
Variable rangeMap : gmap string (list Endpoint) -> list (string * list Endpoint).
Variable dryRun : bool.
Variable resourceGroup : string.
Variable zonesClient_pages : list (error + list PrivateZone).
Variable c : PrivateRecordSetsClient B.

Abbreviation St := (State (B * list AzureCall)).
Abbreviation logOf := (@invariants.logOf B).
Abbreviation grewBy := (@invariants.grewBy B).
Abbreviation proper := (properCall resourceGroup).

Lemma recordSetNameForZone_named zone (e : Endpoint) name :
  recordSetNameForZone zone e = returns name -> String.eqb name "" = false.
Proof.
  unfold recordSetNameForZone.
  destruct (String.length (DNSName e) <? String.length zone)%nat; [discriminate|].
  destruct (String.eqb_spec
              (strings.TrimSuffix
                 (substring 0 (String.length (DNSName e) - String.length zone) (DNSName e))
                 ".") "") as [Heq|Hne]; intros [= <-]; [reflexivity|].
  now apply String.eqb_neq.
Qed.

Lemma newRecordSet_supported (e : Endpoint) recordSet :
  newRecordSet parseMxTarget defaultTTL TTL_IsConfigured e = returns (inr recordSet) ->
  supportedType (RecordType e) = true /\ hasTTL recordSet = true.
Proof.
  intros H. split.
  - unfold newRecordSet in H. unfold supportedType.
    destruct (String.eqb (RecordType e) "A"); [reflexivity|].
    destruct (String.eqb (RecordType e) "AAAA"); [reflexivity|].
    destruct (String.eqb (RecordType e) "CNAME"); [reflexivity|].
    destruct (String.eqb (RecordType e) "MX"); [reflexivity|].
    destruct (String.eqb (RecordType e) "TXT"); [reflexivity|discriminate].
  - apply providers_spec.newRecordSet_ttl in H as (props & Hp & Ht).
    unfold hasTTL. now rewrite Hp, Ht.
Qed.

Lemma deleteRecord_proper zone e :
  invariants.preserves (grewBy proper)
    (deleteRecord domainFilter_Match dryRun resourceGroup (azureTraced c) zone e).
Proof.
  intros s. unfold deleteRecord.
  destruct (recordSetNameForZone zone e) as [name|] eqn:Hname;
    [|apply azure_facts.grewBy_refl].
  destruct (negb _); [apply azure_facts.grewBy_refl|].
  destruct dryRun; [apply azure_facts.grewBy_refl|].
  unfold bind, liftB, ret. simpl.
  destruct (Delete c _ _ _ _ _) as [err b']. simpl.
  exists [CallDelete resourceGroup zone (RecordType e) name].
  split; [reflexivity|]. repeat constructor. simpl.
  now rewrite String.eqb_refl, (recordSetNameForZone_named _ _ _ Hname).
Qed.

Lemma updateRecord_proper zone e :
  invariants.preserves (grewBy proper)
    (updateRecord domainFilter_Match parseMxTarget defaultTTL TTL_IsConfigured
       dryRun resourceGroup (azureTraced c) zone e).
Proof.
  intros s. unfold updateRecord.
  destruct (recordSetNameForZone zone e) as [name|] eqn:Hname;
    [|apply azure_facts.grewBy_refl].
  destruct (negb _); [apply azure_facts.grewBy_refl|].
  destruct dryRun; [apply azure_facts.grewBy_refl|].
  destruct (newRecordSet _ _ _ _) as [[err|recordSet]|] eqn:Hnew;
    try apply azure_facts.grewBy_refl.
  unfold bind, liftB, ret. simpl.
  destruct (CreateOrUpdate c _ _ _ _ _ _) as [err b']. simpl.
  exists [CallCreateOrUpdate resourceGroup zone (RecordType e) name recordSet].
  split; [reflexivity|]. repeat constructor. simpl.
  destruct (newRecordSet_supported _ _ Hnew) as [-> ->].
  now rewrite String.eqb_refl, (recordSetNameForZone_named _ _ _ Hname).
Qed.

(** X14. Every call that ApplyChanges issues is made in the resource group
    of the provider on a relative record set name that is not empty, and
    every CreateOrUpdate is of one of the record types A, AAAA, CNAME, MX
    and TXT and carries a record set with a TTL: an endpoint of another
    type, or whose MX target does not parse, causes no call. *)
Theorem azure_calls_are_well_formed now changes (s : St) :
  exists calls,
    logOf (snd (ApplyChanges domainFilter_Match zoneNameFilter_Match
                  zoneNameFilter_Filters zoneIDFilter_Match FindZone parseMxTarget
                  defaultTTL TTL_IsConfigured rangeMap dryRun resourceGroup
                  zonesClient_pages (azureTraced c) now changes s))
    = logOf s ++ calls /\
    Forall (fun call => proper call = true) calls.
Proof.
  assert (Hrefl : forall s : St, grewBy proper s s) by apply azure_facts.grewBy_refl.
  assert (Htrans : forall s1 s2 s3 : St,
            grewBy proper s1 s2 -> grewBy proper s2 s3 -> grewBy proper s1 s3)
    by apply azure_facts.grewBy_trans.
  assert (Hloop : forall (body : string -> Endpoint -> M St unit) m,
            (forall zone e, invariants.preserves (grewBy proper) (body zone e)) ->
            invariants.preserves (grewBy proper)
              (forEach (fun '(zone, endpoints) => forEach (body zone) endpoints)
                       (rangeMap m))).
  { intros body m Hbody. apply preserves_forEach; [exact Hrefl|exact Htrans|].
    intros [zone eps] _. apply preserves_forEach; [exact Hrefl|exact Htrans|].
    intros e _. apply Hbody. }
  unfold ApplyChanges.
  apply (preserves_bind _ Htrans).
  - intros s0. exists []. split; [|constructor].
    unfold invariants.logOf.
    now rewrite azure_facts.zones_backend, app_nil_r.
  - intros [err|zs]; [apply (preserves_ret _ Hrefl)|].
    destruct (mapChanges FindZone zs changes) as [deleted updated].
    apply (preserves_bind _ Htrans).
    + apply (Hloop (deleteRecord domainFilter_Match dryRun resourceGroup (azureTraced c))).
      apply deleteRecord_proper.
    + intros _. apply (preserves_bind _ Htrans).
      * apply (Hloop (updateRecord domainFilter_Match parseMxTarget defaultTTL
                        TTL_IsConfigured dryRun resourceGroup (azureTraced c))).
        apply updateRecord_proper.
      * intros _. apply (preserves_ret _ Hrefl).
Qed.

End Trace.

End azure_calls.

(** ** Azure Private DNS: the zones listed and the records read *)

Module azure_zones.

Import endpoint go azure.

Local Open Scope list_scope.

Section Zones.

Context {B : Type}.
Variable domainFilter_Match : string -> bool.
Variable zoneNameFilter_Match : string -> bool.
Variable zoneNameFilter_Filters : list string.
Variable zoneIDFilter_Match : string -> bool.
Variable formatAzureDNSName : string -> string -> string.
Variable resourceGroup : string.
Variable zonesClient_pages : list (error + list PrivateZone).
Variable recordSetsClient : PrivateRecordSetsClient B.

Abbreviation accepts :=
  (invariants.acceptsZone domainFilter_Match zoneNameFilter_Match zoneNameFilter_Filters
     zoneIDFilter_Match).
Abbreviation zonesPage :=
  (zones_page domainFilter_Match zoneNameFilter_Match zoneNameFilter_Filters
     zoneIDFilter_Match).
Abbreviation zonesPages :=
  (zones_pages domainFilter_Match zoneNameFilter_Match zoneNameFilter_Filters
     zoneIDFilter_Match).
Abbreviation zonesOf pages :=
  (@zones B domainFilter_Match zoneNameFilter_Match zoneNameFilter_Filters
     zoneIDFilter_Match pages).


Lemma zones_page_filter (page : list PrivateZone) : forall zones,
  Forall invariants.identified page ->
  zonesPage page zones = returns (zones ++ List.filter accepts page).
Proof.
  induction page as [|zone rest IH]; intros zones Hid; simpl.
  - now rewrite app_nil_r.
  - inversion Hid as [|? ? [Hname Hident] Hrest]; subst.
    unfold invariants.acceptsZone.
    destruct (PrivateZone_Name zone) as [name|]; [|contradiction].
    destruct (PrivateZone_ID zone) as [id|]; [|contradiction].
    destruct (domainFilter_Match name); simpl.
    + destruct (zoneIDFilter_Match id); simpl.
      * rewrite IH by exact Hrest. now rewrite <- app_assoc.
      * destruct ((0 <? length zoneNameFilter_Filters)%nat && zoneNameFilter_Match name);
          rewrite IH by exact Hrest; [now rewrite <- app_assoc|reflexivity].
    + destruct ((0 <? length zoneNameFilter_Filters)%nat && zoneNameFilter_Match name);
        rewrite IH by exact Hrest; [now rewrite <- app_assoc|reflexivity].
Qed.

Lemma zones_pages_filter (pages : list (list PrivateZone)) : forall zones,
  Forall (Forall invariants.identified) pages ->
  zonesPages (map inr pages) zones
  = returns (inr (zones ++ List.filter accepts (concat pages))).
Proof.
  induction pages as [|page rest IH]; intros zones Hid; simpl.
  - now rewrite app_nil_r.
  - inversion Hid as [|? ? Hpage Hrest]; subst.
    rewrite zones_page_filter by exact Hpage.
    rewrite IH by exact Hrest. now rewrite List.filter_app, app_assoc.
Qed.

(** X15. When the cache has expired and every page is fetched, zones
    returns, in the order of the pages, exactly the zones that pass the
    domain filter and the zone id filter, or that pass the zone name filter
    when zone name filters are set; it stores them in the cache and leaves
    the backend alone. *)
Theorem azure_zones_are_the_accepted_ones (pages : list (list PrivateZone)) now
    (s : State B) :
  zonesCache_Expired now (cache s) = true ->
  Forall (Forall invariants.identified) pages ->
  zonesOf (map inr pages) now s =
  (returns (inr (List.filter accepts (concat pages))),
   mkState (zonesCache_Reset now (List.filter accepts (concat pages)) (cache s))
           (backend s)).
Proof.
  intros Hexp Hid. unfold zones, bind, get. rewrite Hexp. simpl.
  now rewrite zones_pages_filter.
Qed.

Lemma zones_page_unnamed (page : list PrivateZone) : forall zones zone,
  In zone page -> PrivateZone_Name zone = None -> zonesPage page zones = panics.
Proof.
  induction page as [|z rest IH]; intros zones zone Hin Hnone; [contradiction|].
  simpl. destruct Hin as [->|Hin]; [now rewrite Hnone|].
  destruct (PrivateZone_Name z) as [name|]; [|reflexivity].
  destruct (domainFilter_Match name).
  - destruct (PrivateZone_ID z) as [id|]; [|reflexivity].
    destruct (zoneIDFilter_Match id); [now apply (IH _ zone)|].
    destruct (_ && _); now apply (IH _ zone).
  - destruct (_ && _); now apply (IH _ zone).
Qed.

Lemma zones_pages_unnamed (before : list (list PrivateZone)) : forall zones page rest zone,
  In zone page -> PrivateZone_Name zone = None ->
  zonesPages (map inr before ++ inr page :: rest) zones = panics.
Proof.
  induction before as [|p before IH]; intros zones page rest zone Hin Hnone; simpl.
  - now rewrite (zones_page_unnamed page zones zone Hin Hnone).
  - destruct (zonesPage p zones) as [zones'|]; [|reflexivity].
    now apply (IH zones' page rest zone).
Qed.

(** X16. A zone without a name on a fetched page makes zones panic: the
    name is dereferenced for the debug message ([*zone.Name]) before it is
    tested against nil.  Nothing is cached then. *)
Theorem azure_zones_panic_on_an_unnamed_zone (before : list (list PrivateZone))
    (page : list PrivateZone) (rest : list (error + list PrivateZone))
    (zone : PrivateZone) now (s : State B) :
  zonesCache_Expired now (cache s) = true ->
  In zone page -> PrivateZone_Name zone = None ->
  zonesOf (map inr before ++ inr page :: rest) now s = (panics, s).
Proof.
  intros Hexp Hin Hnone. unfold zones, bind, get. rewrite Hexp. simpl.
  now rewrite (zones_pages_unnamed before [] page rest zone Hin Hnone).
Qed.

Abbreviation recordOf := (recordSetEndpoint domainFilter_Match zoneNameFilter_Filters
                            formatAzureDNSName).
Abbreviation recordsPage := (records_page domainFilter_Match zoneNameFilter_Filters
                               formatAzureDNSName).
Abbreviation recordsPages := (records_pages domainFilter_Match zoneNameFilter_Filters
                                formatAzureDNSName).
Abbreviation recordsZones := (records_zones domainFilter_Match zoneNameFilter_Filters
                                formatAzureDNSName resourceGroup recordSetsClient).


Lemma recordSetEndpoint_targeted zoneName recordSet e :
  recordOf zoneName recordSet = returns (Some e) -> invariants.targeted e.
Proof.
  unfold recordSetEndpoint.
  destruct (RecordSet_Type recordSet) as [type|]; [|discriminate].
  destruct (RecordSet_Name recordSet) as [name|]; [|discriminate].
  destruct (_ && _); [discriminate|].
  destruct (extractAzurePrivateDNSTargets recordSet) as [[|t ts]|]; try discriminate.
  destruct (RecordSet_Properties recordSet) as [props|]; [|discriminate].
  intros [= <-]. discriminate.
Qed.

Lemma records_page_targeted zoneName page : forall eps eps',
  Forall invariants.targeted eps -> recordsPage zoneName page eps = returns eps' ->
  Forall invariants.targeted eps'.
Proof.
  induction page as [|rs rest IH]; intros eps eps' Hall; simpl.
  - now intros [= <-].
  - destruct (recordOf zoneName rs) as [[e|]|] eqn:He; [| |discriminate].
    + apply IH. apply Forall_app. split; [exact Hall|].
      repeat constructor. now apply (recordSetEndpoint_targeted zoneName rs).
    + now apply IH.
Qed.

Lemma records_pages_targeted zoneName pages : forall eps eps',
  Forall invariants.targeted eps -> recordsPages zoneName pages eps = returns (inr eps') ->
  Forall invariants.targeted eps'.
Proof.
  induction pages as [|[err|page] rest IH]; intros eps eps' Hall; simpl.
  - now intros [= <-].
  - discriminate.
  - destruct (recordsPage zoneName page eps) as [eps1|] eqn:Hp; [|discriminate].
    apply IH. now apply (records_page_targeted zoneName page eps).
Qed.

Lemma records_zones_targeted b zs : forall eps eps',
  Forall invariants.targeted eps -> recordsZones b zs eps = returns (inr eps') ->
  Forall invariants.targeted eps'.
Proof.
  induction zs as [|z rest IH]; intros eps eps' Hall; simpl.
  - now intros [= <-].
  - destruct (PrivateZone_Name z) as [zoneName|]; [|discriminate].
    destruct (recordsPages zoneName _ eps) as [[err|eps1]|] eqn:Hp; try discriminate.
    apply IH. exact (records_pages_targeted zoneName _ eps eps1 Hall Hp).
Qed.

(** X17. Every endpoint that Records returns has at least one target: a
    record set from which no target can be extracted (no properties, or
    none of the A, AAAA, CNAME, MX and TXT records) is skipped, like one
    without a type or a name. *)
Theorem azure_records_have_targets now (s s' : State B) (eps : list Endpoint) :
  Records domainFilter_Match zoneNameFilter_Match zoneNameFilter_Filters
    zoneIDFilter_Match formatAzureDNSName resourceGroup zonesClient_pages
    recordSetsClient now s = (returns (inr eps), s') ->
  Forall (fun e => Targets e <> []) eps.
Proof.
  unfold Records, bind, get, ret.
  destruct (zones _ _ _ _ _ now s) as [[[err|zs]|] s1]; try discriminate.
  destruct (recordsZones (backend s1) zs []) as [[err|eps1]|] eqn:Hz; try discriminate.
  intros [= <- _]. now apply (records_zones_targeted (backend s1) zs []).
Qed.

End Zones.

Lemma azure_zones_are_the_accepted_ones_witness :
  zones (fun _ => true) (fun _ => true) [] (fun _ => true) (map inr [examples.azureZones])
    0 (examples.azureStart tt)
  = (returns (inr examples.azureZones),
     mkState (mkZonesCache 0 0 examples.azureZones) tt).
Proof.
  apply (azure_zones_are_the_accepted_ones (fun _ => true) (fun _ => true) []
           (fun _ => true) [examples.azureZones] 0 (examples.azureStart tt)).
  - reflexivity.
  - repeat constructor; discriminate.
Defined.

Lemma azure_zones_panic_on_an_unnamed_zone_witness :
  zones (fun _ => true) (fun _ => true) [] (fun _ => true)
    (map inr [examples.azureZones]
     ++ inr [mkPrivateZone (Some "/privateDnsZones/unnamed") None] :: [])
    0 (examples.azureStart tt)
  = (panics, examples.azureStart tt).
Proof.
  apply (azure_zones_panic_on_an_unnamed_zone (fun _ => true) (fun _ => true) []
           (fun _ => true) [examples.azureZones]
           [mkPrivateZone (Some "/privateDnsZones/unnamed") None] []
           (mkPrivateZone (Some "/privateDnsZones/unnamed") None) 0
           (examples.azureStart tt)).
  - reflexivity.
  - now left.
  - reflexivity.
Defined.

Lemma azure_records_have_targets_witness :
  Forall (fun e : Endpoint => Targets e <> [])
    [mkEndpoint "www.example.com" ["1.2.3.4"] "A" "" 300 ∅].
Proof.
  apply (azure_records_have_targets (fun _ => true) (fun _ => true) [] (fun _ => true)
           examples.formatName "rg" [inr examples.azureZones]
           (examples.azureMock [inr [examples.aRecordSet; emptyRecordSet]])
           0 (examples.azureStart tt)
           (mkState (mkZonesCache 0 0 examples.azureZones) tt)).
  reflexivity.
Defined.

End azure_zones.

(** ** CoreDNS: keys and names *)

Module coredns_keys.

Import endpoint go coredns.

Local Open Scope list_scope.

Lemma swap_ends (pre mid post : list string) (x y : string) :
  length post = length pre ->
  swap (length pre) (length (pre ++ x :: mid ++ y :: post) - length pre - 1)
       (pre ++ x :: mid ++ y :: post)
  = returns (pre ++ y :: mid ++ x :: post).
Proof.
  intros Hlen. unfold swap.
  assert (Hj : (length (pre ++ x :: mid ++ y :: post) - length pre - 1)%nat
               = length (pre ++ x :: mid)).
  { rewrite !length_app. simpl. rewrite !length_app. simpl. lia. }
  rewrite Hj.
  rewrite (list_lookup_middle pre (mid ++ y :: post) x (length pre) eq_refl).
  assert (Hy : (pre ++ x :: mid ++ y :: post) !! length (pre ++ x :: mid) = Some y).
  { replace (pre ++ x :: mid ++ y :: post) with ((pre ++ x :: mid) ++ y :: post)
      by (now rewrite <- app_assoc).
    now apply list_lookup_middle. }
  rewrite Hy. f_equal.
  rewrite (insert_app_r_alt pre) by lia. rewrite Nat.sub_diag. simpl.
  replace (pre ++ y :: mid ++ y :: post) with ((pre ++ y :: mid) ++ y :: post)
    by (now rewrite <- app_assoc).
  rewrite insert_app_r_alt by (rewrite !length_app; simpl; lia).
  replace (length (pre ++ x :: mid) - length (pre ++ y :: mid))%nat with 0%nat
    by (rewrite !length_app; simpl; lia).
  simpl. now rewrite <- app_assoc.
Qed.

Lemma reverse_loop_middle (n : nat) : forall (mid pre post : list string),
  length post = length pre -> n = (length mid / 2)%nat ->
  reverse_loop n (length pre) (pre ++ mid ++ post) = returns (pre ++ rev mid ++ post).
Proof.
  induction n as [|n IH]; intros mid pre post Hlen Hn.
  - assert (Hsmall : (length mid < 2)%nat) by (apply Nat.div_small_iff; lia).
    destruct mid as [|x [|y mid]]; simpl in Hsmall; [reflexivity|reflexivity|lia].
  - destruct mid as [|x mid]; [discriminate|].
    destruct (rev mid) as [|y dim] eqn:Hrev.
    { apply (f_equal (@rev string)) in Hrev. rewrite rev_involutive in Hrev.
      subst mid. discriminate. }
    assert (Hmid : mid = rev dim ++ [y]).
    { apply (f_equal (@rev string)) in Hrev. now rewrite rev_involutive in Hrev. }
    subst mid. clear Hrev.
    cbn [reverse_loop].
    replace (pre ++ (x :: rev dim ++ [y]) ++ post)
      with (pre ++ x :: rev dim ++ y :: post)
      by (simpl; now rewrite <- app_assoc).
    rewrite (swap_ends pre (rev dim) post x y Hlen).
    replace (pre ++ y :: rev dim ++ x :: post)
      with ((pre ++ [y]) ++ rev dim ++ ([x] ++ post))
      by (now rewrite <- app_assoc).
    replace (S (length pre)) with (length (pre ++ [y]))
      by (rewrite length_app; simpl; lia).
    rewrite IH.
    + simpl. rewrite rev_app_distr, rev_involutive. simpl.
      now rewrite <- !app_assoc.
    + rewrite !length_app. simpl. lia.
    + change (length (x :: rev dim ++ [y])) with (S (length (rev dim ++ [y]))) in Hn.
      rewrite length_app, length_rev in Hn. rewrite length_rev.
      change (length [y]) with 1%nat in Hn.
      replace (S (length dim + 1)) with (length dim + 1 * 2)%nat in Hn by lia.
      rewrite Nat.div_add in Hn by lia. lia.
Qed.

(** X18. reverse reverses: the swaps of the first half of the slice with
    its second half never leave the slice (no index is out of range) and
    leave it in the opposite order, the middle element of an odd length in
    its place. *)
Theorem coredns_reverse_reverses (slice : list string) :
  reverse slice = returns (rev slice).
Proof.
  unfold reverse.
  pose proof (reverse_loop_middle (length slice / 2) slice [] [] eq_refl eq_refl) as H.
  simpl in H. now rewrite !app_nil_r in H.
Qed.

End coredns_keys.

(** ** CoreDNS: a key is read back as the name it was made of *)

Module coredns_names.

Import endpoint go coredns strings_split.

Local Open Scope list_scope.

Lemma Count_append (a b : string) (c : ascii) :
  strings.Count (a ++ b) c = (strings.Count a c + strings.Count b c)%nat.
Proof.
  induction a as [|x a IH]; [reflexivity|].
  change (strings.Count (String x (a ++ b)) c
          = (strings.Count (String x a) c + strings.Count b c)%nat).
  simpl. rewrite IH. lia.
Qed.

Section Keys.

Context {B : Type}.
Variable domainFilter_Match : string -> bool.
Variable ParseIP : string -> bool.
Variable coreDNSPrefix : string.

(** The labels of a key under the prefix, most significant last, are the
    labels of the name it was made of. *)
Lemma key_domains (name : string) :
  strings.Count name "/" = 0%nat ->
  rev (strings.Split (strings.TrimPrefix (etcdKeyFor coreDNSPrefix name) coreDNSPrefix) "/")
  = strings.Split name ".".
Proof.
  intros Hslash. unfold etcdKeyFor. rewrite TrimPrefix_prepended.
  rewrite Split_Join.
  - apply rev_involutive.
  - intros Hnil. apply (f_equal (@rev string)) in Hnil.
    rewrite rev_involutive in Hnil. now apply Split_nonempty in Hnil.
  - apply Forall_rev. now apply Split_without.
Qed.

(** X19. A service stored under the key that createServicesForEndpoint
    builds for a target, [etcdKeyFor(prefix + "." + dnsName)] with
    TargetStrip one more than the dots of the prefix, is read back by the
    loop of Records as an endpoint of that very name: with the host as
    its target and the prefix kept in its labels, under [prefix] and under
    the host.  (Prefix and name hold no slash.) *)
Theorem coredns_key_reads_back (prefix dnsName host : string) (ttl : Z) (s : Store B) :
  strings.Count prefix "/" = 0%nat ->
  strings.Count dnsName "/" = 0%nat ->
  domainFilter_Match dnsName = true ->
  host <> "" ->
  recordsOfService domainFilter_Match ParseIP coreDNSPrefix
    (mkService host 0 0 0 "" false ttl (Z.of_nat (strings.Count prefix ".") + 1) ""
       (etcdKeyFor coreDNSPrefix (prefix ++ "." ++ dnsName))) [] s
  = (returns [length (objects s)],
     mkStore
       (objects s ++
        [mkEndpoint dnsName [host] (guessRecordType ParseIP host) "" ttl
           (length (labelMaps s))])
       (labelMaps s ++
        [<[host := prefix]> (<["prefix" := prefix]> (<["originalText" := ""]> ∅))])
       (drawn s) (etcd s)).
Proof.
  intros Hp Hd Hmatch Hhost. unfold recordsOfService.
  cbn [Key TargetStrip Host Text].
  assert (Hslash : strings.Count (prefix ++ "." ++ dnsName) "/" = 0%nat).
  { rewrite !Count_append, Hp, Hd. reflexivity. }
  rewrite (key_domains _ Hslash).
  change (prefix ++ "." ++ dnsName)%string with (prefix ++ String "." dnsName)%string.
  rewrite Split_append.
  assert (Hstrip : Z.to_nat (Z.of_nat (strings.Count prefix ".") + 1)
                   = length (strings.Split prefix ".")).
  { rewrite Split_length. lia. }
  rewrite Hstrip, drop_app_length, take_app_length, !Join_Split, Hmatch.
  destruct (Z.ltb_spec (Z.of_nat (strings.Count prefix ".") + 1) 0) as [Hneg|_]; [lia|].
  destruct (Z.ltb_spec
              (Z.of_nat (length (strings.Split prefix "." ++ strings.Split dnsName ".")))
              (Z.of_nat (strings.Count prefix ".") + 1)) as [Hlong|_].
  { rewrite length_app, !Split_length in Hlong. lia. }
  destruct (String.eqb_spec host "") as [Heq|_]; [contradiction|].
  cbn [negb orb].
  unfold bind, findEp, ret, newLabels, new, load, writeLabel, NewEndpointWithTTL. simpl.
  rewrite (list_lookup_middle (objects s) [] _ (length (objects s)) eq_refl). simpl.
  rewrite (list_lookup_middle (labelMaps s) [] _ (length (labelMaps s)) eq_refl). simpl.
  rewrite !(insert_app_r_alt (labelMaps s)) by lia. rewrite Nat.sub_diag. simpl.
  rewrite (list_lookup_middle (labelMaps s) [] _ (length (labelMaps s)) eq_refl). simpl.
  rewrite !(insert_app_r_alt (labelMaps s)) by lia. rewrite Nat.sub_diag. simpl.
  rewrite (list_lookup_middle (labelMaps s) [] _ (length (labelMaps s)) eq_refl). simpl.
  rewrite !(insert_app_r_alt (labelMaps s)) by lia. rewrite Nat.sub_diag. simpl.
  reflexivity.
Qed.

End Keys.

Lemma coredns_key_reads_back_witness :
  recordsOfService (fun _ => true) (fun _ => true) "/skydns/"
    (mkService "1.2.3.4" 0 0 0 "" false 30 1 "" "/skydns/com/example/www/0a1b2c3d")
    [] (mkStore [] [] 0%nat tt)
  = (returns [0%nat],
     mkStore [mkEndpoint "www.example.com" ["1.2.3.4"] "A" "" 30 0%nat]
       [<["1.2.3.4" := "0a1b2c3d"]>
          (<["prefix" := "0a1b2c3d"]> (<["originalText" := ""]> ∅))]
       0%nat tt).
Proof.
  apply (coredns_key_reads_back (fun _ => true) (fun _ => true) "/skydns/"
           "0a1b2c3d" "www.example.com" "1.2.3.4" 30 (mkStore [] [] 0%nat tt)).
  - reflexivity.
  - reflexivity.
  - reflexivity.
  - discriminate.
Defined.

End coredns_names.

(** ** CoreDNS: the services read from etcd *)

Module coredns_etcd.

Import endpoint go coredns.

Local Open Scope list_scope.

Section Client.

Variable Unmarshal : string -> error + Service.

Abbreviation loop := (GetServices_loop Unmarshal).

Abbreviation readAs := (invariants.readAs Unmarshal).

Lemma asRead_priority key svc : Priority (invariants.asRead key svc) <> 0.
Proof.
  unfold invariants.asRead.
  destruct (Z.eqb_spec (Priority (set_Key key svc)) 0) as [Hz|Hnz]; [discriminate|exact Hnz].
Qed.

Lemma asRead_key key svc : Key (invariants.asRead key svc) = key.
Proof.
  unfold invariants.asRead. now destruct (Priority (set_Key key svc) =? 0).
Qed.

Lemma loop_cons key value rest bx svcs :
  loop ((key, value) :: rest) bx svcs =
  match Unmarshal value with
  | inl err => inl (fmtErrorf "%s: %w" err)
  | inr decoded =>
      if bool_decide (seenAs decoded key ∈ bx) then loop rest bx svcs
      else loop rest (seenAs decoded key :: bx) (svcs ++ [invariants.asRead key decoded])
  end.
Proof. reflexivity. Qed.

Lemma loop_each (kvs : list (string * string)) : forall bx svcs,
  List.NoDup (map fst kvs) ->
  (forall b, b ∈ bx -> ~ In (Key b) (map fst kvs)) ->
  Forall (fun kv => exists decoded, Unmarshal (snd kv) = inr decoded) kvs ->
  exists out, loop kvs bx svcs = inr (svcs ++ out) /\ Forall2 readAs kvs out.
Proof.
  induction kvs as [|[key value] rest IH]; intros bx svcs Hnd Hbx Hdec.
  - exists []. split; [simpl; now rewrite app_nil_r|constructor].
  - inversion Hnd as [|? ? Hnin Hnd']; subst.
    inversion Hdec as [|? ? [decoded Hd] Hdec']; subst. simpl in Hd.
    rewrite loop_cons, Hd.
    rewrite bool_decide_eq_false_2.
    + destruct (IH (seenAs decoded key :: bx)
                  (svcs ++ [invariants.asRead key decoded]) Hnd') as (out & Hout & Hall).
      * intros b Hb Hin. apply elem_of_cons in Hb as [->|Hb].
        -- now apply Hnin.
        -- apply (Hbx b Hb). now right.
      * exact Hdec'.
      * exists (invariants.asRead key decoded :: out). split.
        -- rewrite Hout. now rewrite <- app_assoc.
        -- constructor; [|exact Hall]. exists decoded. auto.
    + intros Hb. apply (Hbx _ Hb). now left.
Qed.

Lemma loop_sound (kvs : list (string * string)) : forall bx svcs out,
  loop kvs bx svcs = inr out ->
  exists more, out = svcs ++ more /\
    (length more <= length kvs)%nat /\
    Forall (fun svc => Priority svc <> 0 /\ In (Key svc) (map fst kvs)) more.
Proof.
  induction kvs as [|[key value] rest IH]; intros bx svcs out.
  - simpl. intros [= <-]. exists []. rewrite app_nil_r.
    split; [reflexivity|]. split; [simpl; lia|constructor].
  - rewrite loop_cons.
    destruct (Unmarshal value) as [err|decoded]; [discriminate|].
    destruct (bool_decide _).
    + intros H. apply IH in H as (more & -> & Hlen & Hall).
      exists more. split; [reflexivity|]. split; [simpl; lia|].
      eapply Forall_impl; [exact Hall|]. intros svc [? ?]. simpl. auto.
    + intros H. apply IH in H as (more & -> & Hlen & Hall).
      exists (invariants.asRead key decoded :: more).
      split; [now rewrite <- app_assoc|]. split; [simpl; lia|].
      constructor.
      * split; [apply asRead_priority|]. left. now rewrite asRead_key.
      * eapply Forall_impl; [exact Hall|]. intros svc [? ?]. simpl. auto.
Qed.

End Client.

Section Get.

Context {E : Type}.
Variable client_Get : string -> E -> (error + list (string * string)) * E.
Variable client_Put : string -> string -> E -> option error * E.
Variable client_Delete : string -> E -> option error * E.
Variable Unmarshal : string -> error + Service.
Variable Marshal : Service -> error + string.

Abbreviation GetServicesOf :=
  (GetServices (etcdClient client_Get client_Put client_Delete Unmarshal Marshal)).

(** X20. GetServices never hands out a service with priority 0 (the
    default 10 takes its place), gives each service the key it was found
    under, and returns at most one service per key-value pair; when the
    keys are pairwise distinct and every value decodes, it returns exactly
    one service per pair, in the order of the pairs. *)
Theorem coredns_services_are_read_with_their_keys (prefix : string) (e e' : E)
    (kvs : list (string * string)) :
  client_Get prefix e = (inr kvs, e') ->
  (forall svcs, GetServicesOf prefix e = (inr svcs, e') ->
     (length svcs <= length kvs)%nat /\
     Forall (fun svc => Priority svc <> 0 /\ In (Key svc) (map fst kvs)) svcs) /\
  (List.NoDup (map fst kvs) ->
   Forall (fun kv => exists decoded, Unmarshal (snd kv) = inr decoded) kvs ->
   exists svcs, GetServicesOf prefix e = (inr svcs, e') /\
                Forall2 (invariants.readAs Unmarshal) kvs svcs).
Proof.
  intros Hget. simpl. unfold etcdClient_GetServices. rewrite Hget. split.
  - intros svcs [= H]. apply loop_sound in H as (more & -> & Hlen & Hall). auto.
  - intros Hnd Hdec.
    destruct (loop_each Unmarshal kvs [] [] Hnd) as (out & Hout & Hall);
      [intros b Hb; now apply elem_of_nil in Hb|exact Hdec|].
    exists out. now rewrite Hout.
Qed.

End Get.

Lemma coredns_services_are_read_with_their_keys_witness :
  (forall svcs,
     GetServices (etcdClient (fun _ (e : unit) => (inr examples.twoKeys, e))
                    (fun _ _ e => (None, e)) (fun _ e => (None, e))
                    examples.unmarshalHost (fun _ => inr ""))
       "/skydns/" tt = (inr svcs, tt) ->
     (length svcs <= 2)%nat /\
     Forall (fun svc => Priority svc <> 0 /\ In (Key svc) (map fst examples.twoKeys)) svcs) /\
  (List.NoDup (map fst examples.twoKeys) ->
   Forall (fun kv => exists decoded, examples.unmarshalHost (snd kv) = inr decoded)
          examples.twoKeys ->
   exists svcs,
     GetServices (etcdClient (fun _ (e : unit) => (inr examples.twoKeys, e))
                    (fun _ _ e => (None, e)) (fun _ e => (None, e))
                    examples.unmarshalHost (fun _ => inr ""))
       "/skydns/" tt = (inr svcs, tt) /\
     Forall2 (invariants.readAs examples.unmarshalHost) examples.twoKeys svcs).
Proof.
  apply (coredns_services_are_read_with_their_keys
           (fun _ (e : unit) => (inr examples.twoKeys, e))
           (fun _ _ e => (None, e)) (fun _ e => (None, e))
           examples.unmarshalHost (fun _ => inr "") "/skydns/" tt tt examples.twoKeys).
  reflexivity.
Defined.

End coredns_etcd.

(** ** CoreDNS: the TXT records of a group *)

Module coredns_txt.

Import endpoint go coredns.

Local Open Scope list_scope.

Lemma lookup_map {X Y} (f : X -> Y) (l : list X) : forall i,
  map f l !! i = f <$> (l !! i).
Proof. induction l as [|x l IH]; intros [|i]; simpl; auto. Qed.

Lemma set_Text_twice (a b : string) (svc : Service) :
  set_Text a (set_Text b svc) = set_Text a svc.
Proof. reflexivity. Qed.

Section TXT.

Context {B : Type}.
Variable randomPrefix : nat -> string.
Variable coreDNSPrefix : string.

Abbreviation setTXTOf := (@setTXT B randomPrefix coreDNSPrefix).
Abbreviation texts := (@invariants.txtTexts B).
Abbreviation same := (@invariants.sameMemory B).
Abbreviation ready := (@invariants.txtReady B).

Lemma same_refl (s : Store B) : same s s.
Proof. now repeat split. Qed.

Lemma same_trans (s1 s2 s3 : Store B) : same s1 s2 -> same s2 s3 -> same s1 s3.
Proof. intros (? & ? & ?) (? & ? & ?). repeat split; congruence. Qed.

Lemma texts_same (s s' : Store B) group : same s s' -> texts s' group = texts s group.
Proof. intros (Ho & _). unfold invariants.txtTexts. now rewrite Ho. Qed.

Lemma ready_same (s s' : Store B) group :
  same s s' -> Forall (ready s) group -> Forall (ready s') group.
Proof.
  intros (Ho & _). apply List.Forall_impl. intros p (e & He & Ht). exists e. now rewrite Ho.
Qed.

(** The service appended for a TXT endpoint beyond the services. *)
Lemma grow_services dnsName (e : Endpoint) index (services : list Service) (s : Store B) :
  (index <= length services)%nat ->
  exists services1 s1,
    (if (length services <=? index)%nat then
       prefix <- readLabel (Labels e) randomPrefixLabel ;;
       prefix <- (if String.eqb prefix "" then newRandomPrefix randomPrefix else ret prefix) ;;
       ret (services ++
              [mkService "" 0 0 0 "" false (uint32 (RecordTTL e))
                 (Z.of_nat (strings.Count prefix ".") + 1) ""
                 (etcdKeyFor coreDNSPrefix (prefix ++ "." ++ dnsName))])
     else ret services) s = (returns services1, s1) /\
    same s s1 /\
    length services1 = Nat.max (length services) (S index) /\
    (forall i, (i < length services)%nat -> services1 !! i = services !! i).
Proof.
  intros Hle. destruct (Nat.leb_spec (length services) index) as [Hge|Hlt].
  - unfold bind, readLabel, ret, newRandomPrefix.
    destruct (String.eqb _ ""); simpl.
    + eexists _, _. split; [reflexivity|]. split; [now repeat split|].
      split; [rewrite length_app; simpl; lia|].
      intros i Hi. now rewrite lookup_app_l.
    + eexists _, _. split; [reflexivity|]. split; [now repeat split|].
      split; [rewrite length_app; simpl; lia|].
      intros i Hi. now rewrite lookup_app_l.
  - exists services, s. unfold ret. split; [reflexivity|].
    split; [apply same_refl|]. split; [lia|auto].
Qed.

Lemma setTXT_spec dnsName (group : list nat) : forall index services (s : Store B),
  (index <= length services)%nat -> Forall (ready s) group ->
  exists services' s',
    setTXTOf dnsName group index services s
      = (returns ((index + length (texts s group))%nat, services'), s') /\
    same s s' /\
    length services' = Nat.max (length services) (index + length (texts s group)) /\
    (forall i, (i < index)%nat -> services' !! i = services !! i) /\
    (forall i text, texts s group !! i = Some text ->
       exists svc, services' !! (index + i)%nat = Some svc /\ Text svc = text) /\
    (forall i, (index + length (texts s group) <= i)%nat ->
       services' !! i = services !! i) /\
    (forall i old, services !! i = Some old ->
       exists svc, services' !! i = Some svc /\ svc = set_Text (Text svc) old).
Proof.
  induction group as [|p rest IH]; intros index services s Hle Hready.
  - exists services, s. simpl. rewrite Nat.add_0_r. unfold ret.
    split; [reflexivity|]. split; [apply same_refl|]. split; [lia|].
    split; [auto|]. split; [intros i text H; discriminate|]. split; [auto|].
    intros i old H. exists old. split; [exact H|]. now destruct old.
  - inversion Hready as [|? ? (e & He & Htxt) Hrest]; subst.
    cbn [setTXT]. unfold bind at 1. unfold load at 1. rewrite He.
    assert (Htexts : texts s (p :: rest)
                     = (if String.eqb (RecordType e) RecordTypeTXT
                        then take 1 (Targets e) else []) ++ texts s rest).
    { unfold invariants.txtTexts. simpl. now rewrite He. }
    rewrite Htexts.
    destruct (String.eqb_spec (RecordType e) RecordTypeTXT) as [Hty|Hty]; cbn [negb].
    + destruct (Targets e) as [|target targets] eqn:Htargets; [now elim (Htxt Hty)|].
      destruct (grow_services dnsName e index services s Hle)
        as (services1 & s1 & Hgrow & Hsame1 & Hlen1 & Hkeep1).
      unfold bind at 1.
      rewrite Hgrow.
      destruct (lookup_lt_is_Some_2 services1 index) as [service Hservice]; [lia|].
      rewrite Hservice.
      destruct (IH (S index) (<[index := set_Text target service]> services1) s1)
        as (services' & s' & Hrun & Hsame & Hlen & Hlow & Htext & Hhigh & Hold).
      { rewrite length_insert. lia. }
      { now apply (ready_same s). }
      rewrite (texts_same s s1 rest Hsame1) in Hrun, Hlen, Htext, Hhigh.
      exists services', s'. simpl length.
      replace (index + S (length (texts s rest)))%nat
        with (S index + length (texts s rest))%nat by lia.
      split; [exact Hrun|]. split; [now apply (same_trans s s1)|].
      split; [rewrite Hlen, length_insert; lia|].
      split.
      { intros i Hi. rewrite Hlow by lia.
        rewrite list_lookup_insert_ne by lia. apply Hkeep1. lia. }
      split.
      { intros [|i] text Hi.
        - injection Hi as <-. exists (set_Text target service).
          rewrite Nat.add_0_r, Hlow by lia.
          rewrite list_lookup_insert_eq by lia. auto.
        - simpl in Hi. destruct (Htext i text Hi) as (svc & Hsvc & Ht).
          exists svc. now rewrite Nat.add_succ_r. }
      split.
      { intros i Hi. rewrite Hhigh by lia.
        rewrite list_lookup_insert_ne by lia.
        destruct (Nat.lt_ge_cases i (length services)) as [Hin|Hout];
          [now apply Hkeep1|].
        rewrite (lookup_ge_None_2 services) by lia.
        apply lookup_ge_None_2. lia. }
      intros i old Hi.
      assert (Hin : (i < length services)%nat) by (apply lookup_lt_is_Some; eauto).
      assert (H2 : exists svc2,
                 <[index := set_Text target service]> services1 !! i = Some svc2 /\
                 svc2 = set_Text (Text svc2) old).
      { destruct (Nat.eq_dec i index) as [->|Hne].
        - exists (set_Text target service).
          rewrite list_lookup_insert_eq by lia. split; [reflexivity|].
          rewrite Hkeep1 in Hservice by lia. now replace service with old by congruence.
        - exists old. rewrite list_lookup_insert_ne by lia.
          rewrite Hkeep1 by lia. split; [exact Hi|now destruct old]. }
      destruct H2 as (svc2 & Hsvc2 & Heq2).
      destruct (Hold i svc2 Hsvc2) as (svc & Hsvc & Heq).
      exists svc. split; [exact Hsvc|]. rewrite Heq, Heq2. reflexivity.
    + destruct (IH index services s Hle Hrest) as (services' & s' & Hrun & Hrest').
      exists services', s'. simpl. split; [exact Hrun|exact Hrest'].
Qed.

(** X21. updateTXTRecords pairs the TXT endpoints of a group with the
    services, in their order: the i-th TXT endpoint's first target becomes
    the Text of the i-th service, a service being appended for each TXT
    endpoint beyond the services.  When the group has a TXT endpoint, the
    Text of every service after the paired ones is cleared; when it has
    none, the services are returned as they are.  The services keep their
    other fields, and the memory but for the random draws is untouched. *)
Theorem coredns_txt_records_are_paired_in_order dnsName (group : list nat)
    (services : list Service) (s : Store B) :
  Forall (invariants.txtReady s) group ->
  exists result s',
    updateTXTRecords randomPrefix coreDNSPrefix dnsName group services s
      = (returns result, s') /\
    invariants.sameMemory s s' /\
    length result = Nat.max (length services) (length (invariants.txtTexts s group)) /\
    (invariants.txtTexts s group = [] -> result = services) /\
    (forall i text, invariants.txtTexts s group !! i = Some text ->
       exists svc, result !! i = Some svc /\ Text svc = text) /\
    (forall i svc, invariants.txtTexts s group <> [] ->
       (length (invariants.txtTexts s group) <= i)%nat ->
       result !! i = Some svc -> Text svc = "") /\
    (forall i old, services !! i = Some old ->
       exists svc, result !! i = Some svc /\ svc = set_Text (Text svc) old).
Proof.
  intros Hready.
  destruct (setTXT_spec dnsName group 0 services s (Nat.le_0_l _) Hready)
    as (services' & s' & Hrun & Hsame & Hlen & _ & Htext & Hhigh & Hold).
  simpl in Hrun, Hlen, Htext, Hhigh.
  set (t := length (invariants.txtTexts s group)) in *.
  exists (clearTXT t services'), s'.
  split; [unfold updateTXTRecords, bind; now rewrite Hrun|].
  split; [exact Hsame|].
  assert (Hclear : forall i,
            clearTXT t services' !! i =
            if (0 <? t)%nat && (t <=? i)%nat then set_Text "" <$> services' !! i
            else services' !! i).
  { intros i. unfold clearTXT. destruct (Nat.ltb_spec 0 t) as [Hpos|Hzero]; [|reflexivity].
    simpl. destruct (Nat.leb_spec t i) as [Hge|Hlt].
    - rewrite lookup_app_r by (rewrite length_take; lia).
      rewrite lookup_map, lookup_drop, length_take. f_equal. f_equal. lia.
    - rewrite lookup_app_l by (rewrite length_take; lia).
      now rewrite lookup_take_lt. }
  split.
  { unfold clearTXT. destruct (0 <? t)%nat; [|exact Hlen].
    rewrite length_app, length_map, length_take, length_drop. lia. }
  split.
  { intros Hnil. unfold clearTXT. subst t. rewrite Hnil. simpl.
    apply list_eq. intros i. apply Hhigh. rewrite Hnil. simpl. lia. }
  split.
  { intros i text Hi. destruct (Htext i text Hi) as (svc & Hsvc & Ht).
    exists svc. split; [|exact Ht]. rewrite Hclear.
    assert (Hlt : (i < t)%nat) by (apply lookup_lt_is_Some; eauto).
    destruct (Nat.leb_spec t i) as [Hge|_]; [lia|].
    now rewrite andb_false_r. }
  split.
  { intros i svc Hne Hge. rewrite Hclear.
    assert (Hpos : (0 < t)%nat).
    { subst t. destruct (invariants.txtTexts s group); [contradiction|simpl; lia]. }
    destruct (Nat.ltb_spec 0 t) as [_|Hz]; [|lia].
    destruct (Nat.leb_spec t i) as [_|Hlt]; [|lia]. simpl.
    destruct (services' !! i) as [svc'|]; [|discriminate].
    now intros [= <-]. }
  intros i old Hi. destruct (Hold i old Hi) as (svc & Hsvc & Heq).
  rewrite Hclear, Hsvc.
  destruct ((0 <? t)%nat && (t <=? i)%nat); simpl.
  - exists (set_Text "" svc). split; [reflexivity|]. now rewrite Heq.
  - exists svc. auto.
Qed.

End TXT.

Lemma coredns_txt_records_are_paired_in_order_witness :
  exists result s',
    updateTXTRecords examples.prefixOfDraw "/skydns/" "www.example.com" [0%nat; 1%nat]
      [examples.service "1.1.1.1" "" "/skydns/com/example/www/0a1b2c3d"] examples.txtStore
      = (returns result, s') /\
    invariants.sameMemory examples.txtStore s' /\
    length result
      = Nat.max 1 (length (invariants.txtTexts examples.txtStore [0%nat; 1%nat])) /\
    (invariants.txtTexts examples.txtStore [0%nat; 1%nat] = [] ->
     result = [examples.service "1.1.1.1" "" "/skydns/com/example/www/0a1b2c3d"]) /\
    (forall i text, invariants.txtTexts examples.txtStore [0%nat; 1%nat] !! i = Some text ->
       exists svc, result !! i = Some svc /\ Text svc = text) /\
    (forall i svc, invariants.txtTexts examples.txtStore [0%nat; 1%nat] <> [] ->
       (length (invariants.txtTexts examples.txtStore [0%nat; 1%nat]) <= i)%nat ->
       result !! i = Some svc -> Text svc = "") /\
    (forall i old,
       [examples.service "1.1.1.1" "" "/skydns/com/example/www/0a1b2c3d"] !! i = Some old ->
       exists svc, result !! i = Some svc /\ svc = set_Text (Text svc) old).
Proof.
  apply (coredns_txt_records_are_paired_in_order examples.prefixOfDraw "/skydns/"
           "www.example.com" [0%nat; 1%nat]
           [examples.service "1.1.1.1" "" "/skydns/com/example/www/0a1b2c3d"]
           examples.txtStore).
  repeat constructor.
  - eexists. split; [reflexivity|]. discriminate.
  - eexists. split; [reflexivity|]. discriminate.
Defined.

End coredns_txt.

(** ** CoreDNS: an endpoint whose targets are known *)

Module coredns_settled.

Import endpoint go coredns.

Local Open Scope list_scope.

Lemma findLabelInTargets_In (targets : list string) (label : string) :
  snd (findLabelInTargets targets label) = true <-> In label targets.
Proof.
  induction targets as [|target rest IH]; simpl; [split; [discriminate|contradiction]|].
  destruct (String.eqb_spec target label) as [->|Hne]; simpl.
  - split; auto.
  - rewrite IH. split; [auto|]. intros [H|H]; [contradiction|exact H].
Qed.

Section Settled.

Context {B : Type}.
Variable randomPrefix : nat -> string.
Variable rangeLabels : gmap string string -> list (string * string).
Variable dryRun : bool.
Variable coreDNSPrefix : string.
Variable client : coreDNSClient B.

Abbreviation serviceOf := (@invariants.serviceOf B coreDNSPrefix).
Abbreviation known := (@invariants.known B).

Lemma writeLabel_known (s : Store B) m key value :
  labelsAt s m !! key = Some value -> writeLabel m key value s = (returns tt, s).
Proof.
  unfold labelsAt, writeLabel. intros H.
  destruct (labelMaps s !! m) as [labels|] eqn:Hm; simpl in H;
    [|rewrite lookup_empty in H; discriminate].
  rewrite (insert_id labels key value H), (list_insert_id _ _ _ Hm).
  now destruct s.
Qed.

Lemma servicesForTargets_known dnsName (e : Endpoint) (targets : list string) :
  forall services (s : Store B),
  Forall (known s e) targets ->
  servicesForTargets randomPrefix coreDNSPrefix dnsName e targets services s
  = (returns (services ++ map (serviceOf s dnsName e) targets), s).
Proof.
  induction targets as [|target rest IH]; intros services s Hknown; simpl.
  - unfold ret. now rewrite app_nil_r.
  - inversion Hknown as [|? ? (prefix & Hp & Hne) Hrest]; subst.
    unfold bind at 1. unfold readLabel at 1. rewrite Hp. simpl.
    destruct (String.eqb_spec prefix "") as [Heq|_]; [contradiction|].
    unfold bind at 1. unfold ret at 1.
    unfold bind at 1. unfold readLabel at 1.
    unfold bind at 1. rewrite (writeLabel_known s (Labels e) target prefix Hp).
    rewrite IH by exact Hrest.
    unfold invariants.serviceOf at 2. rewrite Hp. simpl. now rewrite <- app_assoc.
Qed.

Lemma forEachErr_skip {S X} (body : X -> M S (option error)) (l : list X) (s : S) :
  (forall x, In x l -> body x s = (returns None, s)) ->
  forEachErr body l s = (returns None, s).
Proof.
  induction l as [|x l IH]; simpl; intros H; [reflexivity|].
  unfold bind. rewrite (H x (or_introl eq_refl)).
  apply IH. intros y Hy. apply H. now right.
Qed.

(** X22. For an endpoint whose every target has a prefix in its labels, and
    whose labels are those targets and the reserved labels only,
    createServicesForEndpoint touches nothing: it draws no random prefix,
    leaves the labels as they are, deletes no key, dry run or not, and
    returns one service per target under the key of the target's stored
    prefix.  The key of a target is stable from one run to the next. *)
Theorem coredns_settled_endpoint_keeps_its_keys dnsName (ep : nat) (e : Endpoint)
    (s : Store B) :
  objects s !! ep = Some e ->
  Forall (known s e) (Targets e) ->
  (forall label prefix, In (label, prefix) (rangeLabels (labelsAt s (Labels e))) ->
     shouldSkipLabel label = true \/ In label (Targets e)) ->
  createServicesForEndpoint randomPrefix rangeLabels dryRun coreDNSPrefix client dnsName ep s
  = (returns (inr (map (serviceOf s dnsName e) (Targets e))), s).
Proof.
  intros Hep Hknown Hlabels. unfold createServicesForEndpoint.
  unfold bind at 1. unfold load at 1. rewrite Hep.
  unfold bind at 1. rewrite (servicesForTargets_known dnsName e (Targets e) [] s Hknown).
  unfold bind at 1. unfold get at 1.
  unfold bind at 1. rewrite forEachErr_skip; [reflexivity|].
  intros [label prefix] Hin. unfold cleanLabel.
  destruct (Hlabels label prefix Hin) as [Hskip|Htarget].
  - now rewrite Hskip.
  - destruct (shouldSkipLabel label); [reflexivity|].
    apply findLabelInTargets_In in Htarget. now rewrite Htarget.
Qed.

End Settled.

Lemma coredns_settled_endpoint_keeps_its_keys_witness :
  createServicesForEndpoint examples.prefixOfDraw map_to_list false "/skydns/"
    examples.corednsMock "www.example.com" 1%nat examples.sampleStore
  = (returns
       (inr (map (invariants.serviceOf "/skydns/" examples.sampleStore "www.example.com"
                    (mkEndpoint "www.example.com" ["2.2.2.2"] "A" "" 30 1%nat))
                 ["2.2.2.2"])),
     examples.sampleStore).
Proof.
  apply (coredns_settled_endpoint_keeps_its_keys examples.prefixOfDraw map_to_list false
           "/skydns/" examples.corednsMock "www.example.com" 1%nat
           (mkEndpoint "www.example.com" ["2.2.2.2"] "A" "" 30 1%nat)
           examples.sampleStore).
  - reflexivity.
  - repeat constructor. exists "0a1b2c3d". split; [reflexivity|discriminate].
  - intros label prefix Hin. apply list_elem_of_In, elem_of_map_to_list in Hin.
    match type of Hin with
    | ?m !! _ = _ =>
        change m with (<["2.2.2.2" := "0a1b2c3d"]>
                         (<["prefix" := "0a1b2c3d"]> (∅ : gmap string string))) in Hin
    end.
    destruct (String.eqb_spec label "2.2.2.2") as [->|Hne]; [right; now left|].
    rewrite lookup_insert_ne in Hin by congruence.
    destruct (String.eqb_spec label "prefix") as [->|Hne']; [left; reflexivity|].
    rewrite lookup_insert_ne in Hin by congruence.
    rewrite lookup_empty in Hin. discriminate.
Defined.

End coredns_settled.

(** ** The ingress source: targets, hosts and classes *)

Module ingress_facts.

Import endpoint source.

Local Open Scope list_scope.

Lemma targetsFromIngressStatus_loop_flat (lbs : list IngressLoadBalancerIngress) :
  forall targets,
  targetsFromIngressStatus_loop lbs targets =
  targets ++ flat_map (fun lb => List.filter invariants.nonEmpty [IP lb; Hostname lb]) lbs.
Proof.
  induction lbs as [|lb rest IH]; intros targets; simpl.
  - now rewrite app_nil_r.
  - rewrite IH. unfold invariants.nonEmpty.
    destruct (String.eqb (IP lb) ""), (String.eqb (Hostname lb) ""); simpl;
      now rewrite <- ?app_assoc.
Qed.

(** X23. The targets taken from the status of an ingress are the addresses
    and the hostnames of its load balancer entries that are not empty, in
    the order of the entries, the address of an entry before its hostname:
    an empty string is never a target. *)
Theorem ingress_status_targets_are_never_empty (status : list IngressLoadBalancerIngress) :
  targetsFromIngressStatus status =
    flat_map (fun lb => List.filter invariants.nonEmpty [IP lb; Hostname lb]) status /\
  ~ In "" (targetsFromIngressStatus status) /\
  forall t, In t (targetsFromIngressStatus status) <->
            t <> "" /\ exists lb, In lb status /\ (IP lb = t \/ Hostname lb = t).
Proof.
  unfold targetsFromIngressStatus. rewrite targetsFromIngressStatus_loop_flat. simpl.
  assert (Hin : forall t,
            In t (flat_map (fun lb => List.filter invariants.nonEmpty [IP lb; Hostname lb])
                           status) <->
            t <> "" /\ exists lb, In lb status /\ (IP lb = t \/ Hostname lb = t)).
  { intros t. rewrite in_flat_map. split.
    - intros (lb & Hlb & Ht). apply filter_In in Ht as [Ht Hne].
      unfold invariants.nonEmpty in Hne. apply negb_true_iff, String.eqb_neq in Hne.
      split; [exact Hne|]. exists lb. split; [exact Hlb|].
      destruct Ht as [Ht|[Ht|[]]]; auto.
    - intros (Hne & lb & Hlb & Ht). exists lb. split; [exact Hlb|].
      apply filter_In. split.
      + destruct Ht as [Ht|Ht]; [left|right; left]; exact Ht.
      + unfold invariants.nonEmpty. now apply negb_true_iff, String.eqb_neq. }
  split; [reflexivity|]. split; [|exact Hin].
  intros H. apply Hin in H as [Hne _]. now apply Hne.
Qed.

Section FromIngress.

Context {ProviderSpecific : Type}.
Variable TTLFromAnnotations : gmap string string -> string -> Z.
Variable TargetsFromTargetAnnotation : gmap string string -> list string.
Variable ProviderSpecificAnnotations : gmap string string -> ProviderSpecific * string.
Variable HostnamesFromAnnotations : gmap string string -> list string.
Variable EndpointsForHostname :
  string -> list string -> Z -> ProviderSpecific -> string -> string -> list Endpoint.
Variable ingressHostnameSourceKey : string.
Variable ToLower : string -> string.

Abbreviation fromIngress :=
  (endpointsFromIngress TTLFromAnnotations TargetsFromTargetAnnotation
     ProviderSpecificAnnotations HostnamesFromAnnotations EndpointsForHostname
     ingressHostnameSourceKey ToLower).

Abbreviation forHostnameOf :=
  (invariants.forHostnameOf TTLFromAnnotations TargetsFromTargetAnnotation
     ProviderSpecificAnnotations EndpointsForHostname).

Lemma rulesEndpoints_flat (f : string -> list Endpoint) (rules : list IngressRule) :
  forall acc,
  rulesEndpoints f rules acc
  = acc ++ flat_map f (List.filter invariants.nonEmpty (map Host rules)).
Proof.
  induction rules as [|rule rest IH]; intros acc; simpl.
  - now rewrite app_nil_r.
  - unfold invariants.nonEmpty at 1.
    destruct (String.eqb (Host rule) ""); simpl; rewrite IH; [reflexivity|].
    now rewrite <- app_assoc.
Qed.

Lemma hostsEndpoints_flat (f : string -> list Endpoint) (hosts : list string) :
  forall acc,
  hostsEndpoints f hosts acc = acc ++ flat_map f (List.filter invariants.nonEmpty hosts).
Proof.
  induction hosts as [|host rest IH]; intros acc; simpl.
  - now rewrite app_nil_r.
  - unfold invariants.nonEmpty at 1.
    destruct (String.eqb host ""); simpl; rewrite IH; [reflexivity|].
    now rewrite <- app_assoc.
Qed.

Lemma tlsEndpoints_flat (f : string -> list Endpoint) (tlss : list IngressTLS) :
  forall acc,
  tlsEndpoints f tlss acc
  = acc ++ flat_map f (List.filter invariants.nonEmpty (concat (map Hosts tlss))).
Proof.
  induction tlss as [|tls rest IH]; intros acc; simpl.
  - now rewrite app_nil_r.
  - rewrite IH, hostsEndpoints_flat, List.filter_app, flat_map_app.
    now rewrite <- app_assoc.
Qed.

Lemma hostnamesEndpoints_flat (f : string -> list Endpoint) (hostnames : list string) :
  forall acc, hostnamesEndpoints f hostnames acc = acc ++ flat_map f hostnames.
Proof.
  induction hostnames as [|hostname rest IH]; intros acc; simpl.
  - now rewrite app_nil_r.
  - rewrite IH. now rewrite <- app_assoc.
Qed.

(** X24. The endpoints of an ingress are those of its defined hosts (the
    hosts of its rules and of its TLS sections that are not empty, unless
    ignored) followed by those of the hostnames of its annotations (unless
    ignored).  The hostname-source annotation selects among them: the
    value [defined-hosts-only] keeps the first, [annotation-only] the
    second, in any letter case, and any other value leaves no endpoint at
    all. *)
Theorem ingress_hostname_source_selects_the_endpoints (ing : Ingress)
    (ignoreHostnameAnnotation ignoreIngressTLSSpec ignoreIngressRulesSpec : bool) :
  let defined :=
    flat_map (forHostnameOf ing)
      (invariants.definedHosts ing ignoreIngressTLSSpec ignoreIngressRulesSpec) in
  let annotated :=
    if ignoreHostnameAnnotation then []
    else flat_map (forHostnameOf ing) (HostnamesFromAnnotations (Annotations ing)) in
  let result :=
    fromIngress ing ignoreHostnameAnnotation ignoreIngressTLSSpec ignoreIngressRulesSpec in
  (Annotations ing !! ingressHostnameSourceKey = None -> result = defined ++ annotated) /\
  (forall value, Annotations ing !! ingressHostnameSourceKey = Some value ->
     (ToLower value = "defined-hosts-only" -> result = defined) /\
     (ToLower value = "annotation-only" -> result = annotated) /\
     (ToLower value <> "defined-hosts-only" -> ToLower value <> "annotation-only" ->
      result = [])).
Proof.
  intros defined annotated result.
  assert (Hshape : result =
            match Annotations ing !! ingressHostnameSourceKey with
            | None => defined ++ annotated
            | Some value =>
                (if String.eqb (ToLower value) "defined-hosts-only" then defined else [])
                ++ (if String.eqb (ToLower value) "annotation-only" then annotated else [])
            end).
  { subst result defined annotated.
    unfold endpointsFromIngress, invariants.forHostnameOf, invariants.definedHosts.
    destruct (ProviderSpecificAnnotations (Annotations ing)) as [ps setId]. simpl fst. simpl snd.
    unfold IngressHostnameSourceDefinedHostsOnlyValue,
      IngressHostnameSourceAnnotationOnlyValue.
    rewrite flat_map_app.
    destruct ignoreIngressRulesSpec, ignoreIngressTLSSpec, ignoreHostnameAnnotation;
      cbn [negb]; rewrite ?tlsEndpoints_flat, ?rulesEndpoints_flat,
                          ?hostnamesEndpoints_flat; simpl;
      destruct (Annotations ing !! ingressHostnameSourceKey) as [value|];
      try reflexivity;
      repeat match goal with
             | |- context [String.eqb ?a ?b] => destruct (String.eqb a b)
             end;
      simpl; rewrite ?app_nil_r; reflexivity. }
  rewrite Hshape. split.
  - now intros ->.
  - intros value ->. repeat split.
    + intros ->. simpl. now rewrite app_nil_r.
    + intros ->. reflexivity.
    + intros H1 H2. apply String.eqb_neq in H1, H2. now rewrite H1, H2.
Qed.

End FromIngress.

Lemma ingress_hostname_source_selects_the_endpoints_witness :
  endpointsFromIngress (fun _ _ => 0) (fun _ => []) (fun _ => (tt, ""))
    (fun _ => ["alias.example.com"]) examples.endpointsForHostname
    "external-dns.alpha.kubernetes.io/ingress-hostname-source" id
    examples.ingressExample false false false = [].
Proof.
  apply (proj2 (proj2 (proj2 (ingress_hostname_source_selects_the_endpoints
           (fun _ _ => 0) (fun _ => []) (fun _ => (tt, ""))
           (fun _ => ["alias.example.com"]) examples.endpointsForHostname
           "external-dns.alpha.kubernetes.io/ingress-hostname-source" id
           examples.ingressExample false false false) "both" eq_refl)));
    discriminate.
Defined.

Section ByClass.

Variable NewRequirement : string -> string -> list string -> error + Requirement.
Variable matchLabelSelector : list Requirement -> gmap string string -> bool.

Abbreviation ofClass := (invariants.ofClass matchLabelSelector).

Lemma classMatched_ofClass selector ingress (names : list string) :
  names <> [] ->
  classMatched matchLabelSelector selector ingress names = ofClass selector names ingress.
Proof.
  unfold invariants.ofClass. intros Hne.
  induction names as [|nameFilter rest IH]; [contradiction|]. simpl.
  destruct rest as [|next rest'].
  - simpl. destruct (Spec_IngressClassName ingress) as [className|].
    + destruct (0 <? String.length className)%nat.
      * now destruct (String.eqb nameFilter className).
      * now destruct (matchLabelSelector selector (Annotations ingress)).
    + now destruct (matchLabelSelector selector (Annotations ingress)).
  - rewrite IH by discriminate.
    destruct (Spec_IngressClassName ingress) as [className|].
    + destruct (0 <? String.length className)%nat.
      * now destruct (String.eqb nameFilter className).
      * now destruct (matchLabelSelector selector (Annotations ingress)).
    + now destruct (matchLabelSelector selector (Annotations ingress)).
Qed.

Lemma filterByIngressClass_loop_filter selector (names : list string) ingresses :
  names <> [] -> forall filteredList,
  filterByIngressClass_loop matchLabelSelector selector names ingresses filteredList
  = filteredList ++ List.filter (ofClass selector names) ingresses.
Proof.
  intros Hne. induction ingresses as [|ingress rest IH]; intros filteredList; simpl.
  - now rewrite app_nil_r.
  - rewrite (classMatched_ofClass selector ingress names Hne).
    destruct (ofClass selector names ingress); rewrite IH; [|reflexivity].
    now rewrite <- app_assoc.
Qed.

(** X25. filterByIngressClass keeps, in their order and each once, the
    ingresses of one of the required classes: an ingress with a class name
    that is not empty when that name is one of the required ones, whatever
    its annotations say, and an ingress without one when its annotations
    match the class selector.  Without required classes every ingress is
    kept, and the selector is not even built. *)
Theorem ingress_class_filter_keeps_the_required_classes {Template : Type}
    (sc : ingressSource Template) (ingresses : list Ingress) :
  (default [] (ingressClassNames Template sc) = [] ->
   filterByIngressClass NewRequirement matchLabelSelector sc ingresses = inr ingresses) /\
  (forall names classNameReq,
     ingressClassNames Template sc = Some names -> names <> [] ->
     NewRequirement IngressClassAnnotationKey "in" names = inr classNameReq ->
     filterByIngressClass NewRequirement matchLabelSelector sc ingresses
     = inr (List.filter (ofClass [classNameReq] names) ingresses)) /\
  (forall names err,
     ingressClassNames Template sc = Some names -> names <> [] ->
     NewRequirement IngressClassAnnotationKey "in" names = inl err ->
     filterByIngressClass NewRequirement matchLabelSelector sc ingresses = inl err).
Proof.
  unfold filterByIngressClass. repeat split.
  - now intros ->.
  - intros names req -> Hne Hreq. simpl.
    destruct names as [|n names]; [contradiction|]. simpl length. cbn [Nat.eqb].
    rewrite Hreq. now rewrite filterByIngressClass_loop_filter.
  - intros names err -> Hne Hreq. simpl.
    destruct names as [|n names]; [contradiction|]. simpl length. cbn [Nat.eqb].
    now rewrite Hreq.
Qed.

End ByClass.

Lemma ingress_class_filter_keeps_the_required_classes_witness :
  filterByIngressClass (fun key op values => inr (mkRequirement key op values))
    (fun _ _ => false) examples.nginxSource
    [examples.ingressExample;
     mkIngress "default" "other" ∅ (Some "traefik") [] [] []]
  = inr [examples.ingressExample].
Proof.
  apply (proj1 (proj2 (ingress_class_filter_keeps_the_required_classes
           (fun key op values => inr (mkRequirement key op values))
           (fun _ _ => false) examples.nginxSource
           [examples.ingressExample;
            mkIngress "default" "other" ∅ (Some "traefik") [] [] []]))
           ["nginx"] (mkRequirement IngressClassAnnotationKey "in" ["nginx"])).
  - reflexivity.
  - discriminate.
  - reflexivity.
Defined.

End ingress_facts.

(** ** CoreDNS: how many records are read *)

Module coredns_reading.

Import endpoint go coredns.

Local Open Scope list_scope.

Section Reading.

Context {B : Type}.
Variable domainFilter_Match : string -> bool.
Variable ParseIP : string -> bool.
Variable coreDNSPrefix : string.
Variable client : coreDNSClient B.

Abbreviation tidy := (@invariants.tidy B).
Abbreviation yield := (invariants.yield domainFilter_Match coreDNSPrefix).
Abbreviation inRange := (invariants.stripInRange coreDNSPrefix).
Abbreviation recordsOf := (@recordsOfService B domainFilter_Match ParseIP coreDNSPrefix).

Lemma findEp_tidy (slice : list nat) (dnsName : string) (s : Store B) :
  Forall (fun p => (p < length (objects s))%nat) slice ->
  exists found, findEp slice dnsName s = (returns found, s) /\
                forall p, found = Some p -> In p slice.
Proof.
  induction slice as [|item rest IH]; intros Hall; simpl.
  - exists None. split; [reflexivity|discriminate].
  - inversion Hall as [|? ? Hitem Hrest]; subst.
    destruct (lookup_lt_is_Some_2 _ _ Hitem) as [e He].
    unfold bind, load. rewrite He.
    destruct (String.eqb (DNSName e) dnsName).
    + exists (Some item). split; [reflexivity|]. intros p [= <-]. now left.
    + destruct (IH Hrest) as (found & Hfound & Hin).
      exists found. split; [exact Hfound|]. intros p Hp. right. now apply Hin.
Qed.

(** The three labels written for a host, on a map of the memory. *)
Lemma writeLabels_then {A} (k : M (Store B) A) (m : nat) (k1 v1 k2 v2 k3 v3 : string)
    (s : Store B) :
  (m < length (labelMaps s))%nat ->
  exists maps,
    (writeLabel m k1 v1 ;;; writeLabel m k2 v2 ;;; writeLabel m k3 v3 ;;; k) s
    = k (mkStore (objects s) maps (drawn s) (etcd s)) /\
    length maps = length (labelMaps s).
Proof.
  intros Hm. destruct (lookup_lt_is_Some_2 _ _ Hm) as [labels Hl].
  unfold bind, writeLabel. rewrite Hl. simpl.
  rewrite list_lookup_insert_eq by exact Hm. simpl.
  rewrite list_lookup_insert_eq by (rewrite length_insert; exact Hm).
  eexists. split; [reflexivity|]. now rewrite !length_insert.
Qed.

Lemma tidy_grow (s : Store B) (result : list nat) objs maps n b :
  tidy s result ->
  (length (labelMaps s) <= length maps)%nat ->
  (length (objects s) <= length objs)%nat ->
  Forall (fun e : Endpoint => (Labels e < length maps)%nat) objs ->
  tidy (mkStore objs maps n b) result.
Proof.
  intros [_ Hres] Hmaps Hobjs Hall. split; [exact Hall|]. simpl.
  eapply List.Forall_impl; [|exact Hres]. simpl. intros p Hp. lia.
Qed.

(** The part of the loop of Records for the host of a service. *)
Lemma host_tidy (service : Service) (dnsName prefix : string) (result : list nat)
    (s : Store B) :
  tidy s result ->
  exists result' s',
    (found <- findEp result dnsName ;;
     ep <- match found with
           | Some ep =>
               e <- load ep ;;
               store ep (set_Targets (Targets e ++ [Host service]) e) ;;;
               ret ep
           | None =>
               labels <- newLabels ;;
               new (NewEndpointWithTTL labels dnsName (guessRecordType ParseIP (Host service))
                      (TTL service) [Host service])
           end ;;
     e <- load ep ;;
     writeLabel (Labels e) "originalText" (Text service) ;;;
     writeLabel (Labels e) randomPrefixLabel prefix ;;;
     writeLabel (Labels e) (Host service) prefix ;;;
     ret (result ++ [ep])) s = (returns result', s') /\
    tidy s' result' /\ length result' = S (length result) /\ etcd s' = etcd s.
Proof.
  intros Htidy. pose proof Htidy as [Hobjs Hres].
  destruct (findEp_tidy result dnsName s Hres) as (found & Hfind & Hin).
  unfold bind at 1. rewrite Hfind.
  destruct found as [ep|].
  - assert (Hep : (ep < length (objects s))%nat).
    { rewrite List.Forall_forall in Hres. apply Hres. now apply Hin. }
    destruct (lookup_lt_is_Some_2 _ _ Hep) as [e He].
    assert (Hlab : (Labels e < length (labelMaps s))%nat).
    { rewrite List.Forall_forall in Hobjs. apply Hobjs.
      apply list_elem_of_In. eapply list_elem_of_lookup_2. exact He. }
    unfold bind at 1. unfold bind at 1. unfold load at 1. rewrite He.
    unfold bind at 1. unfold store at 1. rewrite He. unfold ret at 1.
    set (e1 := set_Targets (Targets e ++ [Host service]) e).
    set (s1 := mkStore (<[ep := e1]> (objects s)) (labelMaps s) (drawn s) (etcd s)).
    unfold bind at 1. unfold load at 1.
    assert (He1 : objects s1 !! ep = Some e1)
      by (simpl; now rewrite list_lookup_insert_eq).
    rewrite He1.
    destruct (writeLabels_then (ret (result ++ [ep])) (Labels e1) "originalText"
                (Text service) randomPrefixLabel prefix (Host service) prefix s1 Hlab)
      as (maps & Hw & Hlen).
    rewrite Hw. unfold ret.
    eexists _, _. split; [reflexivity|]. split; [|split; [|reflexivity]].
    + split; simpl.
      * rewrite Hlen. simpl. apply Forall_insert; [exact Hobjs|exact Hlab].
      * rewrite length_insert. apply Forall_app. split; [exact Hres|].
        repeat constructor. exact Hep.
    + rewrite length_app. simpl. lia.
  - unfold bind at 1. unfold bind at 1. unfold newLabels at 1. unfold new at 1. simpl.
    set (e1 := NewEndpointWithTTL (length (labelMaps s)) dnsName
                 (guessRecordType ParseIP (Host service)) (TTL service) [Host service]).
    set (s1 := mkStore (objects s ++ [e1]) (labelMaps s ++ [∅]) (drawn s) (etcd s)).
    unfold bind at 1. unfold load at 1.
    assert (He1 : objects s1 !! length (objects s) = Some e1)
      by (simpl; now apply list_lookup_middle).
    rewrite He1.
    assert (Hlab : (Labels e1 < length (labelMaps s1))%nat)
      by (simpl; rewrite length_app; simpl; lia).
    destruct (writeLabels_then (ret (result ++ [length (objects s)])) (Labels e1)
                "originalText" (Text service) randomPrefixLabel prefix (Host service)
                prefix s1 Hlab)
      as (maps & Hw & Hlen).
    rewrite Hw. unfold ret.
    eexists _, _. split; [reflexivity|]. split; [|split; [|reflexivity]].
    + split; simpl.
      * rewrite Hlen. simpl. rewrite length_app. simpl. apply Forall_app. split.
        -- eapply List.Forall_impl; [|exact Hobjs]. simpl. intros a Ha. lia.
        -- repeat constructor. simpl. lia.
      * rewrite length_app. simpl. apply Forall_app. split.
        -- eapply List.Forall_impl; [|exact Hres]. simpl. intros a Ha. lia.
        -- repeat constructor. lia.
    + rewrite length_app. simpl. lia.
Qed.

(** The part of the loop of Records for the text of a service. *)
Lemma text_tidy (dnsName text prefix : string) (result : list nat) (s : Store B) :
  tidy s result ->
  exists result' s',
    (labels <- newLabels ;;
     ep <- new (NewEndpoint labels dnsName RecordTypeTXT [text]) ;;
     writeLabel labels randomPrefixLabel prefix ;;;
     ret (result ++ [ep])) s = (returns result', s') /\
    tidy s' result' /\ length result' = S (length result) /\ etcd s' = etcd s.
Proof.
  intros [Hobjs Hres].
  unfold bind, newLabels, new, writeLabel, ret. simpl.
  rewrite (list_lookup_middle (labelMaps s) [] ∅ _ eq_refl). simpl.
  eexists _, _. split; [reflexivity|]. split; [|split; [|reflexivity]].
  - split; simpl.
    + rewrite length_insert, length_app. simpl. apply Forall_app. split.
      * eapply List.Forall_impl; [|exact Hobjs]. simpl. intros a Ha. lia.
      * repeat constructor. simpl. lia.
    + rewrite length_app. simpl. apply Forall_app. split.
      * eapply List.Forall_impl; [|exact Hres]. simpl. intros a Ha. lia.
      * repeat constructor. lia.
  - rewrite length_app. simpl. lia.
Qed.

Lemma recordsOfService_tidy (service : Service) (result : list nat) (s : Store B) :
  inRange service -> tidy s result ->
  exists result' s',
    recordsOf service result s = (returns result', s') /\
    tidy s' result' /\
    length result' = (length result + yield service)%nat /\
    etcd s' = etcd s.
Proof.
  intros [Hlow Hhigh] Htidy. unfold recordsOfService, invariants.yield.
  fold (invariants.domainsOf coreDNSPrefix service).
  destruct (Z.ltb_spec (TargetStrip service) 0) as [Hneg|_]; [lia|].
  destruct (Z.ltb_spec (Z.of_nat (length (invariants.domainsOf coreDNSPrefix service)))
              (TargetStrip service)) as [Hbig|_]; [lia|].
  cbn [orb]. fold (invariants.nameOfService coreDNSPrefix service).
  destruct (domainFilter_Match (invariants.nameOfService coreDNSPrefix service));
    cbn [negb].
  2:{ exists result, s. unfold ret. repeat split; try apply Htidy. lia. }
  unfold bind at 1.
  destruct (String.eqb (Host service) "") eqn:Hhost; cbn [negb].
  - unfold ret at 1.
    destruct (String.eqb (Text service) "") eqn:Htext; cbn [negb].
    + exists result, s. unfold ret. repeat split; try apply Htidy. lia.
    + destruct (text_tidy (invariants.nameOfService coreDNSPrefix service) (Text service)
                  (strings.Join (take (Z.to_nat (TargetStrip service))
                                      (invariants.domainsOf coreDNSPrefix service)) ".")
                  result s Htidy) as (result' & s' & Hrun & Ht & Hlen & He).
      exists result', s'. rewrite Hrun. repeat split; try apply Ht; [lia|exact He].
  - destruct (host_tidy service (invariants.nameOfService coreDNSPrefix service)
                (strings.Join (take (Z.to_nat (TargetStrip service))
                                    (invariants.domainsOf coreDNSPrefix service)) ".")
                result s Htidy) as (result1 & s1 & Hrun1 & Ht1 & Hlen1 & He1).
    rewrite Hrun1.
    destruct (String.eqb (Text service) "") eqn:Htext; cbn [negb].
    + exists result1, s1. unfold ret. repeat split; try apply Ht1; [lia|exact He1].
    + destruct (text_tidy (invariants.nameOfService coreDNSPrefix service) (Text service)
                  (strings.Join (take (Z.to_nat (TargetStrip service))
                                      (invariants.domainsOf coreDNSPrefix service)) ".")
                  result1 s1 Ht1) as (result' & s' & Hrun & Ht & Hlen & He).
      exists result', s'. rewrite Hrun. repeat split; try apply Ht; [lia|congruence].
Qed.

Lemma recordsOfServices_tidy (services : list Service) : forall result (s : Store B),
  Forall inRange services -> tidy s result ->
  exists result' s',
    recordsOfServices domainFilter_Match ParseIP coreDNSPrefix services result s
      = (returns result', s') /\
    tidy s' result' /\
    length result' = (length result + list_sum (map yield services))%nat /\
    etcd s' = etcd s.
Proof.
  induction services as [|service rest IH]; intros result s Hall Htidy.
  - exists result, s. simpl. unfold ret. repeat split; try apply Htidy. lia.
  - inversion Hall as [|? ? Hservice Hrest]; subst.
    destruct (recordsOfService_tidy service result s Hservice Htidy)
      as (result1 & s1 & Hrun1 & Ht1 & Hlen1 & He1).
    destruct (IH result1 s1 Hrest Ht1) as (result' & s' & Hrun & Ht & Hlen & He).
    exists result', s'. cbn [recordsOfServices]. unfold bind. rewrite Hrun1, Hrun.
    repeat split; try apply Ht; [simpl; lia|congruence].
Qed.

(** X26. On services whose TargetStrip is a number of labels of their key,
    and a memory in which every endpoint holds a label map, Records
    returns without a panic: one entry for each host and one for each text
    that is not empty, of the services whose name the domain filter
    accepts, every entry a live endpoint; the store behind the client is
    as GetServices left it.  A service whose TargetStrip is negative or
    exceeds the labels of its key makes Records panic (a slice bound out
    of range). *)
Theorem coredns_records_count_hosts_and_texts (services : list Service) (s : Store B)
    (b' : B) :
  GetServices client coreDNSPrefix (etcd s) = (inr services, b') ->
  invariants.tidy s [] ->
  (Forall (invariants.stripInRange coreDNSPrefix) services ->
   exists result s',
     Records domainFilter_Match ParseIP coreDNSPrefix client s = (returns (inr result), s') /\
     length result = list_sum (map (invariants.yield domainFilter_Match coreDNSPrefix) services) /\
     invariants.tidy s' result /\
     etcd s' = b') /\
  (forall service rest,
     services = service :: rest ->
     ~ invariants.stripInRange coreDNSPrefix service ->
     Records domainFilter_Match ParseIP coreDNSPrefix client s
     = (panics, mkStore (objects s) (labelMaps s) (drawn s) b')).
Proof.
  intros Hget Htidy.
  assert (Hcall : forall A (k : error + list Service -> M (Store B) A),
            (r <- call (GetServices client coreDNSPrefix) ;; k r) s
            = k (inr services) (mkStore (objects s) (labelMaps s) (drawn s) b')).
  { intros A k. unfold bind, call. now rewrite Hget. }
  unfold Records. rewrite Hcall.
  set (s0 := mkStore (objects s) (labelMaps s) (drawn s) b').
  split.
  - intros Hall.
    destruct (recordsOfServices_tidy services [] s0 Hall Htidy)
      as (result & s' & Hrun & Ht & Hlen & He).
    exists result, s'. unfold bind. rewrite Hrun. unfold ret.
    split; [reflexivity|]. split; [exact Hlen|]. split; [exact Ht|exact He].
  - intros service rest -> Hout. unfold bind. cbn [recordsOfServices]. unfold bind.
    unfold recordsOfService. fold (invariants.domainsOf coreDNSPrefix service).
    unfold invariants.stripInRange in Hout.
    destruct (Z.ltb_spec (TargetStrip service) 0) as [Hneg|Hpos]; [reflexivity|].
    destruct (Z.ltb_spec (Z.of_nat (length (invariants.domainsOf coreDNSPrefix service)))
                (TargetStrip service)) as [Hbig|Hsmall]; [reflexivity|lia].
Qed.

End Reading.

Lemma coredns_records_count_hosts_and_texts_witness :
  exists result s',
    examples.corednsRecords (mkStore [] [] 0%nat examples.twoHosts)
      = (returns (inr result), s') /\
    length result
      = list_sum (map (invariants.yield (fun _ => true) "/skydns/") examples.twoHosts) /\
    invariants.tidy s' result /\
    etcd s' = examples.twoHosts.
Proof.
  apply (proj1 (coredns_records_count_hosts_and_texts (fun _ => true) (fun _ => true)
                  "/skydns/" examples.corednsMock examples.twoHosts
                  (mkStore [] [] 0%nat examples.twoHosts) examples.twoHosts eq_refl
                  (conj (List.Forall_nil _) (List.Forall_nil _)))).
  repeat constructor; vm_compute; discriminate.
Defined.

End coredns_reading.

(** ** CoreDNS: the groups of a change set *)

Module coredns_groups.

Import endpoint go coredns.

Local Open Scope list_scope.

Section Groups.

Context {B : Type}.

Abbreviation named := (@invariants.named B).
Abbreviation live := (@invariants.live B).

Lemma appendGroup_lookup (grouped : gmap string (list nat)) (dnsName name : string) (p : nat) :
  default [] (appendGroup grouped dnsName p !! name)
  = default [] (grouped !! name) ++ (if String.eqb dnsName name then [p] else []).
Proof.
  unfold appendGroup. destruct (String.eqb_spec dnsName name) as [->|Hne].
  - now rewrite lookup_insert_eq.
  - rewrite lookup_insert_ne by exact Hne. now rewrite app_nil_r.
Qed.

Lemma appendGroup_nonempty (grouped : gmap string (list nat)) (dnsName : string) (p : nat) :
  (forall name g, grouped !! name = Some g -> g <> []) ->
  forall name g, appendGroup grouped dnsName p !! name = Some g -> g <> [].
Proof.
  intros H name g. unfold appendGroup.
  destruct (String.eqb_spec dnsName name) as [->|Hne].
  - rewrite lookup_insert_eq. intros [= <-]. now destruct (default [] _).
  - rewrite lookup_insert_ne by exact Hne. apply H.
Qed.

Lemma groupCreate_lookup (create : list nat) : forall grouped (s : Store B),
  Forall (live s) create ->
  (forall name g, grouped !! name = Some g -> g <> []) ->
  exists grouped',
    groupCreate create grouped s = (returns grouped', s) /\
    (forall name, default [] (grouped' !! name)
                  = default [] (grouped !! name) ++ List.filter (named s name) create) /\
    (forall name g, grouped' !! name = Some g -> g <> []).
Proof.
  induction create as [|p rest IH]; intros grouped s Hlive Hne; simpl.
  - exists grouped. unfold ret. split; [reflexivity|]. split; [|exact Hne].
    intros name. now rewrite app_nil_r.
  - inversion Hlive as [|? ? Hp Hrest]; subst.
    destruct (lookup_lt_is_Some_2 _ _ Hp) as [e He].
    unfold bind, load. rewrite He.
    destruct (IH (appendGroup grouped (DNSName e) p) s Hrest
                (appendGroup_nonempty grouped (DNSName e) p Hne))
      as (grouped' & Hrun & Hlookup & Hne').
    exists grouped'. split; [exact Hrun|]. split; [|exact Hne'].
    intros name. rewrite Hlookup, appendGroup_lookup.
    assert (Hp' : named s name p = String.eqb (DNSName e) name)
      by (unfold invariants.named; now rewrite He).
    cbn [List.filter]. rewrite Hp'.
    destruct (String.eqb (DNSName e) name); simpl;
      [now rewrite <- app_assoc|now rewrite app_nil_r].
Qed.

Lemma named_insert (s : Store B) (p : nat) (e e' : Endpoint) n b name q :
  objects s !! p = Some e -> DNSName e' = DNSName e ->
  named (mkStore (<[p := e']> (objects s)) (labelMaps s) n b) name q = named s name q.
Proof.
  intros He Hname. unfold invariants.named. simpl.
  destruct (Nat.eq_dec p q) as [->|Hne].
  - rewrite list_lookup_insert_eq by (apply lookup_lt_is_Some; eauto).
    now rewrite He, Hname.
  - now rewrite list_lookup_insert_ne.
Qed.

Lemma groupUpdate_lookup (update : list (nat * nat)) : forall grouped (s : Store B),
  Forall (fun u => live s (fst u) /\ live s (snd u)) update ->
  (forall name g, grouped !! name = Some g -> g <> []) ->
  exists grouped' s',
    groupUpdate update grouped s = (returns grouped', s') /\
    (forall name q, named s' name q = named s name q) /\
    length (objects s') = length (objects s) /\
    (forall name, default [] (grouped' !! name)
                  = default [] (grouped !! name)
                    ++ List.filter (named s name) (map snd update)) /\
    (forall name g, grouped' !! name = Some g -> g <> []).
Proof.
  induction update as [|[old p] rest IH]; intros grouped s Hlive Hne; simpl.
  - exists grouped, s. unfold ret. split; [reflexivity|]. split; [reflexivity|].
    split; [reflexivity|]. split; [|exact Hne]. intros name. now rewrite app_nil_r.
  - inversion Hlive as [|? ? [Hold Hp] Hrest]; subst. simpl in Hold, Hp.
    destruct (lookup_lt_is_Some_2 _ _ Hold) as [o Ho].
    destruct (lookup_lt_is_Some_2 _ _ Hp) as [e He].
    unfold bind at 1. unfold load at 1. rewrite Ho.
    unfold bind at 1. unfold load at 1. rewrite He.
    unfold bind at 1. unfold store at 1. rewrite He.
    set (s1 := mkStore (<[p := set_Labels (Labels o) e]> (objects s)) (labelMaps s)
                 (drawn s) (etcd s)).
    assert (Hnamed : forall name q, named s1 name q = named s name q).
    { intros name q. now apply (named_insert s p e). }
    destruct (IH (appendGroup grouped (DNSName e) p) s1) as
      (grouped' & s' & Hrun & Hnames & Hlen & Hlookup & Hne').
    { eapply List.Forall_impl; [|exact Hrest]. intros [a b] [Ha Hb].
      unfold invariants.live in *. simpl in *. rewrite length_insert. auto. }
    { now apply appendGroup_nonempty. }
    exists grouped', s'. split; [exact Hrun|].
    split; [intros name q; now rewrite Hnames, Hnamed|].
    split; [rewrite Hlen; simpl; now rewrite length_insert|].
    split; [|exact Hne'].
    intros name. rewrite Hlookup, appendGroup_lookup.
    rewrite (List.filter_ext _ _ (Hnamed name)).
    assert (Hp' : named s name p = String.eqb (DNSName e) name)
      by (unfold invariants.named; now rewrite He).
    cbn [List.filter]. rewrite Hp'.
    destruct (String.eqb (DNSName e) name); simpl;
      [now rewrite <- app_assoc|now rewrite app_nil_r].
Qed.

(** X27. groupEndpoints files every created endpoint and every new side of
    an update under its DNS name, and nothing else: the group of a name
    holds the created endpoints of that name, in their order, followed by
    the updated ones; no group is empty, and the names of the endpoints
    are not changed. *)
Theorem coredns_changes_are_grouped_by_name (changes : plan.Changes nat) (s : Store B) :
  Forall (invariants.live s) (plan.Create changes) ->
  Forall (fun u => invariants.live s (fst u) /\ invariants.live s (snd u))
         (plan.Update changes) ->
  exists grouped s',
    groupEndpoints changes s = (returns grouped, s') /\
    (forall name, default [] (grouped !! name)
                  = List.filter (invariants.named s name)
                      (plan.Create changes ++ plan.UpdateNew changes)) /\
    (forall name g, grouped !! name = Some g -> g <> []) /\
    (forall name q, invariants.named s' name q = invariants.named s name q).
Proof.
  intros Hc Hu. unfold groupEndpoints.
  destruct (groupCreate_lookup (plan.Create changes) ∅ s Hc)
    as (grouped0 & Hrun0 & Hlookup0 & Hne0).
  { intros name g H. rewrite lookup_empty in H. discriminate. }
  destruct (groupUpdate_lookup (plan.Update changes) grouped0 s Hu Hne0)
    as (grouped & s' & Hrun & Hnames & _ & Hlookup & Hne).
  exists grouped, s'. unfold bind. rewrite Hrun0.
  split; [exact Hrun|]. split; [|split; [exact Hne|exact Hnames]].
  intros name. rewrite Hlookup, Hlookup0, lookup_empty. simpl.
  unfold plan.UpdateNew. now rewrite List.filter_app.
Qed.

End Groups.

Lemma coredns_changes_are_grouped_by_name_witness :
  exists grouped s',
    examples.corednsGroupEndpoints examples.storeChanges examples.sampleStore
      = (returns grouped, s') /\
    (forall name, default [] (grouped !! name)
                  = List.filter (invariants.named examples.sampleStore name)
                      (plan.Create examples.storeChanges
                       ++ plan.UpdateNew examples.storeChanges)) /\
    (forall name g, grouped !! name = Some g -> g <> []) /\
    (forall name q, invariants.named s' name q = invariants.named examples.sampleStore name q).
Proof.
  apply (coredns_changes_are_grouped_by_name examples.storeChanges examples.sampleStore).
  - repeat constructor.
  - repeat constructor.
Defined.

End coredns_groups.
